(* ===== verification/_CoqProject ===== *)
-Q . S2P
Prelude.v
Mmu.v
Memory.v
Locks.v
Kalloc.v
Vm.v
VmSpec.v
VmAlloc.v
Proc0.v
Regions.v
Bytes.v
Disk.v
Fs.v
FsBlocks.v
FsInode.v
FsFile.v
FsRw.v
FsDir.v
FsPath.v
Grep.v
Kbd.v
Ring.v
Console.v
Pipe.v
Spinlock.v
Bio.v
BioSpec.v
Log.v
LogSpec.v
Pagecache.v
File.v
FileSpec.v
Kernel.v
Mmap.v
MmapSpec.v
Proc.v
Frame.v
Ptable.v
ProcSpec.v
Exec.v
Syscall.v
Trap.v
SyscallSpec.v
User.v
Sh.v
ShRun.v
ShSpec.v
Utils.v
UtilsSpec.v
Umalloc.v
UmallocSpec.v
Apic.v
Ide.v
Mkfs.v
MkfsSpec.v
