(* ===== verification/Prelude.v ===== *)
(** * A verification development for xv6-mmap

    xv6-mmap is the teaching kernel xv6 for 32-bit x86 with [mmap] and
    [munmap] added: a table of mappings in every process, pages filled on the
    first access, and a page cache behind file-backed mappings.  This library
    translates the C code of the kernel, of its user programs and of mkfs into
    executable functions over a state, one function per C function and loop,
    under the names of the source, and proves what makes it correct.

    ** How code is modelled

    This file has the monad [M S A] of kernel code over a state [S]: an
    operation returns ([Ok]), panics, puts its process to sleep, does something
    C leaves undefined, or runs out of fuel ([outcome]).  A component has its
    own state and runs inside a larger one through a [lens] ([zoom]).  Integers
    are elements of [Z]; [u32], [s32], [u8] and the like write out each
    conversion and wrap-around of the source.  Kernel memory is a finite map
    from addresses to bytes, and page tables, the free list and cached pages
    live in it.  A [Panic] or [Undef] is an outcome like any other, so a theorem
    that says that an operation returns [Ok] also says that it does not panic,
    and that no index leaves its array.

    Loops that are not structural take fuel, computed from the operands so that
    it is never the reason a loop stops: the number of pages, blocks or bytes
    left plus one, or the length of a table.  Theorems about these operations
    give the outcome itself, so [NoFuel] is excluded.

    A function that switches to another process is split where it does, since
    the CPU goes on with other code: [sleep_begin] and [sleep_end], [wait] and
    [wait_resume], [yield] and [yield_end].  In the components below the process
    table (locks, buffer cache, log, pipes), having to sleep is the outcome
    [Sleep].

    A user program is a tree of the system calls it makes ([User.v]), run
    against a model of what the calls return.

    ** Parts and files

    - Memory: [Mmu.v] (mmu.h, memlayout.h), [Memory.v] (string.c over byte
      memory), [Locks.v] (spin and sleep locks as the other parts see them),
      [Kalloc.v] (kalloc.c), [Vm.v] (vm.c), with [VmSpec.v] and [VmAlloc.v].
    - Mappings: [Proc0.v] (proc.h and mmap.h records), [Regions.v] (the table of
      mappings: my_mmap and what it calls, sys_mmap.c), [Mmap.v] (filling,
      copying and unmapping pages, and handle_page_fault of trap.c), with
      [MmapSpec.v].
    - Disk: [Bytes.v] (byte arrays), [Bio.v] (memide.c, bio.c), [Log.v] (log.c),
      with [BioSpec.v] and [LogSpec.v]; [Disk.v] is the logged disk they
      implement.
    - Files: [Fs.v] (fs.c) over [Disk.v], with [FsBlocks.v], [FsInode.v],
      [FsFile.v], [FsRw.v], [FsDir.v] and [FsPath.v]; [Pagecache.v]
      (pagecache.c); [File.v] (file.c, pipealloc) with [FileSpec.v]; [Pipe.v]
      (pipe.c).
    - Devices: [Ring.v] (ring buffers), [Kbd.v] (kbd.c), [Console.v] (console.c,
      uart.c), [Ide.v] (ide.c and the disk it drives), [Apic.v] (ioapic.c,
      picirq.c, lapic.c as the registers they write and read); [Spinlock.v]
      (spinlock.c on several CPUs).
    - Processes: [Kernel.v] (the state of the whole kernel), [Proc.v] (proc.c),
      [Exec.v] (exec.c), [Syscall.v] (syscall.c, sysproc.c, sysfile.c), [Trap.v]
      (trap.c); [Frame.v] (what operations leave alone), [Ptable.v] (scheduling
      as a transition system), [ProcSpec.v] and [SyscallSpec.v].
    - User programs: [User.v] (ulib.c, printf.c, user.h), [Umalloc.v] (umalloc.c)
      with [UmallocSpec.v]; [Grep.v] (grep.c); [Sh.v] (the parser of sh.c),
      [ShRun.v] (the rest of sh.c) with [ShSpec.v]; [Utils.v] (cat, echo, init,
      kill, ln, ls, mkdir, rm, wc, zombie) with [UtilsSpec.v].
    - The file system image: [Mkfs.v] (mkfs.c) with [MkfsSpec.v].

    ** What is shown

    - Memory: pages are never handed out twice and a client never sees the free
      list ([Kalloc.v]); mapping, growing and shrinking an address space change
      the entries they should, free or take the pages they should, and undo
      themselves when memory runs out ([VmAlloc.v]); [memmove] copies
      overlapping ranges.
    - Mappings: every [my_mmap] on a sound table, for any arguments, leaves a
      sorted table of disjoint regions with one more, or the old one, but for the
      two kinds of request that write outside the table or end up in kernel
      memory ([Regions.v]); a fault in an anonymous mapping maps one zeroed page
      and changes nothing else, and [my_munmap] frees exactly the pages of what is
      unmapped ([MmapSpec.v]).
    - Disk: buffer cache and log implement the logged disk, a commit is atomic
      under a crash between any two writes, and an operation is durable when
      [end_op] returns ([LogSpec.v]).
    - Files: [writei] and [readi] on any range, through direct and indirect
      blocks, with space accounted for; directory entries; path splitting; the
      page cache returns the bytes of the file and stays coherent with writes
      ([Pagecache.v], [FileSpec.v]); reference counts of open files; pipes are
      first in, first out and lose no wakeup; console input is a line editor.
    - Processes: the invariant of the process table holds after any sequence of
      operations of any CPUs, and after any trap with any system call, whether it
      returns or sleeps ([ProcSpec.v], [SyscallSpec.v]), by refinement of the
      transition system of [Ptable.v]; what [wait] returns; pointers that system
      calls accept lie in the memory of the process.
    - Locks: mutual exclusion of spin locks on any number of CPUs, and that on
      each of them they are the locks the other parts use ([Spinlock.v]).
    - Devices: requests to the disk driver are served in the order in which they
      were made, with the data of their blocks, errors of the disk included
      ([Ide.v]); the sequence that starts another processor, and a reading of the
      clock that is right although the clock runs on ([Apic.v]).
    - User programs: the parser of the shell returns the command a line denotes,
      stays inside the line and ends on every line; running the line performs
      what that command denotes ([ShSpec.v]); blocks from [malloc] are disjoint
      and keep their contents in any sequence of calls ([UmallocSpec.v]); wc
      counts, and numbers survive printing and reading ([UtilsSpec.v]).
    - mkfs: the image it builds satisfies the invariants that the theorems about
      the kernel's file system ask for, and the kernel reads from it the files
      that went in ([MkfsSpec.v]).
    - Errors in the code are theorems too: mappings that reach into the kernel,
      faults at the border of two mappings, unmapping twice, references to
      files never dropped, the size of log reservations, and others.

    ** What is not modelled

    Assembly, boot code (bootmain.c, main.c), the tables of processors that the
    firmware leaves (mp.c) and the initialisation of segment and interrupt
    tables: they are hardware state.  The file system runs over the memory disk
    of memide.c; the IDE driver is verified on its own.  Interrupt handlers of
    devices are parameters of [trap], device switch entries and the addresses
    the linker chooses are parameters where they are used.  Operations of one
    CPU are interleaved at the points where they give up the CPU or a lock; the
    interleaving inside a critical section is the subject of [Spinlock.v] only.
    A page fault of the kernel on user memory is undefined in the model.  What a
    system call does after it has slept on a lock, a buffer or the log is not
    followed.  Messages on the console and the acknowledgement of interrupts are
    left out of [Trap.v].  Reference counts (of files and inodes) are integers
    without bound: that an int overflows after 2^31 references, which the tables
    do not have room for but which the references that [mmap] never gives back can
    reach, is not modelled.  The logged disk of [Disk.v] is the
    one device there is, and leaves out that the buffer cache can be full or a
    block number too large; [LogSpec.v] has these as conditions.  The test
    programs are not modelled. *)

From Stdlib Require Import ZArith Lia.
From stdpp Require Import base numbers strings gmap list.

#[global] Open Scope Z_scope.
#[global] Set Default Goal Selector "!".

(** ** Outcomes and the kernel monad

    Kernel code either returns, stops the machine in [panic()], puts the
    calling process to sleep, runs into behaviour the C standard leaves
    undefined (an array index out of bounds, an uninitialised pointer), or, for
    a loop whose recursion is not structural, exhausts the fuel of the model.
    The last three carry no return value; [Sleep] keeps the state in which the
    process went to sleep. *)

Inductive outcome (S A : Type) : Type :=
| Ok (a : A) (s : S)
| Panic (msg : string)
| Sleep (chan : Z) (s : S)
| Undef (what : string)
| NoFuel.
Arguments Ok {S A} a s.
Arguments Panic {S A} msg.
Arguments Sleep {S A} chan s.
Arguments Undef {S A} what.
Arguments NoFuel {S A}.

Definition M (S A : Type) : Type := S → outcome S A.

#[global] Instance M_ret S : MRet (M S) := λ A a s, Ok a s.
#[global] Instance M_bind S : MBind (M S) := λ A B f m s,
  match m s with
  | Ok a s' => f a s'
  | Panic e => Panic e
  | Sleep c s' => Sleep c s'
  | Undef e => Undef e
  | NoFuel => NoFuel
  end.

Definition gets {S A} (f : S → A) : M S A := λ s, Ok (f s) s.
Definition modify {S} (f : S → S) : M S unit := λ s, Ok tt (f s).
Definition panic {S A} (msg : string) : M S A := λ _, Panic msg.
Definition sleep_on {S A} (chan : Z) : M S A := λ s, Sleep chan s.
Definition undef {S A} (what : string) : M S A := λ _, Undef what.
Definition nofuel {S A} : M S A := λ _, NoFuel.
Definition when {S} (b : bool) (m : M S unit) : M S unit :=
  if b then m else mret tt.

(** The part of a larger state a component owns. *)
Record lens (T S : Type) : Type := Lens {
  lget : T → S;
  lset : S → T → T;
}.
Arguments Lens {T S} _ _.
Arguments lget {T S} _ _.
Arguments lset {T S} _ _ _.

Definition lcomp {T S A} (l : lens T S) (k : lens S A) : lens T A :=
  Lens (λ t, lget k (lget l t)) (λ a t, lset l (lset k a (lget l t)) t).

(** Run an operation of a component inside a larger state. *)
Definition zoom {T S A} (l : lens T S) (m : M S A) : M T A := λ t,
  match m (lget l t) with
  | Ok a s' => Ok a (lset l s' t)
  | Panic e => Panic e
  | Sleep c s' => Sleep c (lset l s' t)
  | Undef e => Undef e
  | NoFuel => NoFuel
  end.

(** *** Reasoning about monadic code *)

Section monad.
Context {S : Type}.

Lemma bind_ok {A B} (m : M S A) (f : A → M S B) s a s' :
  m s = Ok a s' → (m ≫= f) s = f a s'.
Proof. intros H. unfold mbind, M_bind. by rewrite H. Qed.

Lemma bind_inv {A B} (m : M S A) (f : A → M S B) s b s'' :
  (m ≫= f) s = Ok b s'' → ∃ a s', m s = Ok a s' ∧ f a s' = Ok b s''.
Proof. unfold mbind, M_bind. destruct (m s); naive_solver. Qed.

Lemma bind_panic {A B} (m : M S A) (f : A → M S B) s e :
  m s = Panic e → (m ≫= f) s = Panic e.
Proof. intros H. unfold mbind, M_bind. by rewrite H. Qed.

Lemma bind_undef {A B} (m : M S A) (f : A → M S B) s e :
  m s = Undef e → (m ≫= f) s = Undef e.
Proof. intros H. unfold mbind, M_bind. by rewrite H. Qed.
Lemma bind_nofuel {A B} (m : M S A) (f : A → M S B) s :
  m s = NoFuel → (m ≫= f) s = NoFuel.
Proof. intros H. unfold mbind, M_bind. by rewrite H. Qed.

Lemma bind_assoc {A B C} (m : M S A) (f : A → M S B) (g : B → M S C) s :
  ((m ≫= f) ≫= g) s = (m ≫= (λ x, f x ≫= g)) s.
Proof. unfold mbind, M_bind. by destruct (m s). Qed.

Lemma modify_inv (f : S → S) s s' : modify f s = Ok tt s' → s' = f s.
Proof. by intros [= ->]. Qed.

Lemma mret_inv {A} (a b : A) (s s' : S) : (mret a : M S A) s = Ok b s' → b = a ∧ s' = s.
Proof. by intros [= -> ->]. Qed.

Lemma zoom_ok {T A} (l : lens T S) (m : M S A) t a s' :
  m (lget l t) = Ok a s' → zoom l m t = Ok a (lset l s' t).
Proof. intros H. unfold zoom. by rewrite H. Qed.
End monad.

(** Run the first monadic step of the goal, whose result is given by the
    equation [H] (or found by computation). *)
Tactic Notation "mstep" uconstr(H) := rewrite (bind_ok _ _ _ _ _ H).
Tactic Notation "mstep" "by" tactic3(t) := erewrite bind_ok; [|t].
Ltac mrun :=
  repeat (erewrite bind_ok; [|reflexivity]); cbn beta.
(** Split a hypothesis about a monadic run that returned. *)
Tactic Notation "minv" hyp(H) "as" simple_intropattern(p) :=
  apply bind_inv in H; destruct H as p.

(** ** Machine integers

    [uint], [int], [ushort], [short] and [uchar] values are integers kept in
    the range of their type by the conversions below.  Signed overflow wraps
    around in two's complement. *)

Definition u32 (x : Z) : Z := x mod 4294967296.
Definition s32 (x : Z) : Z := (x + 2147483648) mod 4294967296 - 2147483648.
Definition u16 (x : Z) : Z := x mod 65536.
Definition s16 (x : Z) : Z := (x + 32768) mod 65536 - 32768.
Definition u8 (x : Z) : Z := x mod 256.
Definition s8 (x : Z) : Z := (x + 128) mod 256 - 128.

(** C truth values. *)
Definition nz (x : Z) : bool := negb (x =? 0).
Definition b2z (b : bool) : Z := if b then 1 else 0.

(** Linear arithmetic with division and remainder by constants. *)
Ltac zlia := Z.div_mod_to_equations; lia.
Ltac ulia := unfold u32, s32, u16, s16, u8, s8 in *; Z.div_mod_to_equations; lia.

Lemma u32_range x : 0 ≤ u32 x < 4294967296.
Proof. ulia. Qed.
Lemma s32_range x : -2147483648 ≤ s32 x < 2147483648.
Proof. ulia. Qed.
Lemma u32_small x : 0 ≤ x < 4294967296 → u32 x = x.
Proof. apply Z.mod_small. Qed.
Lemma s32_small x : -2147483648 ≤ x < 2147483648 → s32 x = x.
Proof. ulia. Qed.
Lemma u32_u32 x : u32 (u32 x) = u32 x.
Proof. apply u32_small, u32_range. Qed.
Lemma u32_s32 x : u32 (s32 x) = u32 x.
Proof. ulia. Qed.
Lemma s32_u32 x : s32 (u32 x) = s32 x.
Proof. ulia. Qed.
Lemma u8_range x : 0 ≤ u8 x < 256.
Proof. ulia. Qed.
Lemma u8_small x : 0 ≤ x < 256 → u8 x = x.
Proof. apply Z.mod_small. Qed.
Lemma u8_u8 x : u8 (u8 x) = u8 x.
Proof. apply u8_small, u8_range. Qed.

(** ** Hint databases of the development *)

Create HintDb xv6 discriminated.
Create Rewrite HintDb xv6.
#[export] Hint Resolve u32_range s32_range u8_range : xv6.
#[export] Hint Rewrite u32_u32 u32_s32 s32_u32 u8_u8 : xv6.

(** ** Generic lemmas *)

(** Masking with a power-of-two alignment clears the low bits. *)
Lemma land_low x k : 0 ≤ k → Z.land x (Z.ones k) = x mod 2 ^ k.
Proof. apply Z.land_ones. Qed.

Lemma land_high x k : 0 ≤ k → Z.land x (Z.lnot (Z.ones k)) = x - x mod 2 ^ k.
Proof.
  intros Hk. rewrite <-Z.ldiff_land, Z.ldiff_ones_r by done.
  rewrite Z.shiftl_mul_pow2, Z.shiftr_div_pow2 by done.
  pose proof (Z.div_mod x (2 ^ k)). lia.
Qed.

(** A multiple of [2^k] or-ed with smaller flags is their sum. *)
Lemma lor_disjoint_add a b k :
  0 ≤ k → a mod 2 ^ k = 0 → 0 ≤ b < 2 ^ k → Z.lor a b = a + b.
Proof.
  intros Hk Ha Hb. assert (Hd : Z.land a b = 0).
  { apply Z.bits_inj'. intros n Hn. rewrite Z.land_spec, Z.bits_0.
    destruct (decide (n < k)) as [Hl|Hl].
    - pose proof (Z.mod_pow2_bits_low a k n Hl) as E.
      by rewrite Ha, Z.bits_0 in E; rewrite <-E.
    - rewrite <-(Z.mod_small b (2 ^ k)) by lia.
      rewrite (Z.mod_pow2_bits_high b k n) by lia. apply andb_false_r. }
  by rewrite <-Z.lxor_lor, <-Z.add_nocarry_lxor.
Qed.
