(* ===== verification/Mmu.v ===== *)
(** * Paging constants and address arithmetic

    The macros of [mmu.h] and [memlayout.h] (page rounding, the three-part
    structure of a linear address, page-table entries, the kernel's direct map)
    on 32-bit values, with their arithmetic characterisations. *)

From Stdlib Require Import ZArith Lia.
From stdpp Require Import base numbers.
From S2P Require Import Prelude.

(** ** memlayout.h *)

Definition EXTMEM : Z := 0x100000.
Definition PHYSTOP : Z := 0xE000000.
Definition DEVSPACE : Z := 0xFE000000.
Definition KERNBASE : Z := 0x80000000.
Definition KERNLINK : Z := KERNBASE + EXTMEM.
Definition MMAPBASE : Z := 0x60000000.

(** Kernel virtual to physical address and back. *)
Definition V2P (a : Z) : Z := u32 (u32 a - KERNBASE).
Definition P2V (a : Z) : Z := u32 (a + KERNBASE).

(** ** mmu.h *)

Definition NPDENTRIES : Z := 1024.
Definition NPTENTRIES : Z := 1024.
Definition PGSIZE : Z := 4096.
Definition PTXSHIFT : Z := 12.
Definition PDXSHIFT : Z := 22.

Definition PTE_P : Z := 1.
Definition PTE_W : Z := 2.
Definition PTE_U : Z := 4.

(** [PGROUNDUP] and [PGROUNDDOWN] at type [uint]. *)
Definition PGROUNDUP (sz : Z) : Z :=
  Z.land (u32 (sz + PGSIZE - 1)) (u32 (Z.lnot (PGSIZE - 1))).
Definition PGROUNDDOWN (a : Z) : Z :=
  Z.land (u32 a) (u32 (Z.lnot (PGSIZE - 1))).
(** [PGROUNDUP] at type [int]: the same bits, read as a signed number. *)
Definition PGROUNDUPi (sz : Z) : Z :=
  Z.land (s32 (sz + PGSIZE - 1)) (Z.lnot (PGSIZE - 1)).

Definition PDX (va : Z) : Z := Z.land (Z.shiftr (u32 va) PDXSHIFT) 0x3FF.
Definition PTX (va : Z) : Z := Z.land (Z.shiftr (u32 va) PTXSHIFT) 0x3FF.
Definition PGADDR (d t o : Z) : Z :=
  u32 (Z.lor (Z.lor (Z.shiftl d PDXSHIFT) (Z.shiftl t PTXSHIFT)) o).

Definition PTE_ADDR (pte : Z) : Z := Z.land (u32 pte) (u32 (Z.lnot 0xFFF)).
Definition PTE_FLAGS (pte : Z) : Z := Z.land (u32 pte) 0xFFF.

(** ** Arithmetic characterisations *)

(** Masking a 32-bit value with [0xFFFFF000]. *)
Lemma land_page_mask x :
  Z.land (u32 x) 0xFFFFF000 = u32 x - u32 x mod 4096.
Proof.
  change 0xFFFFF000 with (Z.land (Z.lnot (Z.ones 12)) (Z.ones 32)).
  rewrite Z.land_assoc, land_high, land_low by lia.
  change (2 ^ 12) with 4096. change (2 ^ 32) with 4294967296.
  apply Z.mod_small. ulia.
Qed.

Lemma PGROUNDUP_eq sz :
  PGROUNDUP sz = u32 (sz + 4095) - u32 (sz + 4095) mod 4096.
Proof.
  unfold PGROUNDUP, PGSIZE. change (u32 (Z.lnot (4096 - 1))) with 0xFFFFF000.
  rewrite land_page_mask. by replace (sz + 4096 - 1) with (sz + 4095) by lia.
Qed.

Lemma PGROUNDDOWN_eq a : PGROUNDDOWN a = u32 a - u32 a mod 4096.
Proof. apply land_page_mask. Qed.

Lemma PGROUNDUPi_eq sz :
  PGROUNDUPi sz = s32 (sz + 4095) - s32 (sz + 4095) mod 4096.
Proof.
  unfold PGROUNDUPi, PGSIZE. change (4096 - 1) with (Z.ones 12).
  rewrite land_high by lia. change (2 ^ 12) with 4096.
  by replace (sz + 4096 - 1) with (sz + 4095) by lia.
Qed.

Lemma PTE_ADDR_eq pte : PTE_ADDR pte = u32 pte - u32 pte mod 4096.
Proof. apply land_page_mask. Qed.

Lemma PTE_FLAGS_eq pte : PTE_FLAGS pte = u32 pte mod 4096.
Proof. unfold PTE_FLAGS. change 0xFFF with (Z.ones 12). by rewrite land_low. Qed.

Lemma PDX_eq va : 0 ≤ va < 4294967296 → PDX va = va / 4194304.
Proof.
  intros H. unfold PDX, PDXSHIFT. rewrite u32_small by done.
  change 0x3FF with (Z.ones 10). rewrite land_low, Z.shiftr_div_pow2 by lia.
  change (2 ^ 22) with 4194304. change (2 ^ 10) with 1024. zlia.
Qed.

Lemma PTX_eq va : 0 ≤ va < 4294967296 → PTX va = va / 4096 mod 1024.
Proof.
  intros H. unfold PTX, PTXSHIFT. rewrite u32_small by done.
  change 0x3FF with (Z.ones 10). by rewrite land_low, Z.shiftr_div_pow2 by lia.
Qed.

Lemma PGADDR_eq d t o :
  0 ≤ d < 1024 → 0 ≤ t < 1024 → 0 ≤ o < 4096 →
  PGADDR d t o = d * 4194304 + t * 4096 + o.
Proof.
  intros Hd Ht Ho. unfold PGADDR, PDXSHIFT, PTXSHIFT.
  rewrite !Z.shiftl_mul_pow2 by lia.
  change (2 ^ 22) with 4194304. change (2 ^ 12) with 4096.
  rewrite (lor_disjoint_add _ (t * 4096) 22); [|lia| |lia].
  - rewrite (lor_disjoint_add _ o 12); [|lia| |lia].
    + rewrite u32_small; lia.
    + change (2 ^ 12) with 4096. zlia.
  - change (2 ^ 22) with 4194304. zlia.
Qed.

Lemma PDX_range va : 0 ≤ PDX va < 1024.
Proof.
  unfold PDX. change 0x3FF with (Z.ones 10). rewrite land_low by lia.
  apply Z.mod_pos_bound. lia.
Qed.

Lemma PTX_range va : 0 ≤ PTX va < 1024.
Proof.
  unfold PTX. change 0x3FF with (Z.ones 10). rewrite land_low by lia.
  apply Z.mod_pos_bound. lia.
Qed.

(** Two linear addresses with the same indices are on the same page. *)
Lemma same_page_indices va va' :
  0 ≤ va < 4294967296 → 0 ≤ va' < 4294967296 →
  PDX va = PDX va' ∧ PTX va = PTX va' ↔ va / 4096 = va' / 4096.
Proof. intros H H'. rewrite !PDX_eq, !PTX_eq by done. zlia. Qed.

Lemma PGROUNDUP_range sz : 0 ≤ PGROUNDUP sz < 4294967296.
Proof. rewrite PGROUNDUP_eq. ulia. Qed.
Lemma PGROUNDUP_aligned sz : PGROUNDUP sz mod 4096 = 0.
Proof. rewrite PGROUNDUP_eq. ulia. Qed.
Lemma PGROUNDDOWN_range a : 0 ≤ PGROUNDDOWN a < 4294967296.
Proof. rewrite PGROUNDDOWN_eq. ulia. Qed.
Lemma PGROUNDDOWN_aligned a : PGROUNDDOWN a mod 4096 = 0.
Proof. rewrite PGROUNDDOWN_eq. ulia. Qed.
Lemma PGROUNDDOWN_id a :
  0 ≤ a < 4294967296 → a mod 4096 = 0 → PGROUNDDOWN a = a.
Proof. intros. rewrite PGROUNDDOWN_eq, u32_small; lia. Qed.
Lemma PGROUNDUP_id a :
  0 ≤ a < 4294967296 → a mod 4096 = 0 → PGROUNDUP a = a.
Proof. intros. rewrite PGROUNDUP_eq. ulia. Qed.
(** Away from the top page, rounding up gives the next page boundary. *)
Lemma PGROUNDUP_bounds sz :
  0 ≤ sz ≤ 4294963200 → sz ≤ PGROUNDUP sz < sz + 4096.
Proof. intros. rewrite PGROUNDUP_eq. ulia. Qed.

#[export] Hint Resolve PDX_range PTX_range PGROUNDUP_range PGROUNDUP_aligned
  PGROUNDDOWN_range PGROUNDDOWN_aligned : xv6.

(** The direct map is a bijection between the kernel's view of physical memory
    and physical memory. *)
Lemma V2P_P2V pa : 0 ≤ pa < PHYSTOP → V2P (P2V pa) = pa.
Proof. unfold V2P, P2V, KERNBASE, PHYSTOP. intros. ulia. Qed.
Lemma P2V_V2P v : KERNBASE ≤ v < KERNBASE + PHYSTOP → P2V (V2P v) = v.
Proof. unfold V2P, P2V, KERNBASE, PHYSTOP. intros. ulia. Qed.
Lemma V2P_eq v : KERNBASE ≤ v < 4294967296 → V2P v = v - KERNBASE.
Proof. unfold V2P, KERNBASE. intros. ulia. Qed.

(** A page-table entry built by or-ing flags into a page address gives the
    address and the flags back. *)
Lemma PTE_ADDR_lor pa fl :
  0 ≤ pa < 4294967296 → pa mod 4096 = 0 → 0 ≤ fl < 4096 →
  PTE_ADDR (Z.lor pa fl) = pa.
Proof.
  intros Hp Ha Hf. rewrite (lor_disjoint_add _ _ 12) by (try done; lia).
  rewrite PTE_ADDR_eq. ulia.
Qed.
Lemma PTE_FLAGS_lor pa fl :
  0 ≤ pa < 4294967296 → pa mod 4096 = 0 → 0 ≤ fl < 4096 →
  PTE_FLAGS (Z.lor pa fl) = fl.
Proof.
  intros Hp Ha Hf. rewrite (lor_disjoint_add _ _ 12) by (try done; lia).
  rewrite PTE_FLAGS_eq. ulia.
Qed.
