(* ===== verification/Memory.v ===== *)
(** * Byte memory and string.c

    Kernel memory is a finite map from addresses to bytes; cells never written
    hold 0.  The routines of [string.c] that move or fill memory are
    translated as they are written (a store per loop iteration, the aligned
    path of [memset] with 32-bit stores, both directions of [memmove]).  The
    string routines read their source through a function from index to byte,
    so that they apply to kernel memory and to local buffers alike. *)

From Stdlib Require Import ZArith Lia.
From stdpp Require Import base numbers gmap list.
From S2P Require Import Prelude.

(** ** Loads and stores *)

Abbreviation memory := (gmap Z Z).

Definition rd8 (m : memory) (a : Z) : Z := u8 (default 0 (m !! a)).
Definition wr8 (m : memory) (a v : Z) : memory := <[a := u8 v]> m.

Definition load32 (m : memory) (a : Z) : Z :=
  rd8 m a + 256 * rd8 m (a + 1) + 65536 * rd8 m (a + 2)
  + 16777216 * rd8 m (a + 3).
Definition store32 (m : memory) (a v : Z) : memory :=
  wr8 (wr8 (wr8 (wr8 m a v) (a + 1) (v / 256)) (a + 2) (v / 65536))
    (a + 3) (v / 16777216).

(** The [n] bytes from [a] on, and storing a list of bytes at [a]. *)
Definition rdbytes (m : memory) (a : Z) (n : nat) : list Z :=
  (λ i, rd8 m (a + Z.of_nat i)) <$> seq 0 n.
Fixpoint wrbytes (m : memory) (a : Z) (bs : list Z) : memory :=
  match bs with
  | [] => m
  | b :: bs => wrbytes (wr8 m a b) (a + 1) bs
  end.

(** ** string.c: memory *)

(** [rep stosb] and [rep stosl] (x86.h). *)
Fixpoint stosb (m : memory) (addr data : Z) (cnt : nat) : memory :=
  match cnt with
  | O => m
  | S cnt => stosb (wr8 m addr data) (addr + 1) data cnt
  end.
Fixpoint stosl (m : memory) (addr data : Z) (cnt : nat) : memory :=
  match cnt with
  | O => m
  | S cnt => stosl (store32 m addr data) (addr + 4) data cnt
  end.

Definition memset (m : memory) (dst c n : Z) : memory :=
  if (Z.rem (s32 dst) 4 =? 0) && (n mod 4 =? 0) then
    let c := Z.land c 0xFF in
    stosl m dst
      (s32 (Z.lor (Z.lor (Z.lor (Z.shiftl c 24) (Z.shiftl c 16)) (Z.shiftl c 8)) c))
      (Z.to_nat (n / 4))
  else stosb m dst c (Z.to_nat n).

Fixpoint memcmp_loop (m : memory) (s1 s2 : Z) (n : nat) : Z :=
  match n with
  | O => 0
  | S n =>
      if rd8 m s1 =? rd8 m s2 then memcmp_loop m (s1 + 1) (s2 + 1) n
      else rd8 m s1 - rd8 m s2
  end.
Definition memcmp (m : memory) (v1 v2 n : Z) : Z := memcmp_loop m v1 v2 (Z.to_nat n).

(** [while(n-- > 0) *--d = *--s;] *)
Fixpoint move_down (m : memory) (d s : Z) (n : nat) : memory :=
  match n with
  | O => m
  | S n => move_down (wr8 m (d - 1) (rd8 m (s - 1))) (d - 1) (s - 1) n
  end.
(** [while(n-- > 0) *d++ = *s++;] *)
Fixpoint move_up (m : memory) (d s : Z) (n : nat) : memory :=
  match n with
  | O => m
  | S n => move_up (wr8 m d (rd8 m s)) (d + 1) (s + 1) n
  end.
Definition memmove (m : memory) (dst src n : Z) : memory :=
  if (src <? dst) && (src + n >? dst) then
    move_down m (dst + n) (src + n) (Z.to_nat n)
  else move_up m dst src (Z.to_nat n).

(** ** string.c: strings *)

(** A C string being read: the byte at each index. *)
Definition cstr := nat → Z.
Definition cstr_of (l : list Z) : cstr := λ i, default 0 (l !! i).
Definition cstr_at (m : memory) (a : Z) : cstr := λ i, rd8 m (a + Z.of_nat i).

Fixpoint strncmp_loop (p q : cstr) (i n : nat) : Z :=
  match n with
  | O => 0
  | S n =>
      if nz (u8 (p i)) && (u8 (p i) =? u8 (q i)) then strncmp_loop p q (S i) n
      else u8 (p i) - u8 (q i)
  end.
Definition strncmp (p q : cstr) (n : nat) : Z := strncmp_loop p q 0 n.

(** The bytes [strncpy(s, t, n)] stores at [s]: the first loop copies up to and
    including a NUL, the second fills with zeros. *)
Fixpoint strncpy_loop (t : cstr) (i n : nat) : list Z :=
  match n with
  | O => []
  | S n => if nz (t i) then t i :: strncpy_loop t (S i) n else t i :: replicate n 0
  end.
Definition strncpy (t : cstr) (n : Z) : list Z := strncpy_loop t 0 (Z.to_nat n).

(** The bytes [safestrcpy(s, t, n)] stores at [s]: at most [n-1] bytes of [t], and
    a NUL. *)
Fixpoint safestrcpy_loop (t : cstr) (i n : nat) : list Z :=
  match n with
  | O => [0]
  | S n => if nz (t i) then t i :: safestrcpy_loop t (S i) n else [t i; 0]
  end.
Definition safestrcpy (t : cstr) (n : Z) : list Z :=
  if n <=? 0 then [] else safestrcpy_loop t 0 (Z.to_nat (n - 1)).

(** [strlen]: the index of the first NUL, looked for within [fuel] bytes. *)
Fixpoint strlen_loop (s : cstr) (n fuel : nat) : option Z :=
  match fuel with
  | O => None
  | S fuel => if nz (s n) then strlen_loop s (S n) fuel else Some (Z.of_nat n)
  end.
Definition strlen (s : cstr) (fuel : nat) : option Z := strlen_loop s 0 fuel.

(** ** Loads after stores *)

Lemma rd8_range m a : 0 ≤ rd8 m a < 256.
Proof. apply u8_range. Qed.

Lemma rd8_wr8 m a v b : rd8 (wr8 m a v) b = if decide (a = b) then u8 v else rd8 m b.
Proof.
  unfold rd8, wr8. rewrite lookup_insert. case_decide; simpl; [|done].
  apply u8_u8.
Qed.
Lemma rd8_wr8_eq m a v : rd8 (wr8 m a v) a = u8 v.
Proof. rewrite rd8_wr8. by rewrite decide_True. Qed.
Lemma rd8_wr8_ne m a v b : a ≠ b → rd8 (wr8 m a v) b = rd8 m b.
Proof. intros. rewrite rd8_wr8. by rewrite decide_False. Qed.

Lemma load32_range m a : 0 ≤ load32 m a < 4294967296.
Proof.
  unfold load32. pose proof (rd8_range m a). pose proof (rd8_range m (a + 1)).
  pose proof (rd8_range m (a + 2)). pose proof (rd8_range m (a + 3)). lia.
Qed.

Lemma rd8_store32_ne m a v b : ¬ (a ≤ b < a + 4) → rd8 (store32 m a v) b = rd8 m b.
Proof. intros. unfold store32. rewrite !rd8_wr8_ne by lia. done. Qed.

Lemma rd8_store32_in m a v b :
  a ≤ b < a + 4 → rd8 (store32 m a v) b = u8 (v / 256 ^ (b - a)).
Proof.
  intros. unfold store32.
  assert (b = a ∨ b = a + 1 ∨ b = a + 2 ∨ b = a + 3) as [->|[->|[->| ->]]] by lia;
    repeat first [rewrite rd8_wr8_eq | rewrite rd8_wr8_ne by lia].
  - by rewrite Z.sub_diag, Z.div_1_r.
  - by replace (a + 1 - a) with 1 by lia.
  - by replace (a + 2 - a) with 2 by lia.
  - by replace (a + 3 - a) with 3 by lia.
Qed.

(** Bytes that agree give words that agree. *)
Lemma load32_ext m m' a b :
  (∀ i, 0 ≤ i < 4 → rd8 m (a + i) = rd8 m' (b + i)) → load32 m a = load32 m' b.
Proof.
  intros H. unfold load32. rewrite (H 1), (H 2), (H 3) by lia.
  specialize (H 0). rewrite !Z.add_0_r in H. by rewrite H by lia.
Qed.

Lemma load32_store32_eq m a v : load32 (store32 m a v) a = u32 v.
Proof.
  unfold load32. rewrite !rd8_store32_in by lia.
  rewrite Z.sub_diag. replace (a + 1 - a) with 1 by lia.
  replace (a + 2 - a) with 2 by lia. replace (a + 3 - a) with 3 by lia.
  change (256 ^ 0) with 1. change (256 ^ 1) with 256. change (256 ^ 2) with 65536.
  change (256 ^ 3) with 16777216. ulia.
Qed.

Lemma load32_store32_ne m a v b :
  a + 4 ≤ b ∨ b + 4 ≤ a → load32 (store32 m a v) b = load32 m b.
Proof. intros. apply load32_ext. intros. apply rd8_store32_ne. lia. Qed.

#[export] Hint Resolve rd8_range load32_range : xv6.
#[export] Hint Rewrite rd8_wr8_eq load32_store32_eq : xv6.

(** ** memset *)

Lemma rd8_stosb m a c n b :
  rd8 (stosb m a c n) b =
    if decide (a ≤ b < a + Z.of_nat n) then u8 c else rd8 m b.
Proof.
  revert m a. induction n as [|n IH]; intros m a; simpl stosb.
  { by rewrite decide_False by lia. }
  rewrite IH, rd8_wr8. repeat case_decide; try lia; done.
Qed.

Lemma rd8_stosl m a v n b :
  rd8 (stosl m a v n) b =
    if decide (a ≤ b < a + 4 * Z.of_nat n) then u8 (v / 256 ^ ((b - a) mod 4))
    else rd8 m b.
Proof.
  revert m a. induction n as [|n IH]; intros m a; simpl stosl.
  { by rewrite decide_False by lia. }
  rewrite IH. destruct (decide (a ≤ b < a + 4)) as [Hb|Hb].
  - rewrite decide_False, decide_True, rd8_store32_in by lia.
    by rewrite Z.mod_small by lia.
  - rewrite rd8_store32_ne by done. repeat case_decide; try lia.
    by replace ((b - (a + 4)) mod 4) with ((b - a) mod 4) by zlia.
Qed.

(** The word the aligned path stores repeats the byte [c] four times. *)
Lemma splat_byte c k :
  0 ≤ k < 4 →
  let c := Z.land c 0xFF in
  u8 (s32 (Z.lor (Z.lor (Z.lor (Z.shiftl c 24) (Z.shiftl c 16)) (Z.shiftl c 8)) c)
      / 256 ^ k) = c.
Proof.
  intros Hk c0. assert (0 ≤ c0 < 256) as Hc.
  { unfold c0. change 0xFF with (Z.ones 8). rewrite land_low by lia.
    apply Z.mod_pos_bound. lia. }
  clearbody c0. rewrite !Z.shiftl_mul_pow2 by lia.
  rewrite (lor_disjoint_add (c0 * 2 ^ 24) _ 24);
    [|lia|change (2 ^ 24) with 16777216; zlia|lia].
  rewrite (lor_disjoint_add _ (c0 * 2 ^ 8) 16);
    [|lia|change (2 ^ 24) with 16777216; change (2 ^ 16) with 65536; zlia|lia].
  rewrite (lor_disjoint_add _ c0 8);
    [|lia|change (2 ^ 24) with 16777216; change (2 ^ 16) with 65536;
      change (2 ^ 8) with 256; zlia|lia].
  change (2 ^ 24) with 16777216. change (2 ^ 16) with 65536. change (2 ^ 8) with 256.
  assert (k = 0 ∨ k = 1 ∨ k = 2 ∨ k = 3) as [->|[->|[->| ->]]] by lia;
    [change (256 ^ 0) with 1|change (256 ^ 1) with 256
    |change (256 ^ 2) with 65536|change (256 ^ 3) with 16777216]; ulia.
Qed.

(** Both paths of [memset] fill exactly [n] bytes with [c]. *)
Lemma rd8_memset m dst c n b :
  0 ≤ n →
  rd8 (memset m dst c n) b = if decide (dst ≤ b < dst + n) then u8 c else rd8 m b.
Proof.
  intros Hn. unfold memset.
  destruct (_ && _) eqn:E; cbn zeta.
  - apply andb_true_iff in E as [_ E]. apply Z.eqb_eq in E. rewrite rd8_stosl.
    rewrite Z2Nat.id by zlia. replace (4 * (n / 4)) with n by zlia.
    case_decide; [|done]. rewrite splat_byte by zlia.
    change 0xFF with (Z.ones 8). by rewrite land_low.
  - rewrite rd8_stosb. by rewrite Z2Nat.id.
Qed.

Lemma load32_memset_out m dst c n a :
  0 ≤ n → a + 4 ≤ dst ∨ dst + n ≤ a → load32 (memset m dst c n) a = load32 m a.
Proof.
  intros Hn Ha. apply load32_ext. intros i Hi.
  rewrite rd8_memset by done. by rewrite decide_False by lia.
Qed.

Lemma load32_memset0_in m dst n a :
  dst ≤ a → a + 4 ≤ dst + n → load32 (memset m dst 0 n) a = 0.
Proof.
  intros H1 H2. unfold load32. rewrite !rd8_memset by lia.
  by rewrite !decide_True by lia.
Qed.

(** ** memmove *)

Lemma rd8_move_up m d s n b :
  (d ≤ s ∨ s + Z.of_nat n ≤ d) →
  rd8 (move_up m d s n) b =
    if decide (d ≤ b < d + Z.of_nat n) then rd8 m (s + (b - d)) else rd8 m b.
Proof.
  revert m d s. induction n as [|n IH]; intros m d s H; simpl move_up.
  { by rewrite decide_False by lia. }
  rewrite IH by lia. rewrite !rd8_wr8. repeat case_decide; try lia; subst.
  - f_equal. lia.
  - rewrite Z.sub_diag, Z.add_0_r. apply u8_small, rd8_range.
Qed.

Lemma rd8_move_down m d s n b :
  s ≤ d →
  rd8 (move_down m d s n) b =
    if decide (d - Z.of_nat n ≤ b < d) then rd8 m (s + (b - d)) else rd8 m b.
Proof.
  revert m d s. induction n as [|n IH]; intros m d s H; simpl move_down.
  { by rewrite decide_False by lia. }
  rewrite IH by lia. rewrite !rd8_wr8. repeat case_decide; try lia; subst.
  - f_equal. lia.
  - replace (s + (d - 1 - d)) with (s - 1) by lia. apply u8_small, rd8_range.
Qed.

(** [memmove] copies the bytes the source held before the call, whether or not
    the two areas overlap, and writes nothing else. *)
Lemma rd8_memmove m dst src n b :
  0 ≤ n →
  rd8 (memmove m dst src n) b =
    if decide (dst ≤ b < dst + n) then rd8 m (src + (b - dst)) else rd8 m b.
Proof.
  intros Hn. unfold memmove. destruct (_ && _) eqn:E.
  - apply andb_true_iff in E as [E1 _]. apply Z.ltb_lt in E1.
    rewrite rd8_move_down by lia. rewrite Z2Nat.id by done.
    replace (dst + n - n) with dst by lia. case_decide; [f_equal; lia|done].
  - rewrite rd8_move_up, Z2Nat.id by (rewrite ?Z2Nat.id by done;
      apply andb_false_iff in E as [E%Z.ltb_ge|E]; [lia|];
      rewrite Z.gtb_ltb in E; apply Z.ltb_ge in E; lia). done.
Qed.

Lemma load32_memmove_out m dst src n a :
  0 ≤ n → a + 4 ≤ dst ∨ dst + n ≤ a → load32 (memmove m dst src n) a = load32 m a.
Proof.
  intros Hn Ha. apply load32_ext. intros i Hi.
  rewrite rd8_memmove by done. by rewrite decide_False by lia.
Qed.

(** ** Byte lists in memory *)

Lemma length_rdbytes m a n : length (rdbytes m a n) = n.
Proof. unfold rdbytes. by rewrite length_fmap, length_seq. Qed.

Lemma rd8_wrbytes m a bs b :
  rd8 (wrbytes m a bs) b =
    if decide (a ≤ b < a + Z.of_nat (length bs))
    then u8 (default 0 (bs !! Z.to_nat (b - a))) else rd8 m b.
Proof.
  revert m a. induction bs as [|x bs IH]; intros m a; simpl wrbytes.
  { by rewrite decide_False by (simpl; lia). }
  rewrite IH, rd8_wr8. simpl length. repeat case_decide; try lia; subst.
  - replace (Z.to_nat (b - a)) with (S (Z.to_nat (b - (a + 1)))) by lia. done.
  - by replace (Z.to_nat (b - b)) with O by lia.
Qed.

(** ** Strings *)

Lemma strncmp_loop_zero p q i n :
  strncmp_loop p q i n = 0 ↔
  ∀ k, (i ≤ k < i + n)%nat → (∀ j, (i ≤ j < k)%nat → u8 (p j) ≠ 0) →
    u8 (p k) = u8 (q k).
Proof.
  revert i. induction n as [|n IH]; intros i; simpl; [split; [lia|done]|].
  unfold nz. destruct (Z.eqb_spec (u8 (p i)) 0) as [Hz|Hz]; simpl.
  { split.
    - intros H k Hk Hj. destruct (decide (k = i)) as [->|]; [lia|].
      destruct (Hj i); [lia|done].
    - intros H. rewrite (H i); lia. }
  destruct (Z.eqb_spec (u8 (p i)) (u8 (q i))) as [He|He].
  - rewrite IH. split; intros H k Hk Hj.
    + destruct (decide (k = i)) as [->|]; [done|]. apply H; [lia|].
      intros; apply Hj; lia.
    + apply H; [lia|]. intros j Hjk. destruct (decide (j = i)) as [->|]; [done|].
      apply Hj; lia.
  - split; [lia|]. intros H. destruct He. apply H; lia.
Qed.

Lemma length_strncpy_loop t i n : length (strncpy_loop t i n) = n.
Proof.
  revert i. induction n as [|n IH]; intros i; simpl; [done|].
  destruct (nz _); simpl; by rewrite ?IH, ?length_replicate.
Qed.

Lemma lookup_strncpy_loop t i n k :
  (k < n)%nat →
  strncpy_loop t i n !! k =
    Some (if forallb (λ j, nz (t j)) (seq i k) then t (i + k)%nat else 0).
Proof.
  revert i k. induction n as [|n IH]; intros i k Hk; [lia|]. simpl.
  destruct k as [|k].
  { rewrite Nat.add_0_r. by destruct (nz _). }
  simpl. destruct (nz (t i)) eqn:E; simpl.
  - rewrite IH by lia. by rewrite Nat.add_succ_comm.
  - by rewrite lookup_replicate_2 by lia.
Qed.

Lemma safestrcpy_loop_spec t i n :
  ∃ k, (k ≤ n)%nat ∧
    (∀ j, (j < k)%nat → safestrcpy_loop t i n !! j = Some (t (i + j)%nat)) ∧
    safestrcpy_loop t i n !! k = Some 0 ∧
    (∀ j, (j < k)%nat → nz (t (i + j)%nat)) ∧
    (k = n ∨ t (i + k)%nat = 0) ∧ (length (safestrcpy_loop t i n) ≤ S n)%nat.
Proof.
  revert i. induction n as [|n IH]; intros i; simpl.
  { exists O. split_and!; simpl; by try lia. }
  destruct (nz (t i)) eqn:E.
  - destruct (IH (S i)) as (k & Hk & H1 & H2 & H3 & H4 & H5).
    exists (S k). split_and!; try (simpl; lia); try done.
    + intros [|j] Hj; simpl; [by rewrite Nat.add_0_r|].
      rewrite H1 by lia. by rewrite Nat.add_succ_comm.
    + intros [|j] Hj; [by rewrite Nat.add_0_r, E|].
      rewrite <-Nat.add_succ_comm. apply H3. lia.
    + rewrite <-Nat.add_succ_comm. destruct H4; [left; lia|by right].
  - assert (t i = 0) as Hz by (unfold nz in E; lia).
    exists O. rewrite Nat.add_0_r, Hz. split_and!; simpl; by try lia.
Qed.

(** ** Claims *)

(** [memmove] copies correctly whatever the overlap of source and
    destination: every destination byte is the source byte as it was before
    the call, and no other byte changes. *)
Theorem memmove_overlap_safe m dst src n b :
  0 ≤ n →
  rd8 (memmove m dst src n) b =
    if decide (dst ≤ b < dst + n) then rd8 m (src + (b - dst)) else rd8 m b.
Proof. apply rd8_memmove. Qed.

Lemma memmove_overlap_safe_witness :
  rd8 (memmove (wrbytes ∅ 100 [1; 2; 3; 4]) 101 100 3) 103 = 3.
Proof. rewrite memmove_overlap_safe; [reflexivity|lia]. Defined.

(** [safestrcpy] stores at most [n] bytes, always ends in a NUL, and what
    precedes it is the longest prefix of the source that fits. *)
Theorem safestrcpy_terminates t n :
  0 < n →
  ∃ k, (k < Z.to_nat n)%nat ∧ safestrcpy t n !! k = Some 0 ∧
    (∀ j, (j < k)%nat → safestrcpy t n !! j = Some (t j) ∧ t j ≠ 0) ∧
    (S k = Z.to_nat n ∨ t k = 0) ∧ (length (safestrcpy t n) ≤ Z.to_nat n)%nat.
Proof.
  intros Hn. unfold safestrcpy. destruct (Z.leb_spec n 0); [lia|].
  destruct (safestrcpy_loop_spec t 0 (Z.to_nat (n - 1))) as (k & Hk & Hc & Hz & Hnz & He & Hl).
  exists k. split_and!; [lia|done| | |lia].
  - intros j Hj. split; [by apply (Hc j)|]. specialize (Hnz j Hj). unfold nz in Hnz. simpl in Hnz.
    destruct (Z.eqb_spec (t j) 0); [|done]. done.
  - destruct He as [->|He]; [left; lia|by right].
Qed.

Lemma safestrcpy_terminates_witness :
  ∃ k, (k < 4)%nat ∧ safestrcpy (cstr_of [105; 110; 105; 116; 0]) 4 !! k = Some 0.
Proof.
  destruct (safestrcpy_terminates (cstr_of [105; 110; 105; 116; 0]) 4) as (k & Hk & Hz & _); [lia|].
  exists k. split; [exact Hk|exact Hz].
Defined.
