(* ===== verification/Locks.v ===== *)
(** * Locks inside a component's state

    Every kernel structure that is shared between CPUs carries its own lock.
    These are the operations on such a lock as one CPU sees them while it runs
    a kernel operation: acquiring a lock it already holds, or releasing one it
    does not hold, panics.  [Spinlock.v] models [spinlock.c] with its CPUs and
    interrupt flags and shows that these operations are what it does. *)

From Stdlib Require Import ZArith Lia.
From stdpp Require Import base strings numbers.
From S2P Require Import Prelude.

(** [struct spinlock]: whether this CPU holds it. *)
Record spinlock := Spinlock { locked : bool }.
Definition unlocked : spinlock := Spinlock false.

(** [struct sleeplock]: the spin lock protecting it, whether it is held, and
    the process holding it. *)
Record sleeplock := Sleeplock { sl_lk : spinlock; sl_locked : bool; sl_pid : Z }.
Definition sl_free : sleeplock := Sleeplock unlocked false 0.

Section locks.
Context {S : Type}.

Definition acquire (lk : lens S spinlock) : M S unit := λ s,
  if locked (lget lk s) then Panic "acquire" else Ok tt (lset lk (Spinlock true) s).
Definition release (lk : lens S spinlock) : M S unit := λ s,
  if locked (lget lk s) then Ok tt (lset lk (Spinlock false) s) else Panic "release".

Lemma acquire_free lk (s : S) :
  locked (lget lk s) = false → acquire lk s = Ok tt (lset lk (Spinlock true) s).
Proof. intros H. unfold acquire. by rewrite H. Qed.
Lemma release_held lk (s : S) :
  locked (lget lk s) = true → release lk s = Ok tt (lset lk (Spinlock false) s).
Proof. intros H. unfold release. by rewrite H. Qed.
End locks.

(** ** sleeplock.c

    The lock is taken and released under its own spin lock.  A process that
    finds it taken sleeps on the lock's address [chan]; [sleep] gives the spin
    lock back while it waits.  [wakeup] makes sleepers runnable again, which
    is the process table's business. *)

Section sleeplocks.
Context {S : Type}.

Definition sl_spin (lk : lens S sleeplock) : lens S spinlock :=
  Lens (λ s, sl_lk (lget lk s))
    (λ l s, lset lk (Sleeplock l (sl_locked (lget lk s)) (sl_pid (lget lk s))) s).

Definition initsleeplock (lk : lens S sleeplock) : M S unit :=
  modify (lset lk (Sleeplock unlocked false 0)).

Definition acquiresleep (lk : lens S sleeplock) (pid chan : Z) : M S unit :=
  acquire (sl_spin lk);;
  l ← gets (lget lk);
  if sl_locked l then release (sl_spin lk);; sleep_on chan
  else
    modify (λ s, lset lk (Sleeplock (sl_lk (lget lk s)) true pid) s);;
    release (sl_spin lk).

Definition releasesleep (lk : lens S sleeplock) : M S unit :=
  acquire (sl_spin lk);;
  modify (λ s, lset lk (Sleeplock (sl_lk (lget lk s)) false 0) s);;
  release (sl_spin lk).

Definition holdingsleep (lk : lens S sleeplock) (pid : Z) : M S bool :=
  acquire (sl_spin lk);;
  r ← gets (λ s, sl_locked (lget lk s) && (sl_pid (lget lk s) =? pid));
  release (sl_spin lk);;
  mret r.

(** The laws of a lens at one state: the entry it designates is there. *)
Record lens_at {A} (l : lens S A) (s : S) : Prop := {
  lens_get_set : ∀ a, lget l (lset l a s) = a;
  lens_set_set : ∀ a b, lset l a (lset l b s) = lset l a s;
  lens_set_get : lset l (lget l s) s = s;
}.

Definition sl_held (pid : Z) : sleeplock := Sleeplock unlocked true pid.

Context (lk : lens S sleeplock) (s : S) (Hlk : lens_at lk s).
Context (Hfree : sl_lk (lget lk s) = unlocked).

Lemma relock :
  lset lk (Sleeplock unlocked (sl_locked (lget lk s)) (sl_pid (lget lk s))) s = s.
Proof using Hlk Hfree.
  rewrite <-Hfree. etrans; [|apply (lens_set_get _ _ Hlk)]. f_equal. by destruct (lget lk s).
Qed.

Ltac sleepstep :=
  destruct Hlk as [Hgs Hss Hsg]; unfold mbind, M_bind, acquire, release, gets, modify; simpl;
  rewrite Hfree; simpl; rewrite ?Hss, ?Hgs; simpl; rewrite ?Hss, ?Hgs; simpl.

Lemma acquiresleep_free pid chan :
  sl_locked (lget lk s) = false →
  acquiresleep lk pid chan s = Ok tt (lset lk (sl_held pid) s).
Proof using Hlk Hfree.
  intros Hf. unfold acquiresleep. sleepstep. rewrite Hf. simpl. rewrite !Hss, !Hgs. simpl.
  by rewrite ?Hss, ?Hgs.
Qed.

Lemma acquiresleep_busy pid chan :
  sl_locked (lget lk s) = true → acquiresleep lk pid chan s = Sleep chan s.
Proof using Hlk Hfree.
  intros Hf. unfold acquiresleep. pose proof relock as Hr. sleepstep. rewrite Hf. simpl.
  rewrite ?Hss, ?Hgs. simpl. unfold sleep_on. f_equal. rewrite <-Hf. exact Hr.
Qed.

Lemma releasesleep_ok : releasesleep lk s = Ok tt (lset lk sl_free s).
Proof using Hlk Hfree.
  unfold releasesleep. sleepstep. by rewrite ?Hss, ?Hgs; simpl; rewrite ?Hss, ?Hgs.
Qed.

Lemma holdingsleep_ok pid :
  holdingsleep lk pid s = Ok (sl_locked (lget lk s) && (sl_pid (lget lk s) =? pid)) s.
Proof using Hlk Hfree.
  unfold holdingsleep. pose proof relock as Hr. sleepstep. unfold mret, M_ret. f_equal. exact Hr.
Qed.
End sleeplocks.

(** Unfold the monadic structure of the goal and compute. *)
Ltac munfold :=
  unfold mbind, M_bind, mret, M_ret, gets, modify, when, panic, undef, nofuel,
    sleep_on, acquire, release; cbn.
