(* ===== verification/Kalloc.v ===== *)
(** * The physical page allocator (kalloc.c)

    Free pages form a singly linked list threaded through their first word.
    [free_pages] is the representation predicate that gives the list its
    abstract value, a list of page addresses; the allocator's operations are
    specified by their effect on that value.  [run_client] composes arbitrary
    sequences of allocations and releases. *)

From Stdlib Require Import ZArith Lia.
From stdpp Require Import base numbers strings gmap list sorting.
From S2P Require Import Prelude Mmu Memory Locks.

(** Symbols defined by the linker (kernel.ld): the start of the kernel's data
    and the first address after the kernel image. *)
Class Linker := { kdata : Z; kend : Z }.
Class LinkerOk `{Linker} := {
  kdata_aligned : kdata mod 4096 = 0;
  kdata_above : KERNLINK ≤ kdata;
  kdata_kend : kdata ≤ kend;
  kend_below : kend < KERNBASE + PHYSTOP;
}.

(** An instance: a kernel image of about 85 kB. *)
#[local] Instance example_linker : Linker := {| kdata := 0x80108000; kend := 0x801154a8 |}.

(** ** State *)

Record kmem_t := KMem { km_lock : spinlock; use_lock : bool; freelist : Z }.
(** Kernel memory with the allocator's bookkeeping: the state of kalloc.c and
    vm.c. *)
Record vmst := VmSt { vmem : memory; kmem : kmem_t }.

Definition set_vmem (m : memory) (s : vmst) : vmst := VmSt m (kmem s).
Definition set_freelist (v : Z) (s : vmst) : vmst :=
  VmSt (vmem s) (KMem (km_lock (kmem s)) (use_lock (kmem s)) v).
Definition set_use_lock (b : bool) (s : vmst) : vmst :=
  VmSt (vmem s) (KMem (km_lock (kmem s)) b (freelist (kmem s))).
Definition kmem_lock : lens vmst spinlock :=
  Lens (λ s, km_lock (kmem s))
    (λ l s, VmSt (vmem s) (KMem l (use_lock (kmem s)) (freelist (kmem s)))).

Section kalloc.
Context {L : Linker}.

(** ** Operations *)

Definition kfree (v : Z) : M vmst unit :=
  if nz (u32 v mod PGSIZE) || (v <? kend) || (V2P v >=? PHYSTOP) then panic "kfree"
  else
    (* Fill with junk to catch dangling refs. *)
    modify (λ s, set_vmem (memset (vmem s) v 1 PGSIZE) s);;
    use ← gets (λ s, use_lock (kmem s));
    when use (acquire kmem_lock);;
    modify (λ s, set_vmem (store32 (vmem s) v (freelist (kmem s))) s);;
    modify (set_freelist v);;
    use ← gets (λ s, use_lock (kmem s));
    when use (release kmem_lock).

Definition kalloc : M vmst Z :=
  use ← gets (λ s, use_lock (kmem s));
  when use (acquire kmem_lock);;
  r ← gets (λ s, freelist (kmem s));
  when (nz r) (modify (λ s, set_freelist (load32 (vmem s) r) s));;
  use ← gets (λ s, use_lock (kmem s));
  when use (release kmem_lock);;
  mret r.

(** The loop of [freerange]; the fuel bounds the number of pages. *)
Fixpoint freerange_loop (fuel : nat) (p vend : Z) : M vmst unit :=
  match fuel with
  | O => nofuel
  | S fuel =>
      if p + PGSIZE <=? vend then kfree p;; freerange_loop fuel (p + PGSIZE) vend
      else mret tt
  end.
Definition freerange (vstart vend : Z) : M vmst unit :=
  freerange_loop (S (Z.to_nat ((vend - vstart) / PGSIZE))) (PGROUNDUP vstart) vend.

Definition kinit1 (vstart vend : Z) : M vmst unit :=
  modify (lset kmem_lock unlocked);;
  modify (set_use_lock false);;
  freerange vstart vend.

Definition kinit2 (vstart vend : Z) : M vmst unit :=
  freerange vstart vend;;
  modify (set_use_lock true).

(** ** Representation *)

(** Addresses of pages the allocator manages. *)
Definition page (v : Z) : Prop :=
  v mod 4096 = 0 ∧ kend ≤ v ∧ KERNBASE < v ∧ v + 4096 ≤ KERNBASE + PHYSTOP.
(** Byte address [a] lies in page [v]. *)
Definition in_page (v a : Z) : Prop := v ≤ a < v + 4096.

Fixpoint free_chain (m : memory) (head : Z) (l : list Z) : Prop :=
  match l with
  | [] => head = 0
  | v :: l => head = v ∧ free_chain m (load32 m v) l
  end.

Definition free_pages (s : vmst) (l : list Z) : Prop :=
  free_chain (vmem s) (freelist (kmem s)) l ∧ NoDup l ∧ Forall page l ∧
  locked (km_lock (kmem s)) = false.

#[export] Instance page_dec v : Decision (page v).
Proof. apply _. Defined.

(** ** Page arithmetic *)

Lemma page_pos v : page v → 0 < v < 4294967296 ∧ v mod 4096 = 0.
Proof. unfold page, KERNBASE, PHYSTOP. lia. Qed.

Lemma page_disjoint v w a : page v → page w → in_page v a → in_page w a → v = w.
Proof. unfold page, in_page. intros. zlia. Qed.

Lemma page_P2V_V2P v : page v → P2V (V2P v) = v.
Proof. unfold page. intros. apply P2V_V2P. lia. Qed.

(** Words at multiples of 4 do not straddle pages. *)
Lemma in_page_word v i a :
  page v → 0 ≤ i < 1024 → a = v + 4 * i → ∀ j, 0 ≤ j < 4 → in_page v (a + j).
Proof. unfold in_page. lia. Qed.

(** Writes outside the free pages keep the free list. *)
Lemma free_chain_frame m m' head l :
  Forall page l →
  (∀ v a, v ∈ l → in_page v a → rd8 m' a = rd8 m a) →
  free_chain m head l → free_chain m' head l.
Proof.
  revert head. induction l as [|v l IH]; intros head Hp Hm; simpl; [done|].
  apply Forall_cons in Hp as [Hv Hp]. intros [-> Hc]. split; [done|].
  replace (load32 m' v) with (load32 m v).
  - apply IH; [done| |done]. intros w a Hw. apply Hm. by right.
  - apply load32_ext. intros i Hi. symmetry.
    apply (Hm v); [by left|]. unfold in_page. lia.
Qed.

Lemma free_pages_frame s m' l :
  free_pages s l →
  (∀ v a, v ∈ l → in_page v a → rd8 m' a = rd8 (vmem s) a) →
  free_pages (set_vmem m' s) l.
Proof.
  intros (Hc & Hn & Hp & Hl) Hm. split_and!; try done.
  by eapply free_chain_frame.
Qed.

(** ** Functional specifications *)

Lemma kalloc_cons s v l :
  free_pages s (v :: l) →
  ∃ s', kalloc s = Ok v s' ∧ free_pages s' l ∧ vmem s' = vmem s ∧
    use_lock (kmem s') = use_lock (kmem s).
Proof.
  intros ([Hh Hc] & Hn & Hp & Hl). exists (set_freelist (load32 (vmem s) v) s).
  pose proof Hp as [Hv Hp']%Forall_cons. apply list.NoDup_cons in Hn as [_ Hn].
  assert (nz v = true) as Hz by (apply page_pos in Hv; unfold nz; lia).
  split; [|done]. destruct s as [m [[lk] [] fl]]; simpl in *; subst;
    unfold kalloc; munfold; by rewrite Hz.
Qed.

Lemma kalloc_nil s : free_pages s [] → kalloc s = Ok 0 s.
Proof.
  intros (Hh & _ & _ & Hl). destruct s as [m [[lk] [] fl]]; simpl in *; by subst.
Qed.

(** The guard of [kfree] accepts exactly the managed pages. *)
Lemma kfree_guard v :
  0 ≤ v < 4294967296 → KERNBASE < v →
  (nz (u32 v mod PGSIZE) || (v <? kend) || (V2P v >=? PHYSTOP) = false ↔ page v).
Proof.
  intros Hv Hk. rewrite V2P_eq by lia. rewrite u32_small by done.
  unfold nz, page, PGSIZE, KERNBASE, PHYSTOP in *.
  rewrite !orb_false_iff, negb_false_iff, Z.eqb_eq, Z.ltb_ge, Z.geb_leb, Z.leb_gt.
  zlia.
Qed.

Lemma kfree_page s v l :
  free_pages s l → page v → v ∉ l →
  ∃ s', kfree v s = Ok tt s' ∧ free_pages s' (v :: l) ∧
    (∀ a, ¬ in_page v a → rd8 (vmem s') a = rd8 (vmem s) a) ∧
    use_lock (kmem s') = use_lock (kmem s).
Proof.
  intros (Hc & Hn & Hp & Hl) Hv Hnl.
  exists (set_freelist v (set_vmem
    (store32 (memset (vmem s) v 1 PGSIZE) v (freelist (kmem s))) s)).
  pose proof (page_pos _ Hv) as [Hv0 _].
  assert (nz (u32 v mod PGSIZE) || (v <? kend) || (V2P v >=? PHYSTOP) = false) as Hg.
  { apply kfree_guard; [lia|apply Hv|done]. }
  assert (∀ a, ¬ in_page v a → rd8 (store32 (memset (vmem s) v 1 PGSIZE) v
      (freelist (kmem s))) a = rd8 (vmem s) a) as Hfr.
  { unfold in_page. intros a Ha. rewrite rd8_store32_ne by lia.
    rewrite rd8_memset by (unfold PGSIZE; lia).
    rewrite decide_False; [done|unfold PGSIZE; lia]. }
  assert (0 ≤ freelist (kmem s) < 4294967296).
  { destruct l as [|w l]; simpl in Hc; [lia|].
    destruct Hc as [-> _]. apply Forall_cons in Hp as [?%page_pos _]. lia. }
  split_and!; [| |done|done].
  - unfold kfree. rewrite Hg.
    destruct s as [m [[lk] [] fl]]; simpl in *; by subst.
  - unfold free_pages; simpl; split_and!; [done| |by constructor|by constructor|done].
    rewrite load32_store32_eq, u32_small by done.
    apply (free_chain_frame (vmem s)); [done| |done].
    intros w a Hw Ha. apply Hfr. intros Hva.
    rewrite Forall_forall in Hp. destruct Hnl.
    by rewrite (page_disjoint v w a) by auto.
Qed.

Lemma kfree_invalid s v :
  0 ≤ v < 4294967296 → KERNBASE < v → ¬ page v → kfree v s = Panic "kfree".
Proof.
  intros Hv Hk Hp. unfold kfree. destruct (nz _ || _ || _) eqn:E; [done|].
  destruct Hp. by apply kfree_guard.
Qed.

(** ** Initialisation *)

(** The [n] pages starting at [p], in the order [freerange] frees them. *)
Definition page_run (p : Z) (n : nat) : list Z :=
  (λ i, p + 4096 * Z.of_nat i) <$> seq 0 n.

Lemma page_run_S p n : page_run p (S n) = p :: page_run (p + 4096) n.
Proof.
  unfold page_run. simpl. f_equal; [lia|]. rewrite <-fmap_S_seq, <-list_fmap_compose.
  apply list_fmap_ext. intros. simpl. lia.
Qed.

Lemma elem_of_page_run p n v :
  v ∈ page_run p n ↔ ∃ i, 0 ≤ i < Z.of_nat n ∧ v = p + 4096 * i.
Proof.
  unfold page_run. rewrite list_elem_of_fmap. setoid_rewrite elem_of_seq. split.
  - intros (i & -> & Hi). exists (Z.of_nat i). lia.
  - intros (i & Hi & ->). exists (Z.to_nat i). lia.
Qed.

Lemma freerange_loop_spec fuel p vend s l :
  (Z.to_nat ((vend - p) / 4096) < fuel)%nat →
  free_pages s l → Forall page (page_run p (Z.to_nat ((vend - p) / 4096))) →
  (∀ v, v ∈ page_run p (Z.to_nat ((vend - p) / 4096)) → v ∉ l) →
  ∃ s', freerange_loop fuel p vend s = Ok tt s' ∧
    free_pages s' (rev (page_run p (Z.to_nat ((vend - p) / 4096))) ++ l) ∧
    use_lock (kmem s') = use_lock (kmem s).
Proof.
  revert p s l. induction fuel as [|fuel IH]; intros p s l Hf Hl Hp Hd; [lia|].
  simpl freerange_loop. destruct (Z.leb_spec (p + PGSIZE) vend) as [Hle|Hgt];
    unfold PGSIZE in *.
  - assert (Z.to_nat ((vend - p) / 4096) =
      S (Z.to_nat ((vend - (p + 4096)) / 4096))) as E by (clear - Hle; zlia).
    rewrite E in *. rewrite page_run_S in *.
    apply Forall_cons in Hp as [Hv Hp].
    destruct (kfree_page s p l) as (s1 & E1 & H1 & _ & Hu1);
      [done|done|apply Hd; by left|].
    destruct (IH (p + 4096) s1 (p :: l)) as (s2 & E2 & H2 & Hu2); try done.
    + lia.
    + intros v Hv' [->|]%elem_of_cons.
      * apply elem_of_page_run in Hv' as (i & ? & ?). lia.
      * eapply Hd; [right|]; done.
    + exists s2. split_and!; [by mstep E1| |congruence].
      simpl. by rewrite <-app_assoc.
  - exists s. assert (Z.to_nat ((vend - p) / 4096) = O) as -> by (clear - Hgt; zlia). done.
Qed.

Lemma freerange_spec vstart vend s l :
  0 ≤ vstart ≤ 4294963200 → PGROUNDUP vstart ≤ vend →
  let n := Z.to_nat ((vend - PGROUNDUP vstart) / 4096) in
  free_pages s l → Forall page (page_run (PGROUNDUP vstart) n) →
  (∀ v, v ∈ page_run (PGROUNDUP vstart) n → v ∉ l) →
  ∃ s', freerange vstart vend s = Ok tt s' ∧
    free_pages s' (rev (page_run (PGROUNDUP vstart) n) ++ l) ∧
    use_lock (kmem s') = use_lock (kmem s).
Proof.
  intros H0 H1 n Hl Hp Hd. apply freerange_loop_spec; try done.
  pose proof (PGROUNDUP_bounds vstart H0). unfold PGSIZE. zlia.
Qed.

(** ** Clients *)

(** What a client does: allocate a page, or free the [i]-th page it owns. *)
Inductive client_op := CAlloc | CFree (i : nat).

Fixpoint run_client (ops : list client_op) (owned : list Z) : M vmst (list Z) :=
  match ops with
  | [] => mret owned
  | CAlloc :: ops =>
      r ← kalloc;
      run_client ops (if nz r then r :: owned else owned)
  | CFree i :: ops =>
      match owned !! i with
      | Some v => kfree v;; run_client ops (delete i owned)
      | None => run_client ops owned
      end
  end.

Lemma run_client_inv ops owned s l :
  free_pages s l → Forall page owned → NoDup (owned ++ l) →
  ∃ owned' s' l', run_client ops owned s = Ok owned' s' ∧ free_pages s' l' ∧
    owned' ++ l' ≡ₚ owned ++ l ∧
    (∀ a, (∀ v, v ∈ owned ++ l → ¬ in_page v a) →
      rd8 (vmem s') a = rd8 (vmem s) a).
Proof.
  revert owned s l. induction ops as [|[|i] ops IH]; intros owned s l Hf Ho Hn; simpl.
  - by exists owned, s, l.
  - destruct l as [|v l].
    + rewrite (bind_ok _ _ _ _ _ (kalloc_nil s Hf)). by apply IH.
    + destruct (kalloc_cons s v l Hf) as (s1 & E1 & Hf1 & Hm1 & _).
      rewrite (bind_ok _ _ _ _ _ E1).
      assert (page v) as Hv by (by destruct Hf as (_ & _ & [? _]%Forall_cons & _)).
      assert (nz v = true) as -> by (apply page_pos in Hv; unfold nz; lia).
      assert (Hperm : (v :: owned) ++ l ≡ₚ owned ++ v :: l)
        by apply Permutation_middle.
      destruct (IH (v :: owned) s1 l) as (o' & s' & l' & E & Hf' & Hp & Hfr);
        [done|by constructor|by rewrite Hperm|].
      exists o', s', l'. split_and!; [done|done|by rewrite Hp|].
      intros a Ha. rewrite Hfr, Hm1; [done|].
      intros w. rewrite Hperm. apply Ha.
  - destruct (owned !! i) as [v|] eqn:Hi; [|by apply IH].
    pose proof (delete_Permutation _ _ _ Hi) as Hd.
    assert (Hperm : owned ++ l ≡ₚ delete i owned ++ v :: l).
    { etransitivity; [apply Permutation_app_tail, Hd|]. apply Permutation_middle. }
    rewrite Hperm in Hn. rewrite <-Permutation_middle in Hn.
    rewrite Hd in Ho. apply Forall_cons in Ho as [Hv Ho].
    apply list.NoDup_cons in Hn as [Hvn Hn].
    destruct (kfree_page s v l) as (s1 & E1 & Hf1 & Hm1 & _);
      [done|done|set_solver|].
    mstep E1.
    destruct (IH (delete i owned) s1 (v :: l)) as (o' & s' & l' & E & Hf' & Hp & Hfr);
      [done|done|rewrite <-Permutation_middle; by constructor|].
    exists o', s', l'. split_and!; [done|done| |].
    + by rewrite Hp.
    + intros a Ha. rewrite Hfr, Hm1; [done| |].
      * apply Ha. rewrite Hperm. set_solver.
      * intros w Hw. apply Ha. by rewrite Hperm.
Qed.

End kalloc.

(** ** A booted allocator *)

Definition empty_mem : vmst := VmSt ∅ (KMem unlocked false 0).

(** Memory after [kinit1] over the first [n] pages behind the kernel image. *)
Definition boot (n : Z) : vmst :=
  match kinit1 kend (PGROUNDUP kend + 4096 * n) empty_mem with Ok _ s => s | _ => empty_mem end.
Definition boot_free (n : nat) : list Z := rev (page_run (PGROUNDUP kend) n).

Lemma kinit1_spec `{Linker} vstart vend s :
  freelist (kmem s) = 0 → 0 ≤ vstart ≤ 4294963200 → PGROUNDUP vstart ≤ vend →
  let n := Z.to_nat ((vend - PGROUNDUP vstart) / 4096) in
  Forall page (page_run (PGROUNDUP vstart) n) →
  ∃ s', kinit1 vstart vend s = Ok tt s' ∧
    free_pages s' (rev (page_run (PGROUNDUP vstart) n)).
Proof.
  intros H0 Hs He n Hp. unfold kinit1. unfold modify at 1 2. mrun.
  set (s1 := set_use_lock _ _).
  destruct (freerange_spec vstart vend s1 []) as (s' & E & Hf & _); try done.
  { by repeat constructor. }
  { intros v _. apply not_elem_of_nil. }
  rewrite app_nil_r in Hf. by exists s'.
Qed.

Lemma boot_pages : Forall page (page_run (PGROUNDUP kend) 64).
Proof. apply (bool_decide_unpack _). by vm_compute. Qed.

Lemma boot_ok n : (n ≤ 64)%nat → free_pages (boot (Z.of_nat n)) (boot_free n).
Proof.
  intros Hn. unfold boot, boot_free.
  assert (E : Z.to_nat ((PGROUNDUP kend + 4096 * Z.of_nat n - PGROUNDUP kend) / 4096) = n) by zlia.
  destruct (kinit1_spec kend (PGROUNDUP kend + 4096 * Z.of_nat n) empty_mem) as (s' & E' & Hf);
    [done|by vm_compute|lia| |].
  { rewrite E. apply Forall_forall. intros v (i & Hi & ->)%elem_of_page_run.
    pose proof boot_pages as Hb. rewrite Forall_forall in Hb. apply Hb.
    apply elem_of_page_run. exists i. split; [lia|done]. }
  rewrite E'. by rewrite E in Hf.
Qed.

(** ** Claims *)

(** C7. Whatever sequence of allocations and releases a client makes, freeing
    only pages it owns, the allocator never panics and no page is ever lost,
    handed out twice or both free and owned: the owned and the free pages are
    always a duplicate-free rearrangement of the pages there were, and no
    byte outside those pages changes. *)
Theorem kalloc_client_safe {L : Linker} ops owned s l :
  free_pages s l → Forall page owned → NoDup (owned ++ l) →
  ∃ owned' s' l', run_client ops owned s = Ok owned' s' ∧ free_pages s' l' ∧
    NoDup (owned' ++ l') ∧ owned' ++ l' ≡ₚ owned ++ l ∧
    (∀ a, (∀ v, v ∈ owned ++ l → ¬ in_page v a) → rd8 (vmem s') a = rd8 (vmem s) a).
Proof.
  intros Hf Ho Hn. destruct (run_client_inv ops owned s l Hf Ho Hn) as (o & s' & l' & ? & ? & Hp & ?).
  exists o, s', l'. split_and!; try done. by rewrite Hp.
Qed.

Lemma kalloc_client_safe_witness :
  ∃ owned' s' l', run_client [CAlloc; CAlloc; CFree 1; CAlloc] [] (boot 3) = Ok owned' s' ∧
    free_pages s' l' ∧ NoDup (owned' ++ l').
Proof.
  pose proof (boot_ok 3 ltac:(lia)) as Hb.
  destruct (kalloc_client_safe [CAlloc; CAlloc; CFree 1; CAlloc] [] (boot 3) (boot_free 3))
    as (o & s' & l' & E & Hf & Hn & _); [exact Hb|constructor|apply Hb|].
  exists o, s', l'. split; [exact E|]. split; [exact Hf|exact Hn].
Defined.

(** [kinit1] makes every page of the range it is given free, exactly once
    and none else, rounding the start up to a page. *)
Theorem kinit1_frees_range {L : Linker} vstart vend s :
  freelist (kmem s) = 0 → 0 ≤ vstart ≤ 4294963200 → PGROUNDUP vstart ≤ vend →
  Forall page (page_run (PGROUNDUP vstart) (Z.to_nat ((vend - PGROUNDUP vstart) / 4096))) →
  ∃ s' l, kinit1 vstart vend s = Ok tt s' ∧ free_pages s' l ∧
    ∀ v, v ∈ l ↔ ∃ i, v = PGROUNDUP vstart + 4096 * i ∧ 0 ≤ i ∧ v + 4096 ≤ vend.
Proof.
  intros H0 Hs He Hp. destruct (kinit1_spec vstart vend s) as (s' & E & Hf); try done.
  eexists s', _. split_and!; [done|done|]. intros v.
  rewrite list_elem_of_In, <-in_rev, <-list_elem_of_In, elem_of_page_run. split.
  - intros (i & Hi & ->). exists i. split_and!; [done|lia|zlia].
  - intros (i & -> & Hi & Hle). exists i. split; [zlia|done].
Qed.

Lemma kinit1_frees_range_witness :
  ∃ s' l, kinit1 0x801154a8 0x80119000 empty_mem = Ok tt s' ∧ free_pages s' l.
Proof.
  destruct (kinit1_frees_range 0x801154a8 0x80119000 empty_mem) as (s' & l & E & Hf & _).
  - reflexivity.
  - lia.
  - by vm_compute.
  - apply (bool_decide_unpack _). by vm_compute.
  - exists s', l. split; [exact E|exact Hf].
Defined.
