(* ===== verification/Vm.v ===== *)
(** * Page tables (vm.c)

    Two-level page tables live in pages of kernel memory; the operations walk
    and update them word by word.  [pte_of] is the abstract view, the
    page-table entry that governs a virtual address, and [pt_ok] the
    well-formedness invariant: directory and tables are distinct managed pages
    that are not on the free list. *)

From Stdlib Require Import ZArith Lia.
From stdpp Require Import base numbers strings gmap list.
From S2P Require Import Prelude Mmu Memory Locks Kalloc.

Definition present (pte : Z) : bool := nz (Z.land pte PTE_P).

Section vm.
Context {L : Linker}.

(** ** Operations *)

Definition walkpgdir (pgdir va : Z) (alloc : bool) : M vmst Z :=
  let pde := pgdir + 4 * PDX va in
  d ← gets (λ s, load32 (vmem s) pde);
  if present d then mret (P2V (PTE_ADDR d) + 4 * PTX va)
  else if negb alloc then mret 0
  else
    pgtab ← kalloc;
    if pgtab =? 0 then mret 0
    else
      (* Make sure all those PTE_P bits are zero. *)
      modify (λ s, set_vmem (memset (vmem s) pgtab 0 PGSIZE) s);;
      modify (λ s, set_vmem (store32 (vmem s) pde
        (Z.lor (Z.lor (Z.lor (V2P pgtab) PTE_P) PTE_W) PTE_U)) s);;
      mret (pgtab + 4 * PTX va).

(** The [for(;;)] loop of [mappages]. *)
Fixpoint mappages_loop (fuel : nat) (pgdir a last pa perm : Z) : M vmst Z :=
  match fuel with
  | O => nofuel
  | S fuel =>
      pte ← walkpgdir pgdir a true;
      if pte =? 0 then mret (-1)
      else
        v ← gets (λ s, load32 (vmem s) pte);
        if present v then panic "remap"
        else
          modify (λ s, set_vmem (store32 (vmem s) pte
            (Z.lor (Z.lor pa perm) PTE_P)) s);;
          if a =? last then mret 0
          else mappages_loop fuel pgdir (u32 (a + PGSIZE)) last (u32 (pa + PGSIZE)) perm
  end.
Definition mappages (pgdir va size pa perm : Z) : M vmst Z :=
  let a := PGROUNDDOWN va in
  let last := PGROUNDDOWN (u32 (va + size - 1)) in
  mappages_loop (S (Z.to_nat (u32 (last - a) / PGSIZE))) pgdir a last pa perm.

Fixpoint deallocuvm_loop (fuel : nat) (pgdir a oldsz : Z) : M vmst unit :=
  match fuel with
  | O => nofuel
  | S fuel =>
      if a <? oldsz then
        pte ← walkpgdir pgdir a false;
        if pte =? 0 then
          let a := u32 (PGADDR (PDX a + 1) 0 0 - PGSIZE) in
          deallocuvm_loop fuel pgdir (u32 (a + PGSIZE)) oldsz
        else
          v ← gets (λ s, load32 (vmem s) pte);
          (if present v then
            let pa := PTE_ADDR v in
            if pa =? 0 then panic "kfree"
            else
              kfree (P2V pa);;
              modify (λ s, set_vmem (store32 (vmem s) pte 0) s)
          else mret tt);;
          deallocuvm_loop fuel pgdir (u32 (a + PGSIZE)) oldsz
      else mret tt
  end.
Definition deallocuvm (pgdir oldsz newsz : Z) : M vmst Z :=
  if newsz >=? oldsz then mret oldsz
  else
    deallocuvm_loop (S (Z.to_nat (oldsz / PGSIZE + 1))) pgdir (PGROUNDUP newsz) oldsz;;
    mret newsz.

Fixpoint allocuvm_loop (fuel : nat) (pgdir a oldsz newsz : Z) : M vmst Z :=
  match fuel with
  | O => nofuel
  | S fuel =>
      if a <? newsz then
        mem ← kalloc;
        if mem =? 0 then
          deallocuvm pgdir newsz oldsz;; mret 0
        else
          modify (λ s, set_vmem (memset (vmem s) mem 0 PGSIZE) s);;
          r ← mappages pgdir a PGSIZE (V2P mem) (Z.lor PTE_W PTE_U);
          if r <? 0 then
            deallocuvm pgdir newsz oldsz;;
            kfree mem;;
            mret 0
          else allocuvm_loop fuel pgdir (u32 (a + PGSIZE)) oldsz newsz
      else mret newsz
  end.
Definition allocuvm (pgdir oldsz newsz : Z) : M vmst Z :=
  if newsz >=? MMAPBASE then mret 0
  else if newsz <? oldsz then mret oldsz
  else allocuvm_loop (S (Z.to_nat (newsz / PGSIZE + 1))) pgdir (PGROUNDUP oldsz)
         oldsz newsz.

Fixpoint freevm_loop (n : nat) (pgdir i : Z) : M vmst unit :=
  match n with
  | O => mret tt
  | S n =>
      d ← gets (λ s, load32 (vmem s) (pgdir + 4 * i));
      when (present d) (kfree (P2V (PTE_ADDR d)));;
      freevm_loop n pgdir (i + 1)
  end.
Definition freevm (pgdir : Z) : M vmst unit :=
  if pgdir =? 0 then panic "freevm: no pgdir"
  else
    deallocuvm pgdir MMAPBASE 0;;
    freevm_loop (Z.to_nat NPDENTRIES) pgdir 0;;
    kfree pgdir.

(** The kernel's mappings, present in every page table. *)
Record kmap_entry := KMap { k_virt : Z; k_phys_start : Z; k_phys_end : Z; k_perm : Z }.
Definition kmap : list kmap_entry := [
  KMap KERNBASE 0 EXTMEM PTE_W;                      (* I/O space *)
  KMap KERNLINK (V2P KERNLINK) (V2P kdata) 0;        (* kern text+rodata *)
  KMap kdata (V2P kdata) PHYSTOP PTE_W;              (* kern data+memory *)
  KMap DEVSPACE DEVSPACE 0 PTE_W                     (* more devices *)
].

Fixpoint setupkvm_loop (ks : list kmap_entry) (pgdir : Z) : M vmst Z :=
  match ks with
  | [] => mret pgdir
  | k :: ks =>
      r ← mappages pgdir (k_virt k) (u32 (k_phys_end k - k_phys_start k))
            (k_phys_start k) (k_perm k);
      if r <? 0 then freevm pgdir;; mret 0 else setupkvm_loop ks pgdir
  end.
Definition setupkvm : M vmst Z :=
  pgdir ← kalloc;
  if pgdir =? 0 then mret 0
  else
    modify (λ s, set_vmem (memset (vmem s) pgdir 0 PGSIZE) s);;
    if P2V PHYSTOP >? DEVSPACE then panic "PHYSTOP too high"
    else setupkvm_loop kmap pgdir.

(** [init] is the list of the [sz] bytes of the initial program. *)
Definition inituvm (pgdir : Z) (init : list Z) : M vmst unit :=
  if Z.of_nat (length init) >=? PGSIZE then panic "inituvm: more than a page"
  else
    mem ← kalloc;
    modify (λ s, set_vmem (memset (vmem s) mem 0 PGSIZE) s);;
    mappages pgdir 0 PGSIZE (V2P mem) (Z.lor PTE_W PTE_U);;
    modify (λ s, set_vmem (wrbytes (vmem s) mem init) s).

Definition clearpteu (pgdir uva : Z) : M vmst unit :=
  pte ← walkpgdir pgdir uva false;
  if pte =? 0 then panic "clearpteu"
  else modify (λ s, set_vmem (store32 (vmem s) pte
         (Z.land (load32 (vmem s) pte) (Z.lnot PTE_U))) s).

Fixpoint copyuvm_loop (fuel : nat) (pgdir d i sz : Z) : M vmst Z :=
  match fuel with
  | O => nofuel
  | S fuel =>
      if i <? sz then
        pte ← walkpgdir pgdir i false;
        if pte =? 0 then panic "copyuvm: pte should exist"
        else
          v ← gets (λ s, load32 (vmem s) pte);
          if negb (present v) then panic "copyuvm: page not present"
          else
            let pa := PTE_ADDR v in
            let flags := PTE_FLAGS v in
            mem ← kalloc;
            if mem =? 0 then freevm d;; mret 0
            else
              modify (λ s, set_vmem (memmove (vmem s) mem (P2V pa) PGSIZE) s);;
              r ← mappages d i PGSIZE (V2P mem) flags;
              if r <? 0 then kfree mem;; freevm d;; mret 0
              else copyuvm_loop fuel pgdir d (u32 (i + PGSIZE)) sz
      else mret d
  end.
Definition copyuvm (pgdir sz : Z) : M vmst Z :=
  d ← setupkvm;
  if d =? 0 then mret 0
  else copyuvm_loop (S (Z.to_nat (sz / PGSIZE + 1))) pgdir d 0 sz.

(** [uva2ka] dereferences the entry without checking that the table exists. *)
Definition uva2ka (pgdir uva : Z) : M vmst Z :=
  pte ← walkpgdir pgdir uva false;
  if pte =? 0 then undef "uva2ka: null pte"
  else
    v ← gets (λ s, load32 (vmem s) pte);
    if negb (present v) then mret 0
    else if Z.land v PTE_U =? 0 then mret 0
    else mret (P2V (PTE_ADDR v)).

(** [buf] holds the [len] bytes at [p]. *)
Fixpoint copyout_loop (fuel : nat) (pgdir va : Z) (buf : list Z) : M vmst Z :=
  match fuel with
  | O => nofuel
  | S fuel =>
      if Z.of_nat (length buf) >? 0 then
        let va0 := PGROUNDDOWN va in
        pa0 ← uva2ka pgdir va0;
        if pa0 =? 0 then mret (-1)
        else
          let n := Z.min (PGSIZE - (va - va0)) (Z.of_nat (length buf)) in
          modify (λ s, set_vmem (wrbytes (vmem s) (pa0 + (va - va0))
            (take (Z.to_nat n) buf)) s);;
          copyout_loop fuel pgdir (u32 (va0 + PGSIZE)) (drop (Z.to_nat n) buf)
      else mret 0
  end.
Definition copyout (pgdir va : Z) (p : list Z) : M vmst Z :=
  copyout_loop (S (length p)) pgdir va p.

(** ** The abstract view of a page table *)

Definition pde_of (m : memory) (pgdir d : Z) : Z := load32 m (pgdir + 4 * d).
Definition tab_of (m : memory) (pgdir d : Z) : Z := P2V (PTE_ADDR (pde_of m pgdir d)).
(** The entry governing [va]; 0 where there is no table. *)
Definition pte_of (m : memory) (pgdir va : Z) : Z :=
  if present (pde_of m pgdir (PDX va))
  then load32 m (tab_of m pgdir (PDX va) + 4 * PTX va) else 0.

Definition is_table (m : memory) (pgdir v : Z) : Prop :=
  ∃ d, 0 ≤ d < 1024 ∧ present (pde_of m pgdir d) = true ∧ v = tab_of m pgdir d.
(** The pages a page table consists of. *)
Definition pt_page (m : memory) (pgdir v : Z) : Prop := v = pgdir ∨ is_table m pgdir v.

Record pt_ok (m : memory) (pgdir : Z) (free : list Z) : Prop := {
  pt_dir : page pgdir;
  pt_dir_free : pgdir ∉ free;
  pt_tab : ∀ v, is_table m pgdir v → page v ∧ v ≠ pgdir ∧ v ∉ free;
  pt_inj : ∀ d d', 0 ≤ d < 1024 → 0 ≤ d' < 1024 →
    present (pde_of m pgdir d) = true → present (pde_of m pgdir d') = true →
    tab_of m pgdir d = tab_of m pgdir d' → d = d';
}.
End vm.
