(* ===== verification/VmSpec.v ===== *)
(** * Correctness of the page-table operations

    Frame lemmas for page tables, the effect of one walk and of one entry
    store, and from these the specifications of [mappages], [deallocuvm] and
    [allocuvm] over the abstract view [pte_of]. *)

From Stdlib Require Import ZArith Lia.
From stdpp Require Import base numbers strings gmap list.
From S2P Require Import Prelude Mmu Memory Locks Kalloc Vm.

(** ** Entries *)

Lemma present_odd x : present x = Z.odd x.
Proof.
  unfold present, PTE_P, nz. change 1 with (Z.ones 1). rewrite land_low by lia.
  change (2 ^ 1) with 2. rewrite Zmod_odd. by destruct (Z.odd x).
Qed.

Lemma present_lor_P x : present (Z.lor x PTE_P) = true.
Proof.
  rewrite present_odd, <-Z.bit0_odd, Z.lor_spec. apply orb_true_r.
Qed.

Lemma present_0 : present 0 = false.
Proof. done. Qed.

Lemma present_u32 x : present (u32 x) = present x.
Proof.
  rewrite !present_odd. unfold u32. rewrite <-!Z.bit0_odd.
  change 4294967296 with (2 ^ 32). by rewrite Z.mod_pow2_bits_low by lia.
Qed.

Section entries.
Context {L : Linker}.

(** The directory entry [walkpgdir] installs for a new table [t]. *)
Lemma new_pde t :
  page t →
  let e := Z.lor (Z.lor (Z.lor (V2P t) PTE_P) PTE_W) PTE_U in
  present (u32 e) = true ∧ P2V (PTE_ADDR (u32 e)) = t.
Proof.
  intros Hp e. assert (e = Z.lor (V2P t) 7) as ->.
  { unfold e. rewrite <-!Z.lor_assoc. done. }
  pose proof (page_P2V_V2P t Hp) as Hr.
  destruct Hp as (Ha & _ & Hlo & Hhi). unfold KERNBASE, PHYSTOP in *.
  assert (V2P t = t - 2147483648) as E by (apply V2P_eq; unfold KERNBASE; lia).
  split.
  - rewrite present_u32, present_odd, <-Z.bit0_odd, Z.lor_spec. apply orb_true_r.
  - assert (PTE_ADDR (u32 (Z.lor (V2P t) 7)) = V2P t) as ->; [|done].
    unfold PTE_ADDR. rewrite u32_u32. apply PTE_ADDR_lor; rewrite ?E; zlia.
Qed.
End entries.

(** ** Frame lemmas *)

Section frame.
Context {L : Linker}.
Implicit Types (m : memory) (pgdir va v : Z).

(** Memories that agree on page [v]. *)
Definition agree (m m' : memory) (v : Z) : Prop :=
  ∀ a, in_page v a → rd8 m' a = rd8 m a.

Lemma agree_load m m' v i :
  agree m m' v → 0 ≤ i < 1024 → load32 m' (v + 4 * i) = load32 m (v + 4 * i).
Proof. intros H Hi. apply load32_ext. intros. apply H. unfold in_page. lia. Qed.

Lemma agree_pde m m' pgdir d :
  agree m m' pgdir → 0 ≤ d < 1024 → pde_of m' pgdir d = pde_of m pgdir d.
Proof. apply agree_load. Qed.

Lemma agree_tab m m' pgdir d :
  agree m m' pgdir → 0 ≤ d < 1024 → tab_of m' pgdir d = tab_of m pgdir d.
Proof. intros. unfold tab_of. by rewrite (agree_pde m). Qed.

Lemma agree_is_table m m' pgdir v :
  agree m m' pgdir → (is_table m' pgdir v ↔ is_table m pgdir v).
Proof.
  intros H. unfold is_table. split; intros (d & Hd & Hp & ->); exists d.
  - by rewrite <-(agree_pde m m'), <-(agree_tab m m').
  - by rewrite (agree_pde m m'), (agree_tab m m').
Qed.

Lemma agree_pt_page m m' pgdir v :
  agree m m' pgdir → (pt_page m' pgdir v ↔ pt_page m pgdir v).
Proof. intros H. unfold pt_page. by rewrite (agree_is_table m m'). Qed.

(** Addresses on the same page share their entry. *)
Lemma pte_of_same_page m pgdir va va' :
  0 ≤ va < 4294967296 → 0 ≤ va' < 4294967296 → va / 4096 = va' / 4096 →
  pte_of m pgdir va = pte_of m pgdir va'.
Proof.
  intros H H' E. apply same_page_indices in E as [E1 E2]; [|done..].
  unfold pte_of. by rewrite E1, E2.
Qed.

(** Writes outside its pages leave a page table as it is. *)
Lemma pte_of_frame m m' pgdir va :
  (∀ v, pt_page m pgdir v → agree m m' v) → pte_of m' pgdir va = pte_of m pgdir va.
Proof.
  intros H. pose proof (PDX_range va). pose proof (PTX_range va). unfold pte_of.
  assert (agree m m' pgdir) as Hd by (apply H; by left).
  rewrite (agree_pde m) by done. destruct (present _) eqn:E; [|done].
  rewrite (agree_tab m) by done. apply agree_load; [|done].
  apply H. right. by exists (PDX va).
Qed.

Lemma pt_ok_frame m m' pgdir l l' :
  pt_ok m pgdir l → agree m m' pgdir → (∀ v, v ∈ l' → v ∈ l) → pt_ok m' pgdir l'.
Proof.
  intros [H1 H2 H3 H4] Ha Hl. split; [done|by intros ?%Hl| |].
  - intros v Hv. rewrite (agree_is_table m) in Hv by done.
    destruct (H3 v Hv) as (? & ? & Hn). split_and!; [done|done|by intros ?%Hl].
  - intros d d' Hd Hd'.
    rewrite (agree_pde m m' pgdir d), (agree_pde m m' pgdir d'),
      (agree_tab m m' pgdir d), (agree_tab m m' pgdir d') by done. by apply H4.
Qed.

(** The pages of a page table are managed pages, none of them free. *)
Lemma pt_page_page m pgdir l v : pt_ok m pgdir l → pt_page m pgdir v → page v ∧ v ∉ l.
Proof.
  intros [H1 H2 H3 H4] [->|Hv]; [done|]. destruct (H3 v Hv) as (? & ? & ?). done.
Qed.

Lemma agree_outside m m' w v :
  page w → page v → v ≠ w → (∀ a, ¬ in_page w a → rd8 m' a = rd8 m a) → agree m m' v.
Proof.
  intros Hw Hv Hne H a Ha. apply H. intros Hwa. destruct Hne.
  by apply (page_disjoint v w a).
Qed.
End frame.

(** ** Walking *)

Section walk.
Context {L : Linker}.

(** Where the entry for [va] lives. *)
Definition pte_slot (m : memory) (pgdir va : Z) : Z :=
  if present (pde_of m pgdir (PDX va)) then tab_of m pgdir (PDX va) + 4 * PTX va else 0.

Lemma walkpgdir_noalloc pgdir va s :
  walkpgdir pgdir va false s = Ok (pte_slot (vmem s) pgdir va) s.
Proof.
  unfold walkpgdir, pte_slot, tab_of, pde_of. mrun. by destruct (present _).
Qed.

Lemma pte_slot_pos m pgdir va l :
  pt_ok m pgdir l → present (pde_of m pgdir (PDX va)) = true → 0 < pte_slot m pgdir va.
Proof.
  intros Hok Hp. unfold pte_slot. rewrite Hp. pose proof (PTX_range va).
  destruct (pt_tab _ _ _ Hok (tab_of m pgdir (PDX va))) as (Hpg & _).
  - exists (PDX va). split_and!; [apply PDX_range..|done|done].
  - apply page_pos in Hpg. lia.
Qed.

Lemma pte_slot_0 m pgdir va l :
  pt_ok m pgdir l → (pte_slot m pgdir va = 0 ↔ present (pde_of m pgdir (PDX va)) = false).
Proof.
  intros Hok. pose proof (pte_slot_pos m pgdir va l Hok) as Hpos. unfold pte_slot in *.
  destruct (present _); [|done]. specialize (Hpos eq_refl). split; [lia|done].
Qed.

Lemma pte_of_slot m pgdir va :
  present (pde_of m pgdir (PDX va)) = true →
  pte_of m pgdir va = load32 m (pte_slot m pgdir va).
Proof. unfold pte_of, pte_slot. by intros ->. Qed.

(** How an operation that may take pages from the free list extends a page
    table: the free list loses a prefix, existing tables stay where they are,
    new tables are pages that were free, and nothing outside the page table
    and the pages taken changes. *)
Record pt_ext (pgdir : Z) (m : memory) (l : list Z) (m' : memory) (l' : list Z) : Prop := {
  ext_suffix : ∃ t, l = t ++ l';
  ext_pde : ∀ d, 0 ≤ d < 1024 → present (pde_of m pgdir d) = true →
    pde_of m' pgdir d = pde_of m pgdir d;
  ext_new : ∀ v, is_table m' pgdir v → is_table m pgdir v ∨ v ∈ l ∧ v ∉ l';
  ext_frame : ∀ a, (∀ v, pt_page m pgdir v → ¬ in_page v a) →
    (∀ v, v ∈ l → v ∉ l' → ¬ in_page v a) → rd8 m' a = rd8 m a;
}.

Lemma pt_ext_refl pgdir m l : pt_ext pgdir m l m l.
Proof. split; try done; [by exists []|by left]. Qed.

Lemma pt_ext_is_table pgdir m l m' l' v :
  pt_ext pgdir m l m' l' → is_table m pgdir v → is_table m' pgdir v.
Proof.
  intros He (d & Hd & Hp & ->). exists d. unfold tab_of.
  rewrite !(ext_pde _ _ _ _ _ He) by done. done.
Qed.

Lemma pt_ext_pt_page pgdir m l m' l' v :
  pt_ext pgdir m l m' l' → pt_page m' pgdir v → pt_page m pgdir v ∨ v ∈ l ∧ v ∉ l'.
Proof.
  intros He [->|Hv]; [by left; left|].
  destruct (ext_new _ _ _ _ _ He v Hv); [left; by right|by right].
Qed.

Lemma pt_ext_mem_sub pgdir m l m' l' v : pt_ext pgdir m l m' l' → v ∈ l' → v ∈ l.
Proof. intros He Hv. destruct (ext_suffix _ _ _ _ _ He) as [t ->]. set_solver. Qed.

Lemma pt_ext_trans pgdir m l m1 l1 m2 l2 :
  pt_ext pgdir m l m1 l1 → pt_ext pgdir m1 l1 m2 l2 → pt_ext pgdir m l m2 l2.
Proof.
  intros H1 H2. split.
  - destruct (ext_suffix _ _ _ _ _ H1) as [t1 ->].
    destruct (ext_suffix _ _ _ _ _ H2) as [t2 ->]. exists (t1 ++ t2). by rewrite app_assoc.
  - intros d Hd Hp. rewrite (ext_pde _ _ _ _ _ H2); [by apply (ext_pde _ _ _ _ _ H1)|done|].
    by rewrite (ext_pde _ _ _ _ _ H1).
  - intros v Hv. destruct (ext_new _ _ _ _ _ H2 v Hv) as [Hv1|[Hv1 Hn]].
    + destruct (ext_new _ _ _ _ _ H1 v Hv1) as [?|[??]]; [by left|right].
      split; [done|]. by intros ?%(pt_ext_mem_sub _ _ _ _ _ _ H2).
    + right. split; [by eapply pt_ext_mem_sub|done].
  - intros a Ha Hl. rewrite (ext_frame _ _ _ _ _ H2).
    + apply (ext_frame _ _ _ _ _ H1); [done|].
      intros v Hv Hn. apply Hl; [done|]. by intros ?%(pt_ext_mem_sub _ _ _ _ _ _ H2).
    + intros v Hv. destruct (pt_ext_pt_page _ _ _ _ _ _ H1 Hv) as [?|[??]]; [by apply Ha|].
      apply Hl; [done|]. by intros ?%(pt_ext_mem_sub _ _ _ _ _ _ H2).
    + intros v Hv Hn. apply Hl; [by eapply pt_ext_mem_sub|done].
Qed.

(** Every page that was free still is, or has become a table. *)
Definition pt_noleak (pgdir : Z) (l : list Z) (m' : memory) (l' : list Z) : Prop :=
  ∀ v, v ∈ l → v ∈ l' ∨ is_table m' pgdir v.

Lemma pt_noleak_trans pgdir l m1 l1 m2 l2 :
  pt_noleak pgdir l m1 l1 → pt_ext pgdir m1 l1 m2 l2 → pt_noleak pgdir l1 m2 l2 →
  pt_noleak pgdir l m2 l2.
Proof.
  intros H1 He H2 v Hv. destruct (H1 v Hv) as [Hv1|Ht]; [by apply H2|].
  right. by eapply pt_ext_is_table.
Qed.

(** Memory after a zeroed page [t] is installed as table [d]. *)
Lemma new_table_mem m pgdir d t e :
  page pgdir → page t → t ≠ pgdir → 0 ≤ d < 1024 →
  let m2 := store32 (memset m t 0 PGSIZE) (pgdir + 4 * d) e in
  pde_of m2 pgdir d = u32 e ∧
  (∀ d', 0 ≤ d' < 1024 → d' ≠ d → pde_of m2 pgdir d' = pde_of m pgdir d') ∧
  (∀ i, 0 ≤ i < 1024 → load32 m2 (t + 4 * i) = 0) ∧
  (∀ a, ¬ in_page pgdir a → ¬ in_page t a → rd8 m2 a = rd8 m a).
Proof.
  intros Hd Ht Hne Hr m2. unfold m2, pde_of, page, in_page, PGSIZE in *.
  assert (t + 4096 ≤ pgdir ∨ pgdir + 4096 ≤ t) as Hdis by zlia.
  split_and!.
  - apply load32_store32_eq.
  - intros d' Hd' Hn. rewrite load32_store32_ne by lia.
    apply load32_memset_out; lia.
  - intros i Hi. rewrite load32_store32_ne by lia. apply load32_memset0_in; lia.
  - intros a Ha1 Ha2. rewrite rd8_store32_ne by lia. rewrite rd8_memset by lia.
    by rewrite decide_False by lia.
Qed.

(** Installing a new table gives a well-formed page table with the same
    entries. *)
Lemma new_table_ok m pgdir va t l :
  pt_ok m pgdir (t :: l) → page t → t ∉ l →
  present (pde_of m pgdir (PDX va)) = false →
  let m2 := store32 (memset m t 0 PGSIZE) (pgdir + 4 * PDX va)
    (Z.lor (Z.lor (Z.lor (V2P t) PTE_P) PTE_W) PTE_U) in
  pt_ok m2 pgdir l ∧ pt_ext pgdir m (t :: l) m2 l ∧
  (∀ va', pte_of m2 pgdir va' = pte_of m pgdir va') ∧
  present (pde_of m2 pgdir (PDX va)) = true ∧ tab_of m2 pgdir (PDX va) = t.
Proof.
  intros Hok Ht Htl Hp m2.
  assert (t ≠ pgdir) as Hne by (pose proof (pt_dir_free _ _ _ Hok); set_solver).
  destruct (new_table_mem m pgdir (PDX va) t
    (Z.lor (Z.lor (Z.lor (V2P t) PTE_P) PTE_W) PTE_U)) as (H1 & H2 & H3 & H4);
    [apply (pt_dir _ _ _ Hok)|done|done|apply PDX_range|]. fold m2 in H1, H2, H3, H4.
  destruct (new_pde t Ht) as [Hpr Htab]. rewrite <-H1 in Hpr, Htab.
  assert (Htbl : ∀ v, is_table m2 pgdir v ↔ is_table m pgdir v ∨ v = t).
  { intros v. split.
    - intros (d & Hd & Hpd & ->). destruct (decide (d = PDX va)) as [->|Hnd]; [by right|].
      left. exists d. unfold tab_of. by rewrite <-(H2 d).
    - intros [(d & Hd & Hpd & ->)| ->].
      + assert (d ≠ PDX va) by congruence. exists d. unfold tab_of. by rewrite (H2 d).
      + exists (PDX va). split_and!; [apply PDX_range..|done|done]. }
  assert (Htn : ∀ v, is_table m pgdir v → v ≠ t).
  { intros v Hv ->. destruct (pt_tab _ _ _ Hok t Hv) as (_ & _ & Hn). set_solver. }
  split_and!; [| | |done|done].
  - split.
    + apply (pt_dir _ _ _ Hok).
    + pose proof (pt_dir_free _ _ _ Hok). set_solver.
    + intros v [Hv| ->]%Htbl; [|done].
      destruct (pt_tab _ _ _ Hok v Hv) as (? & ? & ?). set_solver.
    + intros d d' Hd Hd'. destruct (decide (d = PDX va)) as [->|Hn],
        (decide (d' = PDX va)) as [->|Hn']; [done| | |].
      * intros _ Hp' He. destruct (Htn t); [|done]. exists d'.
        unfold tab_of in *. rewrite <-(H2 d') by done. by rewrite <-He.
      * intros Hp' _ He. destruct (Htn t); [|done]. exists d.
        unfold tab_of in *. rewrite <-(H2 d) by done. by rewrite He.
      * unfold tab_of. rewrite (H2 d), (H2 d') by done. by apply (pt_inj _ _ _ Hok).
  - split.
    + by exists [t].
    + intros d Hd Hpd. apply H2; [done|congruence].
    + intros v [Hv| ->]%Htbl; [by left|right]. set_solver.
    + intros a Ha Hl. apply H4; [apply Ha; by left|].
      apply Hl; [by left|done].
  - intros va'. unfold pte_of. pose proof (PDX_range va'). pose proof (PTX_range va').
    destruct (decide (PDX va' = PDX va)) as [->|Hn].
    + rewrite Hpr, Hp. unfold tab_of. rewrite Htab. by apply H3.
    + unfold tab_of. rewrite (H2 (PDX va')) by done.
      destruct (present (pde_of m pgdir (PDX va'))) eqn:E; [|done].
      assert (Hv : is_table m pgdir (tab_of m pgdir (PDX va'))) by (by exists (PDX va')).
      destruct (pt_tab _ _ _ Hok _ Hv) as (Hpg & Hnd & _).
      apply (agree_load m m2); [|done]. intros a Ha. apply H4.
      * intros Ha'. destruct Hnd. eapply page_disjoint; eauto using pt_dir.
      * intros Ha'. destruct (Htn _ Hv). by eapply page_disjoint.
Qed.

(** [walkpgdir] with [alloc]: no entry changes, and a non-null result is the
    slot of the entry for [va]; it is null only when memory is exhausted. *)
Lemma walkpgdir_alloc pgdir va s l :
  free_pages s l → pt_ok (vmem s) pgdir l →
  ∃ r s' l', walkpgdir pgdir va true s = Ok r s' ∧ free_pages s' l' ∧
    pt_ok (vmem s') pgdir l' ∧ pt_ext pgdir (vmem s) l (vmem s') l' ∧
    pt_noleak pgdir l (vmem s') l' ∧
    (∀ va', pte_of (vmem s') pgdir va' = pte_of (vmem s) pgdir va') ∧
    use_lock (kmem s') = use_lock (kmem s) ∧
    (r = 0 ∧ l = [] ∧ s' = s ∨
     present (pde_of (vmem s') pgdir (PDX va)) = true ∧ r = pte_slot (vmem s') pgdir va).
Proof.
  intros Hf Hok. unfold walkpgdir. mrun. fold (pde_of (vmem s) pgdir (PDX va)).
  destruct (present (pde_of (vmem s) pgdir (PDX va))) eqn:Hp; simpl.
  { eexists _, s, l. split_and!; try done; [apply pt_ext_refl|by left|].
    right. split; [done|]. unfold pte_slot. by rewrite Hp. }
  destruct l as [|t l].
  { rewrite (bind_ok _ _ _ _ _ (kalloc_nil s Hf)). simpl. exists 0, s, [].
    split_and!; try done; [apply pt_ext_refl|by left|by left]. }
  destruct (kalloc_cons s t l Hf) as (s1 & E1 & Hf1 & Hm1 & Hu1).
  mstep E1.
  assert (page t ∧ t ∉ l) as [Ht Htl].
  { destruct Hf as (_ & Hnd & Hpg & _). apply list.NoDup_cons in Hnd.
    apply Forall_cons in Hpg. naive_solver. }
  destruct (Z.eqb_spec t 0) as [->|_]; [apply page_pos in Ht; lia|].
  mrun. simpl. rewrite Hm1.
  destruct (new_table_ok (vmem s) pgdir va t l) as (Hok2 & He & Hpte & Hpr & Htab); try done.
  eexists _, _, l. split; [reflexivity|]. simpl. split_and!; try done.
  - assert (Hds : ∀ v, v ∈ l → page v ∧ v ≠ t ∧ v ≠ pgdir).
    { intros v Hv. destruct Hf1 as (_ & _ & Hpl & _). rewrite Forall_forall in Hpl.
      pose proof (pt_dir_free _ _ _ Hok). split_and!; [by apply Hpl|set_solver..]. }
    apply (free_pages_frame s1 _ l Hf1). intros v a Hv Hva. rewrite Hm1.
    destruct (Hds v Hv) as (Hpv & Hvt & Hvd). apply (ext_frame _ _ _ _ _ He).
    + intros w Hw Hwa. destruct (pt_page_page _ _ _ _ Hok Hw) as [Hpw Hwl].
      assert (v = w) as -> by (by eapply page_disjoint). set_solver.
    + intros w Hw Hn Hwa. assert (w = t) as -> by set_solver.
      destruct Hvt. by eapply page_disjoint.
  - intros v [->|Hv]%elem_of_cons; [right|by left].
    exists (PDX va). split_and!; [apply PDX_range..|done|done].
  - right. split; [done|]. unfold pte_slot. by rewrite Hpr, Htab.
Qed.

(** Storing the entry for [va] in its slot. *)
Lemma store_pte s l pgdir va e :
  free_pages s l → pt_ok (vmem s) pgdir l → 0 ≤ va < 4294967296 →
  present (pde_of (vmem s) pgdir (PDX va)) = true →
  let s' := set_vmem (store32 (vmem s) (pte_slot (vmem s) pgdir va) e) s in
  free_pages s' l ∧ pt_ok (vmem s') pgdir l ∧ pt_ext pgdir (vmem s) l (vmem s') l ∧
  (∀ va', 0 ≤ va' < 4294967296 → pte_of (vmem s') pgdir va' =
    if decide (va' / 4096 = va / 4096) then u32 e else pte_of (vmem s) pgdir va').
Proof.
  intros Hf Hok Hva Hp s'. set (t := tab_of (vmem s) pgdir (PDX va)).
  pose proof (PDX_range va) as Hd. pose proof (PTX_range va) as Hx.
  assert (Ht : is_table (vmem s) pgdir t) by (by exists (PDX va)).
  destruct (pt_tab _ _ _ Hok _ Ht) as (Hpt & Htd & Htl).
  assert (E : pte_slot (vmem s) pgdir va = t + 4 * PTX va)
    by (unfold pte_slot; by rewrite Hp).
  assert (Hfr : ∀ a, ¬ in_page t a → rd8 (vmem s') a = rd8 (vmem s) a).
  { intros a Ha. simpl. rewrite E. apply rd8_store32_ne. unfold in_page in Ha. lia. }
  assert (Ha : ∀ v, page v → v ≠ t → agree (vmem s) (vmem s') v).
  { intros v Hv Hn. by apply (agree_outside _ _ t). }
  assert (Hda : agree (vmem s) (vmem s') pgdir) by (apply Ha; [apply (pt_dir _ _ _ Hok)|done]).
  split_and!.
  - apply free_pages_frame; [done|]. intros v a Hv Hva'. apply (Ha v); [|set_solver|done].
    destruct Hf as (_ & _ & Hpl & _). rewrite Forall_forall in Hpl. by apply Hpl.
  - by apply (pt_ok_frame (vmem s) _ _ l).
  - split; [by exists []| | |].
    + intros d Hd' _. by apply agree_pde.
    + intros v Hv. left. by rewrite <-(agree_is_table _ _ _ _ Hda).
    + intros a Hpa _. apply Hfr, Hpa. by right.
  - intros va' Hva'. pose proof (PDX_range va'). pose proof (PTX_range va').
    unfold pte_of. rewrite (agree_pde (vmem s)), (agree_tab (vmem s)) by done.
    case_decide as Hsame.
    + apply same_page_indices in Hsame as [-> ->]; [|done..]. rewrite Hp. fold t.
      simpl. rewrite E. apply load32_store32_eq.
    + destruct (present (pde_of (vmem s) pgdir (PDX va'))) eqn:Hp'; [|done].
      destruct (decide (PDX va' = PDX va)) as [Hdx|Hdx].
      * rewrite Hdx. fold t. simpl. rewrite E. apply load32_store32_ne.
        assert (PTX va' ≠ PTX va); [|lia].
        intros Hpx. destruct Hsame. by apply same_page_indices.
      * apply (agree_load (vmem s)); [|done].
        assert (Hv : is_table (vmem s) pgdir (tab_of (vmem s) pgdir (PDX va')))
          by (by exists (PDX va')).
        apply Ha; [apply (pt_tab _ _ _ Hok _ Hv)|].
        intros Heq. destruct Hdx. by apply (pt_inj _ _ _ Hok).
Qed.
End walk.

(** ** Mapping pages *)

Section mappages.
Context {L : Linker}.

Definition pte_entry (pa perm : Z) : Z := Z.lor (Z.lor pa perm) PTE_P.

Lemma lor_range a b k : 0 ≤ k → 0 ≤ a < 2 ^ k → 0 ≤ b < 2 ^ k → 0 ≤ Z.lor a b < 2 ^ k.
Proof.
  intros Hk Ha Hb. split; [apply Z.lor_nonneg; lia|].
  destruct (decide (Z.lor a b = 0)) as [->|Hn]; [lia|].
  assert (0 < Z.lor a b) by (pose proof (proj2 (Z.lor_nonneg a b)); lia).
  apply Z.log2_lt_pow2; [done|]. rewrite Z.log2_lor by lia.
  destruct (decide (a = 0)) as [->|]; [|destruct (decide (b = 0)) as [->|]].
  - rewrite Z.max_r by (apply Z.log2_nonneg). apply Z.log2_lt_pow2; [|lia].
    rewrite Z.lor_0_l in Hn. lia.
  - rewrite Z.max_l by (apply Z.log2_nonneg). apply Z.log2_lt_pow2; lia.
  - apply Z.max_lub_lt; apply Z.log2_lt_pow2; lia.
Qed.

Lemma pte_entry_range pa perm :
  0 ≤ pa < 4294967296 → 0 ≤ perm < 4096 → 0 ≤ pte_entry pa perm < 4294967296.
Proof.
  intros. unfold pte_entry, PTE_P. change 4294967296 with (2 ^ 32) in *.
  apply lor_range; [lia|apply lor_range; lia|lia].
Qed.

Lemma pte_entry_present pa perm : present (pte_entry pa perm) = true.
Proof. apply present_lor_P. Qed.

Lemma pte_entry_addr pa perm :
  0 ≤ pa < 4294967296 → pa mod 4096 = 0 → 0 ≤ perm < 4096 →
  PTE_ADDR (pte_entry pa perm) = pa ∧
  PTE_FLAGS (pte_entry pa perm) = Z.lor perm PTE_P.
Proof.
  intros Hp Ha Hf. unfold pte_entry. rewrite <-Z.lor_assoc.
  assert (0 ≤ Z.lor perm PTE_P < 4096).
  { change 4096 with (2 ^ 12) in *. unfold PTE_P. apply lor_range; lia. }
  split; [by apply PTE_ADDR_lor|by apply PTE_FLAGS_lor].
Qed.

(** The view after [k] pages from [a] have been mapped to [pa] onwards. *)
Definition mapped_range (m m' : memory) (pgdir a pa perm k : Z) : Prop :=
  ∀ va, 0 ≤ va < 4294967296 → pte_of m' pgdir va =
    if decide (a / 4096 ≤ va / 4096 < a / 4096 + k)
    then pte_entry (pa + 4096 * (va / 4096 - a / 4096)) perm
    else pte_of m pgdir va.

Lemma mapped_range_cons m m1 m2 pgdir a pa perm k :
  0 ≤ k → 0 ≤ a → a + 4096 < 4294967296 →
  (∀ va, 0 ≤ va < 4294967296 → pte_of m1 pgdir va =
    if decide (va / 4096 = a / 4096) then pte_entry pa perm else pte_of m pgdir va) →
  mapped_range m1 m2 pgdir (a + 4096) (pa + 4096) perm k →
  mapped_range m m2 pgdir a pa perm (k + 1).
Proof.
  intros Hk Ha Ha' H1 H2 va Hva. rewrite H2, H1 by done.
  assert ((a + 4096) / 4096 = a / 4096 + 1) as -> by zlia.
  repeat case_decide; try lia; [|f_equal; lia..]; f_equal; lia.
Qed.

Lemma mappages_loop_spec fuel pgdir a pa perm n s l :
  free_pages s l → pt_ok (vmem s) pgdir l →
  (Z.to_nat n < fuel)%nat → 0 ≤ n → 0 ≤ a → a + 4096 * n < 4294967296 →
  0 ≤ pa → pa + 4096 * n < 4294967296 → 0 ≤ perm < 4096 →
  (∀ i, 0 ≤ i ≤ n → present (pte_of (vmem s) pgdir (a + 4096 * i)) = false) →
  ∃ r s' l' k, mappages_loop fuel pgdir a (a + 4096 * n) pa perm s = Ok r s' ∧
    free_pages s' l' ∧ pt_ok (vmem s') pgdir l' ∧
    pt_ext pgdir (vmem s) l (vmem s') l' ∧ pt_noleak pgdir l (vmem s') l' ∧
    use_lock (kmem s') = use_lock (kmem s) ∧
    mapped_range (vmem s) (vmem s') pgdir a pa perm k ∧
    (r = 0 ∧ k = n + 1 ∨ r = -1 ∧ 0 ≤ k ≤ n ∧ l' = []).
Proof.
  revert a pa n s l. induction fuel as [|fuel IH];
    intros a pa n s l Hf Hok Hfuel Hn Ha Ha' Hpa Hpa' Hperm Hnp; [lia|].
  simpl mappages_loop.
  destruct (walkpgdir_alloc pgdir a s l) as
    (r & s1 & l1 & E1 & Hf1 & Hok1 & He1 & Hnl1 & Hpte1 & Hu1 & Hr); [done..|].
  mstep E1. destruct Hr as [(-> & -> & ->)|[Hp1 ->]].
  { exists (-1), s, l1, 0. split_and!; try done.
    - intros va Hva. by rewrite decide_False by lia.
    - right. split_and!; try lia.
      destruct (ext_suffix _ _ _ _ _ He1) as [t Ht]. by destruct t, l1. }
  pose proof (pte_slot_pos _ _ _ _ Hok1 Hp1) as Hpos.
  destruct (Z.eqb_spec (pte_slot (vmem s1) pgdir a) 0); [lia|].
  mrun. rewrite <-pte_of_slot by done.
  pose proof (Hnp 0 ltac:(lia)) as Hnp0. rewrite Z.mul_0_r, Z.add_0_r in Hnp0.
  rewrite Hpte1, Hnp0.
  mrun. fold (pte_entry pa perm).
  destruct (store_pte s1 l1 pgdir a (pte_entry pa perm)) as (Hf2 & Hok2 & He2 & Hpte2);
    [done|done|lia|done|].
  set (s2 := set_vmem _ s1) in *.
  pose proof (pt_ext_trans _ _ _ _ _ _ _ He1 He2) as He.
  assert (Hnl : pt_noleak pgdir l (vmem s2) l1).
  { eapply pt_noleak_trans; [done|done|by left]. }
  assert (Hpte : ∀ va, 0 ≤ va < 4294967296 → pte_of (vmem s2) pgdir va =
    if decide (va / 4096 = a / 4096) then pte_entry pa perm
    else pte_of (vmem s) pgdir va).
  { intros va Hva. rewrite Hpte2 by done.
    rewrite (u32_small (pte_entry pa perm)) by (apply pte_entry_range; lia).
    by rewrite Hpte1. }
  destruct (Z.eqb_spec a (a + 4096 * n)) as [Hlast|Hlast].
  { exists 0, s2, l1, 1. split_and!; try done; [|left; lia].
    intros va Hva. rewrite Hpte by done.
    repeat case_decide; try lia; f_equal; lia. }
  assert (u32 (a + PGSIZE) = a + 4096) as -> by (apply u32_small; unfold PGSIZE; lia).
  assert (u32 (pa + PGSIZE) = pa + 4096) as -> by (apply u32_small; unfold PGSIZE; lia).
  replace (a + 4096 * n) with (a + 4096 + 4096 * (n - 1)) by lia.
  destruct (IH (a + 4096) (pa + 4096) (n - 1) s2 l1) as
    (r & s3 & l3 & k & E3 & Hf3 & Hok3 & He3 & Hnl3 & Hu3 & Hm3 & Hr); try done; try lia.
  { intros i Hi. rewrite Hpte by lia. rewrite decide_False by zlia.
    replace (a + 4096 + 4096 * i) with (a + 4096 * (i + 1)) by lia. apply Hnp. lia. }
  exists r, s3, l3, (k + 1). split_and!; try done.
  - by eapply pt_ext_trans.
  - by eapply pt_noleak_trans.
  - by rewrite Hu3.
  - apply (mapped_range_cons _ (vmem s2)); try done; lia.
  - destruct Hr as [[-> ->]|(-> & ? & ->)]; [left; lia|right; split_and!; lia || done].
Qed.

(** [mappages] over a page-aligned range of whole pages. *)
Lemma mappages_spec pgdir va pa perm n s l :
  free_pages s l → pt_ok (vmem s) pgdir l →
  0 < n → 0 ≤ va → va mod 4096 = 0 → va + 4096 * n ≤ 4294967296 →
  0 ≤ pa → pa + 4096 * n ≤ 4294967296 → 0 ≤ perm < 4096 →
  (∀ i, 0 ≤ i < n → present (pte_of (vmem s) pgdir (va + 4096 * i)) = false) →
  ∃ r s' l' k, mappages pgdir va (4096 * n) pa perm s = Ok r s' ∧
    free_pages s' l' ∧ pt_ok (vmem s') pgdir l' ∧
    pt_ext pgdir (vmem s) l (vmem s') l' ∧ pt_noleak pgdir l (vmem s') l' ∧
    use_lock (kmem s') = use_lock (kmem s) ∧
    mapped_range (vmem s) (vmem s') pgdir va pa perm k ∧
    (r = 0 ∧ k = n ∨ r = -1 ∧ 0 ≤ k < n ∧ l' = []).
Proof.
  intros Hf Hok Hn Hva Hal Hva' Hpa Hpa' Hperm Hnp. unfold mappages.
  assert (PGROUNDDOWN va = va) as -> by (apply PGROUNDDOWN_id; lia).
  assert (PGROUNDDOWN (u32 (va + 4096 * n - 1)) = va + 4096 * (n - 1)) as ->.
  { rewrite PGROUNDDOWN_eq, u32_u32, u32_small by lia. zlia. }
  destruct (mappages_loop_spec
    (S (Z.to_nat (u32 (va + 4096 * (n - 1) - va) / PGSIZE))) pgdir va pa perm (n - 1) s l)
    as (r & s' & l' & k & E & H); try done; try lia.
  - rewrite u32_small by lia. unfold PGSIZE. zlia.
  - intros i Hi. apply Hnp. lia.
  - exists r, s', l', k. split; [done|].
    destruct H as (? & ? & ? & ? & ? & ? & Hr). split_and!; try done.
    destruct Hr as [[-> ->]|(-> & ? & ->)]; [left; lia|right; split_and!; lia || done].
Qed.

(** [mappages] refuses to map a page that is already mapped. *)
Lemma mappages_remap pgdir va size pa perm s l :
  free_pages s l → pt_ok (vmem s) pgdir l → 0 ≤ va < 4294967296 → va mod 4096 = 0 →
  present (pte_of (vmem s) pgdir va) = true →
  mappages pgdir va size pa perm s = Panic "remap".
Proof.
  intros Hf Hok Hva Hal Hp. unfold mappages. rewrite (PGROUNDDOWN_id va) by done.
  simpl mappages_loop.
  destruct (walkpgdir_alloc pgdir va s l) as
    (r & s1 & l1 & E1 & Hf1 & Hok1 & He1 & Hnl1 & Hpte1 & Hu1 & Hr); [done..|].
  mstep E1. destruct Hr as [(-> & -> & ->)|[Hp1 ->]].
  - exfalso. revert E1. unfold walkpgdir. mrun. unfold pte_of in Hp.
    fold (pde_of (vmem s) pgdir (PDX va)).
    destruct (present (pde_of (vmem s) pgdir (PDX va))) eqn:Hpd; [|done].
    intros [= Hz]. pose proof (pte_slot_pos _ _ va _ Hok Hpd) as Hpos.
    unfold pte_slot in Hpos. rewrite Hpd in Hpos. unfold tab_of in Hpos. lia.
  - pose proof (pte_slot_pos _ _ _ _ Hok1 Hp1).
    destruct (Z.eqb_spec (pte_slot (vmem s1) pgdir va) 0); [lia|].
    mrun. rewrite <-pte_of_slot, Hpte1, Hp by done. done.
Qed.
End mappages.

(** ** Unmapping pages *)

Section dealloc.
Context {L : Linker}.

(** The kernel address of the physical page [va] is mapped to. *)
Definition frame_of (m : memory) (pgdir va : Z) : Z := P2V (PTE_ADDR (pte_of m pgdir va)).
(** [va] is the address of a mapped page. *)
Definition mapped (m : memory) (pgdir va : Z) : Prop :=
  va mod 4096 = 0 ∧ present (pte_of m pgdir va) = true.

(** The pages mapped between [a] and [b] are private to this range: managed
    pages, not free, not part of the page table, and mapped only once. *)
Record user_ok (m : memory) (pgdir : Z) (l : list Z) (a b : Z) : Prop := {
  uo_page : ∀ va, a ≤ va < b → mapped m pgdir va →
    page (frame_of m pgdir va) ∧ (frame_of m pgdir va ∉ l) ∧
    ¬ pt_page m pgdir (frame_of m pgdir va);
  uo_inj : ∀ va va', a ≤ va < b → a ≤ va' < b → mapped m pgdir va → mapped m pgdir va' →
    frame_of m pgdir va = frame_of m pgdir va' → va = va';
}.

(** The view after the pages between [a] and [b] have been unmapped. *)
Definition unmapped_range (m m' : memory) (pgdir a b : Z) : Prop :=
  ∀ va, 0 ≤ va < 4294967296 → pte_of m' pgdir va =
    if decide (a ≤ va - va mod 4096 < b ∧ present (pte_of m pgdir va) = true) then 0
    else pte_of m pgdir va.

(** What an operation does that only frees the pages [freed]. *)
Record pt_shrink (pgdir : Z) (m m' : memory) (freed : list Z) : Prop := {
  shr_dir : agree m m' pgdir;
  shr_frame : ∀ a, (∀ v, pt_page m pgdir v → ¬ in_page v a) →
    (∀ v, v ∈ freed → ¬ in_page v a) → rd8 m' a = rd8 m a;
}.

Lemma shrink_pt_page pgdir m m' freed v :
  pt_shrink pgdir m m' freed → (pt_page m' pgdir v ↔ pt_page m pgdir v).
Proof. intros [Hd _]. by apply agree_pt_page. Qed.

Lemma pt_shrink_trans pgdir m m1 m2 f1 f2 :
  pt_shrink pgdir m m1 f1 → pt_shrink pgdir m1 m2 f2 → pt_shrink pgdir m m2 (f2 ++ f1).
Proof.
  intros H1 H2. split.
  - intros a Ha. rewrite (shr_dir _ _ _ _ H2), (shr_dir _ _ _ _ H1); done.
  - intros a Ha Hf. rewrite (shr_frame _ _ _ _ H2), (shr_frame _ _ _ _ H1); [done|done| | |].
    + intros v Hv. apply Hf. set_solver.
    + intros v Hv. apply Ha. by apply (shrink_pt_page _ _ _ _ _ H1).
    + intros v Hv. apply Hf. set_solver.
Qed.

Lemma pt_ok_cons m pgdir l v :
  pt_ok m pgdir l → ¬ pt_page m pgdir v → pt_ok m pgdir (v :: l).
Proof.
  intros [H1 H2 H3 H4] Hv. split; [done| | |done].
  - intros [->|?]%elem_of_cons; [by destruct Hv; left|done].
  - intros w Hw. destruct (H3 w Hw) as (? & ? & ?). split_and!; [done|done|].
    intros [->|?]%elem_of_cons; [by destruct Hv; right|done].
Qed.

(** One page: [kfree] of the frame, then the entry is cleared. *)
Lemma unmap_one pgdir va s l :
  free_pages s l → pt_ok (vmem s) pgdir l → 0 ≤ va < 4294967296 →
  present (pte_of (vmem s) pgdir va) = true →
  let v := frame_of (vmem s) pgdir va in
  page v → v ∉ l → ¬ pt_page (vmem s) pgdir v →
  ∃ s1, kfree v s = Ok tt s1 ∧
    let s2 := set_vmem (store32 (vmem s1) (pte_slot (vmem s) pgdir va) 0) s1 in
    free_pages s2 (v :: l) ∧ pt_ok (vmem s2) pgdir (v :: l) ∧
    pt_shrink pgdir (vmem s) (vmem s2) [v] ∧ use_lock (kmem s2) = use_lock (kmem s) ∧
    (∀ va', 0 ≤ va' < 4294967296 → pte_of (vmem s2) pgdir va' =
      if decide (va' / 4096 = va / 4096) then 0 else pte_of (vmem s) pgdir va').
Proof.
  intros Hf Hok Hva Hp v Hpv Hvl Hvp.
  destruct (kfree_page s v l) as (s1 & E1 & Hf1 & Hm1 & Hu1); [done..|].
  assert (Ha : ∀ w, pt_page (vmem s) pgdir w → agree (vmem s) (vmem s1) w).
  { intros w Hw. destruct (pt_page_page _ _ _ _ Hok Hw).
    apply (agree_outside _ _ v); [done..| |done]. by intros ->. }
  assert (Hda : agree (vmem s) (vmem s1) pgdir) by (apply Ha; by left).
  assert (Hpd : present (pde_of (vmem s) pgdir (PDX va)) = true).
  { unfold pte_of in Hp. by destruct (present (pde_of _ _ _)). }
  assert (Hok1 : pt_ok (vmem s1) pgdir (v :: l)).
  { eapply pt_ok_frame; [by apply pt_ok_cons|done|done]. }
  pose proof (PDX_range va).
  assert (Hslot : pte_slot (vmem s1) pgdir va = pte_slot (vmem s) pgdir va).
  { unfold pte_slot. by rewrite (agree_pde (vmem s)), (agree_tab (vmem s)). }
  destruct (store_pte s1 (v :: l) pgdir va 0) as (Hf2 & Hok2 & He2 & Hpte2);
    [done|done|done|by rewrite (agree_pde (vmem s))|].
  rewrite Hslot in *. exists s1. split; [done|]. simpl. split_and!; try done.
  - split.
    + intros a Hin. rewrite <-(Hda a Hin). apply (agree_outside _ _
        (tab_of (vmem s) pgdir (PDX va))) with (v := pgdir); [| | | |done].
      * eapply (pt_tab _ _ _ Hok). by exists (PDX va).
      * apply (pt_dir _ _ _ Hok).
      * intros Heq. destruct (pt_tab _ _ _ Hok (tab_of (vmem s) pgdir (PDX va)))
          as (_ & Hne & _); [by exists (PDX va)|]. done.
      * intros b Hb. unfold pte_slot. rewrite Hpd. apply rd8_store32_ne.
        unfold in_page in Hb. pose proof (PTX_range va). lia.
    + intros a Hna Hnf. rewrite <-(Hm1 a) by (apply Hnf; by left).
      apply (ext_frame _ _ _ _ _ He2); [|done].
      intros w Hw. apply Hna. by apply (agree_pt_page _ _ _ _ Hda).
  - intros va' Hva'. rewrite Hpte2 by done. case_decide; [done|].
    by apply pte_of_frame.
Qed.

(** Weakening the range and changing memory outside it. *)
Lemma user_ok_step m m2 pgdir l v a b :
  user_ok m pgdir l a b → 0 ≤ a → b ≤ 4294967296 → a mod 4096 = 0 → a < b →
  mapped m pgdir a → v = frame_of m pgdir a →
  pt_shrink pgdir m m2 [v] →
  (∀ va, 0 ≤ va < 4294967296 → pte_of m2 pgdir va =
    if decide (va / 4096 = a / 4096) then 0 else pte_of m pgdir va) →
  user_ok m2 pgdir (v :: l) (a + 4096) b.
Proof.
  intros [H1 H2] Ha Hb Hal Hab Hma -> Hs Hpte.
  assert (Hsame : ∀ va, a + 4096 ≤ va < b → pte_of m2 pgdir va = pte_of m pgdir va).
  { intros va Hva. rewrite Hpte by lia. by rewrite decide_False by zlia. }
  unfold mapped, frame_of in *. split; unfold mapped, frame_of.
  - intros va Hva. rewrite Hsame by done. intros Hm.
    destruct (H1 va) as (? & ? & ?); [lia|done|]. split_and!; [done| |].
    + intros [Heq|?]%elem_of_cons; [|done].
      assert (va = a); [|lia]. apply H2; [lia|lia|done|done|done].
    + by rewrite (shrink_pt_page _ _ _ _ _ Hs).
  - intros va va' Hva Hva'. rewrite !Hsame by done. apply H2; lia.
Qed.

Lemma user_ok_mono m pgdir l a a' b :
  user_ok m pgdir l a b → a ≤ a' → user_ok m pgdir l a' b.
Proof. intros [H1 H2] Ha. split; intros; [apply H1|apply H2]; auto with lia. Qed.

(** The frames of the pages mapped between [a] and [b]. *)
Definition is_freed (m : memory) (pgdir a b : Z) (freed : list Z) : Prop :=
  ∀ v, v ∈ freed ↔ ∃ va, a ≤ va < b ∧ mapped m pgdir va ∧ v = frame_of m pgdir va.

Definition dealloc_post (pgdir a b : Z) (s : vmst) (l : list Z) (s' : vmst) : Prop :=
  ∃ freed, free_pages s' (freed ++ l) ∧ pt_ok (vmem s') pgdir (freed ++ l) ∧
    is_freed (vmem s) pgdir a b freed ∧ unmapped_range (vmem s) (vmem s') pgdir a b ∧
    pt_shrink pgdir (vmem s) (vmem s') freed ∧
    use_lock (kmem s') = use_lock (kmem s).

(** Nothing is mapped between [a] and [a']. *)
Lemma dealloc_post_skip pgdir a a' b s l s' :
  a ≤ a' → a mod 4096 = 0 → a' mod 4096 = 0 →
  (∀ va, a ≤ va < a' → present (pte_of (vmem s) pgdir va) = false) →
  dealloc_post pgdir a' b s l s' → dealloc_post pgdir a b s l s'.
Proof.
  intros Hle Hal Hal' Hnp (freed & Hf & Hok & Hfr & Hun & Hs & Hu).
  exists freed. split_and!; try done.
  - unfold is_freed in *. intros v.
    rewrite Hfr. split; intros (va & Hva & Hm & ->); exists va.
    + split_and!; try done; lia.
    + split_and!; try done; [|lia].
      destruct (decide (va < a')); [|lia].
      destruct Hm as [_ Hm]. rewrite Hnp in Hm by lia. done.
  - intros va Hva. rewrite Hun by done.
    destruct (decide (a' ≤ _ < b ∧ _)) as [H1|H1],
      (decide (a ≤ _ < b ∧ _)) as [H2|H2]; try done; exfalso.
    { destruct H2, H1. split; [lia|done]. }
    assert (va < a').
    { destruct (decide (va < a')); [done|]. destruct H1, H2. split; [zlia|done]. }
    destruct H2 as [H2 Hp]. rewrite Hnp in Hp by zlia. done.
Qed.
(** After the page at [a] is freed and unmapped, the rest of the range. *)
Lemma dealloc_post_cons pgdir a b s l s2 s' :
  0 ≤ a → a mod 4096 = 0 → a < b → b ≤ 4294967296 → mapped (vmem s) pgdir a →
  (∀ va, 0 ≤ va < 4294967296 → pte_of (vmem s2) pgdir va =
    if decide (va / 4096 = a / 4096) then 0 else pte_of (vmem s) pgdir va) →
  pt_shrink pgdir (vmem s) (vmem s2) [frame_of (vmem s) pgdir a] →
  use_lock (kmem s2) = use_lock (kmem s) →
  dealloc_post pgdir (a + 4096) b s2 (frame_of (vmem s) pgdir a :: l) s' →
  dealloc_post pgdir a b s l s'.
Proof.
  intros Ha Hal Hab Hb Hma Hpte Hs2 Hu2 (freed & Hf & Hok & Hfr & Hun & Hs & Hu).
  exists (freed ++ [frame_of (vmem s) pgdir a]). rewrite <-app_assoc. simpl.
  assert (Hsame : ∀ va, a + 4096 ≤ va < 4294967296 →
    pte_of (vmem s2) pgdir va = pte_of (vmem s) pgdir va).
  { intros va Hva. rewrite Hpte by lia. by rewrite decide_False by zlia. }
  split_and!; try done; [| | |congruence].
  - unfold is_freed, mapped, frame_of in *. intros v.
    rewrite elem_of_app, Hfr, list_elem_of_singleton. split.
    + intros [(va & Hva & Hm & ->)| ->]; [|exists a; split_and!; lia || naive_solver].
      rewrite Hsame in * by lia. exists va. split_and!; lia || naive_solver.
    + intros (va & Hva & Hm & ->). destruct (decide (va = a)) as [->|Hne]; [by right|].
      left. exists va. assert (a + 4096 ≤ va) by zlia.
      rewrite Hsame by lia. split_and!; lia || naive_solver.
  - intros va Hva. rewrite Hun, !Hpte by done. destruct Hma as [_ Hpa].
    destruct (decide (va / 4096 = a / 4096)) as [He|He].
    + assert (pte_of (vmem s) pgdir va = pte_of (vmem s) pgdir a) as ->.
      { unfold pte_of. apply same_page_indices in He as [-> ->]; [done|done|lia]. }
      rewrite present_0, decide_False, decide_True; [done| |naive_solver].
      split; [zlia|done].
    + destruct (decide (a + 4096 ≤ _ < b ∧ _)) as [H1|H1],
        (decide (a ≤ _ < b ∧ _)) as [H2|H2]; try done; exfalso.
      * destruct H2, H1. split; [lia|done].
      * destruct H1, H2. split; [zlia|done].
  - by eapply pt_shrink_trans.
Qed.

(** [deallocuvm] frees exactly the pages mapped in the range. *)
Lemma deallocuvm_loop_spec fuel pgdir a b s l :
  (Z.to_nat ((b - a + 4095) / 4096) < fuel)%nat →
  0 ≤ a → a mod 4096 = 0 → 0 ≤ b ≤ KERNBASE → a ≤ KERNBASE →
  free_pages s l → pt_ok (vmem s) pgdir l → user_ok (vmem s) pgdir l a b →
  ∃ s', deallocuvm_loop fuel pgdir a b s = Ok tt s' ∧ dealloc_post pgdir a b s l s'.
Proof.
  unfold KERNBASE. revert a s l.
  induction fuel as [|fuel IH]; intros a s l Hfuel Ha Hal Hb Hak Hf Hok Huo; [lia|].
  simpl deallocuvm_loop. destruct (Z.ltb_spec a b) as [Hlt|Hge]; cycle 1.
  { exists s. split; [done|]. exists []. simpl. split_and!; try done.
    - intros v. split; [by intros ?%elem_of_nil|naive_solver lia].
    - intros va Hva. by rewrite decide_False by naive_solver lia. }
  mstep (walkpgdir_noalloc pgdir a s).
  destruct (Z.eqb_spec (pte_slot (vmem s) pgdir a) 0) as [Hz|Hz].
  - apply (pte_slot_0 _ _ _ _ Hok) in Hz. pose proof (PDX_eq a) as Hdx.
    set (a' := u32 (u32 (PGADDR (PDX a + 1) 0 0 - PGSIZE) + PGSIZE)).
    assert (a' = (a / 4194304 + 1) * 4194304) as Ea.
    { unfold a', PGSIZE. rewrite PGADDR_eq, Hdx by (rewrite ?Hdx by lia; zlia).
      rewrite Z.mul_0_l, !Z.add_0_r. ulia. }
    clearbody a'.
    assert (Hpos : 0 ≤ a / 4194304) by zlia.
    destruct (IH a' s l) as (s' & E & Hpost); try done; try zlia.
    { eapply user_ok_mono; [done|zlia]. }
    exists s'. split; [done|]. eapply (dealloc_post_skip _ _ a'); try done; try zlia.
    intros va Hva. unfold pte_of.
    assert (PDX va = PDX a) as -> by (rewrite !PDX_eq by zlia; zlia).
    by rewrite Hz.
  - assert (Hpd : present (pde_of (vmem s) pgdir (PDX a)) = true).
    { destruct (present _) eqn:E; [done|].
      by apply (pte_slot_0 _ _ _ _ Hok) in E. }
    mrun. rewrite <-pte_of_slot by done.
    assert (u32 (a + PGSIZE) = a + 4096) as -> by (unfold PGSIZE; ulia).
    destruct (present (pte_of (vmem s) pgdir a)) eqn:Hp.
    + destruct (uo_page _ _ _ _ _ Huo a) as (Hpg & Hnl & Hnp); [lia|done|].
      fold (frame_of (vmem s) pgdir a).
      destruct (Z.eqb_spec (PTE_ADDR (pte_of (vmem s) pgdir a)) 0) as [E0|_].
      { unfold frame_of in Hpg. rewrite E0 in Hpg. by destruct Hpg as (_ & _ & ? & _). }
      destruct (unmap_one pgdir a s l) as (s1 & E1 & Hf2 & Hok2 & Hs2 & Hu2 & Hpte2);
        try done; [lia|].
      set (s2 := set_vmem _ s1) in *.
      destruct (IH (a + 4096) s2 (frame_of (vmem s) pgdir a :: l)) as (s' & E & Hpost);
        try done; try zlia.
      { eapply user_ok_step; try done; lia. }
      exists s'. split.
      * rewrite (bind_ok _ _ s tt s2); [done|]. by mstep E1.
      * by eapply (dealloc_post_cons _ _ _ _ _ s2); try lia.
    + mrun. destruct (IH (a + 4096) s l) as (s' & E & Hpost); try done; try zlia.
      { eapply user_ok_mono; [done|lia]. }
      exists s'. split; [done|]. eapply (dealloc_post_skip _ _ (a + 4096)); try done; try zlia.
      intros va Hva. unfold pte_of in Hp |- *.
      assert (PDX va = PDX a ∧ PTX va = PTX a) as [-> ->]; [|done].
      apply same_page_indices; zlia.
Qed.
End dealloc.
