(* ===== verification/VmAlloc.v ===== *)
(** * Growing and shrinking a process (vm.c)

    The specifications of [allocuvm], [deallocuvm], [copyuvm] and of the
    accessors built on the page-table view of [VmSpec.v]: what is mapped
    afterwards, that failure gives every page back, and that pages outside are
    not touched. *)

From Stdlib Require Import ZArith Lia.
From stdpp Require Import base numbers strings gmap list.
From S2P Require Import Prelude Mmu Memory Locks Kalloc Vm VmSpec.

(** ** Growing and shrinking a process *)

Section alloc.
Context {L : Linker}.

Lemma deallocuvm_spec pgdir oldsz newsz s l :
  0 ≤ newsz < oldsz → oldsz ≤ KERNBASE → free_pages s l → pt_ok (vmem s) pgdir l →
  user_ok (vmem s) pgdir l (PGROUNDUP newsz) oldsz →
  ∃ s', deallocuvm pgdir oldsz newsz s = Ok newsz s' ∧
    dealloc_post pgdir (PGROUNDUP newsz) oldsz s l s'.
Proof.
  unfold KERNBASE. intros Hsz Hk Hf Hok Huo. unfold deallocuvm.
  destruct (Z.geb_spec newsz oldsz); [lia|].
  pose proof (PGROUNDUP_bounds newsz ltac:(lia)).
  pose proof (PGROUNDUP_aligned newsz).
  assert (PGROUNDUP newsz ≤ KERNBASE) by (unfold KERNBASE; zlia).
  destruct (deallocuvm_loop_spec (S (Z.to_nat (oldsz / PGSIZE + 1))) pgdir
    (PGROUNDUP newsz) oldsz s l) as (s' & E & Hp); try done; try (unfold KERNBASE; lia).
  { unfold PGSIZE. zlia. }
  exists s'. split; [by mstep E|done].
Qed.

(** The page [v] was free and [mem] has been filled in it: a step that only
    takes [v] from the free list. *)
Lemma pt_ext_take pgdir m m' v l :
  page v → v ∉ l → pt_ok m pgdir (v :: l) →
  (∀ a, ¬ in_page v a → rd8 m' a = rd8 m a) → pt_ext pgdir m (v :: l) m' l.
Proof.
  intros Hv Hl Hok Hfr.
  assert (agree m m' pgdir) as Hd.
  { apply (agree_outside _ _ v); try done; [apply (pt_dir _ _ _ Hok)|].
    intros ->. pose proof (pt_dir_free _ _ _ Hok). set_solver. }
  split; [by exists [v]| | |].
  - intros d Hd' _. by apply agree_pde.
  - intros w Hw. left. by apply (agree_is_table _ _ _ _ Hd).
  - intros a _ Ha. apply Hfr, Ha; [by left|done].
Qed.

Definition zeroed (m : memory) (v : Z) : Prop := ∀ a, in_page v a → rd8 m a = 0.

(** The state after the pages between [a0] and [a] have been allocated, while
    the caller holds the pages [held]. *)
Record alloc_inv (pgdir a0 : Z) (s0 : vmst) (l0 : list Z) (a : Z) (s : vmst) (l : list Z)
    (held : list Z) : Prop := {
  ai_free : free_pages s l;
  ai_pt : pt_ok (vmem s) pgdir l;
  ai_ext : pt_ext pgdir (vmem s0) l0 (vmem s) l;
  ai_user : user_ok (vmem s) pgdir l a0 a;
  ai_new : ∀ va, a0 ≤ va < a → va mod 4096 = 0 → ∃ v,
    pte_of (vmem s) pgdir va = pte_entry (V2P v) (Z.lor PTE_W PTE_U) ∧
    v ∈ l0 ∧ page v ∧ frame_of (vmem s) pgdir va = v ∧ zeroed (vmem s) v;
  ai_old : ∀ va, 0 ≤ va < 4294967296 → ¬ (a0 ≤ va < a) →
    pte_of (vmem s) pgdir va = pte_of (vmem s0) pgdir va;
  ai_noleak : ∀ v, v ∈ l0 → v ∈ l ∨ is_table (vmem s) pgdir v ∨ v ∈ held ∨
    ∃ va, a0 ≤ va < a ∧ mapped (vmem s) pgdir va ∧ v = frame_of (vmem s) pgdir va;
  ai_lock : use_lock (kmem s) = use_lock (kmem s0);
}.

Lemma pte_entry_frame v perm :
  page v → 0 ≤ perm < 4096 → P2V (PTE_ADDR (pte_entry (V2P v) perm)) = v.
Proof.
  intros Hv Hp. pose proof (page_P2V_V2P v Hv) as E.
  assert (V2P v = v - KERNBASE) as Ev.
  { apply V2P_eq. unfold page, KERNBASE, PHYSTOP in *. lia. }
  destruct (pte_entry_addr (V2P v) perm) as [-> _]; [| |done|done];
    unfold page, KERNBASE, PHYSTOP in *; zlia.
Qed.

(** A page taken from the free list is none of the page table's, and stays
    outside of it while the table grows. *)
Lemma taken_not_pt pgdir m v l m' l' :
  pt_ok m pgdir (v :: l) → v ∉ l → pt_ext pgdir m l m' l' → ¬ pt_page m' pgdir v.
Proof.
  intros Hok Hl He Hv. apply (pt_ext_pt_page _ _ _ _ _ _ He) in Hv as [Hv|[? _]]; [|done].
  destruct (pt_page_page _ _ _ _ Hok Hv). set_solver.
Qed.

(** Data pages that are not part of a page table keep their contents while
    the table grows. *)
Lemma ext_data_agree pgdir m l m' l' v :
  pt_ext pgdir m l m' l' → pt_ok m pgdir l → Forall page l → page v → v ∉ l →
  ¬ pt_page m pgdir v → agree m m' v.
Proof.
  intros He Hok Hl Hv Hvl Hvp a Ha. apply (ext_frame _ _ _ _ _ He).
  - intros w Hw Hwa. destruct (pt_page_page _ _ _ _ Hok Hw) as [Hpw _].
    destruct Hvp. by rewrite (page_disjoint v w a).
  - intros w Hw _ Hwa. rewrite Forall_forall in Hl. destruct Hvl.
    rewrite (page_disjoint v w a); auto.
Qed.

(** A zeroed page and its entry, as [allocuvm] makes them in each iteration. *)
Lemma alloc_page perm pgdir a s v l :
  0 ≤ perm < 4096 →
  free_pages s (v :: l) → pt_ok (vmem s) pgdir (v :: l) →
  0 ≤ a → a mod 4096 = 0 → a + 4096 ≤ KERNBASE →
  present (pte_of (vmem s) pgdir a) = false →
  ∃ s1 r s2 l2, kalloc s = Ok v s1 ∧
    mappages pgdir a PGSIZE (V2P v) perm
      (set_vmem (memset (vmem s1) v 0 PGSIZE) s1) = Ok r s2 ∧
    page v ∧ (v ∉ l) ∧ free_pages s2 l2 ∧ pt_ok (vmem s2) pgdir l2 ∧
    pt_ext pgdir (vmem s) (v :: l) (vmem s2) l2 ∧ pt_noleak pgdir l (vmem s2) l2 ∧
    ¬ pt_page (vmem s2) pgdir v ∧ (v ∉ l2) ∧ zeroed (vmem s2) v ∧
    use_lock (kmem s2) = use_lock (kmem s) ∧
    (r = 0 ∨ r = -1 ∧ l2 = []) ∧
    (∀ va, 0 ≤ va < 4294967296 → pte_of (vmem s2) pgdir va =
      if decide (r = 0 ∧ va / 4096 = a / 4096)
      then pte_entry (V2P v) perm else pte_of (vmem s) pgdir va).
Proof.
  intros Hperm Hf Hok Ha Hal Hak Hnp. unfold KERNBASE in Hak.
  assert (page v ∧ v ∉ l) as [Hpv Hvl].
  { destruct Hf as (_ & Hnd & Hpg & _). apply list.NoDup_cons in Hnd.
    apply Forall_cons in Hpg. naive_solver. }
  destruct (kalloc_cons s v l Hf) as (s1 & E1 & Hf1 & Hm1 & Hu1).
  set (s1' := set_vmem (memset (vmem s1) v 0 PGSIZE) s1).
  assert (Hfr : ∀ b, ¬ in_page v b → rd8 (vmem s1') b = rd8 (vmem s) b).
  { intros b Hb. simpl. rewrite Hm1, rd8_memset by (unfold PGSIZE; lia).
    rewrite decide_False; [done|unfold PGSIZE, in_page in *; lia]. }
  assert (Hz1 : zeroed (vmem s1') v).
  { intros b Hb. simpl. rewrite rd8_memset by (unfold PGSIZE; lia).
    rewrite decide_True; [done|unfold PGSIZE, in_page in *; lia]. }
  assert (Hpl : Forall page l) by (destruct Hf1 as (_ & _ & ? & _); done).
  assert (He1 : pt_ext pgdir (vmem s) (v :: l) (vmem s1') l) by (by apply pt_ext_take).
  assert (Hvp : ¬ pt_page (vmem s) pgdir v).
  { intros Hv. destruct (pt_page_page _ _ _ _ Hok Hv). set_solver. }
  assert (Hag : ∀ w, pt_page (vmem s) pgdir w → agree (vmem s) (vmem s1') w).
  { intros w Hw. destruct (pt_page_page _ _ _ _ Hok Hw).
    apply (agree_outside _ _ v); [done|done| |done]. by intros ->. }
  assert (Hok1 : pt_ok (vmem s1') pgdir l).
  { eapply pt_ok_frame; [done|apply Hag; by left|set_solver]. }
  assert (Hf1' : free_pages s1' l).
  { apply free_pages_frame; [done|]. intros w b Hw Hb.
    transitivity (rd8 (vmem s) b); [apply Hfr|by rewrite Hm1]. intros Hb'. rewrite Forall_forall in Hpl. destruct Hvl.
    by rewrite (page_disjoint v w b) by auto. }
  assert (Ev : V2P v = v - KERNBASE).
  { apply V2P_eq. unfold page, KERNBASE, PHYSTOP in *. lia. }
  destruct (mappages_spec pgdir a (V2P v) perm 1 s1' l) as
    (r & s2 & l2 & k & E2 & Hf2 & Hok2 & He2 & Hnl2 & Hu2 & Hm2 & Hr); try done; try lia.
  1,2: unfold page, KERNBASE, PHYSTOP in *; lia.
  { intros i Hi. assert (i = 0) as -> by lia. rewrite Z.mul_0_r, Z.add_0_r.
    by rewrite (pte_of_frame (vmem s)). }
  assert (Hvl2 : v ∉ l2) by (by intros ?%(pt_ext_mem_sub _ _ _ _ _ _ He2)).
  assert (Hvp1 : ¬ pt_page (vmem s1') pgdir v).
  { rewrite (agree_pt_page (vmem s)); [done|apply Hag; by left]. }
  exists s1, r, s2, l2. split_and!; try done.
  - by eapply pt_ext_trans.
  - intros Hv. apply (pt_ext_pt_page _ _ _ _ _ _ He2) in Hv as [?|[? _]]; done.
  - intros b Hb. rewrite (ext_data_agree _ _ _ _ _ _ He2 Hok1 Hpl Hpv Hvl Hvp1 b Hb).
    by apply Hz1.
  - by rewrite Hu2.
  - destruct Hr as [[-> _]|(-> & _ & ->)]; [by left|by right].
  - intros va Hva. rewrite Hm2, (pte_of_frame (vmem s)) by done.
    destruct Hr as [[-> ->]|(-> & Hk & _)].
    + destruct (decide (va / 4096 = a / 4096)) as [He|He].
      * rewrite decide_True, decide_True by (split; lia).
        rewrite He, Z.sub_diag, Z.mul_0_r, Z.add_0_r. done.
      * rewrite decide_False by lia. by rewrite decide_False by (intros [_ ?]; done).
    + rewrite decide_False by lia. by rewrite decide_False by (intros [? _]; done).
Qed.

(** The invariant after one more page. *)
Lemma alloc_inv_step pgdir a0 s0 l0 a s v l s2 l2 :
  alloc_inv pgdir a0 s0 l0 a s (v :: l) [] →
  0 ≤ a0 ≤ a → a0 mod 4096 = 0 → a mod 4096 = 0 → a + 4096 ≤ KERNBASE →
  page v → v ∉ l → free_pages s2 l2 → pt_ok (vmem s2) pgdir l2 →
  pt_ext pgdir (vmem s) (v :: l) (vmem s2) l2 → pt_noleak pgdir l (vmem s2) l2 →
  ¬ pt_page (vmem s2) pgdir v → v ∉ l2 → zeroed (vmem s2) v →
  use_lock (kmem s2) = use_lock (kmem s) →
  (∀ va, 0 ≤ va < 4294967296 → pte_of (vmem s2) pgdir va =
    if decide (va / 4096 = a / 4096)
    then pte_entry (V2P v) (Z.lor PTE_W PTE_U) else pte_of (vmem s) pgdir va) →
  alloc_inv pgdir a0 s0 l0 (a + 4096) s2 l2 [].
Proof.
  intros [Hf Hok He Huo Hnew Hold Hnl Hlk] Ha0 Hal0 Hal Hak Hpv Hvl Hf2 Hok2 He2 Hnl2
    Hvp Hvl2 Hz Hu Hpte. unfold KERNBASE in Hak.
  assert (Hsame : ∀ va, a0 ≤ va < a → pte_of (vmem s2) pgdir va = pte_of (vmem s) pgdir va).
  { intros va Hva. rewrite Hpte by lia. by rewrite decide_False by zlia. }
  assert (Hthis : pte_of (vmem s2) pgdir a = pte_entry (V2P v) (Z.lor PTE_W PTE_U)).
  { rewrite Hpte by lia. by rewrite decide_True. }
  assert (Hfa : frame_of (vmem s2) pgdir a = v).
  { unfold frame_of. rewrite Hthis. by apply pte_entry_frame. }
  assert (Hsf : ∀ va, a0 ≤ va < a → frame_of (vmem s2) pgdir va = frame_of (vmem s) pgdir va).
  { intros va Hva. unfold frame_of. by rewrite Hsame. }
  assert (Hsm : ∀ va, a0 ≤ va < a → (mapped (vmem s2) pgdir va ↔ mapped (vmem s) pgdir va)).
  { intros va Hva. unfold mapped. by rewrite Hsame. }
  assert (Hsplit : ∀ va, a0 ≤ va < a + 4096 → va mod 4096 = 0 → va = a ∨ a0 ≤ va < a)
    by (intros; zlia).
  assert (Hpgl : Forall page (v :: l)) by (destruct Hf as (_ & _ & ? & _); done).
  split; try done.
  - by eapply pt_ext_trans.
  - split.
    + intros va Hva Hm. destruct (Hsplit va Hva) as [->|Hlt]; [apply Hm| |].
      { by rewrite Hfa. }
      rewrite Hsf by done. rewrite Hsm in Hm by done.
      destruct (uo_page _ _ _ _ _ Huo va Hlt Hm) as (? & Hn & Hp). split_and!; [done| |].
      * by intros ?%(pt_ext_mem_sub _ _ _ _ _ _ He2).
      * intros [?|[? _]]%(pt_ext_pt_page _ _ _ _ _ _ He2); done.
    + intros va va' Hva Hva' Hm Hm'.
      destruct (Hsplit va Hva) as [->|Hlt]; [apply Hm| |];
      (destruct (Hsplit va' Hva') as [->|Hlt']; [apply Hm'| |]); [done| | |].
      * rewrite Hfa, Hsf by done. rewrite Hsm in Hm' by done. intros E.
        destruct (uo_page _ _ _ _ _ Huo va' Hlt' Hm') as (_ & Hn & _). set_solver.
      * rewrite Hfa, Hsf by done. rewrite Hsm in Hm by done. intros E.
        destruct (uo_page _ _ _ _ _ Huo va Hlt Hm) as (_ & Hn & _). set_solver.
      * rewrite !Hsf by done. apply (uo_inj _ _ _ _ _ Huo); by rewrite <-?Hsm.
  - intros va Hva Hm. destruct (Hsplit va Hva Hm) as [->|Hlt].
    + exists v. split_and!; try done.
      destruct (ext_suffix _ _ _ _ _ He) as [t ->]. set_solver.
    + destruct (Hnew va Hlt Hm) as (w & Hw1 & Hw2 & Hw3 & Hw4 & Hw5). exists w.
      rewrite Hsame, Hsf by done. split_and!; try done.
      assert (mapped (vmem s) pgdir va) as Hmp.
      { split; [done|]. rewrite Hw1. apply pte_entry_present. }
      destruct (uo_page _ _ _ _ _ Huo va Hlt Hmp) as (_ & Hn & Hp). rewrite Hw4 in Hn, Hp.
      intros b Hb. rewrite (ext_data_agree _ _ _ _ _ _ He2 Hok Hpgl Hw3 Hn Hp b Hb).
      by apply Hw5.
  - intros va Hva Hr. rewrite Hpte by done. rewrite decide_False by zlia.
    apply Hold; [done|lia].
  - intros w Hw. destruct (Hnl w Hw) as [Hwl|[Ht|[Hh|(va & Hva & Hm & ->)]]].
    + apply elem_of_cons in Hwl as [->|Hwl].
      * right; right; right. exists a. split_and!; [lia..| |done].
        split; [done|]. rewrite Hthis. apply pte_entry_present.
      * destruct (Hnl2 w Hwl); [by left|by right; left].
    + right; left. by eapply pt_ext_is_table.
    + by apply elem_of_nil in Hh.
    + right; right; right. exists va. rewrite Hsf, Hsm by done. split_and!; try done; lia.
  - by rewrite Hu.
Qed.

(** The mapping of page [a] failed: only new tables were taken, and the
    caller still holds the page [v]. *)
Lemma alloc_inv_stuck pgdir a0 s0 l0 a s v l s2 l2 :
  alloc_inv pgdir a0 s0 l0 a s (v :: l) [] → 0 ≤ a0 → a ≤ KERNBASE →
  free_pages s2 l2 → pt_ok (vmem s2) pgdir l2 →
  pt_ext pgdir (vmem s) (v :: l) (vmem s2) l2 → pt_noleak pgdir l (vmem s2) l2 →
  use_lock (kmem s2) = use_lock (kmem s) →
  (∀ va, 0 ≤ va < 4294967296 → pte_of (vmem s2) pgdir va = pte_of (vmem s) pgdir va) →
  alloc_inv pgdir a0 s0 l0 a s2 l2 [v].
Proof.
  intros [Hf Hok He Huo Hnew Hold Hnl Hlk] Ha0 Hak Hf2 Hok2 He2 Hnl2 Hu Hpte.
  unfold KERNBASE in Hak.
  assert (Hsf : ∀ va, a0 ≤ va < a → frame_of (vmem s2) pgdir va = frame_of (vmem s) pgdir va).
  { intros va Hva. unfold frame_of. by rewrite Hpte by lia. }
  assert (Hsm : ∀ va, a0 ≤ va < a → (mapped (vmem s2) pgdir va ↔ mapped (vmem s) pgdir va)).
  { intros va Hva. unfold mapped. by rewrite Hpte by lia. }
  assert (Hpgl : Forall page (v :: l)) by (destruct Hf as (_ & _ & ? & _); done).
  split; try done.
  - by eapply pt_ext_trans.
  - split.
    + intros va Hva. rewrite Hsm, Hsf by done. intros Hm.
      destruct (uo_page _ _ _ _ _ Huo va Hva Hm) as (? & Hn & Hp). split_and!; [done| |].
      * by intros ?%(pt_ext_mem_sub _ _ _ _ _ _ He2).
      * intros [?|[? _]]%(pt_ext_pt_page _ _ _ _ _ _ He2); done.
    + intros va va' Hva Hva'. rewrite !Hsm, !Hsf by done. by apply (uo_inj _ _ _ _ _ Huo).
  - intros va Hva Hm. destruct (Hnew va Hva Hm) as (w & Hw1 & Hw2 & Hw3 & Hw4 & Hw5).
    exists w. rewrite Hpte, Hsf by (try done; lia). split_and!; try done.
    assert (mapped (vmem s) pgdir va) as Hmp.
    { split; [done|]. rewrite Hw1. apply pte_entry_present. }
    destruct (uo_page _ _ _ _ _ Huo va Hva Hmp) as (_ & Hn & Hp). rewrite Hw4 in Hn, Hp.
    intros b Hb. rewrite (ext_data_agree _ _ _ _ _ _ He2 Hok Hpgl Hw3 Hn Hp b Hb).
    by apply Hw5.
  - intros va Hva Hr. rewrite Hpte by done. by apply Hold.
  - intros w Hw. destruct (Hnl w Hw) as [Hwl|[Ht|[Hh|(va & Hva & Hm & ->)]]].
    + apply elem_of_cons in Hwl as [->|Hwl]; [right; right; left; set_solver|].
      destruct (Hnl2 w Hwl); [by left|by right; left].
    + right; left. by eapply pt_ext_is_table.
    + by apply elem_of_nil in Hh.
    + right; right; right. exists va. by rewrite Hsf, Hsm by done.
  - by rewrite Hu.
Qed.

(** What is left when the mapping is rolled back: the page table governs the
    same addresses in the same way, and every page that was free is free
    again, has become a table, or is held by the caller. *)
Definition alloc_undone (pgdir : Z) (s0 : vmst) (l0 : list Z) (s' : vmst) (l' : list Z)
    (held : list Z) : Prop :=
  free_pages s' l' ∧ pt_ok (vmem s') pgdir l' ∧
  (∀ va, 0 ≤ va < 4294967296 →
    pte_of (vmem s') pgdir va = pte_of (vmem s0) pgdir va ∨
    pte_of (vmem s') pgdir va = 0 ∧ present (pte_of (vmem s0) pgdir va) = false) ∧
  (∀ v, v ∈ l0 → v ∈ l' ∨ is_table (vmem s') pgdir v ∨ v ∈ held) ∧
  use_lock (kmem s') = use_lock (kmem s0).

Lemma user_ok_extend m pgdir l a b b' :
  user_ok m pgdir l a b →
  (∀ va, b ≤ va < b' → va mod 4096 = 0 → present (pte_of m pgdir va) = false) →
  user_ok m pgdir l a b'.
Proof.
  intros [H1 H2] Hn. assert (H : ∀ va, a ≤ va < b' → mapped m pgdir va → va < b).
  { intros va Hva [Hm Hp]. destruct (decide (va < b)); [done|].
    rewrite Hn in Hp by lia. done. }
  split.
  - intros va Hva Hm. pose proof (H va Hva Hm). apply H1; [lia|done].
  - intros va va' Hva Hva' Hm Hm'.
    pose proof (H va Hva Hm). pose proof (H va' Hva' Hm'). apply H2; auto with lia.
Qed.

(** The roll-back of [allocuvm]: [deallocuvm] from the requested size gives
    back every page mapped so far. *)
Lemma alloc_rollback pgdir s0 l0 oldsz newsz a s l held :
  alloc_inv pgdir (PGROUNDUP oldsz) s0 l0 a s l held →
  0 ≤ oldsz ≤ newsz → newsz < MMAPBASE → PGROUNDUP oldsz ≤ a < newsz →
  (∀ va, PGROUNDUP oldsz ≤ va < newsz → present (pte_of (vmem s0) pgdir va) = false) →
  ∃ s' l', deallocuvm pgdir newsz oldsz s = Ok oldsz s' ∧
    alloc_undone pgdir s0 l0 s' l' held ∧
    (∀ v, v ∈ l' → v ∈ l ∨ ∃ va, PGROUNDUP oldsz ≤ va < a ∧ mapped (vmem s) pgdir va ∧
      v = frame_of (vmem s) pgdir va) ∧
    (∀ v, pt_page (vmem s') pgdir v ↔ pt_page (vmem s) pgdir v).
Proof.
  unfold MMAPBASE. intros [Hf Hok He Huo Hnew Hold Hnl Hlk] Ho Hn Ha Hnp.
  pose proof (PGROUNDUP_bounds oldsz ltac:(lia)) as Hup.
  assert (Huo' : user_ok (vmem s) pgdir l (PGROUNDUP oldsz) newsz).
  { eapply user_ok_extend; [done|]. intros va Hva Hm. rewrite Hold by lia. apply Hnp. lia. }
  destruct (deallocuvm_spec pgdir newsz oldsz s l) as
    (s' & E & freed & Hf' & Hok' & Hfr & Hun & Hs & Hu); try done; try lia.
  { unfold KERNBASE. lia. }
  assert (Hpt := λ v, shrink_pt_page pgdir (vmem s) (vmem s') freed v Hs).
  assert (Hrange : ∀ va, PGROUNDUP oldsz ≤ va < newsz → mapped (vmem s) pgdir va → va < a).
  { intros va Hva [Hm Hp]. destruct (decide (va < a)); [done|].
    rewrite Hold, Hnp in Hp by lia. done. }
  exists s', (freed ++ l). split_and!; try done.
  - split_and!; try done.
    + intros va Hva. rewrite Hun by done. case_decide as Hc.
      * right. split; [done|].
        rewrite (pte_of_same_page _ _ va (va - va mod 4096)) by zlia. apply Hnp. lia.
      * left. apply Hold; [done|]. intros Hr. apply Hc.
        pose proof (PGROUNDUP_aligned oldsz).
        rewrite (pte_of_same_page _ _ va (va - va mod 4096)) by zlia.
        destruct (Hnew (va - va mod 4096)) as (w & -> & _); [zlia..|].
        split; [zlia|apply pte_entry_present].
    + intros v Hv. destruct (Hnl v Hv) as [?|[Ht|[Hh|(va & Hva & Hm & ->)]]].
      * left. set_solver.
      * right; left. by apply (agree_is_table _ _ _ _ (shr_dir _ _ _ _ Hs)).
      * by right; right.
      * left. apply elem_of_app. left. apply Hfr. exists va. split_and!; try done; lia.
    + by rewrite Hu.
  - intros v [Hv|Hv]%elem_of_app; [right|by left].
    apply Hfr in Hv as (va & Hva & Hm & ->). exists va. split_and!; try done; [lia|].
    by apply Hrange.
Qed.

Lemma alloc_inv_init pgdir a s l :
  free_pages s l → pt_ok (vmem s) pgdir l → alloc_inv pgdir a s l a s l [].
Proof.
  intros. split; try done; try (intros; lia).
  - apply pt_ext_refl.
  - split; intros; lia.
  - by left.
Qed.

Definition alloc_done (pgdir oldsz newsz : Z) (s : vmst) (l : list Z) (r : Z) (s' : vmst)
    : Prop :=
  ∃ l', (r = newsz ∧ ∃ a, newsz ≤ a < newsz + 4096 ∧
          alloc_inv pgdir (PGROUNDUP oldsz) s l a s' l' []) ∨
        (r = 0 ∧ alloc_undone pgdir s l s' l' []).

Lemma allocuvm_loop_spec fuel pgdir oldsz newsz s0 l0 a s l :
  alloc_inv pgdir (PGROUNDUP oldsz) s0 l0 a s l [] →
  (Z.to_nat ((newsz - a + 4095) / 4096) < fuel)%nat →
  0 ≤ oldsz ≤ newsz → newsz < MMAPBASE → PGROUNDUP oldsz ≤ a < newsz + 4096 →
  a mod 4096 = 0 →
  (∀ va, PGROUNDUP oldsz ≤ va < newsz → present (pte_of (vmem s0) pgdir va) = false) →
  ∃ r s', allocuvm_loop fuel pgdir a oldsz newsz s = Ok r s' ∧
    alloc_done pgdir oldsz newsz s0 l0 r s'.
Proof.
  revert a s l. induction fuel as [|fuel IH];
    intros a s l Hi Hfuel Hsz Hm Ha Hal Hnp; [lia|].
  pose proof Hm as Hm'. unfold MMAPBASE in Hm'.
  pose proof (PGROUNDUP_bounds oldsz ltac:(lia)) as Hup.
  pose proof (PGROUNDUP_aligned oldsz) as Hua.
  simpl allocuvm_loop. destruct (Z.ltb_spec a newsz) as [Hlt|Hge]; cycle 1.
  { exists newsz, s. split; [done|]. exists l. left. split; [done|]. exists a. split; [lia|done]. }
  destruct l as [|v l].
  { rewrite (bind_ok _ _ _ _ _ (kalloc_nil s (ai_free _ _ _ _ _ _ _ _ Hi))). simpl.
    destruct (alloc_rollback _ _ _ _ newsz _ _ _ _ Hi) as (s' & l' & E & Hund & _);
      try done; try lia.
    exists 0, s'. split; [by mstep E|]. exists l'. by right. }
  destruct (alloc_page (Z.lor PTE_W PTE_U) pgdir a s v l) as (s1 & r & s2 & l2 & E1 & E2 & Hpv & Hvl & Hf2 &
    Hok2 & He2 & Hnl2 & Hvp & Hvl2 & Hz & Hu & Hr & Hpte).
  1: done. 1,2: apply Hi. 1: lia. 1: done. 1: unfold KERNBASE; zlia.
  { rewrite (ai_old _ _ _ _ _ _ _ _ Hi) by lia. apply Hnp. lia. }
  mstep E1. destruct (Z.eqb_spec v 0) as [->|_]; [apply page_pos in Hpv; lia|].
  mrun. mstep E2. destruct Hr as [->|[-> ->]]; simpl.
  - assert (u32 (a + PGSIZE) = a + 4096) as -> by (unfold PGSIZE; ulia).
    apply (IH _ _ l2); try done; try zlia.
    apply (alloc_inv_step _ _ _ _ _ s v l); try done; try lia.
    1: unfold KERNBASE; zlia.
    intros va Hva. rewrite Hpte by done. repeat case_decide; naive_solver.
  - assert (Hi2 : alloc_inv pgdir (PGROUNDUP oldsz) s0 l0 a s2 [] [v]).
    { apply (alloc_inv_stuck _ _ _ _ _ s v l); try done; try lia.
      unfold KERNBASE. lia. }
    destruct (alloc_rollback _ _ _ _ newsz _ _ _ _ Hi2) as
      (s3 & l3 & E3 & (Hf3 & Hok3 & Hv3 & Hnl3 & Hu3) & Hl3 & Hpt3); try done; try lia.
    assert (Hv3l : v ∉ l3).
    { intros Hv. destruct (Hl3 v Hv) as [?|(va & Hva & Hma & ->)]; [done|].
      assert (Hma' : mapped (vmem s) pgdir va).
      { unfold mapped in *. rewrite Hpte in Hma by lia.
        by rewrite decide_False in Hma by naive_solver. }
      destruct (uo_page _ _ _ _ _ (ai_user _ _ _ _ _ _ _ _ Hi) va Hva Hma') as (_ & Hn & _).
      apply Hn. unfold frame_of. rewrite Hpte by lia.
      rewrite decide_False by naive_solver. by left. }
    assert (Hv3p : ¬ pt_page (vmem s3) pgdir v) by (by rewrite Hpt3).
    destruct (kfree_page s3 v l3) as (s4 & E4 & Hf4 & Hm4 & Hu4); [done..|].
    assert (Hag : ∀ w, pt_page (vmem s3) pgdir w → agree (vmem s3) (vmem s4) w).
    { intros w Hw. destruct (pt_page_page _ _ _ _ Hok3 Hw).
      apply (agree_outside _ _ v); [done|done| |done]. by intros ->. }
    assert (Hd : agree (vmem s3) (vmem s4) pgdir) by (apply Hag; by left).
    exists 0, s4. split; [mstep E3; by mstep E4|]. exists (v :: l3). right.
    split; [done|]. split_and!; [done| | | |congruence].
    + eapply pt_ok_frame; [by apply pt_ok_cons|done|done].
    + intros va Hva. rewrite (pte_of_frame (vmem s3)) by done. by apply Hv3.
    + intros w Hw. rewrite (agree_is_table (vmem s3)) by done.
      destruct (Hnl3 w Hw) as [?|[?|?]]; set_solver.
Qed.

Lemma allocuvm_spec pgdir oldsz newsz s l :
  0 ≤ oldsz ≤ newsz → newsz < MMAPBASE → free_pages s l → pt_ok (vmem s) pgdir l →
  (∀ va, PGROUNDUP oldsz ≤ va < newsz → present (pte_of (vmem s) pgdir va) = false) →
  ∃ r s', allocuvm pgdir oldsz newsz s = Ok r s' ∧ alloc_done pgdir oldsz newsz s l r s'.
Proof.
  intros Hsz Hm Hf Hok Hnp. unfold allocuvm.
  destruct (Z.geb_spec newsz MMAPBASE); [lia|].
  destruct (Z.ltb_spec newsz oldsz); [lia|].
  pose proof Hm as Hm'. unfold MMAPBASE in Hm'.
  pose proof (PGROUNDUP_bounds oldsz ltac:(lia)).
  eapply allocuvm_loop_spec; try done; [by apply alloc_inv_init| |lia|apply PGROUNDUP_aligned].
  unfold PGSIZE. zlia.
Qed.
End alloc.

(** A well-formed page table beside a well-formed free list. *)
Definition aspace {L : Linker} (s : vmst) (pgdir : Z) (l : list Z) : Prop :=
  free_pages s l ∧ pt_ok (vmem s) pgdir l.

(** ** A concrete address space *)

#[local] Existing Instance example_linker.

(** A zeroed page directory taken from a booted allocator. *)
Definition pgdir0 : Z := 0x80125000.
Definition vm_boot : vmst :=
  match kalloc (boot 16) with
  | Ok v s => set_vmem (memset (vmem s) v 0 PGSIZE) s
  | _ => empty_mem
  end.
Definition vm_boot_free : list Z := drop 1 (boot_free 16).

Lemma zeroed_pt_ok {L : Linker} m pgdir l :
  page pgdir → pgdir ∉ l → zeroed m pgdir →
  pt_ok m pgdir l ∧ ∀ va, 0 ≤ va < 4294967296 → pte_of m pgdir va = 0.
Proof.
  intros Hp Hl Hz.
  assert (Hpde : ∀ d, 0 ≤ d < 1024 → pde_of m pgdir d = 0).
  { intros d Hd. unfold pde_of, load32.
    rewrite !Hz by (unfold in_page; lia). done. }
  assert (Hnt : ∀ v, ¬ is_table m pgdir v).
  { intros v (d & Hd & Hpr & _). by rewrite Hpde in Hpr. }
  split.
  - split; [done|done| |].
    + intros v Hv. by apply Hnt in Hv.
    + intros d d' Hd Hd' Hpr. by rewrite Hpde in Hpr.
  - intros va Hva. unfold pte_of. rewrite Hpde; [done|]. rewrite PDX_eq by done. zlia.
Qed.

Lemma vm_boot_ok :
  free_pages vm_boot vm_boot_free ∧ pt_ok (vmem vm_boot) pgdir0 vm_boot_free ∧
  ∀ va, 0 ≤ va < 4294967296 → pte_of (vmem vm_boot) pgdir0 va = 0.
Proof.
  pose proof (boot_ok 16 ltac:(lia)) as Hb. change (Z.of_nat 16) with 16 in Hb.
  assert (E : boot_free 16 = pgdir0 :: vm_boot_free) by (by vm_compute).
  rewrite E in Hb. assert (Hp : page pgdir0 ∧ pgdir0 ∉ vm_boot_free).
  { destruct Hb as (_ & Hn & Hp & _). apply list.NoDup_cons in Hn. apply Forall_cons in Hp. naive_solver. }
  destruct Hp as [Hp Hn]. unfold vm_boot.
  destruct (kalloc_cons _ _ _ Hb) as (s' & -> & Hf & Hm & _).
  assert (Hz : zeroed (memset (vmem s') pgdir0 0 PGSIZE) pgdir0).
  { intros a Ha. rewrite rd8_memset by (unfold PGSIZE; lia). by rewrite decide_True. }
  split; [|by apply zeroed_pt_ok].
  apply free_pages_frame; [done|]. intros v a Hv Ha.
  rewrite rd8_memset by (unfold PGSIZE; lia). rewrite decide_False; [done|].
  intros Ha'. destruct Hn. destruct Hf as (_ & _ & Hpl & _). rewrite Forall_forall in Hpl.
  by rewrite (page_disjoint pgdir0 v a); auto.
Qed.

(** ** Claims *)

(** [mappages] over [n] unmapped pages terminates without panicking and
    either maps all of them, or returns -1 with the allocator exhausted and a
    prefix mapped.  The entry of every other virtual address is what it was,
    the only pages taken from the allocator have become page tables, and no
    byte outside the page table and those pages changes. *)
Theorem mappages_maps {L : Linker} pgdir va pa perm n s l :
  aspace s pgdir l →
  0 < n → 0 ≤ va → va mod 4096 = 0 → va + 4096 * n ≤ 4294967296 →
  0 ≤ pa → pa + 4096 * n ≤ 4294967296 → 0 ≤ perm < 4096 →
  (∀ i, 0 ≤ i < n → present (pte_of (vmem s) pgdir (va + 4096 * i)) = false) →
  ∃ r s' l' k, mappages pgdir va (4096 * n) pa perm s = Ok r s' ∧
    free_pages s' l' ∧ pt_ok (vmem s') pgdir l' ∧
    pt_ext pgdir (vmem s) l (vmem s') l' ∧ pt_noleak pgdir l (vmem s') l' ∧
    mapped_range (vmem s) (vmem s') pgdir va pa perm k ∧
    (r = 0 ∧ k = n ∨ r = -1 ∧ 0 ≤ k < n ∧ l' = []).
Proof.
  intros [? ?]. intros. destruct (mappages_spec pgdir va pa perm n s l) as (r & s' & l' & k & H'); try done.
  exists r, s', l', k. naive_solver.
Qed.

Lemma mappages_maps_witness :
  ∃ r s', mappages pgdir0 0x3FF000 8192 0x200000 6 vm_boot = Ok r s'.
Proof.
  destruct vm_boot_ok as (Hf & Hok & Hz).
  destruct (mappages_maps pgdir0 0x3FF000 0x200000 6 2 vm_boot vm_boot_free)
    as (r & s' & l' & k & E & _).
  - split; [exact Hf|exact Hok].
  - lia.
  - lia.
  - reflexivity.
  - lia.
  - lia.
  - lia.
  - lia.
  - intros i Hi. rewrite Hz by lia. reflexivity.
  - exists r, s'. exact E.
Defined.

(** [mappages] never overwrites a present entry: it panics. *)
Theorem mappages_never_remaps {L : Linker} pgdir va size pa perm s l :
  aspace s pgdir l → 0 ≤ va < 4294967296 → va mod 4096 = 0 →
  present (pte_of (vmem s) pgdir va) = true →
  mappages pgdir va size pa perm s = Panic "remap".
Proof. intros [Hf Hok]. exact (mappages_remap pgdir va size pa perm s l Hf Hok). Qed.

Lemma mappages_never_remaps_witness :
  ∃ s' : vmst, mappages pgdir0 4096 4096 0x300000 6 s' = Panic "remap".
Proof.
  destruct vm_boot_ok as (Hf & Hok & Hz).
  destruct (mappages_spec pgdir0 4096 0x200000 6 1 vm_boot vm_boot_free)
    as (r & s' & l' & k & E & Hf' & Hok' & _ & _ & _ & Hm & Hr);
    [exact Hf|exact Hok|lia|lia|reflexivity|lia|lia|lia|lia| |].
  { intros i Hi. rewrite Hz by lia. reflexivity. }
  change (4096 * 1) with 4096 in E. assert (Hk : r = 0).
  { assert (match mappages pgdir0 4096 4096 0x200000 6 vm_boot with Ok r _ => r = 0 | _ => False end)
      as Hc by (vm_compute; reflexivity). rewrite E in Hc. exact Hc. }
  exists s'. apply (mappages_never_remaps pgdir0 4096 4096 0x300000 6 s' l');
    [split; [exact Hf'|exact Hok']|lia|reflexivity|].
  rewrite Hm by lia. rewrite decide_True; [reflexivity|].
  assert (4096 / 4096 = 1) as -> by reflexivity. lia.
Defined.

(** C8. Growing a process: [allocuvm] from [oldsz] to [newsz] either returns
    [newsz] with every new page mapped to its own zeroed page taken from the
    free list, user-writable, and everything mapped before unchanged; or it
    returns 0 with the address space as it was and every page it had taken
    given back or kept as an empty page table. *)
Theorem allocuvm_all_or_nothing {L : Linker} pgdir oldsz newsz s l :
  0 ≤ oldsz ≤ newsz → newsz < MMAPBASE → aspace s pgdir l →
  (∀ va, PGROUNDUP oldsz ≤ va < newsz → present (pte_of (vmem s) pgdir va) = false) →
  ∃ r s', allocuvm pgdir oldsz newsz s = Ok r s' ∧ alloc_done pgdir oldsz newsz s l r s'.
Proof. intros ? ? [? ?]. by apply allocuvm_spec. Qed.

Lemma allocuvm_all_or_nothing_witness :
  ∃ r s', allocuvm pgdir0 100 9000 vm_boot = Ok r s' ∧
    alloc_done pgdir0 100 9000 vm_boot vm_boot_free r s'.
Proof.
  destruct vm_boot_ok as (Hf & Hok & Hz).
  apply allocuvm_all_or_nothing; [lia|unfold MMAPBASE; lia|split; [exact Hf|exact Hok]|].
  intros va Hva. rewrite Hz; [reflexivity|].
  pose proof (PGROUNDUP_bounds 100 ltac:(lia)). lia.
Defined.

(** C19. Shrinking a process: [deallocuvm] gives exactly the pages mapped
    between the two sizes back to the allocator, clears their entries and
    changes no other entry and no byte outside the page table and the freed
    pages. *)
Theorem deallocuvm_frees {L : Linker} pgdir oldsz newsz s l :
  0 ≤ newsz < oldsz → oldsz ≤ KERNBASE → aspace s pgdir l →
  user_ok (vmem s) pgdir l (PGROUNDUP newsz) oldsz →
  ∃ s', deallocuvm pgdir oldsz newsz s = Ok newsz s' ∧
    dealloc_post pgdir (PGROUNDUP newsz) oldsz s l s'.
Proof. intros ? ? [? ?]. by apply deallocuvm_spec. Qed.

Lemma deallocuvm_frees_witness :
  ∃ s s', deallocuvm pgdir0 9000 0 s = Ok 0 s' ∧ present (pte_of (vmem s) pgdir0 4096) = true.
Proof.
  destruct vm_boot_ok as (Hf & Hok & Hz).
  destruct (allocuvm_spec pgdir0 0 9000 vm_boot vm_boot_free) as (r & s & E & l & Hd);
    [lia|unfold MMAPBASE; lia|exact Hf|exact Hok| |].
  { intros va Hva. change (PGROUNDUP 0) with 0 in Hva. rewrite Hz by lia. reflexivity. }
  assert (match allocuvm pgdir0 0 9000 vm_boot with Ok r _ => r = 9000 | _ => False end)
    as Hr by (vm_compute; reflexivity). rewrite E in Hr.
  destruct Hd as [(_ & a & Ha & Hi)|[Hr' _]]; [|lia].
  destruct (deallocuvm_frees pgdir0 9000 0 s l) as (s' & E' & _).
  - lia.
  - unfold KERNBASE. lia.
  - split; [exact (ai_free _ _ _ _ _ _ _ _ Hi)|exact (ai_pt _ _ _ _ _ _ _ _ Hi)].
  - change (PGROUNDUP 0) with 0. destruct (ai_user _ _ _ _ _ _ _ _ Hi) as [H1 H2].
    change (PGROUNDUP 0) with 0 in H1, H2.
    split; [intros va Hva; apply H1; lia|intros va va' Hva Hva'; apply H2; lia].
  - exists s, s'. split; [exact E'|].
    destruct (ai_new _ _ _ _ _ _ _ _ Hi 4096) as (v & -> & _); [change (PGROUNDUP 0) with 0; lia|done|].
    apply pte_entry_present.
Defined.
