(* ===== verification/Proc0.v ===== *)
(** * Process structures (proc.h, mmap.h, file.h)

    The records the process, file and memory-mapping components share.  A
    pointer to an entry of a kernel table ([struct proc *], [struct file *],
    [struct inode *]) is the entry's index, [None] when it is null. *)

From Stdlib Require Import ZArith Lia.
From stdpp Require Import base numbers strings gmap list.
From S2P Require Import Prelude Mmu.

(** ** mmap.h *)

Definition MAP_PRIVATE : Z := 1.
Definition MAP_SHARED : Z := 2.
Definition MAP_ANONYMOUS : Z := 4.
Definition MAP_FIXED : Z := 8.
Definition PROT_READ : Z := 1.
Definition PROT_WRITE : Z := 2.
Definition PROT_NONE : Z := 8.

(** ** file.h *)

Inductive file_type := FD_NONE | FD_PIPE | FD_INODE.
Record file := File {
  f_type : file_type;
  f_ref : Z;
  readable : bool;
  writable : bool;
  f_pipe : option nat;
  f_ip : option nat;
  f_off : Z;
}.
Definition file0 : file := File FD_NONE 0 false false None None 0.

(** ** proc.h *)

Record mmap_region := Region {
  virt_addr : Z;
  r_size : Z;
  r_flags : Z;
  protection : Z;
  r_f : option nat;
  r_offset : Z;
  ref_count : Z;
  stored_size : Z;
}.
Definition region0 : mmap_region := Region 0 0 0 0 None 0 0 0.

Inductive procstate := UNUSED | EMBRYO | SLEEPING | RUNNABLE | RUNNING | ZOMBIE.
#[export] Instance procstate_eq_dec : EqDecision procstate.
Proof. solve_decision. Defined.

(** The saved user registers the kernel reads or writes. *)
Record trapframe := Trapframe {
  tf_eax : Z;
  tf_esp : Z;
  tf_eip : Z;
  tf_cs : Z;
  tf_ds : Z;
  tf_es : Z;
  tf_ss : Z;
  tf_err : Z;
  tf_eflags : Z;
  tf_trapno : Z;
}.
Definition tf0 : trapframe := Trapframe 0 0 0 0 0 0 0 0 0 0.

Record proc := Proc {
  p_sz : Z;
  p_pgdir : Z;
  p_kstack : Z;
  p_state : procstate;
  p_pid : Z;
  p_parent : option nat;
  p_tf : trapframe;
  p_context : Z;
  p_chan : Z;
  p_killed : bool;
  p_ofile : list (option nat);
  p_cwd : option nat;
  p_name : list Z;
  mmaps : list mmap_region;
  total_mmaps : Z;
}.

(** A zero-initialised process table entry (static storage). *)
Definition proc0 : proc :=
  Proc 0 0 0 UNUSED 0 None tf0 0 0 false (replicate 16 None) None (replicate 16 0)
    (replicate 30 region0) 0.

Definition set_p_sz (v : Z) (p : proc) : proc :=
  Proc v (p_pgdir p) (p_kstack p) (p_state p) (p_pid p) (p_parent p) (p_tf p) (p_context p)
    (p_chan p) (p_killed p) (p_ofile p) (p_cwd p) (p_name p) (mmaps p) (total_mmaps p).
Definition set_p_pgdir (v : Z) (p : proc) : proc :=
  Proc (p_sz p) v (p_kstack p) (p_state p) (p_pid p) (p_parent p) (p_tf p) (p_context p)
    (p_chan p) (p_killed p) (p_ofile p) (p_cwd p) (p_name p) (mmaps p) (total_mmaps p).
Definition set_p_kstack (v : Z) (p : proc) : proc :=
  Proc (p_sz p) (p_pgdir p) v (p_state p) (p_pid p) (p_parent p) (p_tf p) (p_context p)
    (p_chan p) (p_killed p) (p_ofile p) (p_cwd p) (p_name p) (mmaps p) (total_mmaps p).
Definition set_p_state (v : procstate) (p : proc) : proc :=
  Proc (p_sz p) (p_pgdir p) (p_kstack p) v (p_pid p) (p_parent p) (p_tf p) (p_context p)
    (p_chan p) (p_killed p) (p_ofile p) (p_cwd p) (p_name p) (mmaps p) (total_mmaps p).
Definition set_p_pid (v : Z) (p : proc) : proc :=
  Proc (p_sz p) (p_pgdir p) (p_kstack p) (p_state p) v (p_parent p) (p_tf p) (p_context p)
    (p_chan p) (p_killed p) (p_ofile p) (p_cwd p) (p_name p) (mmaps p) (total_mmaps p).
Definition set_p_parent (v : option nat) (p : proc) : proc :=
  Proc (p_sz p) (p_pgdir p) (p_kstack p) (p_state p) (p_pid p) v (p_tf p) (p_context p)
    (p_chan p) (p_killed p) (p_ofile p) (p_cwd p) (p_name p) (mmaps p) (total_mmaps p).
Definition set_p_tf (v : trapframe) (p : proc) : proc :=
  Proc (p_sz p) (p_pgdir p) (p_kstack p) (p_state p) (p_pid p) (p_parent p) v (p_context p)
    (p_chan p) (p_killed p) (p_ofile p) (p_cwd p) (p_name p) (mmaps p) (total_mmaps p).
Definition set_p_context (v : Z) (p : proc) : proc :=
  Proc (p_sz p) (p_pgdir p) (p_kstack p) (p_state p) (p_pid p) (p_parent p) (p_tf p) v
    (p_chan p) (p_killed p) (p_ofile p) (p_cwd p) (p_name p) (mmaps p) (total_mmaps p).
Definition set_p_chan (v : Z) (p : proc) : proc :=
  Proc (p_sz p) (p_pgdir p) (p_kstack p) (p_state p) (p_pid p) (p_parent p) (p_tf p) (p_context p)
    v (p_killed p) (p_ofile p) (p_cwd p) (p_name p) (mmaps p) (total_mmaps p).
Definition set_p_killed (v : bool) (p : proc) : proc :=
  Proc (p_sz p) (p_pgdir p) (p_kstack p) (p_state p) (p_pid p) (p_parent p) (p_tf p) (p_context p)
    (p_chan p) v (p_ofile p) (p_cwd p) (p_name p) (mmaps p) (total_mmaps p).
Definition set_p_ofile (fd : nat) (v : option nat) (p : proc) : proc :=
  Proc (p_sz p) (p_pgdir p) (p_kstack p) (p_state p) (p_pid p) (p_parent p) (p_tf p) (p_context p)
    (p_chan p) (p_killed p) (<[fd := v]> (p_ofile p)) (p_cwd p) (p_name p) (mmaps p) (total_mmaps p).
Definition set_p_cwd (v : option nat) (p : proc) : proc :=
  Proc (p_sz p) (p_pgdir p) (p_kstack p) (p_state p) (p_pid p) (p_parent p) (p_tf p) (p_context p)
    (p_chan p) (p_killed p) (p_ofile p) v (p_name p) (mmaps p) (total_mmaps p).
Definition set_p_name (v : list Z) (p : proc) : proc :=
  Proc (p_sz p) (p_pgdir p) (p_kstack p) (p_state p) (p_pid p) (p_parent p) (p_tf p) (p_context p)
    (p_chan p) (p_killed p) (p_ofile p) (p_cwd p) v (mmaps p) (total_mmaps p).
Definition set_mmaps (rs : list mmap_region) (p : proc) : proc :=
  Proc (p_sz p) (p_pgdir p) (p_kstack p) (p_state p) (p_pid p) (p_parent p) (p_tf p) (p_context p)
    (p_chan p) (p_killed p) (p_ofile p) (p_cwd p) (p_name p) rs (total_mmaps p).
Definition set_total_mmaps (n : Z) (p : proc) : proc :=
  Proc (p_sz p) (p_pgdir p) (p_kstack p) (p_state p) (p_pid p) (p_parent p) (p_tf p) (p_context p)
    (p_chan p) (p_killed p) (p_ofile p) (p_cwd p) (p_name p) (mmaps p) n.
