(* ===== verification/Regions.v ===== *)
(** * The table of memory mappings of a process (sys_mmap.c)

    [p->mmaps] is an array of 30 regions of which the first [total_mmaps] are
    live, kept in increasing address order.  This file models the search for a
    place for a new mapping and its insertion ([find_mmap_addr],
    [check_mmap_possible], [setup_mmap_arr], [my_mmap]) and proves that the
    live regions stay sorted, page-aligned, disjoint and inside
    [[MMAPBASE, KERNBASE)].  An access outside the array is undefined
    behaviour. *)

From Stdlib Require Import ZArith Lia.
From stdpp Require Import base numbers strings gmap list.
From S2P Require Import Prelude Mmu Locks Proc0.

(** ** Array accesses *)

Definition NMMAPS : Z := 30.

Definition get_region (i : Z) : M proc mmap_region := λ p,
  if (0 <=? i) && (i <? NMMAPS) then
    match mmaps p !! Z.to_nat i with
    | Some r => Ok r p
    | None => Undef "mmaps"
    end
  else Undef "mmaps".

Definition upd_region (i : Z) (f : mmap_region → mmap_region) : M proc unit := λ p,
  if (0 <=? i) && (i <? NMMAPS) then
    match mmaps p !! Z.to_nat i with
    | Some r => Ok tt (set_mmaps (<[Z.to_nat i := f r]> (mmaps p)) p)
    | None => Undef "mmaps"
    end
  else Undef "mmaps".

(** ** Region structures *)

Definition zero_mmap_region_struct (mr : mmap_region) : mmap_region :=
  Region 0 0 0 0 None 0 (ref_count mr) 0.

Definition copy_mmap_struct (mr1 mr2 : mmap_region) : mmap_region :=
  Region (virt_addr mr2) (r_size mr2) (r_flags mr2) (protection mr2) (r_f mr2)
    (r_offset mr2) (ref_count mr1) (stored_size mr1).

(** [copy_mmap_struct(&p->mmaps[i], &p->mmaps[j])]. *)
Definition copy_region (i j : Z) : M proc unit :=
  src ← get_region j;
  upd_region i (λ dst, copy_mmap_struct dst src).

Definition set_place (addr size : Z) (r : mmap_region) : mmap_region :=
  Region addr size (r_flags r) (protection r) (r_f r) (r_offset r) (ref_count r)
    (stored_size r).
Definition set_attrs (flags prot offset : Z) (f : option nat) (r : mmap_region) : mmap_region :=
  Region (virt_addr r) (r_size r) flags prot f offset (ref_count r) (stored_size r).

(** ** Placing a mapping *)

(** [while (j > i + 1) { copy_mmap_struct(&p->mmaps[j], &p->mmaps[j - 1]); j--; }],
    with [n] the number of iterations. *)
Fixpoint shift_right (n : nat) (j : Z) : M proc unit :=
  match n with
  | O => mret tt
  | S n => copy_region j (j - 1);; shift_right n (j - 1)
  end.

Definition setup_mmap_arr (size i mmapaddr : Z) : M proc Z :=
  j ← gets total_mmaps;
  shift_right (Z.to_nat (j - (i + 1))) j;;
  if PGROUNDUP (u32 (mmapaddr + size)) >=? KERNBASE then mret (-1)
  else
    upd_region (i + 1) (set_place mmapaddr (u32 size));;
    mret (i + 1).

Fixpoint check_loop (n : nat) (i mmap_addr size : Z) : M proc Z :=
  match n with
  | O => mret (-1)
  | S n =>
      r ← get_region i;
      if virt_addr r >=? mmap_addr then mret (-1)
      else
        r' ← get_region (i + 1);
        let start_addr := s32 (PGROUNDUP (u32 (virt_addr r + r_size r))) in
        let end_addr := s32 (PGROUNDUP (virt_addr r')) in
        if (mmap_addr >? u32 start_addr) && (u32 end_addr >? u32 (mmap_addr + size))
        then setup_mmap_arr size i mmap_addr
        else check_loop n (i + 1) mmap_addr size
  end.

Definition check_mmap_possible (addr size : Z) : M proc Z :=
  let mmap_addr := PGROUNDUP addr in
  total ← gets total_mmaps;
  last ← get_region (total - 1);
  if mmap_addr >? PGROUNDUP (u32 (virt_addr last + r_size last))
  then setup_mmap_arr size (total - 1) mmap_addr
  else check_loop (Z.to_nat (total - 1)) 0 mmap_addr size.

(** The loop that looks for a gap; the fuel bounds the array. *)
Fixpoint find_loop (fuel : nat) (i size : Z) : M proc Z :=
  match fuel with
  | O => nofuel
  | S fuel =>
      total ← gets total_mmaps;
      if i <? total then
        next ← get_region (i + 1);
        if nz (virt_addr next) then
          r ← get_region i;
          let start_addr := PGROUNDUP (u32 (virt_addr r + r_size r)) in
          let end_addr := PGROUNDUP (virt_addr next) in
          if u32 (end_addr - start_addr) >? u32 size then mret i
          else find_loop fuel (i + 1) size
        else mret i
      else mret i
  end.

Definition find_mmap_addr (size : Z) : M proc Z :=
  total ← gets total_mmaps;
  if total =? 0 then
    if u32 (PGROUNDUPi (s32 (MMAPBASE + size))) >=? KERNBASE then mret (-1)
    else
      upd_region 0 (set_place (PGROUNDUP MMAPBASE) (u32 size));;
      mret 0
  else
    first ← get_region 0;
    if u32 (virt_addr first - MMAPBASE) >? u32 size
    then setup_mmap_arr size (-1) MMAPBASE
    else
      i ← find_loop (S (Z.to_nat NMMAPS)) 0 size;
      r ← get_region i;
      let mmapaddr := PGROUNDUP (u32 (virt_addr r + r_size r)) in
      if u32 (mmapaddr + size) >? KERNBASE then mret (-1)
      else setup_mmap_arr size i mmapaddr.

(** ** my_mmap *)

Definition has (flags f : Z) : bool := nz (Z.land flags f).

(** [f->readable] and [f->writable] of a file pointer that may be invalid. *)
Definition deref_file (ftab : list file) (f : option nat) : M proc file :=
  match f with
  | Some i => match ftab !! i with Some fl => mret fl | None => undef "file pointer" end
  | None => undef "file pointer"
  end.

Definition place_mapping (addr size flags : Z) : M proc Z :=
  let rounded_addr := u32 (PGROUNDUPi (s32 (PGROUNDUPi addr + size))) in
  if has flags MAP_FIXED then
    if nz addr then
      if (addr <? MMAPBASE) || (rounded_addr >? KERNBASE) || nz (Z.rem addr PGSIZE)
      then mret (-2)
      else
        i ← check_mmap_possible (u32 addr) size;
        if i =? -1 then mret (-2) else mret i
    else mret (-1)
  else if nz addr then
    if (addr <? MMAPBASE) || (rounded_addr >? KERNBASE) then mret (-2)
    else
      i ← check_mmap_possible (u32 addr) size;
      if negb (i =? -1) then mret i
      else
        i ← find_mmap_addr size;
        if i =? -1 then mret (-2) else mret i
  else
    i ← find_mmap_addr size;
    if i =? -1 then mret (-2) else mret i.

Definition my_mmap (ftab : list file) (addr : Z) (f : option nat)
    (size offset flags prot : Z) : M proc Z :=
  if negb (has flags MAP_PRIVATE) && negb (has flags MAP_SHARED) then mret (-1)
  else if (size <=? 0) || (offset <? 0) then mret (-1)
  else
    bad ← (if has flags MAP_ANONYMOUS then mret false
           else fl ← deref_file ftab f; mret (negb (readable fl)));
    if bad : bool then mret (-1)
    else
      bad ← (if has flags MAP_SHARED && has prot PROT_WRITE
             then fl ← deref_file ftab f; mret (negb (writable fl)) else mret false);
      if bad : bool then mret (-1)
      else
        total ← gets total_mmaps;
        if total =? 30 then mret (-1)
        else
          i ← place_mapping addr size flags;
          if i =? -2 then mret (-1)
          else
            (* Store mmap info in process's mmap array *)
            upd_region i (set_attrs flags
              (if prot =? PROT_NONE then 0 else Z.lor PTE_U prot) offset f);;
            modify (λ p, set_total_mmaps (total_mmaps p + 1) p);;
            r ← get_region i;
            mret (virt_addr r).

(** ** Invariant *)

Definition reg (p : proc) (k : Z) : mmap_region := default region0 (mmaps p !! Z.to_nat k).

(** The end of a region, rounded up to a page. *)
Definition rend (r : mmap_region) : Z := PGROUNDUP (u32 (virt_addr r + r_size r)).

Record region_ok (r : mmap_region) : Prop := {
  rg_aligned : virt_addr r mod 4096 = 0;
  rg_base : MMAPBASE ≤ virt_addr r;
  rg_size : 0 < r_size r;
  rg_end : virt_addr r + r_size r ≤ KERNBASE - 4096;
}.

Record regions_ok (p : proc) : Prop := {
  ro_len : length (mmaps p) = 30%nat;
  ro_tot : 0 ≤ total_mmaps p ≤ 30;
  ro_reg : ∀ k, 0 ≤ k < total_mmaps p → region_ok (reg p k);
  ro_sorted : ∀ k, 0 ≤ k → k + 1 < total_mmaps p → rend (reg p k) ≤ virt_addr (reg p (k + 1));
  ro_clean : ∀ k, total_mmaps p ≤ k < 30 → virt_addr (reg p k) = 0;
}.

(** What a region describes; the remaining two fields are bookkeeping of the
    array slot. *)
Definition core (r : mmap_region) : Z * Z * Z * Z * option nat * Z :=
  (virt_addr r, r_size r, r_flags r, protection r, r_f r, r_offset r).

Lemma rend_eq r :
  region_ok r → rend r = (virt_addr r + r_size r + 4095) / 4096 * 4096.
Proof.
  intros [H1 H2 H3 H4]. unfold MMAPBASE, KERNBASE in *. unfold rend.
  rewrite PGROUNDUP_eq, (u32_small (virt_addr r + r_size r)) by lia.
  rewrite u32_small by lia. zlia.
Qed.

Lemma rend_bounds r :
  region_ok r → virt_addr r + r_size r ≤ rend r < KERNBASE ∧ rend r mod 4096 = 0.
Proof.
  intros H. rewrite rend_eq by done. destruct H. unfold KERNBASE in *. zlia.
Qed.

(** The regions of a well-formed table are pairwise disjoint. *)
Lemma regions_ordered p i j :
  regions_ok p → 0 ≤ i < j → j < total_mmaps p → rend (reg p i) ≤ virt_addr (reg p j).
Proof.
  intros Hok Hij Hj. destruct (Z_of_nat_complete (j - i - 1)) as [n Hn]; [lia|].
  revert j Hij Hj Hn. induction n as [|n IH]; intros j Hij Hj Hn.
  - replace j with (i + 1) by lia. apply (ro_sorted _ Hok); lia.
  - etransitivity; [apply (IH (j - 1)); lia|].
    pose proof (ro_reg _ Hok (j - 1) ltac:(lia)) as Hr.
    pose proof (rend_bounds _ Hr). pose proof (rg_size _ Hr).
    pose proof (ro_sorted _ Hok (j - 1) ltac:(lia)) as Hs.
    replace (j - 1 + 1) with j in Hs by lia. lia.
Qed.

(** ** Array lemmas *)

Definition upd (p : proc) (k : Z) (r : mmap_region) : proc :=
  set_mmaps (<[Z.to_nat k := r]> (mmaps p)) p.

Lemma get_region_ok p i :
  length (mmaps p) = 30%nat → 0 ≤ i < 30 → get_region i p = Ok (reg p i) p.
Proof.
  intros Hl Hi. unfold get_region, reg, NMMAPS.
  destruct (Z.leb_spec 0 i), (Z.ltb_spec i 30); try lia. simpl.
  destruct (lookup_lt_is_Some_2 (mmaps p) (Z.to_nat i)) as [r ->]; [lia|done].
Qed.

Lemma upd_region_ok p i f :
  length (mmaps p) = 30%nat → 0 ≤ i < 30 → upd_region i f p = Ok tt (upd p i (f (reg p i))).
Proof.
  intros Hl Hi. unfold upd_region, reg, upd, NMMAPS.
  destruct (Z.leb_spec 0 i), (Z.ltb_spec i 30); try lia. simpl.
  destruct (lookup_lt_is_Some_2 (mmaps p) (Z.to_nat i)) as [r ->]; [lia|done].
Qed.

Lemma reg_upd p i r k :
  length (mmaps p) = 30%nat → 0 ≤ i < 30 → 0 ≤ k →
  reg (upd p i r) k = if decide (k = i) then r else reg p k.
Proof.
  intros Hl Hi Hk. unfold reg, upd. simpl. case_decide as E.
  - subst. by rewrite list_lookup_insert_eq by lia.
  - by rewrite list_lookup_insert_ne by lia.
Qed.

Lemma length_upd p i r : length (mmaps (upd p i r)) = length (mmaps p).
Proof. unfold upd. simpl. apply length_insert. Qed.

(** Only the array of mappings differs. *)
Definition same_but_mmaps (p p' : proc) : Prop := p' = set_mmaps (mmaps p') p.

Lemma same_but_upd p p' i r : same_but_mmaps p p' → same_but_mmaps p (upd p' i r).
Proof. unfold same_but_mmaps, upd. intros E. simpl. by rewrite E. Qed.

Lemma same_but_refl p : same_but_mmaps p p.
Proof. by destruct p. Qed.
Lemma same_but_trans p p1 p' :
  same_but_mmaps p p1 → same_but_mmaps p1 p' → same_but_mmaps p p'.
Proof. unfold same_but_mmaps. intros H1 H2. rewrite H2 at 1. by rewrite H1. Qed.

Lemma same_total p p' : same_but_mmaps p p' → total_mmaps p' = total_mmaps p.
Proof. intros E. by rewrite E. Qed.

Lemma copy_region_ok p i j :
  length (mmaps p) = 30%nat → 0 ≤ i < 30 → 0 ≤ j < 30 →
  copy_region i j p = Ok tt (upd p i (copy_mmap_struct (reg p i) (reg p j))).
Proof.
  intros Hl Hi Hj. unfold copy_region. mstep (get_region_ok p j Hl Hj).
  by apply (upd_region_ok p i (λ dst, copy_mmap_struct dst (reg p j))).
Qed.

Lemma shift_right_spec n j p :
  length (mmaps p) = 30%nat → j < 30 → Z.of_nat n ≤ j →
  ∃ p', shift_right n j p = Ok tt p' ∧ same_but_mmaps p p' ∧
    length (mmaps p') = 30%nat ∧
    ∀ k, 0 ≤ k → reg p' k =
      if decide (j - Z.of_nat n < k ≤ j)
      then copy_mmap_struct (reg p k) (reg p (k - 1)) else reg p k.
Proof.
  revert j p. induction n as [|n IH]; intros j p Hl Hj Hn; simpl.
  { exists p. split_and!; try done; [apply same_but_refl|].
    intros k Hk. by rewrite decide_False by lia. }
  mstep (copy_region_ok p j (j - 1) Hl ltac:(lia) ltac:(lia)).
  set (p1 := upd _ _ _). assert (Hl1 : length (mmaps p1) = 30%nat) by (unfold p1; by rewrite length_upd).
  destruct (IH (j - 1) p1 Hl1) as (p' & E & Hs & Hl' & Hr); [lia..|].
  exists p'. split_and!; [done| |done|].
  { eapply same_but_trans; [|exact Hs]. apply same_but_upd, same_but_refl. }
  intros k Hk. rewrite Hr by done. unfold p1.
  destruct (decide (k = j)) as [->|Hkj].
  - rewrite decide_False, decide_True, reg_upd, decide_True by lia. done.
  - rewrite !reg_upd by lia. rewrite (decide_False (P := k = j)) by lia.
    repeat case_decide; try lia; try done. by rewrite reg_upd, decide_False by lia.
Qed.

(** [p'] is [p] with a region inserted at index [i]. *)
Record inserted (p p' : proc) (i : Z) (new : Z * Z * Z * Z * option nat * Z) : Prop := {
  ins_len : length (mmaps p') = 30%nat;
  ins_total : total_mmaps p' = total_mmaps p + 1;
  ins_low : ∀ k, 0 ≤ k < i → core (reg p' k) = core (reg p k);
  ins_new : core (reg p' i) = new;
  ins_high : ∀ k, i < k ≤ total_mmaps p → core (reg p' k) = core (reg p (k - 1));
  ins_rest : ∀ k, total_mmaps p < k → virt_addr (reg p' k) = virt_addr (reg p k);
}.

Lemma core_eq_ok r r' : core r = core r' → region_ok r → region_ok r'.
Proof. unfold core. intros E [? ? ? ?]. injection E as ? ? ? ? ? ?. split; congruence. Qed.
Lemma core_eq_rend r r' : core r = core r' → rend r = rend r'.
Proof. unfold core, rend. intros [=]. congruence. Qed.
Lemma core_eq_virt r r' : core r = core r' → virt_addr r = virt_addr r'.
Proof. unfold core. by intros [=]. Qed.

Lemma inserted_ok p p' i r :
  regions_ok p → inserted p p' i (core r) → region_ok r →
  0 ≤ i ≤ total_mmaps p → total_mmaps p < 30 →
  (0 < i → rend (reg p (i - 1)) ≤ virt_addr r) →
  (i < total_mmaps p → rend r ≤ virt_addr (reg p i)) → regions_ok p'.
Proof.
  intros Hok [Hl Ht Hlo Hnew Hhi Hre] Hr Hi Htot Hprev Hnext.
  pose proof (ro_tot _ Hok).
  split; [done|lia| | |].
  - intros k Hk. destruct (decide (k < i)); [|destruct (decide (k = i)) as [->|]].
    + eapply core_eq_ok; [symmetry; apply Hlo; lia|apply (ro_reg _ Hok); lia].
    + by eapply core_eq_ok.
    + eapply core_eq_ok; [symmetry; apply Hhi; lia|apply (ro_reg _ Hok); lia].
  - intros k Hk Hk'. destruct (decide (k + 1 < i)); [|destruct (decide (k + 1 = i)) as [E|];
      [|destruct (decide (k = i)) as [->|]]].
    + rewrite (core_eq_rend _ _ (Hlo k ltac:(lia))), (core_eq_virt _ _ (Hlo (k + 1) ltac:(lia))).
      apply (ro_sorted _ Hok); lia.
    + rewrite (core_eq_rend _ _ (Hlo k ltac:(lia))). rewrite E, (core_eq_virt _ _ Hnew).
      replace k with (i - 1) by lia. apply Hprev. lia.
    + rewrite (core_eq_rend _ _ Hnew), (core_eq_virt _ _ (Hhi (i + 1) ltac:(lia))).
      replace (i + 1 - 1) with i by lia. apply Hnext. lia.
    + rewrite (core_eq_rend _ _ (Hhi k ltac:(lia))), (core_eq_virt _ _ (Hhi (k + 1) ltac:(lia))).
      pose proof (ro_sorted _ Hok (k - 1) ltac:(lia)) as Hs.
      replace (k - 1 + 1) with k in Hs by lia. replace (k + 1 - 1) with k by lia.
      apply Hs. lia.
  - intros k Hk. rewrite Hre by lia. apply (ro_clean _ Hok). lia.
Qed.

(** ** Placing a region *)

(** [p'] has a region of [size] bytes at [addr] in slot [i]; the slot's
    attributes are still to be filled in and it is not counted yet. *)
Record placed (p p' : proc) (i addr size : Z) : Prop := {
  pl_same : same_but_mmaps p p';
  pl_len : length (mmaps p') = 30%nat;
  pl_low : ∀ k, 0 ≤ k < i → core (reg p' k) = core (reg p k);
  pl_addr : virt_addr (reg p' i) = addr;
  pl_size : r_size (reg p' i) = size;
  pl_high : ∀ k, i < k ≤ total_mmaps p → core (reg p' k) = core (reg p (k - 1));
  pl_rest : ∀ k, total_mmaps p < k → virt_addr (reg p' k) = virt_addr (reg p k);
}.

(** The address range is free in [p] and index [i] is its place. *)
Record fits (p : proc) (i addr size : Z) : Prop := {
  ft_index : 0 ≤ i ≤ total_mmaps p;
  ft_aligned : addr mod 4096 = 0;
  ft_base : MMAPBASE ≤ addr;
  ft_size : 0 < size;
  ft_end : addr + size ≤ KERNBASE - 4096;
  ft_prev : 0 < i → rend (reg p (i - 1)) ≤ addr;
  ft_next : i < total_mmaps p → PGROUNDUP (u32 (addr + size)) ≤ virt_addr (reg p i);
}.

Lemma copy_core r r' : core (copy_mmap_struct r r') = core r'.
Proof. done. Qed.

Lemma setup_mmap_arr_ok p i addr size :
  length (mmaps p) = 30%nat → 0 ≤ total_mmaps p < 30 → -1 ≤ i < total_mmaps p →
  PGROUNDUP (u32 (addr + size)) < KERNBASE →
  ∃ p', setup_mmap_arr size i addr p = Ok (i + 1) p' ∧ placed p p' (i + 1) addr (u32 size).
Proof.
  intros Hl Ht Hi Hk. unfold setup_mmap_arr, gets, mbind, M_bind.
  destruct (shift_right_spec (Z.to_nat (total_mmaps p - (i + 1))) (total_mmaps p) p)
    as (p1 & E1 & Hs & Hl1 & Hr); [done|lia..|].
  rewrite E1. destruct (Z.geb_spec (PGROUNDUP (u32 (addr + size))) KERNBASE); [lia|].
  rewrite upd_region_ok by (done || lia).
  eexists. split; [done|]. rewrite Z2Nat.id in Hr by lia.
  split.
  - by apply same_but_upd.
  - by rewrite length_upd.
  - intros k Hk'. rewrite reg_upd, decide_False, Hr, decide_False by lia. done.
  - by rewrite reg_upd, decide_True by lia.
  - by rewrite reg_upd, decide_True by lia.
  - intros k Hk'. rewrite reg_upd, decide_False, Hr, decide_True by lia. apply copy_core.
  - intros k Hk'. rewrite reg_upd, decide_False, Hr, decide_False by lia. done.
Qed.

Lemma setup_mmap_arr_full p addr size :
  KERNBASE ≤ PGROUNDUP (u32 (addr + size)) →
  setup_mmap_arr size (total_mmaps p - 1) addr p = Ok (-1) p.
Proof.
  intros Hk. unfold setup_mmap_arr, gets, mbind, M_bind.
  replace (total_mmaps p - (total_mmaps p - 1 + 1)) with 0 by lia. simpl.
  destruct (Z.geb_spec (PGROUNDUP (u32 (addr + size))) KERNBASE); [done|lia].
Qed.

(** Either no place was found and nothing changed, or the region is placed
    in a free range. *)
Definition place_post (p : proc) (fail addr0 size i : Z) (p' : proc) : Prop :=
  (i = fail ∧ p' = p) ∨
  (∃ addr, placed p p' i addr size ∧ fits p i addr size ∧ (addr0 ≠ 0 → addr = addr0)).

Lemma roundup_end a s :
  0 ≤ a + s < 2 ^ 32 - 4096 → PGROUNDUP (u32 (a + s)) = (a + s + 4095) / 4096 * 4096.
Proof.
  intros H. rewrite PGROUNDUP_eq, (u32_small (a + s)) by lia.
  rewrite u32_small by lia. zlia.
Qed.

(** Appending after the last region. *)
Lemma setup_append p addr size addr0 :
  regions_ok p → total_mmaps p < 30 → addr mod 4096 = 0 → MMAPBASE ≤ addr →
  0 < size < 2 ^ 31 → addr + size < 2 ^ 32 - 4096 →
  (0 < total_mmaps p → rend (reg p (total_mmaps p - 1)) ≤ addr) →
  (addr0 ≠ 0 → addr = addr0) →
  ∃ i p', setup_mmap_arr size (total_mmaps p - 1) addr p = Ok i p' ∧
    place_post p (-1) addr0 size i p'.
Proof.
  intros Hok Ht Ha Hb Hs He Hp H0. pose proof (ro_tot _ Hok). pose proof (ro_len _ Hok).
  destruct (Z.lt_ge_cases (PGROUNDUP (u32 (addr + size))) KERNBASE) as [Hk|Hk].
  - destruct (setup_mmap_arr_ok p (total_mmaps p - 1) addr size) as (p' & E & Hpl); [done|lia..|].
    exists (total_mmaps p), p'. replace (total_mmaps p - 1 + 1) with (total_mmaps p) in * by lia.
    rewrite u32_small in Hpl by lia. split; [done|]. right. exists addr. split_and!; [done| |done].
    unfold MMAPBASE, KERNBASE in *. rewrite roundup_end in Hk by lia.
    split; try done; try lia. unfold KERNBASE. zlia.
  - eexists _, _. split; [by apply setup_mmap_arr_full|]. by left.
Qed.

(** Inserting in front of region [i + 1]. *)
Lemma setup_insert p i addr size addr0 :
  regions_ok p → total_mmaps p < 30 → -1 ≤ i < total_mmaps p - 1 →
  addr mod 4096 = 0 → MMAPBASE ≤ addr → 0 < size < 2 ^ 31 →
  (0 ≤ i → rend (reg p i) ≤ addr) → addr + size ≤ virt_addr (reg p (i + 1)) →
  (addr0 ≠ 0 → addr = addr0) →
  ∃ i' p', setup_mmap_arr size i addr p = Ok i' p' ∧ place_post p (-1) addr0 size i' p'.
Proof.
  intros Hok Ht Hi Ha Hb Hs Hp Hn H0. pose proof (ro_len _ Hok).
  pose proof (ro_reg _ Hok (i + 1) ltac:(lia)) as [R1 R2 R3 R4].
  unfold MMAPBASE, KERNBASE in *.
  destruct (setup_mmap_arr_ok p i addr size) as (p' & E & Hpl); try done; try lia.
  { rewrite roundup_end by lia. unfold KERNBASE. zlia. }
  exists (i + 1), p'. split; [done|]. right. exists addr.
  rewrite u32_small in Hpl by lia. split_and!; [done| |done].
  split; try done; try lia.
  - unfold KERNBASE. lia.
  - intros ?. replace (i + 1 - 1) with i by lia. apply Hp. lia.
  - intros _. rewrite roundup_end by lia. zlia.
Qed.

Lemma region_bounds p k :
  regions_ok p → 0 ≤ k < total_mmaps p →
  0x60000000 ≤ virt_addr (reg p k) < rend (reg p k) ∧ rend (reg p k) < 0x80000000 ∧
  virt_addr (reg p k) mod 4096 = 0 ∧ rend (reg p k) mod 4096 = 0.
Proof.
  intros Hok Hk. pose proof (ro_reg _ Hok k Hk) as Hr. pose proof (rend_bounds _ Hr).
  destruct Hr. unfold MMAPBASE, KERNBASE in *. lia.
Qed.

Lemma find_loop_spec p size fuel i :
  regions_ok p → total_mmaps p < 30 → 0 ≤ i < total_mmaps p → 0 < size < 2 ^ 31 →
  total_mmaps p - i < Z.of_nat fuel →
  ∃ i', find_loop fuel i size p = Ok i' p ∧ i ≤ i' < total_mmaps p ∧
    (i' < total_mmaps p - 1 → size < virt_addr (reg p (i' + 1)) - rend (reg p i')).
Proof.
  intros Hok Ht Hi Hs. revert i Hi. induction fuel as [|fuel IH]; intros i Hi Hf; [lia|].
  simpl. unfold gets, mbind, M_bind. destruct (Z.ltb_spec i (total_mmaps p)); [|lia].
  rewrite get_region_ok by (apply Hok || lia).
  destruct (decide (i = total_mmaps p - 1)) as [->|Hne].
  { replace (total_mmaps p - 1 + 1) with (total_mmaps p) by lia.
    rewrite (ro_clean _ Hok) by lia. simpl. eexists. split; [done|]. lia. }
  pose proof (region_bounds p (i + 1) Hok ltac:(lia)) as (B1 & B2 & B3 & B4).
  pose proof (region_bounds p i Hok ltac:(lia)) as (C1 & C2 & C3 & C4).
  pose proof (ro_sorted _ Hok i ltac:(lia) ltac:(lia)).
  unfold nz. destruct (Z.eqb_spec (virt_addr (reg p (i + 1))) 0); [lia|]. simpl.
  rewrite get_region_ok by (apply Hok || lia).
  rewrite PGROUNDUP_id by lia. fold (rend (reg p i)).
  rewrite !u32_small by lia.
  destruct (Z.gtb_spec (virt_addr (reg p (i + 1)) - rend (reg p i)) size).
  - eexists. split; [done|]. lia.
  - destruct (IH (i + 1)) as (i' & -> & ? & ?); [lia..|]. exists i'. split; [done|]. lia.
Qed.

(** There is room behind the last region. *)
Definition room_behind (p : proc) (size : Z) : Prop :=
  (if total_mmaps p =? 0 then MMAPBASE else rend (reg p (total_mmaps p - 1))) + size ≤ KERNBASE - 4096.

Lemma room_below p size i :
  regions_ok p → 0 ≤ i < total_mmaps p → room_behind p size → rend (reg p i) + size ≤ KERNBASE - 4096.
Proof.
  intros Hok Hi. unfold room_behind. destruct (Z.eqb_spec (total_mmaps p) 0); [lia|]. intros Hr.
  destruct (decide (i = total_mmaps p - 1)) as [->|Hn]; [done|].
  pose proof (regions_ordered p i (total_mmaps p - 1) Hok ltac:(lia) ltac:(lia)).
  pose proof (region_bounds p (total_mmaps p - 1) Hok ltac:(lia)). lia.
Qed.

(** As [place_post], and the search succeeds if there is room. *)
Definition find_post (p : proc) (fail size i : Z) (p' : proc) : Prop :=
  place_post p fail 0 size i p' ∧ (room_behind p size → i ≠ fail).
Lemma find_placed p size i p' : 0 ≤ i → place_post p (-1) 0 size i p' → find_post p (-1) size i p'.
Proof. intros Hi Hp. split; [done|]. lia. Qed.
Lemma setup_find p i addr size :
  (∃ i' p', setup_mmap_arr size i addr p = Ok i' p' ∧ place_post p (-1) 0 size i' p') →
  (room_behind p size → PGROUNDUP (u32 (addr + size)) < KERNBASE) → -1 ≤ i →
  ∃ i' p', setup_mmap_arr size i addr p = Ok i' p' ∧ find_post p (-1) size i' p'.
Proof.
  intros (i' & p' & E & Hp) Hr Hi. exists i', p'. split; [done|]. split; [done|]. intros Hroom. specialize (Hr Hroom).
  unfold setup_mmap_arr in E. minv E as (j & p1 & _ & E). minv E as ([] & p2 & _ & E).
  destruct (Z.geb_spec (PGROUNDUP (u32 (addr + size))) KERNBASE); [lia|]. minv E as ([] & p3 & _ & E).
  injection E as <- _. lia.
Qed.

Lemma find_mmap_addr_spec p size :
  regions_ok p → total_mmaps p < 30 → 0 < size < 2 ^ 31 →
  ∃ i p', find_mmap_addr size p = Ok i p' ∧ find_post p (-1) size i p'.
Proof.
  intros Hok Ht Hs. pose proof (ro_tot _ Hok). pose proof (ro_len _ Hok) as Hl.
  unfold find_mmap_addr, gets, mbind, M_bind.
  destruct (Z.eqb_spec (total_mmaps p) 0) as [E0|E0].
  { rewrite PGROUNDUPi_eq. unfold MMAPBASE, KERNBASE.
    destruct (Z.geb_spec (u32 (s32 (s32 (0x60000000 + size) + 4095) -
      s32 (s32 (0x60000000 + size) + 4095) mod 4096)) 0x80000000) as [Hk|Hk].
    { eexists _, _. split; [done|]. split; [by left|]. unfold room_behind. rewrite E0. unfold MMAPBASE, KERNBASE. simpl.
      clear -Hk Hs. intros Hr. exfalso. revert Hk. rewrite (s32_small (0x60000000 + size)) by lia. rewrite s32_small by lia. ulia. }
    rewrite upd_region_ok by (done || lia). eexists _, _. split; [done|]. apply find_placed; [lia|]. right.
    change (PGROUNDUP 0x60000000) with MMAPBASE. exists MMAPBASE. split_and!; [| |done].
    - split; try (intros; lia).
      + apply same_but_upd, same_but_refl.
      + by rewrite length_upd.
      + by rewrite reg_upd, decide_True by lia.
      + rewrite reg_upd, decide_True by lia. simpl. apply u32_small. lia.
      + intros k Hk'. by rewrite reg_upd, decide_False by lia.
    - split; try done; try lia. unfold MMAPBASE, KERNBASE. clear -Hk Hs. ulia. }
  rewrite get_region_ok by (done || lia).
  pose proof (region_bounds p 0 Hok ltac:(lia)) as (B1 & B2 & B3 & B4).
  rewrite !u32_small by (unfold MMAPBASE; lia). unfold MMAPBASE at 1.
  destruct (Z.gtb_spec (virt_addr (reg p 0) - 0x60000000) size) as [Hg|Hg].
  { apply setup_find; [|intros _; rewrite roundup_end; unfold MMAPBASE, KERNBASE; zlia|lia].
    apply setup_insert; change (-1 + 1) with 0; try done; unfold MMAPBASE; lia. }
  destruct (find_loop_spec p size (S (Z.to_nat NMMAPS)) 0) as (i & -> & Hi & Hgap);
    [done|lia|lia|lia|unfold NMMAPS; lia|].
  rewrite get_region_ok by (done || lia). fold (rend (reg p i)).
  pose proof (region_bounds p i Hok ltac:(lia)) as (C1 & C2 & C3 & C4).
  pose proof (room_below p size i Hok ltac:(lia)) as Hroom. unfold KERNBASE in Hroom.
  rewrite u32_small by lia. unfold KERNBASE.
  destruct (Z.gtb_spec (rend (reg p i) + size) 0x80000000) as [Hgt|Hle].
  { eexists _, _. split; [done|]. split; [by left|]. intros Hr. specialize (Hroom Hr). lia. }
  apply setup_find; [|intros Hr; specialize (Hroom Hr); rewrite roundup_end; unfold KERNBASE; zlia|lia].
  destruct (decide (i = total_mmaps p - 1)) as [->|Hne].
  - apply setup_append; try done; unfold MMAPBASE; lia.
  - specialize (Hgap ltac:(lia)). apply setup_insert; try done; unfold MMAPBASE; lia.
Qed.

Lemma check_loop_spec p addr size n i :
  regions_ok p → total_mmaps p < 30 → 0 ≤ i → i + Z.of_nat n = total_mmaps p - 1 →
  addr mod 4096 = 0 → 0x60000000 ≤ addr → 0 < size → addr + size ≤ 0x80000000 →
  ∃ i' p', check_loop n i addr size p = Ok i' p' ∧ place_post p (-1) addr size i' p'.
Proof.
  intros Hok Ht Hi Hn Ha Hb Hs He. revert i Hi Hn.
  induction n as [|n IH]; intros i Hi Hn; simpl.
  { eexists _, _. split; [done|]. by left. }
  unfold mbind, M_bind. rewrite get_region_ok by (apply Hok || lia).
  destruct (Z.geb_spec (virt_addr (reg p i)) addr) as [|Hv].
  { eexists _, _. split; [done|]. by left. }
  rewrite get_region_ok by (apply Hok || lia).
  pose proof (region_bounds p (i + 1) Hok ltac:(lia)) as (B1 & B2 & B3 & B4).
  fold (rend (reg p i)). rewrite PGROUNDUP_id, !u32_s32 by lia.
  pose proof (region_bounds p i Hok ltac:(lia)) as (C1 & C2 & C3 & C4).
  rewrite !u32_small by lia.
  destruct (Z.gtb_spec addr (rend (reg p i))), (Z.gtb_spec (virt_addr (reg p (i + 1))) (addr + size));
    simpl; try (apply IH; lia).
  apply setup_insert; try done; unfold MMAPBASE; lia.
Qed.

Lemma check_mmap_possible_spec p addr size :
  regions_ok p → 1 ≤ total_mmaps p < 30 → 0x60000000 ≤ addr ≤ 0x80000000 →
  0 < size → PGROUNDUP addr + size ≤ 0x80000000 →
  ∃ i p', check_mmap_possible addr size p = Ok i p' ∧
    place_post p (-1) (PGROUNDUP addr) size i p'.
Proof.
  intros Hok Ht Ha Hs He. unfold check_mmap_possible, gets, mbind, M_bind.
  rewrite get_region_ok by (apply Hok || lia). fold (rend (reg p (total_mmaps p - 1))).
  pose proof (PGROUNDUP_aligned addr). pose proof (PGROUNDUP_bounds addr ltac:(lia)).
  pose proof (region_bounds p (total_mmaps p - 1) Hok ltac:(lia)) as (C1 & C2 & C3 & C4).
  destruct (Z.gtb_spec (PGROUNDUP addr) (rend (reg p (total_mmaps p - 1)))).
  - apply setup_append; try done; unfold MMAPBASE; lia.
  - apply check_loop_spec; try done; lia.
Qed.

(** ** Placing a mapping *)

Lemma u32_PGROUNDUPi x : u32 (PGROUNDUPi x) = PGROUNDUP (u32 x).
Proof. rewrite PGROUNDUPi_eq, PGROUNDUP_eq. ulia. Qed.

Lemma rounded_passes addr size :
  0x60000000 ≤ addr < 2 ^ 31 → 0 < size < 2 ^ 31 → addr ≤ 0x7FFFF000 ∨ size ≤ 0x7FFFF000 →
  u32 (PGROUNDUPi (s32 (PGROUNDUPi addr + size))) ≤ 0x80000000 →
  PGROUNDUP (u32 addr) + size ≤ 0x80000000.
Proof.
  intros Ha Hs Hw. rewrite u32_PGROUNDUPi, u32_s32.
  pose proof (PGROUNDUP_bounds (u32 addr)) as Hb. rewrite <- (u32_PGROUNDUPi addr) in Hb |- *.
  rewrite (u32_small addr) in Hb by lia. specialize (Hb ltac:(lia)).
  pose proof (PGROUNDUP_aligned (u32 addr)) as Hal. rewrite <- u32_PGROUNDUPi in Hal.
  assert (E : u32 (PGROUNDUPi addr + size) = u32 (u32 (PGROUNDUPi addr) + size))
    by (unfold u32; by rewrite Zplus_mod_idemp_l).
  rewrite E. clear E. generalize dependent (u32 (PGROUNDUPi addr)). intros a Hb Hal.
  rewrite (u32_small (a + size)) by zlia. pose proof (PGROUNDUP_bounds (a + size)). zlia.
Qed.

(** What becomes of a request: [Ordinary] ones are refused or get a free range.
    A [Wild] one makes the code leave the array of mappings (the address 0 with
    MAP_FIXED, or any address as the first mapping), one that [Wraps] has a
    rounded end that wraps around to 0. *)
Inductive mmap_case := Ordinary | Wild | Wraps.
#[export] Instance mmap_case_dec : EqDecision mmap_case.
Proof. solve_decision. Defined.

Definition rounded_end (addr size : Z) : Z := u32 (PGROUNDUPi (s32 (PGROUNDUPi addr + size))).
Definition place_case (p : proc) (addr size flags : Z) : mmap_case :=
  if total_mmaps p =? 30 then Ordinary
  else if addr =? 0 then if has flags MAP_FIXED then Wild else Ordinary
  else if (addr <? MMAPBASE) || (rounded_end addr size >? KERNBASE) then Ordinary
  else if has flags MAP_FIXED && nz (Z.rem addr PGSIZE) then Ordinary
  else if total_mmaps p =? 0 then Wild
  else if negb (has flags MAP_FIXED) && (0x7FFFF000 <? addr) && (0x7FFFF000 <? size) then Wraps
  else Ordinary.

Lemma find_place_spec p size :
  regions_ok p → total_mmaps p < 30 → 0 < size < 2 ^ 31 →
  ∃ i p', (i ← find_mmap_addr size; if i =? -1 then mret (-2) else mret i) p = Ok i p' ∧
    find_post p (-2) size i p'.
Proof.
  intros Hok Ht Hs. unfold mbind, M_bind.
  destruct (find_mmap_addr_spec p size) as (i & p' & -> & [[[-> ->]|(a & Hpl & Hf & _)] Hr]); [done..| |].
  - eexists _, _. split; [done|]. split; [by left|]. intros H. by destruct (Hr H).
  - destruct (Z.eqb_spec i (-1)); [destruct Hf; lia|].
    eexists _, _. split; [done|]. split; [|destruct Hf; lia]. right. exists a. by split_and!.
Qed.

Lemma check_empty addr size p : total_mmaps p = 0 → check_mmap_possible addr size p = Undef "mmaps".
Proof. intros E. unfold check_mmap_possible, gets, mbind, M_bind, get_region. by rewrite E. Qed.

Lemma place_mapping_spec p addr size flags :
  regions_ok p → total_mmaps p < 30 → - 2 ^ 31 ≤ addr < 2 ^ 31 → 0 < size < 2 ^ 31 →
  place_case p addr size flags = Ordinary →
  ∃ i p', place_mapping addr size flags p = Ok i p' ∧
    place_post p (-2) (if has flags MAP_FIXED then addr else 0) size i p' ∧
    (addr = 0 → room_behind p size → i ≠ -2) ∧ (has flags MAP_FIXED = true → addr ≠ 0).
Proof.
  intros Hok Ht Ha Hs. unfold place_case, place_mapping. fold (rounded_end addr size).
  pose proof (ro_tot _ Hok). destruct (Z.eqb_spec (total_mmaps p) 30); [lia|].
  assert (Hfail : ∀ a0, addr ≠ 0 → ∃ i p', (mret (-2) : M proc Z) p = Ok i p' ∧ place_post p (-2) a0 size i p' ∧
    (addr = 0 → room_behind p size → i ≠ -2) ∧ (has flags MAP_FIXED = true → addr ≠ 0)).
  { intros a0 Hne. eexists _, _. split; [done|]. split; [by left|done]. }
  unfold nz. destruct (Z.eqb_spec addr 0) as [->|Hne]; cbn [negb].
  { destruct (has flags MAP_FIXED); [done|]. intros _.
    destruct (find_place_spec p size Hok Ht Hs) as (i & p' & E & Hp & Hr). exists i, p'. done. }
  unfold MMAPBASE, KERNBASE. destruct (Z.ltb_spec addr 0x60000000); cbn [orb].
  { intros _. destruct (has flags MAP_FIXED); by apply Hfail. }
  destruct (Z.gtb_spec (rounded_end addr size) 0x80000000); cbn [orb].
  { intros _. destruct (has flags MAP_FIXED); by apply Hfail. }
  destruct (has flags MAP_FIXED) eqn:Hfx; cbn [andb].
  - destruct (Z.eqb_spec (Z.rem addr PGSIZE) 0) as [Hal|]; [|intros _; by apply Hfail]. cbn [negb].
    destruct (Z.eqb_spec (total_mmaps p) 0); [done|]. intros _.
    unfold PGSIZE in Hal. rewrite Z.rem_mod_nonneg in Hal by lia.
    pose proof (rounded_passes addr size ltac:(lia) ltac:(lia) ltac:(zlia) ltac:(done)) as Hend.
    destruct (check_mmap_possible_spec p (u32 addr) size) as (i & p' & E & Hpost); try done; try lia; [rewrite u32_small; lia|].
    unfold mbind, M_bind. rewrite E. destruct Hpost as [[-> ->]|(a & Hpl & Hf & E0)]; [by apply Hfail|].
    destruct (Z.eqb_spec i (-1)); [destruct Hf; lia|].
    eexists _, _. split; [done|]. split; [|done]. right. exists a. split_and!; [done..|]. intros _.
    rewrite u32_small, PGROUNDUP_id in E0 by lia. by apply E0.
  - destruct (Z.eqb_spec (total_mmaps p) 0); [done|]. cbn [negb].
    destruct (Z.ltb_spec 0x7FFFF000 addr), (Z.ltb_spec 0x7FFFF000 size); cbn [andb]; [done|intros _..];
      pose proof (rounded_passes addr size ltac:(lia) ltac:(lia) ltac:(lia) ltac:(done)) as Hend;
      (destruct (check_mmap_possible_spec p (u32 addr) size) as (i & p' & E & Hpost); try done; try lia; [rewrite u32_small; lia|]);
      unfold mbind at 1, M_bind at 1; rewrite E;
      (destruct Hpost as [[-> ->]|(a & Hpl & Hf & E0)];
        [destruct (find_place_spec p size Hok Ht Hs) as (j & p2 & E2 & Hp2 & _); exists j, p2; split; [exact E2|done]|]);
      (destruct (Z.eqb_spec i (-1)); [destruct Hf; lia|]);
      (eexists _, _; split; [done|]; split; [|done]; right; exists a; by split_and!).
Qed.

(** The requests that leave the array. *)
Lemma place_mapping_wild p addr size flags :
  place_case p addr size flags = Wild →
  place_mapping addr size flags p = Undef "mmaps" ∨ place_mapping addr size flags p = Ok (-1) p.
Proof.
  unfold place_case, place_mapping. fold (rounded_end addr size). unfold nz.
  destruct (total_mmaps p =? 30); [done|]. destruct (Z.eqb_spec addr 0) as [->|]; cbn [negb].
  { destruct (has flags MAP_FIXED); [by right|done]. }
  destruct (addr <? MMAPBASE); cbn [orb]; [done|]. destruct (rounded_end addr size >? KERNBASE); cbn [orb]; [done|].
  destruct (has flags MAP_FIXED); cbn [andb].
  - destruct (_ =? 0); cbn [negb]; [|done]. destruct (Z.eqb_spec (total_mmaps p) 0); [|by cbn [negb andb]].
    intros _. left. by apply bind_undef, check_empty.
  - destruct (Z.eqb_spec (total_mmaps p) 0); [|by destruct (_ && _)].
    intros _. left. by apply bind_undef, check_empty.
Qed.

(** The requests that wrap around get the first address of the kernel. *)
Lemma place_mapping_wraps p addr size flags :
  regions_ok p → addr < 2 ^ 31 → size < 2 ^ 31 → place_case p addr size flags = Wraps →
  ∃ p', place_mapping addr size flags p = Ok (total_mmaps p) p' ∧ total_mmaps p < 30 ∧
    placed p p' (total_mmaps p) KERNBASE size.
Proof.
  intros Hok Ha Hs. unfold place_case, place_mapping. fold (rounded_end addr size). unfold nz.
  pose proof (ro_tot _ Hok). destruct (Z.eqb_spec (total_mmaps p) 30); [done|].
  destruct (Z.eqb_spec addr 0) as [->|]; cbn [negb]; [by destruct (has flags MAP_FIXED)|].
  destruct (Z.ltb_spec addr MMAPBASE); cbn [orb]; [done|]. destruct (rounded_end addr size >? KERNBASE); cbn [orb]; [done|].
  destruct (has flags MAP_FIXED); cbn [andb negb].
  { destruct (_ =? 0); cbn [negb]; [|done]. by destruct (total_mmaps p =? 0). }
  destruct (Z.eqb_spec (total_mmaps p) 0); [done|].
  destruct (Z.ltb_spec 0x7FFFF000 addr), (Z.ltb_spec 0x7FFFF000 size); cbn [andb]; try done. intros _.
  assert (Er : PGROUNDUP (u32 addr) = KERNBASE).
  { rewrite (u32_small addr), PGROUNDUP_eq by lia. rewrite u32_small by lia. unfold KERNBASE. zlia. }
  destruct (setup_mmap_arr_ok p (total_mmaps p - 1) KERNBASE size) as (p' & E & Hpl); [apply Hok|lia|lia| |].
  { unfold KERNBASE. rewrite (u32_small (0x80000000 + size)), PGROUNDUP_eq by lia. ulia. }
  replace (total_mmaps p - 1 + 1) with (total_mmaps p) in * by lia. rewrite u32_small in Hpl by lia.
  exists p'. split_and!; [|lia|done]. erewrite bind_ok; [|].
  2:{ unfold check_mmap_possible, gets, mbind, M_bind. rewrite get_region_ok by (apply Hok || lia).
      fold (rend (reg p (total_mmaps p - 1))). rewrite Er. pose proof (region_bounds p (total_mmaps p - 1) Hok ltac:(lia)).
      destruct (Z.gtb_spec KERNBASE (rend (reg p (total_mmaps p - 1)))); [exact E|unfold KERNBASE in *; lia]. }
  destruct (Z.eqb_spec (total_mmaps p) (-1)); [lia|done].
Qed.

(** ** my_mmap *)

(** The arguments of [my_mmap], as [sys_mmap] fetches them. *)
Record mmap_req := MmapReq {
  rq_addr : Z; rq_f : option nat; rq_size : Z; rq_offset : Z; rq_flags : Z; rq_prot : Z }.

Definition mmap_call (ftab : list file) (q : mmap_req) : M proc Z :=
  my_mmap ftab (rq_addr q) (rq_f q) (rq_size q) (rq_offset q) (rq_flags q) (rq_prot q).

Definition req_ints (q : mmap_req) : Prop :=
  - 2 ^ 31 ≤ rq_addr q < 2 ^ 31 ∧ - 2 ^ 31 ≤ rq_size q < 2 ^ 31.

(** The tests of [my_mmap] before it looks for a place; the file pointer is
    dereferenced unless the mapping is anonymous, and for shared writable
    mappings. *)
Definition bad_args (q : mmap_req) : bool :=
  negb (has (rq_flags q) MAP_PRIVATE) && negb (has (rq_flags q) MAP_SHARED) || (rq_size q <=? 0) || (rq_offset q <? 0).
Definition uses_file (q : mmap_req) : bool :=
  negb (has (rq_flags q) MAP_ANONYMOUS) || has (rq_flags q) MAP_SHARED && has (rq_prot q) PROT_WRITE.
Definition req_file (ftab : list file) (q : mmap_req) : option file := rq_f q ≫= λ i, ftab !! i.
Definition refuses (q : mmap_req) (fl : file) : bool :=
  negb (has (rq_flags q) MAP_ANONYMOUS) && negb (readable fl) ||
  has (rq_flags q) MAP_SHARED && has (rq_prot q) PROT_WRITE && negb (writable fl).

Definition mmap_case_of (ftab : list file) (p : proc) (q : mmap_req) : mmap_case :=
  if bad_args q then Ordinary
  else
    match req_file ftab q with
    | None => if uses_file q then Wild else place_case p (rq_addr q) (rq_size q) (rq_flags q)
    | Some fl => if refuses q fl then Ordinary else place_case p (rq_addr q) (rq_size q) (rq_flags q)
    end.

(** A request that has to be granted: the system chooses the address, there is
    a free entry, and room behind the last mapping. *)
Definition grantable (ftab : list file) (p : proc) (q : mmap_req) : Prop :=
  bad_args q = false ∧ (∀ fl, req_file ftab q = Some fl → refuses q fl = false) ∧
  rq_addr q = 0 ∧ total_mmaps p < 30 ∧ room_behind p (rq_size q).

(** Only the table of mappings differs. *)
Definition same_but_table (p p' : proc) : Prop :=
  p' = set_total_mmaps (total_mmaps p') (set_mmaps (mmaps p') p).

Definition new_core (q : mmap_req) (addr : Z) : Z * Z * Z * Z * option nat * Z :=
  (addr, rq_size q, rq_flags q,
   (if rq_prot q =? PROT_NONE then 0 else Z.lor PTE_U (rq_prot q)), rq_f q, rq_offset q).

Definition mmap_post (p : proc) (q : mmap_req) (r : Z) (p' : proc) : Prop :=
  (r = -1 ∧ p' = p) ∨
  (same_but_table p p' ∧ MMAPBASE ≤ r ∧
   (has (rq_flags q) MAP_FIXED = true → r = rq_addr q) ∧
   ∃ i, 0 ≤ i ≤ total_mmaps p ∧ inserted p p' i (new_core q r)).

Lemma placed_inserted p p' q i addr :
  total_mmaps p < 30 → placed p p' i addr (rq_size q) → 0 ≤ i ≤ total_mmaps p →
  let p2 := set_total_mmaps (total_mmaps p' + 1) (upd p' i
    (set_attrs (rq_flags q) (if rq_prot q =? PROT_NONE then 0 else Z.lor PTE_U (rq_prot q))
       (rq_offset q) (rq_f q) (reg p' i))) in
  inserted p p2 i (new_core q addr).
Proof.
  intros Ht [Hs Hl Hlo Ha Hsz Hhi Hre] Hi p2.
  pose proof (λ k, reg_upd p' i (set_attrs (rq_flags q)
    (if rq_prot q =? PROT_NONE then 0 else Z.lor PTE_U (rq_prot q))
    (rq_offset q) (rq_f q) (reg p' i)) k Hl ltac:(lia)) as Hr.
  change (reg (upd _ _ _)) with (reg p2) in Hr.
  split.
  - unfold p2. simpl. by rewrite length_insert.
  - unfold p2. simpl. by rewrite (same_total _ _ Hs).
  - intros k Hk. rewrite Hr, decide_False by lia. by apply Hlo.
  - rewrite Hr, decide_True by lia. unfold core, new_core. simpl. by rewrite Ha, Hsz.
  - intros k Hk. rewrite Hr, decide_False by lia. by apply Hhi.
  - intros k Hk. rewrite Hr, decide_False by lia. by apply Hre.
Qed.

Lemma same_table_upd p p' i r t :
  same_but_mmaps p p' → same_but_table p (set_total_mmaps t (upd p' i r)).
Proof. unfold same_but_mmaps, same_but_table, upd. intros ->. done. Qed.

Lemma fits_region p i addr q :
  fits p i addr (rq_size q) →
  region_ok {| virt_addr := addr; r_size := rq_size q; r_flags := rq_flags q;
     protection := (if rq_prot q =? PROT_NONE then 0 else Z.lor PTE_U (rq_prot q));
     r_f := rq_f q; r_offset := rq_offset q; ref_count := 0; stored_size := 0 |}.
Proof. by intros []. Qed.

(** [my_mmap] as its tests, the search and the new entry. *)
Definition fill_entry (q : mmap_req) (i : Z) : M proc Z :=
  if i =? -2 then mret (-1)
  else
    upd_region i (set_attrs (rq_flags q) (if rq_prot q =? PROT_NONE then 0 else Z.lor PTE_U (rq_prot q))
      (rq_offset q) (rq_f q));;
    modify (λ p, set_total_mmaps (total_mmaps p + 1) p);;
    r ← get_region i;
    mret (virt_addr r).
Lemma my_mmap_tests ftab p q :
  mmap_call ftab q p =
    if bad_args q then Ok (-1) p
    else
      let rest := if total_mmaps p =? 30 then Ok (-1) p
                  else (place_mapping (rq_addr q) (rq_size q) (rq_flags q) ≫= fill_entry q) p in
      match req_file ftab q with
      | None => if uses_file q then Undef "file pointer" else rest
      | Some fl => if refuses q fl then Ok (-1) p else rest
      end.
Proof.
  unfold mmap_call, my_mmap, bad_args, uses_file, refuses, req_file, deref_file, fill_entry, gets.
  destruct (_ && negb (has (rq_flags q) MAP_SHARED)); [done|]. cbn [orb]. destruct (_ || (rq_offset q <? 0)); [done|].
  unfold mbind, M_bind, mret, M_ret, undef, option_bind.
  destruct (has (rq_flags q) MAP_ANONYMOUS); cbn [negb andb orb];
    destruct (has (rq_flags q) MAP_SHARED && has (rq_prot q) PROT_WRITE); cbn [negb andb orb];
    destruct (rq_f q) as [i|]; try done; try (destruct (ftab !! i) as [fl|]; try done);
    try (destruct (readable fl)); cbn [negb andb orb]; try done; try (destruct (writable fl)); cbn [negb andb orb]; try done;
    by destruct (total_mmaps p =? 30).
Qed.

(** The new region gets its attributes and is counted. *)
Lemma fill_entry_placed p p1 q i addr :
  total_mmaps p < 30 → 0 ≤ i ≤ total_mmaps p → placed p p1 i addr (rq_size q) →
  ∃ p', fill_entry q i p1 = Ok addr p' ∧ same_but_table p p' ∧ inserted p p' i (new_core q addr).
Proof.
  intros Ht Hi Hpl. unfold fill_entry. destruct (Z.eqb_spec i (-2)); [lia|].
  rewrite (bind_ok _ _ _ _ _ (upd_region_ok p1 i _ (pl_len _ _ _ _ _ Hpl) ltac:(lia))).
  pose proof (placed_inserted p p1 q i addr Ht Hpl Hi) as Hins. simpl in Hins.
  pose proof (core_eq_virt _ {| virt_addr := addr; r_size := rq_size q; r_flags := rq_flags q;
     protection := _; r_f := rq_f q; r_offset := rq_offset q; ref_count := 0; stored_size := 0 |}
     (ins_new _ _ _ _ Hins)) as Hv. simpl in Hv.
  eexists. split; [|split; [|exact Hins]].
  - unfold mbind, M_bind, modify. simpl. rewrite get_region_ok by (apply Hins || lia). simpl. by rewrite Hv.
  - by apply same_table_upd, Hpl.
Qed.

(** What [my_mmap] does, in each of the cases. *)
Definition mmap_spec (ftab : list file) (p : proc) (q : mmap_req) : Prop :=
  match mmap_case_of ftab p q with
  | Ordinary => ∃ r p', mmap_call ftab q p = Ok r p' ∧ regions_ok p' ∧ mmap_post p q r p' ∧
      (grantable ftab p q → r ≠ -1)
  | Wild => ∃ e, mmap_call ftab q p = Undef e
  | Wraps => ∃ p', mmap_call ftab q p = Ok KERNBASE p' ∧ same_but_table p p' ∧
      inserted p p' (total_mmaps p) (new_core q KERNBASE)
  end.

Lemma place_spec ftab p q :
  regions_ok p → req_ints q → bad_args q = false →
  match place_case p (rq_addr q) (rq_size q) (rq_flags q) with
  | Ordinary => ∃ r p', (if total_mmaps p =? 30 then Ok (-1) p
        else (place_mapping (rq_addr q) (rq_size q) (rq_flags q) ≫= fill_entry q) p) = Ok r p' ∧
      regions_ok p' ∧ mmap_post p q r p' ∧ (grantable ftab p q → r ≠ -1)
  | Wild => ∃ e, (if total_mmaps p =? 30 then Ok (-1) p
        else (place_mapping (rq_addr q) (rq_size q) (rq_flags q) ≫= fill_entry q) p) = Undef e
  | Wraps => ∃ p', (if total_mmaps p =? 30 then Ok (-1) p
        else (place_mapping (rq_addr q) (rq_size q) (rq_flags q) ≫= fill_entry q) p) = Ok KERNBASE p' ∧
      same_but_table p p' ∧ inserted p p' (total_mmaps p) (new_core q KERNBASE)
  end.
Proof.
  intros Hok [Ha Hs] Hbad. pose proof (ro_tot _ Hok). unfold bad_args in Hbad. repeat rewrite orb_false_iff in Hbad.
  destruct Hbad as [[_ Hsz] _]. apply Z.leb_gt in Hsz.
  destruct (Z.eqb_spec (total_mmaps p) 30) as [E30|E30].
  { unfold place_case. rewrite E30. simpl. exists (-1), p. split; [done|]. split; [done|]. split; [by left|].
    intros (_ & _ & _ & ? & _). lia. }
  destruct (place_case _ _ _ _) eqn:Ec.
  - destruct (place_mapping_spec p (rq_addr q) (rq_size q) (rq_flags q))
      as (i & p1 & E & [[-> ->]|(addr & Hpl & Hf & Hfix)] & Hroom & Hfx0); try done; try lia; mstep E.
    + exists (-1), p. split; [done|]. split; [done|]. split; [by left|]. intros (_ & _ & H0 & _ & Hr).
      by destruct (Hroom H0 Hr).
    + pose proof (ft_index _ _ _ _ Hf).
      destruct (fill_entry_placed p p1 q i addr ltac:(lia) ltac:(lia) Hpl) as (p' & E' & Hsame & Hins).
      exists addr, p'. split; [done|]. pose proof (ft_base _ _ _ _ Hf). unfold MMAPBASE in *. split_and!.
      * eapply (inserted_ok p); [done| |by apply (fits_region p i addr q)|..];
          [exact Hins|apply Hf|lia|apply Hf|apply Hf].
      * right. split_and!; [done|done| |by exists i]. intros Hx. rewrite Hx in Hfix. by apply Hfix, Hfx0.
      * intros _. lia.
  - destruct (place_mapping_wild p (rq_addr q) (rq_size q) (rq_flags q) Ec) as [E|E].
    + eexists. by apply bind_undef.
    + exists "mmaps"%string. mstep E. unfold fill_entry. simpl. by apply bind_undef.
  - destruct (place_mapping_wraps p (rq_addr q) (rq_size q) (rq_flags q) Hok) as (p1 & E & Ht & Hpl); [lia|lia|done|].
    mstep E. exact (fill_entry_placed p p1 q (total_mmaps p) KERNBASE Ht ltac:(lia) Hpl).
Qed.

Lemma my_mmap_ok ftab p q : regions_ok p → req_ints q → mmap_spec ftab p q.
Proof.
  intros Hok Hq. assert (Hfail : mmap_call ftab q p = Ok (-1) p → ¬ grantable ftab p q →
    ∃ r p', mmap_call ftab q p = Ok r p' ∧ regions_ok p' ∧ mmap_post p q r p' ∧ (grantable ftab p q → r ≠ -1)).
  { intros E Hg. exists (-1), p. split; [done|]. split; [done|]. split; [by left|done]. }
  unfold mmap_spec, mmap_case_of. rewrite my_mmap_tests in Hfail |- *. destruct (bad_args q) eqn:Hb.
  { apply Hfail; [done|]. intros (E & _). congruence. }
  pose proof (place_spec ftab p q Hok Hq Hb) as Hplace. cbv zeta in *.
  destruct (req_file ftab q) as [fl|] eqn:Ho.
  - destruct (refuses q fl) eqn:Er; [|exact Hplace]. apply Hfail; [done|]. intros (_ & E & _). by rewrite E in Er.
  - destruct (uses_file q); [by eexists|exact Hplace].
Qed.

(** ** Sequences of mmap calls *)

(** A call that returns and does not wrap around. *)
Definition mmap_step (ftab : list file) (p p' : proc) : Prop :=
  ∃ q r, req_ints q ∧ mmap_case_of ftab p q ≠ Wraps ∧ mmap_call ftab q p = Ok r p'.

(** Every live region of [p] is still a live region of [p']. *)
Definition keeps_regions (p p' : proc) : Prop :=
  ∀ k, 0 ≤ k < total_mmaps p →
    ∃ k', 0 ≤ k' < total_mmaps p' ∧ core (reg p' k') = core (reg p k).

Lemma inserted_keeps p p' i new :
  0 ≤ i ≤ total_mmaps p → inserted p p' i new → keeps_regions p p'.
Proof.
  intros Hi [Hl Ht Hlo Hnew Hhi Hre] k Hk. destruct (decide (k < i)).
  - exists k. split; [lia|]. apply Hlo. lia.
  - exists (k + 1). split; [lia|]. rewrite Hhi by lia. by replace (k + 1 - 1) with k by lia.
Qed.

Lemma keeps_trans p p1 p' : keeps_regions p p1 → keeps_regions p1 p' → keeps_regions p p'.
Proof.
  intros H1 H2 k Hk. destruct (H1 k Hk) as (k1 & Hk1 & E1).
  destruct (H2 k1 Hk1) as (k2 & Hk2 & E2). exists k2. split; [done|]. congruence.
Qed.

Lemma mmap_step_ok ftab p p' :
  regions_ok p → mmap_step ftab p p' → regions_ok p' ∧ keeps_regions p p'.
Proof.
  intros Hok (q & r & Hq & Hw & E). pose proof (my_mmap_ok ftab p q Hok Hq) as Hs. unfold mmap_spec in Hs.
  destruct (mmap_case_of ftab p q); [|destruct Hs as [e Hs]; congruence|done].
  destruct Hs as (r' & p1 & E' & Hok' & Hpost & _).
  rewrite E in E'. injection E' as <- <-. split; [done|].
  destruct Hpost as [[_ ->]|(_ & _ & _ & i & Hi & Hins)].
  - intros k Hk. by exists k.
  - by eapply inserted_keeps.
Qed.

Lemma mmap_steps_ok ftab p p' :
  rtc (mmap_step ftab) p p' → regions_ok p → regions_ok p' ∧ keeps_regions p p'.
Proof.
  induction 1 as [p|p p1 p' Hstep _ IH]; intros Hok.
  { split; [done|]. intros k Hk. by exists k. }
  destruct (mmap_step_ok _ _ _ Hok Hstep) as [Hok1 Hk1]. destruct (IH Hok1) as [Hok' Hk'].
  split; [done|]. by eapply keeps_trans.
Qed.

(** A process without mappings. *)
Definition empty_table (p : proc) : proc :=
  set_total_mmaps 0 (set_mmaps (replicate 30 region0) p).

Lemma empty_table_ok p : regions_ok (empty_table p).
Proof.
  assert (E : ∀ k, reg (empty_table p) k = region0).
  { intros k. unfold reg, empty_table. cbn [mmaps set_total_mmaps set_mmaps].
    destruct (replicate 30 region0 !! Z.to_nat k) eqn:E; [|done].
    by apply lookup_replicate in E as [-> _]. }
  split; try done; try (simpl; lia).
  intros k _. by rewrite E.
Qed.

Definition anon_req (size : Z) : mmap_req :=
  {| rq_addr := 0; rq_f := None; rq_size := size; rq_offset := 0;
     rq_flags := Z.lor MAP_PRIVATE MAP_ANONYMOUS; rq_prot := PROT_READ |}.

Lemma anon_req_ints size : - 2 ^ 31 ≤ size < 2 ^ 31 → req_ints (anon_req size).
Proof. intros Hs. split; simpl; lia. Qed.
Lemma anon_req_case ftab p size : mmap_case_of ftab p (anon_req size) = Ordinary.
Proof.
  unfold mmap_case_of. destruct (bad_args _); [done|]. unfold place_case. simpl.
  destruct (total_mmaps p =? 30); [done|]. change (has _ MAP_FIXED) with false. done.
Qed.

(** ** Claims *)

(** C1. What [my_mmap] does with any request, on a well-formed table.  In the
    ordinary case it returns, and the table is well-formed again: either the
    result is -1 and nothing changed, or it is an address in the mmap area (the
    requested one for MAP_FIXED) and the table has one more region, with the
    requested size, flags, protection, file and offset, every other one
    unchanged and in the same order, and no other field of the process
    changed.  It does not fail if the arguments are good, no address is asked
    for, there is a free entry and room behind the last region.  The other
    requests are the ones the code does not expect: a file pointer that is not
    an open file where it is used (MAP_SHARED with PROT_WRITE also uses it for
    anonymous mappings), address 0 with MAP_FIXED, and an address asked for in
    an empty table are undefined behaviour; an address in the last page below
    KERNBASE with a size beyond 0x7FFFF000 yields a mapping at KERNBASE. *)
Theorem my_mmap_sound ftab p q : regions_ok p → req_ints q → mmap_spec ftab p q.
Proof. apply my_mmap_ok. Qed.

Lemma my_mmap_sound_witness :
  mmap_spec [] (empty_table proc0) (anon_req 5000) ∧ grantable [] (empty_table proc0) (anon_req 5000).
Proof.
  split.
  - apply my_mmap_sound; [apply empty_table_ok|apply anon_req_ints; lia].
  - split; [reflexivity|]. split; [discriminate|]. split; [reflexivity|]. split; [reflexivity|].
    vm_compute. discriminate.
Defined.

(** C18. After any sequence of [my_mmap] calls that return, starting from a
    well-formed table, no two regions overlap, not even in their last pages,
    every region lies between MMAPBASE and KERNBASE, and no region that was
    mapped before has been lost or changed.  (No call may be one of those that
    wrap around: an address in the last page below KERNBASE asked for with a
    size beyond 0x7FFFF000.) *)
Theorem mmap_sequence_disjoint ftab p p' :
  rtc (mmap_step ftab) p p' → regions_ok p →
  keeps_regions p p' ∧
  (∀ k, 0 ≤ k < total_mmaps p' → MMAPBASE ≤ virt_addr (reg p' k) ∧ rend (reg p' k) < KERNBASE) ∧
  (∀ i j, 0 ≤ i < j → j < total_mmaps p' → rend (reg p' i) ≤ virt_addr (reg p' j)).
Proof.
  intros Hs Hok. destruct (mmap_steps_ok _ _ _ Hs Hok) as [Hok' Hk]. split_and!; [done| |].
  - intros k Hk'. pose proof (ro_reg _ Hok' k Hk') as Hr. split; [apply Hr|by apply rend_bounds].
  - intros i j Hij Hj. by apply regions_ordered.
Qed.

Definition after_two : proc :=
  match mmap_call [] (anon_req 5000) (empty_table proc0) with
  | Ok _ p => match mmap_call [] (anon_req 100) p with Ok _ p' => p' | _ => p end
  | _ => proc0
  end.

Lemma mmap_sequence_disjoint_witness :
  rend (reg after_two 0) ≤ virt_addr (reg after_two 1).
Proof.
  assert (Hs : rtc (mmap_step []) (empty_table proc0) after_two).
  { eapply rtc_l; [eexists (anon_req 5000), _; split; [apply anon_req_ints; lia|split; [rewrite anon_req_case; discriminate|vm_compute; reflexivity]]|].
    eapply rtc_l; [eexists (anon_req 100), _; split; [apply anon_req_ints; lia|split; [rewrite anon_req_case; discriminate|vm_compute; reflexivity]]|].
    apply rtc_refl. }
  apply (mmap_sequence_disjoint [] _ _ Hs (empty_table_ok proc0)); [lia|by vm_compute].
Defined.

(** A hint of KERNBASE - 1 with a size that makes the rounded end of the
    range wrap around to zero passes every check of [my_mmap]: the process
    gets a region that starts at KERNBASE, on the kernel's own mappings. *)
Theorem my_mmap_wraps_into_kernel :
  ∃ p', mmap_call [] {| rq_addr := 0x7FFFFFFF; rq_f := None; rq_size := 0x7FFFFFFF;
      rq_offset := 0; rq_flags := Z.lor MAP_PRIVATE MAP_ANONYMOUS; rq_prot := PROT_WRITE |}
    after_two = Ok KERNBASE p' ∧ total_mmaps p' = 3 ∧ virt_addr (reg p' 2) = KERNBASE.
Proof. eexists. by vm_compute. Qed.

(** With no mapping yet, any admissible address hint makes [my_mmap] read
    the element before the array of mappings. *)
Theorem my_mmap_first_hint_undefined ftab p f size offset prot :
  total_mmaps p = 0 → 0 < size < 0x10000000 → 0 ≤ offset →
  my_mmap ftab 0x60000000 f size offset (Z.lor MAP_PRIVATE MAP_ANONYMOUS) prot p =
    Undef "mmaps".
Proof.
  intros Ht Hs Ho. unfold my_mmap.
  change (has (Z.lor MAP_PRIVATE MAP_ANONYMOUS) MAP_PRIVATE) with true.
  change (has (Z.lor MAP_PRIVATE MAP_ANONYMOUS) MAP_SHARED) with false.
  change (has (Z.lor MAP_PRIVATE MAP_ANONYMOUS) MAP_ANONYMOUS) with true.
  cbn [negb andb]. destruct (Z.leb_spec size 0); [lia|]. destruct (Z.ltb_spec offset 0); [lia|].
  cbn [orb]. unfold mbind, M_bind, gets, mret, M_ret. rewrite Ht. cbn -[place_mapping].
  unfold place_mapping. rewrite u32_PGROUNDUPi, u32_s32.
  change (PGROUNDUPi 0x60000000) with 0x60000000. rewrite u32_small by lia.
  change (has (Z.lor MAP_PRIVATE MAP_ANONYMOUS) MAP_FIXED) with false.
  unfold KERNBASE. pose proof (PGROUNDUP_bounds (0x60000000 + size)).
  destruct (Z.gtb_spec (PGROUNDUP (0x60000000 + size)) 0x80000000); [lia|].
  change (nz 0x60000000) with true. change (0x60000000 <? MMAPBASE) with false.
  unfold mbind, M_bind, check_mmap_possible, gets, get_region, mbind, M_bind.
  cbv beta iota delta [orb]. by rewrite Ht.
Qed.

Lemma my_mmap_first_hint_undefined_witness :
  my_mmap [] 0x60000000 None 4096 0 (Z.lor MAP_PRIVATE MAP_ANONYMOUS) PROT_READ
    (empty_table proc0) = Undef "mmaps".
Proof. apply my_mmap_first_hint_undefined; [done|lia|lia]. Defined.
