(* ===== verification/Bytes.v ===== *)
(** * Byte arrays

    Disk blocks, directory entries and user buffers are lists of bytes.  A
    slice is read with [slice] and replaced with [splice]; both are only used
    within bounds.  Words are little-endian. *)

From Stdlib Require Import ZArith Lia.
From stdpp Require Import base numbers gmap list.
From S2P Require Import Prelude.

(** ** Slices *)

Definition slice (off n : nat) (l : list Z) : list Z := take n (drop off l).
Definition splice (off : nat) (bs l : list Z) : list Z :=
  take off l ++ bs ++ drop (off + length bs) l.

Definition is_byte (b : Z) : Prop := 0 ≤ b < 256.

Lemma length_slice off n l : (off + n ≤ length l)%nat → length (slice off n l) = n.
Proof. intros. unfold slice. rewrite length_take, length_drop. lia. Qed.

Lemma lookup_slice off n l i : (i < n)%nat → slice off n l !! i = l !! (off + i)%nat.
Proof. intros. unfold slice. by rewrite lookup_take_lt, lookup_drop by done. Qed.

Lemma length_splice off bs l :
  (off + length bs ≤ length l)%nat → length (splice off bs l) = length l.
Proof. intros. unfold splice. rewrite !length_app, length_take, length_drop. lia. Qed.

Lemma lookup_splice off bs l i :
  (off + length bs ≤ length l)%nat →
  splice off bs l !! i =
    if decide (off ≤ i < off + length bs)%nat then bs !! (i - off)%nat else l !! i.
Proof.
  intros Hl. unfold splice. case_decide as Hi.
  - rewrite lookup_app_r by (rewrite length_take; lia).
    rewrite length_take, Nat.min_l by lia. by rewrite lookup_app_l by lia.
  - destruct (decide (i < off)%nat).
    + rewrite lookup_app_l by (rewrite length_take; lia). by rewrite lookup_take_lt by lia.
    + rewrite lookup_app_r by (rewrite length_take; lia).
      rewrite length_take, Nat.min_l by lia.
      rewrite lookup_app_r, lookup_drop by lia. f_equal. lia.
Qed.

Lemma slice_splice_eq off bs l :
  (off + length bs ≤ length l)%nat → slice off (length bs) (splice off bs l) = bs.
Proof.
  intros Hl. apply list_eq. intros i. destruct (decide (i < length bs)%nat).
  - rewrite lookup_slice, lookup_splice, decide_True by lia. f_equal. lia.
  - rewrite !lookup_ge_None_2; [done|lia|].
    rewrite length_slice; [lia|]. by rewrite length_splice.
Qed.

Lemma slice_splice_ne off bs l off' n :
  (off + length bs ≤ length l)%nat →
  (off' + n ≤ off ∨ off + length bs ≤ off')%nat →
  slice off' n (splice off bs l) = slice off' n l.
Proof.
  intros Hl Hd. apply list_eq. intros i. destruct (decide (i < n)%nat).
  - rewrite !lookup_slice, lookup_splice, decide_False by lia. done.
  - rewrite !lookup_ge_None_2; [done|unfold slice; rewrite length_take; lia..].
Qed.

Lemma splice_splice off bs bs' l :
  length bs = length bs' → (off + length bs ≤ length l)%nat →
  splice off bs' (splice off bs l) = splice off bs' l.
Proof.
  intros E Hl. apply list_eq. intros i.
  rewrite !lookup_splice by (rewrite ?length_splice; lia).
  rewrite E. case_decide; [done|]. done.
Qed.

Lemma splice_all bs l : length bs = length l → splice 0 bs l = bs.
Proof. intros E. unfold splice. simpl. rewrite E, drop_all. apply app_nil_r. Qed.

Lemma slice_all l : slice 0 (length l) l = l.
Proof. unfold slice. by rewrite drop_0, take_ge. Qed.

Lemma Forall_splice P off bs l : Forall P bs → Forall P l → Forall P (splice off bs l).
Proof.
  intros Hb Hl. unfold splice.
  apply Forall_app; split; [by apply Forall_take|].
  apply Forall_app; split; [done|by apply Forall_drop].
Qed.
Lemma Forall_slice P off n l : Forall P l → Forall P (slice off n l).
Proof. intros H. by apply Forall_take, Forall_drop. Qed.

(** ** Little-endian numbers *)

Definition byte_at (l : list Z) (i : nat) : Z := default 0 (l !! i).

Definition le16 (x : Z) : list Z := [u8 x; u8 (x / 256)].
Definition le32 (x : Z) : list Z :=
  [u8 x; u8 (x / 256); u8 (x / 65536); u8 (x / 16777216)].
Definition get16 (l : list Z) (i : nat) : Z := byte_at l i + 256 * byte_at l (i + 1).
Definition get32 (l : list Z) (i : nat) : Z :=
  byte_at l i + 256 * byte_at l (i + 1) + 65536 * byte_at l (i + 2)
  + 16777216 * byte_at l (i + 3).

Lemma byte_at_app_l l k i : (i < length l)%nat → byte_at (l ++ k) i = byte_at l i.
Proof. intros. unfold byte_at. by rewrite lookup_app_l. Qed.
Lemma byte_at_app_r l k i :
  (length l ≤ i)%nat → byte_at (l ++ k) i = byte_at k (i - length l).
Proof. intros. unfold byte_at. by rewrite lookup_app_r. Qed.

Lemma byte_at_slice off n l i : (i < n)%nat → byte_at (slice off n l) i = byte_at l (off + i).
Proof. intros. unfold byte_at. by rewrite lookup_slice. Qed.

Lemma byte_at_splice off bs l i :
  (off + length bs ≤ length l)%nat →
  byte_at (splice off bs l) i =
    if decide (off ≤ i < off + length bs)%nat then byte_at bs (i - off) else byte_at l i.
Proof. intros. unfold byte_at. rewrite lookup_splice by done. by case_decide. Qed.

Lemma byte_at_range l i : Forall is_byte l → 0 ≤ byte_at l i < 256.
Proof.
  intros H. unfold byte_at. destruct (l !! i) eqn:E; simpl; [|lia].
  by apply (Forall_lookup_1 _ _ _ _ H E).
Qed.

Lemma le16_bytes x : Forall is_byte (le16 x).
Proof. repeat constructor; apply u8_range. Qed.
Lemma le32_bytes x : Forall is_byte (le32 x).
Proof. repeat constructor; apply u8_range. Qed.

Lemma get16_le16 x : get16 (le16 x) 0 = u16 x.
Proof. unfold get16, le16, byte_at. simpl. ulia. Qed.
Lemma get32_le32 x : get32 (le32 x) 0 = u32 x.
Proof. unfold get32, le32, byte_at. simpl. ulia. Qed.

Lemma get32_ext l k i j :
  (∀ d, (d < 4)%nat → byte_at l (i + d) = byte_at k (j + d)) → get32 l i = get32 k j.
Proof.
  intros H. unfold get32. rewrite (H 1%nat), (H 2%nat), (H 3%nat) by lia.
  specialize (H O ltac:(lia)). rewrite !Nat.add_0_r in H. by rewrite H.
Qed.
Lemma get16_ext l k i j :
  (∀ d, (d < 2)%nat → byte_at l (i + d) = byte_at k (j + d)) → get16 l i = get16 k j.
Proof.
  intros H. unfold get16. rewrite (H 1%nat) by lia.
  specialize (H O ltac:(lia)). rewrite !Nat.add_0_r in H. by rewrite H.
Qed.

Lemma get32_range l i : Forall is_byte l → 0 ≤ get32 l i < 4294967296.
Proof.
  intros H. unfold get32. pose proof (byte_at_range l i H).
  pose proof (byte_at_range l (i + 1) H). pose proof (byte_at_range l (i + 2) H).
  pose proof (byte_at_range l (i + 3) H). lia.
Qed.

Lemma get32_splice_eq off x l :
  (off + 4 ≤ length l)%nat → get32 (splice off (le32 x) l) off = u32 x.
Proof.
  intros Hl. rewrite <-get32_le32. apply get32_ext. intros d Hd.
  rewrite byte_at_splice by (simpl; lia). rewrite decide_True by (simpl; lia). f_equal. lia.
Qed.
Lemma get32_splice_ne off bs l i :
  (off + length bs ≤ length l)%nat → (i + 4 ≤ off ∨ off + length bs ≤ i)%nat →
  get32 (splice off bs l) i = get32 l i.
Proof.
  intros Hl Hi. apply get32_ext. intros d Hd.
  rewrite byte_at_splice by done. by rewrite decide_False by lia.
Qed.
