(* ===== verification/Disk.v ===== *)
(** * The logical disk

    What the buffer cache and the log promise to the file system: an array of
    blocks that are read and written one at a time, where the blocks written
    by the running transaction are recorded.  [fs.c] runs on this interface;
    [Bio.v] and [Log.v] model the code that implements it. *)

From Stdlib Require Import ZArith Lia.
From stdpp Require Import base numbers strings gmap list.
From S2P Require Import Prelude Bytes.

Definition BSIZE : Z := 512.
Definition MAXOPBLOCKS : Z := 10.
Definition LOGSIZE : Z := MAXOPBLOCKS * 3.
Definition FSSIZE : Z := 1000.

Definition zero_block : list Z := replicate 512 0.

(** The current contents of the blocks as the kernel sees them, the blocks
    locked by the running operation, the blocks logged since the last commit,
    the number of log blocks and the number of outstanding system calls. *)
Record ldisk := LDisk {
  ld_blocks : gmap Z (list Z);
  ld_held : list Z;
  ld_log : list Z;
  ld_logsize : Z;
  ld_outstanding : Z;
}.

Definition blk (d : ldisk) (b : Z) : list Z := default zero_block (ld_blocks d !! b).

Definition ld_set_held (h : list Z) (d : ldisk) : ldisk :=
  LDisk (ld_blocks d) h (ld_log d) (ld_logsize d) (ld_outstanding d).
Definition ld_set_log (l : list Z) (d : ldisk) : ldisk :=
  LDisk (ld_blocks d) (ld_held d) l (ld_logsize d) (ld_outstanding d).
Definition ld_set_blk (b : Z) (data : list Z) (d : ldisk) : ldisk :=
  LDisk (<[b := data]> (ld_blocks d)) (ld_held d) (ld_log d) (ld_logsize d)
    (ld_outstanding d).

(** Lock a block; the operation that already holds it would wait for itself. *)
Definition ld_bread (b : Z) : M ldisk Z := λ d,
  if bool_decide (b ∈ ld_held d) then Sleep b d
  else Ok b (ld_set_held (b :: ld_held d) d).

(** The data of a locked block, and storing into it. *)
Definition ld_data (b : Z) : M ldisk (list Z) := gets (λ d, blk d b).
Definition ld_store (b : Z) (data : list Z) : M ldisk unit := modify (ld_set_blk b data).

Definition ld_brelse (b : Z) : M ldisk unit := λ d,
  if bool_decide (b ∈ ld_held d)
  then Ok tt (ld_set_held (filter (λ c, c ≠ b) (ld_held d)) d)
  else Panic "brelse".

(** Record that a block belongs to the transaction, once. *)
Definition ld_log_write (b : Z) : M ldisk unit := λ d,
  let n := Z.of_nat (length (ld_log d)) in
  if (n >=? LOGSIZE) || (n >=? ld_logsize d - 1) then Panic "too big a transaction"
  else if ld_outstanding d <? 1 then Panic "log_write outside of trans"
  else Ok tt (if bool_decide (b ∈ ld_log d) then d else ld_set_log (ld_log d ++ [b]) d).

Definition ld_set_ops (n : Z) (d : ldisk) : ldisk :=
  LDisk (ld_blocks d) (ld_held d) (ld_log d) (ld_logsize d) n.

(** A system call starts when the log has room for its blocks, and waits
    otherwise; the end of the last one commits, which empties the log. *)
Definition ld_begin_op : M ldisk unit := λ d,
  if Z.of_nat (length (ld_log d)) + (ld_outstanding d + 1) * MAXOPBLOCKS >? LOGSIZE then Sleep 0 d
  else Ok tt (ld_set_ops (ld_outstanding d + 1) d).
Definition ld_end_op : M ldisk unit := λ d,
  let d := ld_set_ops (ld_outstanding d - 1) d in
  Ok tt (if ld_outstanding d =? 0 then ld_set_log [] d else d).

(** ** Lemmas *)

Lemma blk_set_eq b data d : blk (ld_set_blk b data d) b = data.
Proof. unfold blk, ld_set_blk. simpl. by rewrite lookup_insert_eq. Qed.
Lemma blk_set_ne b b' data d : b ≠ b' → blk (ld_set_blk b data d) b' = blk d b'.
Proof. intros. unfold blk, ld_set_blk. simpl. by rewrite lookup_insert_ne. Qed.
Lemma blk_set b b' data d :
  blk (ld_set_blk b data d) b' = if decide (b = b') then data else blk d b'.
Proof. case_decide; [subst; apply blk_set_eq|by apply blk_set_ne]. Qed.
