(* ===== verification/Fs.v ===== *)
(** * The file system (fs.c)

    Block allocator, inodes, file contents, directories and path names, as
    fs.c writes them, over the logical disk of [Disk.v].  [readi] returns the
    bytes it copies out and [writei] takes the bytes it copies in; a device
    inode goes through the table [devsw].  A [struct inode *] is an index into
    the inode cache. *)

From Stdlib Require Import ZArith Lia.
From stdpp Require Import base numbers strings gmap list.
From S2P Require Import Prelude Memory Locks Bytes Disk.

(** ** fs.h, param.h, stat.h *)

Definition ROOTINO : Z := 1.
Definition ROOTDEV : Z := 1.
Definition NDIRECT : Z := 12.
Definition NINDIRECT : Z := BSIZE / 4.
Definition MAXFILE : Z := NDIRECT + NINDIRECT.
Definition IPB : Z := BSIZE / 64.
Definition BPB : Z := BSIZE * 8.
Definition DIRSIZ : Z := 14.
Definition NINODE : Z := 50.
Definition NDEV : Z := 10.
Definition T_DIR : Z := 1.
Definition T_FILE : Z := 2.
Definition T_DEV : Z := 3.

Record superblock := Superblock {
  sb_size : Z; sb_nblocks : Z; sb_ninodes : Z; sb_nlog : Z;
  sb_logstart : Z; sb_inodestart : Z; sb_bmapstart : Z }.

Definition IBLOCK (i : Z) (sb : superblock) : Z := i / IPB + sb_inodestart sb.
Definition BBLOCK (b : Z) (sb : superblock) : Z := b / BPB + sb_bmapstart sb.

Record dinode := Dinode {
  d_type : Z; d_major : Z; d_minor : Z; d_nlink : Z; d_size : Z; d_addrs : list Z }.

Record inode := Inode {
  i_dev : Z;
  i_inum : Z;
  i_ref : Z;
  i_lock : sleeplock;
  i_valid : bool;
  i_type : Z;
  i_major : Z;
  i_minor : Z;
  i_nlink : Z;
  i_size : Z;
  i_addrs : list Z;
}.
Definition inode0 : inode := Inode 0 0 0 sl_free false 0 0 0 0 0 (replicate 13 0).

Record stat := Stat { st_type : Z; st_dev : Z; st_ino : Z; st_nlink : Z; st_size : Z }.

(** ** On-disk formats *)

(** The superblock in block 1: seven words. *)
Definition dec_sb (data : list Z) : superblock :=
  Superblock (get32 data 0) (get32 data 4) (get32 data 8) (get32 data 12)
    (get32 data 16) (get32 data 20) (get32 data 24).

(** [struct dinode]: four shorts, the size and thirteen block numbers. *)
Definition dec_dinode (data : list Z) (i : nat) : dinode :=
  Dinode (s16 (get16 data i)) (s16 (get16 data (i + 2))) (s16 (get16 data (i + 4)))
    (s16 (get16 data (i + 6))) (get32 data (i + 8))
    ((λ k, get32 data (i + 12 + 4 * k)) <$> seq 0 13).
Definition enc_dinode (d : dinode) : list Z :=
  le16 (d_type d) ++ le16 (d_major d) ++ le16 (d_minor d) ++ le16 (d_nlink d) ++
  le32 (d_size d) ++ concat (le32 <$> d_addrs d).

(** ** State *)

Record fsst := FsSt {
  fs_ld : ldisk;
  fs_sb : superblock;
  ic_lock : spinlock;
  ic_inode : list inode;
}.

Definition l_ld : lens fsst ldisk :=
  Lens fs_ld (λ d s, FsSt d (fs_sb s) (ic_lock s) (ic_inode s)).
Definition l_ic_lock : lens fsst spinlock :=
  Lens ic_lock (λ l s, FsSt (fs_ld s) (fs_sb s) l (ic_inode s)).
Definition set_ic (l : list inode) (s : fsst) : fsst :=
  FsSt (fs_ld s) (fs_sb s) (ic_lock s) l.
Definition set_sb (sb : superblock) (s : fsst) : fsst :=
  FsSt (fs_ld s) sb (ic_lock s) (ic_inode s).

(** The buffer operations, on the file system's state. *)
Definition fbread (dev b : Z) : M fsst Z := zoom l_ld (ld_bread b).
Definition fdata (b : Z) : M fsst (list Z) := zoom l_ld (ld_data b).
Definition fstore (b : Z) (data : list Z) : M fsst unit := zoom l_ld (ld_store b data).
Definition flog_write (b : Z) : M fsst unit := zoom l_ld (ld_log_write b).
Definition fbrelse (b : Z) : M fsst unit := zoom l_ld (ld_brelse b).

(** The cache entry an inode pointer designates. *)
Definition ino (s : fsst) (ip : nat) : inode := default inode0 (ic_inode s !! ip).
Definition get_inode (ip : nat) : M fsst inode := λ s,
  match ic_inode s !! ip with Some i => Ok i s | None => Undef "inode pointer" end.
Definition upd_inode (ip : nat) (f : inode → inode) : M fsst unit := λ s,
  match ic_inode s !! ip with
  | Some i => Ok tt (set_ic (<[ip := f i]> (ic_inode s)) s)
  | None => Undef "inode pointer"
  end.
Definition l_ilock (ip : nat) : lens fsst sleeplock :=
  Lens (λ s, i_lock (ino s ip))
    (λ l s, set_ic (alter (λ i, Inode (i_dev i) (i_inum i) (i_ref i) l (i_valid i)
       (i_type i) (i_major i) (i_minor i) (i_nlink i) (i_size i) (i_addrs i)) ip
       (ic_inode s)) s).

Definition set_ref (r : Z) (i : inode) : inode :=
  Inode (i_dev i) (i_inum i) r (i_lock i) (i_valid i) (i_type i) (i_major i) (i_minor i)
    (i_nlink i) (i_size i) (i_addrs i).
Definition set_id (dev inum r : Z) (v : bool) (i : inode) : inode :=
  Inode dev inum r (i_lock i) v (i_type i) (i_major i) (i_minor i)
    (i_nlink i) (i_size i) (i_addrs i).
Definition set_valid (v : bool) (i : inode) : inode :=
  Inode (i_dev i) (i_inum i) (i_ref i) (i_lock i) v (i_type i) (i_major i) (i_minor i)
    (i_nlink i) (i_size i) (i_addrs i).
Definition set_type (t : Z) (i : inode) : inode :=
  Inode (i_dev i) (i_inum i) (i_ref i) (i_lock i) (i_valid i) t (i_major i) (i_minor i)
    (i_nlink i) (i_size i) (i_addrs i).
Definition set_nlink (n : Z) (i : inode) : inode :=
  Inode (i_dev i) (i_inum i) (i_ref i) (i_lock i) (i_valid i) (i_type i) (i_major i) (i_minor i)
    n (i_size i) (i_addrs i).
Definition set_dev (major minor nlink : Z) (i : inode) : inode :=
  Inode (i_dev i) (i_inum i) (i_ref i) (i_lock i) (i_valid i) (i_type i) major minor
    nlink (i_size i) (i_addrs i).
Definition set_size (n : Z) (i : inode) : inode :=
  Inode (i_dev i) (i_inum i) (i_ref i) (i_lock i) (i_valid i) (i_type i) (i_major i) (i_minor i)
    (i_nlink i) n (i_addrs i).
Definition set_addr (k : nat) (a : Z) (i : inode) : inode :=
  Inode (i_dev i) (i_inum i) (i_ref i) (i_lock i) (i_valid i) (i_type i) (i_major i) (i_minor i)
    (i_nlink i) (i_size i) (<[k := a]> (i_addrs i)).
Definition set_fields (d : dinode) (i : inode) : inode :=
  Inode (i_dev i) (i_inum i) (i_ref i) (i_lock i) (i_valid i) (d_type d) (d_major d) (d_minor d)
    (d_nlink d) (d_size d) (d_addrs d).
Definition disk_fields (i : inode) : dinode :=
  Dinode (i_type i) (i_major i) (i_minor i) (i_nlink i) (i_size i) (i_addrs i).

(** Index [a[k]] of the thirteen block numbers of an inode. *)
Definition addr_of (i : inode) (k : Z) : Z := default 0 (i_addrs i !! Z.to_nat k).

(** ** Blocks *)

Definition readsb (dev : Z) : M fsst superblock :=
  bp ← fbread dev 1;
  data ← fdata bp;
  fbrelse bp;;
  mret (dec_sb data).

Definition bzero (dev bno : Z) : M fsst unit :=
  bp ← fbread dev bno;
  fstore bp zero_block;;
  flog_write bp;;
  fbrelse bp.

(** Bit [bi] of a bitmap block, and a block with that bit set or cleared. *)
Definition bm_free (data : list Z) (bi : Z) : bool :=
  Z.land (byte_at data (Z.to_nat (bi / 8))) (Z.shiftl 1 (bi mod 8)) =? 0.
Definition bm_set (data : list Z) (bi : Z) : list Z :=
  splice (Z.to_nat (bi / 8))
    [u8 (Z.lor (byte_at data (Z.to_nat (bi / 8))) (Z.shiftl 1 (bi mod 8)))] data.
Definition bm_clear (data : list Z) (bi : Z) : list Z :=
  splice (Z.to_nat (bi / 8))
    [u8 (Z.land (byte_at data (Z.to_nat (bi / 8))) (Z.lnot (Z.shiftl 1 (bi mod 8))))] data.

(** The inner loop of [balloc]: the first free bit of one bitmap block. *)
Fixpoint balloc_scan (n : nat) (b bi size : Z) (data : list Z) : option Z :=
  match n with
  | O => None
  | S n =>
      if (bi <? BPB) && (b + bi <? size) then
        if bm_free data bi then Some bi else balloc_scan n b (bi + 1) size data
      else None
  end.
Fixpoint balloc_loop (fuel : nat) (dev b : Z) : M fsst Z :=
  match fuel with
  | O => nofuel
  | S fuel =>
      sb ← gets fs_sb;
      if b <? sb_size sb then
        bp ← fbread dev (BBLOCK b sb);
        data ← fdata bp;
        match balloc_scan (S (Z.to_nat BPB)) b 0 (sb_size sb) data with
        | Some bi =>
            fstore bp (bm_set data bi);;
            flog_write bp;;
            fbrelse bp;;
            bzero dev (b + bi);;
            mret (b + bi)
        | None => fbrelse bp;; balloc_loop fuel dev (b + BPB)
        end
      else panic "balloc: out of blocks"
  end.
Definition balloc (dev : Z) : M fsst Z :=
  size ← gets (λ s, sb_size (fs_sb s));
  balloc_loop (S (S (Z.to_nat (size / BPB)))) dev 0.

Definition bfree (dev b : Z) : M fsst unit :=
  sb ← gets fs_sb;
  bp ← fbread dev (BBLOCK b sb);
  data ← fdata bp;
  let bi := b mod BPB in
  if bm_free data bi then panic "freeing free block"
  else
    fstore bp (bm_clear data bi);;
    flog_write bp;;
    fbrelse bp.

(** ** Inodes *)

Section fs.
(** The running process, and the device switch. *)
Context (pid : Z).

Fixpoint iget_scan (dev inum : Z) (l : list inode) (k : nat) (empty : option nat)
    : nat + option nat :=
  match l with
  | [] => inr empty
  | i :: l =>
      if (i_ref i >? 0) && (i_dev i =? dev) && (i_inum i =? inum) then inl k
      else
        let empty := if bool_decide (empty = None) && (i_ref i =? 0) then Some k else empty in
        iget_scan dev inum l (S k) empty
  end.
Definition iget (dev inum : Z) : M fsst nat :=
  acquire l_ic_lock;;
  l ← gets ic_inode;
  match iget_scan dev inum l 0 None with
  | inl ip =>
      upd_inode ip (λ i, set_ref (i_ref i + 1) i);;
      release l_ic_lock;;
      mret ip
  | inr None => panic "iget: no inodes"
  | inr (Some ip) =>
      upd_inode ip (set_id dev inum 1 false);;
      release l_ic_lock;;
      mret ip
  end.

Definition iinit_locks (s : fsst) : fsst :=
  set_ic ((λ i, Inode (i_dev i) (i_inum i) (i_ref i) sl_free (i_valid i) (i_type i)
     (i_major i) (i_minor i) (i_nlink i) (i_size i) (i_addrs i)) <$> ic_inode s) s.
Definition iinit (dev : Z) : M fsst unit :=
  modify (lset l_ic_lock unlocked);;
  modify iinit_locks;;
  sb ← readsb dev;
  modify (set_sb sb).

(** Byte offset of inode [inum] in its block. *)
Definition ioff (inum : Z) : nat := Z.to_nat (64 * (inum mod IPB)).

Fixpoint ialloc_loop (fuel : nat) (dev type inum : Z) : M fsst nat :=
  match fuel with
  | O => nofuel
  | S fuel =>
      sb ← gets fs_sb;
      if inum <? sb_ninodes sb then
        bp ← fbread dev (IBLOCK inum sb);
        data ← fdata bp;
        if d_type (dec_dinode data (ioff inum)) =? 0 then
          fstore bp (splice (ioff inum)
            (enc_dinode (Dinode type 0 0 0 0 (replicate 13 0))) data);;
          flog_write bp;;
          fbrelse bp;;
          iget dev inum
        else
          fbrelse bp;;
          ialloc_loop fuel dev type (inum + 1)
      else panic "ialloc: no inodes"
  end.
Definition ialloc (dev type : Z) : M fsst nat :=
  n ← gets (λ s, sb_ninodes (fs_sb s));
  ialloc_loop (S (Z.to_nat n)) dev type 1.

Definition iupdate (ip : nat) : M fsst unit :=
  i ← get_inode ip;
  sb ← gets fs_sb;
  bp ← fbread (i_dev i) (IBLOCK (i_inum i) sb);
  data ← fdata bp;
  fstore bp (splice (ioff (i_inum i)) (enc_dinode (disk_fields i)) data);;
  flog_write bp;;
  fbrelse bp.

Definition idup (ip : nat) : M fsst nat :=
  acquire l_ic_lock;;
  upd_inode ip (λ i, set_ref (i_ref i + 1) i);;
  release l_ic_lock;;
  mret ip.

Definition ilock (ip : option nat) : M fsst unit :=
  match ip with
  | None => panic "ilock"
  | Some ip =>
      i ← get_inode ip;
      if i_ref i <? 1 then panic "ilock"
      else
        acquiresleep (l_ilock ip) pid (Z.of_nat ip);;
        i ← get_inode ip;
        if negb (i_valid i) then
          sb ← gets fs_sb;
          bp ← fbread (i_dev i) (IBLOCK (i_inum i) sb);
          data ← fdata bp;
          upd_inode ip (set_fields (dec_dinode data (ioff (i_inum i))));;
          fbrelse bp;;
          upd_inode ip (set_valid true);;
          i ← get_inode ip;
          if i_type i =? 0 then panic "ilock: no type" else mret tt
        else mret tt
  end.

Definition iunlock (ip : option nat) : M fsst unit :=
  match ip with
  | None => panic "iunlock"
  | Some ip =>
      h ← holdingsleep (l_ilock ip) pid;
      i ← get_inode ip;
      if negb h || (i_ref i <? 1) then panic "iunlock"
      else releasesleep (l_ilock ip)
  end.

(** ** Inode content *)

Definition bmap (ip : nat) (bn : Z) : M fsst Z :=
  i ← get_inode ip;
  if bn <? NDIRECT then
    let addr := addr_of i bn in
    if addr =? 0 then
      addr ← balloc (i_dev i);
      upd_inode ip (set_addr (Z.to_nat bn) addr);;
      mret addr
    else mret addr
  else
    let bn := bn - NDIRECT in
    if bn <? NINDIRECT then
      let addr := addr_of i NDIRECT in
      addr ← (if addr =? 0 then
                addr ← balloc (i_dev i);
                upd_inode ip (set_addr (Z.to_nat NDIRECT) addr);;
                mret addr
              else mret addr);
      bp ← fbread (i_dev i) addr;
      a ← fdata bp;
      let addr := get32 a (Z.to_nat (4 * bn)) in
      addr ← (if addr =? 0 then
                addr ← balloc (i_dev i);
                a ← fdata bp;
                fstore bp (splice (Z.to_nat (4 * bn)) (le32 addr) a);;
                flog_write bp;;
                mret addr
              else mret addr);
      fbrelse bp;;
      mret addr
    else panic "bmap: out of range".

Fixpoint itrunc_direct (n : nat) (ip : nat) (k : Z) : M fsst unit :=
  match n with
  | O => mret tt
  | S n =>
      i ← get_inode ip;
      (if nz (addr_of i k) then
         bfree (i_dev i) (addr_of i k);;
         upd_inode ip (set_addr (Z.to_nat k) 0)
       else mret tt);;
      itrunc_direct n ip (k + 1)
  end.
Fixpoint itrunc_indirect (n : nat) (dev : Z) (a : list Z) (j : Z) : M fsst unit :=
  match n with
  | O => mret tt
  | S n =>
      when (nz (get32 a (Z.to_nat (4 * j)))) (bfree dev (get32 a (Z.to_nat (4 * j))));;
      itrunc_indirect n dev a (j + 1)
  end.
Definition itrunc (ip : nat) : M fsst unit :=
  itrunc_direct (Z.to_nat NDIRECT) ip 0;;
  i ← get_inode ip;
  (if nz (addr_of i NDIRECT) then
     bp ← fbread (i_dev i) (addr_of i NDIRECT);
     a ← fdata bp;
     itrunc_indirect (Z.to_nat NINDIRECT) (i_dev i) a 0;;
     fbrelse bp;;
     bfree (i_dev i) (addr_of i NDIRECT);;
     upd_inode ip (set_addr (Z.to_nat NDIRECT) 0)
   else mret tt);;
  upd_inode ip (set_size 0);;
  iupdate ip.

Definition iput (ip : nat) : M fsst unit :=
  acquiresleep (l_ilock ip) pid (Z.of_nat ip);;
  i ← get_inode ip;
  (if i_valid i && (i_nlink i =? 0) then
     acquire l_ic_lock;;
     i ← get_inode ip;
     let r := i_ref i in
     release l_ic_lock;;
     if r =? 1 then
       (* inode has no links and no other references: truncate and free. *)
       itrunc ip;;
       upd_inode ip (set_type 0);;
       iupdate ip;;
       upd_inode ip (set_valid false)
     else mret tt
   else mret tt);;
  releasesleep (l_ilock ip);;
  acquire l_ic_lock;;
  upd_inode ip (λ i, set_ref (i_ref i - 1) i);;
  release l_ic_lock.

Definition iunlockput (ip : nat) : M fsst unit :=
  iunlock (Some ip);;
  iput ip.

Definition stati (ip : nat) : M fsst stat :=
  i ← get_inode ip;
  mret (Stat (i_type i) (i_dev i) (i_inum i) (i_nlink i) (i_size i)).

(** ** Reading and writing *)

(** [devsw]: the read and write functions of each device. *)
Context (dev_read : Z → option (nat → Z → M fsst (Z * list Z))).
Context (dev_write : Z → option (nat → list Z → M fsst Z)).

Fixpoint readi_loop (fuel : nat) (ip : nat) (off tot n : Z) : M fsst (list Z) :=
  match fuel with
  | O => nofuel
  | S fuel =>
      if tot <? n then
        i ← get_inode ip;
        addr ← bmap ip (off / BSIZE);
        bp ← fbread (i_dev i) addr;
        let m := Z.min (n - tot) (BSIZE - off mod BSIZE) in
        data ← fdata bp;
        let bytes := slice (Z.to_nat (off mod BSIZE)) (Z.to_nat m) data in
        fbrelse bp;;
        rest ← readi_loop fuel ip (u32 (off + m)) (tot + m) n;
        mret (bytes ++ rest)
      else mret []
  end.
Definition readi (ip : nat) (off n : Z) : M fsst (Z * list Z) :=
  i ← get_inode ip;
  if i_type i =? T_DEV then
    if (i_major i <? 0) || (i_major i >=? NDEV) then mret (-1, [])
    else
      match dev_read (i_major i) with
      | None => mret (-1, [])
      | Some rd => rd ip n
      end
  else if (off >? i_size i) || (u32 (off + n) <? off) then mret (-1, [])
  else
    let n := if u32 (off + n) >? i_size i then i_size i - off else n in
    bytes ← readi_loop (S (S (Z.to_nat (n / BSIZE + 1)))) ip off 0 n;
    mret (n, bytes).

Fixpoint writei_loop (fuel : nat) (ip : nat) (src : list Z) (off tot n : Z) : M fsst Z :=
  match fuel with
  | O => nofuel
  | S fuel =>
      if tot <? n then
        i ← get_inode ip;
        addr ← bmap ip (off / BSIZE);
        bp ← fbread (i_dev i) addr;
        let m := Z.min (n - tot) (BSIZE - off mod BSIZE) in
        data ← fdata bp;
        fstore bp (splice (Z.to_nat (off mod BSIZE)) (take (Z.to_nat m) src) data);;
        flog_write bp;;
        fbrelse bp;;
        writei_loop fuel ip (drop (Z.to_nat m) src) (u32 (off + m)) (tot + m) n
      else mret off
  end.
(** [src] holds the [n] bytes to write. *)
Definition writei (ip : nat) (src : list Z) (off : Z) : M fsst Z :=
  let n := Z.of_nat (length src) in
  i ← get_inode ip;
  if i_type i =? T_DEV then
    if (i_major i <? 0) || (i_major i >=? NDEV) then mret (-1)
    else
      match dev_write (i_major i) with
      | None => mret (-1)
      | Some wr => wr ip src
      end
  else if (off >? i_size i) || (u32 (off + n) <? off) then mret (-1)
  else if u32 (off + n) >? MAXFILE * BSIZE then mret (-1)
  else
    off ← writei_loop (S (S (Z.to_nat (n / BSIZE + 1)))) ip src off 0 n;
    i ← get_inode ip;
    (if (n >? 0) && (off >? i_size i) then
       upd_inode ip (set_size off);;
       iupdate ip
     else mret tt);;
    mret n.

(** ** Directories *)

(** Names are compared and stored as [DIRSIZ] bytes. *)
Definition namecmp (s t : list Z) : Z := strncmp (cstr_of s) (cstr_of t) (Z.to_nat DIRSIZ).

Definition de_inum (de : list Z) : Z := get16 de 0.
Definition de_name (de : list Z) : list Z := slice 2 14 de.

Fixpoint dirlookup_loop (fuel : nat) (dp : nat) (name : list Z) (off : Z)
    : M fsst (option (nat * Z)) :=
  match fuel with
  | O => nofuel
  | S fuel =>
      d ← get_inode dp;
      if off <? i_size d then
        '(r, de) ← readi dp off 16;
        if negb (r =? 16) then panic "dirlookup read"
        else if de_inum de =? 0 then dirlookup_loop fuel dp name (u32 (off + 16))
        else if namecmp name (de_name de) =? 0 then
          (* entry matches path element *)
          ip ← iget (i_dev d) (de_inum de);
          mret (Some (ip, off))
        else dirlookup_loop fuel dp name (u32 (off + 16))
      else mret None
  end.
Definition dirlookup (dp : nat) (name : list Z) : M fsst (option (nat * Z)) :=
  d ← get_inode dp;
  if negb (i_type d =? T_DIR) then panic "dirlookup not DIR"
  else dirlookup_loop (S (S (Z.to_nat (i_size d / 16)))) dp name 0.

Fixpoint dirlink_loop (fuel : nat) (dp : nat) (off : Z) : M fsst Z :=
  match fuel with
  | O => nofuel
  | S fuel =>
      d ← get_inode dp;
      if off <? i_size d then
        '(r, de) ← readi dp off 16;
        if negb (r =? 16) then panic "dirlink read"
        else if de_inum de =? 0 then mret off
        else dirlink_loop fuel dp (off + 16)
      else mret off
  end.
Definition dirlink (dp : nat) (name : list Z) (inum : Z) : M fsst Z :=
  r ← dirlookup dp name;
  match r with
  | Some (ip, _) => iput ip;; mret (-1)
  | None =>
      d ← get_inode dp;
      (* Look for an empty dirent. *)
      off ← dirlink_loop (S (S (Z.to_nat (i_size d / 16)))) dp 0;
      let de := le16 inum ++ strncpy (cstr_of name) DIRSIZ in
      r ← writei dp de off;
      if negb (r =? 16) then panic "dirlink" else mret 0
  end.

(** ** Paths *)

(** A path is the list of bytes up to its NUL. *)
Definition SLASH : Z := 47.
Fixpoint skip_slashes (path : list Z) : list Z :=
  match path with
  | c :: rest => if c =? SLASH then skip_slashes rest else path
  | [] => []
  end.
Fixpoint span_elem (path : list Z) : list Z * list Z :=
  match path with
  | c :: rest => if c =? SLASH then ([], path) else let '(s, r) := span_elem rest in (c :: s, r)
  | [] => ([], [])
  end.
(** [name] is the caller's buffer of [DIRSIZ] bytes. *)
Definition skipelem (path name : list Z) : option (list Z * list Z) :=
  match skip_slashes path with
  | [] => None
  | path =>
      let '(s, rest) := span_elem path in
      let name := if Z.of_nat (length s) >=? DIRSIZ then splice 0 (take (Z.to_nat DIRSIZ) s) name
                  else splice 0 (s ++ [0]) name in
      Some (skip_slashes rest, name)
  end.

Fixpoint namex_loop (fuel : nat) (ip : nat) (path : list Z) (nameiparent : bool)
    (name : list Z) : M fsst (option nat * list Z) :=
  match fuel with
  | O => nofuel
  | S fuel =>
      match skipelem path name with
      | None =>
          if nameiparent then iput ip;; mret (None, name) else mret (Some ip, name)
      | Some (path, name) =>
          ilock (Some ip);;
          i ← get_inode ip;
          if negb (i_type i =? T_DIR) then iunlockput ip;; mret (None, name)
          else if nameiparent && bool_decide (path = []) then
            (* Stop one level early. *)
            iunlock (Some ip);; mret (Some ip, name)
          else
            r ← dirlookup ip name;
            match r with
            | None => iunlockput ip;; mret (None, name)
            | Some (next, _) =>
                iunlockput ip;;
                namex_loop fuel next path nameiparent name
            end
      end
  end.
(** [cwd] is [myproc()->cwd]. *)
Definition namex (cwd : nat) (path : list Z) (nameiparent : bool) (name : list Z)
    : M fsst (option nat * list Z) :=
  ip ← (if byte_at path 0 =? SLASH then iget ROOTDEV ROOTINO else idup cwd);
  namex_loop (S (length path)) ip path nameiparent name.

Definition namei (cwd : nat) (path : list Z) : M fsst (option nat) :=
  '(ip, _) ← namex cwd path false (replicate 14 0);
  mret ip.
Definition nameiparent (cwd : nat) (path name : list Z) : M fsst (option nat * list Z) :=
  namex cwd path true name.
End fs.
