(* ===== verification/FsBlocks.v ===== *)
(** * The block allocator (fs.c: balloc, bfree, bzero)

    Specifications of the operations on single blocks: what they return, which
    blocks they change and which they log. *)

From Stdlib Require Import ZArith Lia.
From stdpp Require Import base numbers strings gmap list.
From S2P Require Import Prelude Memory Locks Bytes Disk Fs.

(** ** Transactions *)

Definition log_cap (d : ldisk) : Z := Z.min LOGSIZE (ld_logsize d - 1).
(** At least [k] more blocks fit into the running transaction. *)
Definition room (d : ldisk) (k : Z) : Prop :=
  Z.of_nat (length (ld_log d)) + k ≤ log_cap d ∧ 1 ≤ ld_outstanding d.

Definition log_add (b : Z) (l : list Z) : list Z :=
  if bool_decide (b ∈ l) then l else l ++ [b].
(** Block [b] rewritten and logged. *)
Definition put_blk (b : Z) (data : list Z) (d : ldisk) : ldisk :=
  ld_set_log (log_add b (ld_log d)) (ld_set_blk b data d).

Lemma elem_of_log_add b l c : c ∈ log_add b l ↔ c = b ∨ c ∈ l.
Proof. unfold log_add. case_bool_decide; set_solver. Qed.
Lemma NoDup_log_add b l : NoDup l → NoDup (log_add b l).
Proof.
  intros H. unfold log_add. case_bool_decide as E; [done|].
  apply NoDup_app. split_and!; [done| |apply NoDup_singleton]. set_solver.
Qed.

Lemma blk_put b data d c : blk (put_blk b data d) c = if decide (b = c) then data else blk d c.
Proof. unfold put_blk. by rewrite <-blk_set. Qed.

Lemma filter_held (b : Z) (held : list Z) : b ∉ held → filter (λ c, c ≠ b) (b :: held) = held.
Proof.
  intros Hb. rewrite filter_cons_False by naive_solver.
  induction held as [|c held IH]; [done|].
  rewrite filter_cons_True by set_solver. f_equal. apply IH. set_solver.
Qed.

(** ** The four buffer operations *)

Definition hold (b : Z) (s : fsst) : fsst :=
  lset l_ld (ld_set_held (b :: ld_held (fs_ld s)) (fs_ld s)) s.

Lemma fbread_ok dev b s : b ∉ ld_held (fs_ld s) → fbread dev b s = Ok b (hold b s).
Proof. intros H. unfold fbread, zoom, ld_bread. simpl. by rewrite bool_decide_false. Qed.
Lemma fdata_ok b s : fdata b s = Ok (blk (fs_ld s) b) s.
Proof. by destruct s. Qed.

Lemma fbrelse_ok b s d :
  b ∉ ld_held (fs_ld s) → ld_held d = b :: ld_held (fs_ld s) →
  fbrelse b (lset l_ld d s) = Ok tt (lset l_ld (ld_set_held (ld_held (fs_ld s)) d) s).
Proof.
  intros H E. unfold fbrelse, zoom, ld_brelse. simpl.
  rewrite bool_decide_true by (rewrite E; by left). by rewrite E, filter_held.
Qed.

Lemma flog_write_ok b s :
  room (fs_ld s) 1 →
  flog_write b s = Ok tt (lset l_ld (ld_set_log (log_add b (ld_log (fs_ld s))) (fs_ld s)) s).
Proof.
  intros [Hr Ho]. unfold flog_write, zoom, ld_log_write, log_cap, log_add in *. simpl.
  destruct (Z.geb_spec (Z.of_nat (length (ld_log (fs_ld s)))) LOGSIZE); [lia|].
  destruct (Z.geb_spec (Z.of_nat (length (ld_log (fs_ld s)))) (ld_logsize (fs_ld s) - 1)); [lia|].
  simpl. destruct (Z.ltb_spec (ld_outstanding (fs_ld s)) 1); [lia|].
  case_bool_decide; [|done]. by destruct (fs_ld s).
Qed.

(** Reading a block and releasing it leaves the state as it was. *)
Lemma brelse_hold b s : b ∉ ld_held (fs_ld s) → fbrelse b (hold b s) = Ok tt s.
Proof.
  intros H. unfold hold. rewrite fbrelse_ok by done.
  by destruct s as [[] ? ? ?].
Qed.

(** Storing into a held block, logging and releasing it. *)
Lemma update_hold b data s :
  b ∉ ld_held (fs_ld s) → room (fs_ld s) 1 →
  (fstore b data;; flog_write b;; fbrelse b) (hold b s) = Ok tt (lset l_ld (put_blk b data (fs_ld s)) s).
Proof.
  intros Hb Hr. unfold fstore at 1. mrun.
  mstep by (apply flog_write_ok; exact Hr). unfold hold. simpl.
  match goal with |- fbrelse b ?x = _ =>
    change x with (lset l_ld (fs_ld x) s) end.
  rewrite fbrelse_ok by done. done.
Qed.

(** ** The bitmap *)

(** Block [b] is marked as in use. *)
Definition used (d : ldisk) (sb : superblock) (b : Z) : bool :=
  negb (bm_free (blk d (BBLOCK b sb)) (b mod BPB)).

Lemma bm_free_testbit data bi :
  0 ≤ bi → bm_free data bi = negb (Z.testbit (byte_at data (Z.to_nat (bi / 8))) (bi mod 8)).
Proof.
  intros H. unfold bm_free. set (x := byte_at _ _). set (k := bi mod 8).
  assert (0 ≤ k) by (unfold k; zlia).
  rewrite Z.shiftl_1_l, Z.land_comm, <-Z.mul_0_r with (n := 2 ^ k).
  destruct (Z.testbit x k) eqn:E; simpl.
  - apply Z.eqb_neq. intros H'. assert (Hb := f_equal (λ z, Z.testbit z k) H'). simpl in Hb.
    rewrite Z.land_spec, Z.pow2_bits_true, E, Z.mul_0_r, Z.bits_0 in Hb by done. done.
  - apply Z.eqb_eq. rewrite Z.mul_0_r. apply Z.bits_inj'. intros n Hn.
    rewrite Z.land_spec, Z.bits_0, Z.pow2_bits_eqb by done.
    destruct (Z.eqb_spec k n); [subst; by rewrite E|done].
Qed.

Lemma u8_testbit x n : 0 ≤ n < 8 → Z.testbit (u8 x) n = Z.testbit x n.
Proof. intros H. unfold u8. change 256 with (2 ^ 8). apply Z.mod_pow2_bits_low. lia. Qed.

Lemma bm_set_spec data bi bj :
  length data = 512%nat → 0 ≤ bi < BPB → 0 ≤ bj < BPB →
  bm_free (bm_set data bi) bj = if decide (bi = bj) then false else bm_free data bj.
Proof.
  unfold BPB, BSIZE. intros Hl Hi Hj. rewrite !bm_free_testbit by lia.
  unfold bm_set. rewrite byte_at_splice by (simpl; zlia). simpl length.
  destruct (decide (bi / 8 = bj / 8)) as [E|E].
  - rewrite decide_True by zlia. replace (Z.to_nat (bj / 8) - Z.to_nat (bi / 8))%nat with O by zlia.
    change (byte_at [?x] 0) with x. rewrite u8_testbit by zlia.
    rewrite Z.lor_spec, Z.shiftl_1_l, Z.pow2_bits_eqb by zlia. rewrite <-E.
    destruct (decide (bi = bj)) as [->|Hn].
    + rewrite Z.eqb_refl. by rewrite orb_true_r.
    + destruct (Z.eqb_spec (bi mod 8) (bj mod 8)); [zlia|]. by rewrite orb_false_r.
  - rewrite decide_False by zlia. rewrite decide_False by (intros ->; done). done.
Qed.

Lemma bm_clear_spec data bi bj :
  length data = 512%nat → 0 ≤ bi < BPB → 0 ≤ bj < BPB →
  bm_free (bm_clear data bi) bj = if decide (bi = bj) then true else bm_free data bj.
Proof.
  unfold BPB, BSIZE. intros Hl Hi Hj. rewrite !bm_free_testbit by lia.
  unfold bm_clear. rewrite byte_at_splice by (simpl; zlia). simpl length.
  destruct (decide (bi / 8 = bj / 8)) as [E|E].
  - rewrite decide_True by zlia. replace (Z.to_nat (bj / 8) - Z.to_nat (bi / 8))%nat with O by zlia.
    change (byte_at [?x] 0) with x. rewrite u8_testbit by zlia.
    rewrite Z.land_spec, Z.lnot_spec, Z.shiftl_1_l, Z.pow2_bits_eqb by zlia. rewrite <-E.
    destruct (decide (bi = bj)) as [->|Hn].
    + rewrite Z.eqb_refl. by rewrite andb_false_r.
    + destruct (Z.eqb_spec (bi mod 8) (bj mod 8)); [zlia|]. by rewrite andb_true_r.
  - rewrite decide_False by zlia. rewrite decide_False by (intros ->; done). done.
Qed.

(** ** balloc *)

Lemma balloc_scan_spec n b bi size data :
  0 ≤ bi → (Z.to_nat (BPB - bi) < n)%nat →
  match balloc_scan n b bi size data with
  | Some r => bi ≤ r < BPB ∧ b + r < size ∧ bm_free data r = true ∧
      ∀ j, bi ≤ j < r → bm_free data j = false
  | None => ∀ j, bi ≤ j < BPB → b + j < size → bm_free data j = false
  end.
Proof.
  revert bi. induction n as [|n IH]; intros bi Hb Hn; [lia|]. simpl.
  destruct (Z.ltb_spec bi BPB); simpl; [|intros; lia].
  destruct (Z.ltb_spec (b + bi) size); simpl; [|intros; lia].
  destruct (bm_free data bi) eqn:E; [split_and!; try done; lia|].
  specialize (IH (bi + 1) ltac:(lia) ltac:(lia)).
  destruct (balloc_scan n b (bi + 1) size data) as [r|].
  - destruct IH as (H1 & H2 & H3 & H4). split_and!; try done; try lia.
    intros j Hj. destruct (decide (j = bi)) as [->|]; [done|]. apply H4. lia.
  - intros j Hj Hs. destruct (decide (j = bi)) as [->|]; [done|]. apply IH; lia.
Qed.

(** Block [b] marked as in use and zeroed. *)
Definition alloc_blk (sb : superblock) (b : Z) (d : ldisk) : ldisk :=
  put_blk b zero_block
    (put_blk (BBLOCK b sb) (bm_set (blk d (BBLOCK b sb)) (b mod BPB)) d).

Lemma room_mono d k j : room d k → j ≤ k → room d j.
Proof. intros [H1 H2] Hj. split; [lia|done]. Qed.

Lemma put_room b data d k : room d (k + 1) → room (put_blk b data d) k.
Proof.
  unfold room, log_cap, put_blk, log_add. simpl. intros [H1 H2]. split; [|done].
  case_bool_decide; [lia|]. rewrite length_app. simpl. lia.
Qed.

Lemma bzero_ok dev b s :
  b ∉ ld_held (fs_ld s) → room (fs_ld s) 1 →
  bzero dev b s = Ok tt (lset l_ld (put_blk b zero_block (fs_ld s)) s).
Proof.
  intros Hb Hr. unfold bzero. mstep (fbread_ok dev b s Hb). by apply update_hold.
Qed.

Lemma update_hold_then {A} b data s (k : M fsst A) :
  b ∉ ld_held (fs_ld s) → room (fs_ld s) 1 →
  (fstore b data;; flog_write b;; fbrelse b;; k) (hold b s) =
    k (lset l_ld (put_blk b data (fs_ld s)) s).
Proof.
  intros Hb Hr. pose proof (update_hold b data s Hb Hr) as E.
  transitivity (((fstore b data;; flog_write b;; fbrelse b) ≫= (λ _, k)) (hold b s)); [|by mstep E].
  unfold mbind, M_bind. destruct (fstore _ _ _); try done. destruct (flog_write _ _); done.
Qed.

(** The same while the block stays locked. *)
Lemma store_log_hold {A} b data s (k : M fsst A) :
  room (fs_ld s) 1 →
  (fstore b data;; flog_write b;; k) (hold b s) =
    k (hold b (lset l_ld (put_blk b data (fs_ld s)) s)).
Proof.
  intros Hr. unfold fstore at 1. mrun. mstep by (apply flog_write_ok; exact Hr). done.
Qed.

Lemma store_log_hold_assoc {A B} b data s (m : M fsst A) (k : A → M fsst B) :
  room (fs_ld s) 1 →
  ((fstore b data;; flog_write b;; m) ≫= k) (hold b s) =
    (m ≫= k) (hold b (lset l_ld (put_blk b data (fs_ld s)) s)).
Proof. intros Hr. unfold mbind at 1, M_bind at 1. by rewrite store_log_hold. Qed.

Section balloc.
Context (dev : Z) (s : fsst).
#[local] Abbreviation d := (fs_ld s).
#[local] Abbreviation sb := (fs_sb s).
Hypothesis bitmap_free : ∀ b, 0 ≤ b < sb_size sb → BBLOCK b sb ∉ ld_held d.
Hypothesis free_not_held :
  ∀ b, 0 ≤ b < sb_size sb → used d sb b = false → b ∉ ld_held d.
Hypothesis log_room : room d 1.
Hypothesis log_room_bitmap :
  ∀ b data, 0 ≤ b < sb_size sb → room (put_blk (BBLOCK b sb) data d) 1.

Lemma used_index q r : 0 ≤ r < BPB → used d sb (BPB * q + r) = negb (bm_free (blk d (BBLOCK (BPB * q) sb)) r).
Proof.
  unfold used, BBLOCK, BPB, BSIZE. intros Hr.
  assert ((512 * 8 * q + r) / (512 * 8) = (512 * 8 * q) / (512 * 8)) as -> by zlia.
  assert ((512 * 8 * q + r) mod (512 * 8) = r) as -> by zlia. done.
Qed.

Lemma balloc_loop_spec fuel q :
  0 ≤ q → (Z.to_nat ((sb_size sb - BPB * q + (BPB - 1)) / BPB) < fuel)%nat →
  (∀ b, 0 ≤ b < BPB * q → b < sb_size sb → used d sb b = true) →
  (∃ b, 0 ≤ b < sb_size sb ∧ used d sb b = false ∧
     (∀ b', 0 ≤ b' < b → used d sb b' = true) ∧
     balloc_loop fuel dev (BPB * q) s = Ok b (lset l_ld (alloc_blk sb b d) s)) ∨
  ((∀ b, 0 ≤ b < sb_size sb → used d sb b = true) ∧
   balloc_loop fuel dev (BPB * q) s = Panic "balloc: out of blocks").
Proof.
  revert q. induction fuel as [|fuel IH]; intros q Hq Hf Hpre; [lia|].
  cbn [balloc_loop]. unfold gets at 1. mrun. pose proof log_room as Hroom.
  destruct (Z.ltb_spec (BPB * q) (sb_size sb)) as [Hlt|Hge]; cycle 1.
  { right. split; [|done]. intros b Hb. apply Hpre; lia. }
  assert (Hh : BBLOCK (BPB * q) sb ∉ ld_held d) by (apply bitmap_free; unfold BPB, BSIZE in *; lia).
  mstep (fbread_ok dev _ s Hh). mstep (fdata_ok _ _).
  change (blk (fs_ld (hold (BBLOCK (BPB * q) sb) s))) with (blk d).
  set (data := blk d (BBLOCK (BPB * q) sb)).
  pose proof (balloc_scan_spec (S (Z.to_nat BPB)) (BPB * q) 0 (sb_size sb) data
    ltac:(lia) ltac:(lia)) as Hscan.
  destruct (balloc_scan _ _ _ _ data) as [r|].
  - left. destruct Hscan as (Hr & Hsz & Hfree & Hbefore).
    assert (Hu : used d sb (BPB * q + r) = false) by (rewrite used_index by done; fold data; by rewrite Hfree).
    exists (BPB * q + r). split_and!; [unfold BPB, BSIZE in *; lia|done|done| |].
    + intros b' Hb'. destruct (decide (b' < BPB * q)); [apply Hpre; lia|].
      replace b' with (BPB * q + (b' - BPB * q)) by lia. rewrite used_index by lia.
      fold data. by rewrite Hbefore by lia.
    + rewrite update_hold_then by done.
      assert (Hnh : BPB * q + r ∉ ld_held d) by (apply free_not_held; [unfold BPB, BSIZE in *; lia|done]).
      mstep by (apply bzero_ok; [exact Hnh|apply log_room_bitmap; unfold BPB, BSIZE in *; lia]).
      unfold alloc_blk, BBLOCK, BPB, BSIZE in *.
      assert ((512 * 8 * q + r) / (512 * 8) = (512 * 8 * q) / (512 * 8)) as -> by zlia.
      assert ((512 * 8 * q + r) mod (512 * 8) = r) as -> by zlia. done.
  - mstep (brelse_hold _ s Hh).
    replace (BPB * q + BPB) with (BPB * (q + 1)) by lia. apply IH; [lia| |].
    + unfold BPB, BSIZE in *. zlia.
    + intros b Hb Hbs. destruct (decide (b < BPB * q)); [apply Hpre; lia|].
      replace b with (BPB * q + (b - BPB * q)) by lia. rewrite used_index by lia.
      fold data. by rewrite Hscan by lia.
Qed.

Lemma balloc_spec :
  0 ≤ sb_size sb →
  (∃ b, 0 ≤ b < sb_size sb ∧ used d sb b = false ∧
     (∀ b', 0 ≤ b' < b → used d sb b' = true) ∧
     balloc dev s = Ok b (lset l_ld (alloc_blk sb b d) s)) ∨
  ((∀ b, 0 ≤ b < sb_size sb → used d sb b = true) ∧
   balloc dev s = Panic "balloc: out of blocks").
Proof.
  intros Hs. unfold balloc, gets at 1. mrun.
  change 0 with (BPB * 0). apply balloc_loop_spec; [lia| |lia].
  unfold BPB, BSIZE. zlia.
Qed.
End balloc.

(** ** bfree *)

Definition free_blk (sb : superblock) (b : Z) (d : ldisk) : ldisk :=
  put_blk (BBLOCK b sb) (bm_clear (blk d (BBLOCK b sb)) (b mod BPB)) d.

Lemma bfree_ok dev b s :
  BBLOCK b (fs_sb s) ∉ ld_held (fs_ld s) → used (fs_ld s) (fs_sb s) b = true →
  room (fs_ld s) 1 →
  bfree dev b s = Ok tt (lset l_ld (free_blk (fs_sb s) b (fs_ld s)) s).
Proof.
  intros Hh Hu Hr. unfold bfree, gets at 1. mrun. mstep (fbread_ok dev _ s Hh).
  mstep (fdata_ok _ _). unfold used in Hu. apply negb_true_iff in Hu.
  change (blk (fs_ld (hold _ s))) with (blk (fs_ld s)). rewrite Hu. by apply update_hold.
Qed.

Lemma bfree_twice dev b s :
  BBLOCK b (fs_sb s) ∉ ld_held (fs_ld s) → used (fs_ld s) (fs_sb s) b = false →
  bfree dev b s = Panic "freeing free block".
Proof.
  intros Hh Hu. unfold bfree, gets at 1. mrun. mstep (fbread_ok dev _ s Hh).
  mstep (fdata_ok _ _). unfold used in Hu. apply negb_false_iff in Hu.
  change (blk (fs_ld (hold _ s))) with (blk (fs_ld s)). by rewrite Hu.
Qed.

(** ** The effect on the bitmap *)

Lemma BBLOCK_neq b b' sb : b / BPB ≠ b' / BPB → BBLOCK b sb ≠ BBLOCK b' sb.
Proof. unfold BBLOCK. lia. Qed.

Lemma used_put_bitmap d sb b b' (f : list Z → Z → list Z) (v : bool) :
  0 ≤ b → 0 ≤ b' →
  (∀ bj, 0 ≤ bj < BPB → bm_free (f (blk d (BBLOCK b sb)) (b mod BPB)) bj =
     if decide (b mod BPB = bj) then v else bm_free (blk d (BBLOCK b sb)) bj) →
  used (put_blk (BBLOCK b sb) (f (blk d (BBLOCK b sb)) (b mod BPB)) d) sb b' =
    if decide (b = b') then negb v else used d sb b'.
Proof.
  intros Hb Hb' Hf. unfold used. rewrite blk_put.
  destruct (decide (b / BPB = b' / BPB)) as [E|E].
  - rewrite decide_True by (unfold BBLOCK; lia).
    rewrite Hf by (unfold BPB, BSIZE; zlia).
    assert (Eb : BBLOCK b' sb = BBLOCK b sb) by (unfold BBLOCK; lia). rewrite Eb.
    unfold BPB, BSIZE in *. repeat case_decide; try done; zlia.
  - rewrite decide_False by (by apply BBLOCK_neq). rewrite decide_False; [done|]. congruence.
Qed.

Lemma used_free_blk d sb b b' :
  length (blk d (BBLOCK b sb)) = 512%nat → 0 ≤ b → 0 ≤ b' →
  used (free_blk sb b d) sb b' = if decide (b = b') then false else used d sb b'.
Proof.
  intros Hl Hb Hb'. unfold free_blk. rewrite (used_put_bitmap _ _ _ _ bm_clear true); try done.
  intros bj Hj. apply bm_clear_spec; [done|unfold BPB, BSIZE; zlia|done].
Qed.

Lemma used_alloc_blk d sb b b' :
  length (blk d (BBLOCK b sb)) = 512%nat → 0 ≤ b → 0 ≤ b' → b ≠ BBLOCK b' sb →
  used (alloc_blk sb b d) sb b' = if decide (b = b') then true else used d sb b'.
Proof.
  intros Hl Hb Hb' Hn. unfold alloc_blk.
  transitivity (used (put_blk (BBLOCK b sb) (bm_set (blk d (BBLOCK b sb)) (b mod BPB)) d) sb b').
  { unfold used. by rewrite blk_put, decide_False by done. }
  rewrite (used_put_bitmap _ _ _ _ bm_set false); try done.
  intros bj Hj. apply bm_set_spec; [done|unfold BPB, BSIZE; zlia|done].
Qed.

Lemma blk_alloc d sb b c :
  blk (alloc_blk sb b d) c =
    if decide (b = c) then zero_block
    else if decide (BBLOCK b sb = c) then bm_set (blk d c) (b mod BPB) else blk d c.
Proof.
  unfold alloc_blk. rewrite !blk_put. repeat case_decide; subst; done.
Qed.

Lemma length_bm_set data bi :
  length data = 512%nat → 0 ≤ bi < BPB → length (bm_set data bi) = 512%nat.
Proof. unfold BPB, BSIZE. intros Hl Hb. unfold bm_set. by rewrite length_splice by (simpl; zlia). Qed.
Lemma length_bm_clear data bi :
  length data = 512%nat → 0 ≤ bi < BPB → length (bm_clear data bi) = 512%nat.
Proof. unfold BPB, BSIZE. intros Hl Hb. unfold bm_clear. by rewrite length_splice by (simpl; zlia). Qed.
