(* ===== verification/FsInode.v ===== *)
(** * Inodes (fs.c: iupdate, ilock, iget, iput, ialloc)

    The on-disk format of an inode and its round trip through the inode
    block, and the reference counts of the inode cache. *)

From Stdlib Require Import ZArith Lia.
From stdpp Require Import base numbers strings gmap list.
From S2P Require Import Prelude Memory Locks Bytes Disk Fs FsBlocks.

(** ** The on-disk format *)

Record dinode_ok (d : dinode) : Prop := {
  dk_type : -32768 ≤ d_type d < 32768;
  dk_major : -32768 ≤ d_major d < 32768;
  dk_minor : -32768 ≤ d_minor d < 32768;
  dk_nlink : -32768 ≤ d_nlink d < 32768;
  dk_size : 0 ≤ d_size d < 4294967296;
  dk_addrs : length (d_addrs d) = 13%nat;
  dk_addr : Forall (λ a, 0 ≤ a < 4294967296) (d_addrs d);
}.

Lemma length_concat_le32 l : length (concat (le32 <$> l)) = (4 * length l)%nat.
Proof.
  induction l as [|x l IH]; [done|]. rewrite fmap_cons. cbn [concat].
  rewrite length_app, IH. simpl. lia.
Qed.

Lemma length_enc_dinode d : length (d_addrs d) = 13%nat → length (enc_dinode d) = 64%nat.
Proof. intros H. unfold enc_dinode. rewrite !length_app, length_concat_le32, H. done. Qed.

Lemma enc_dinode_bytes d : Forall is_byte (enc_dinode d).
Proof.
  unfold enc_dinode. rewrite !Forall_app. split_and!; try apply le16_bytes; [apply le32_bytes|].
  induction (d_addrs d) as [|a l IH]; [constructor|]. rewrite fmap_cons. cbn [concat].
  apply Forall_app. split; [apply le32_bytes|done].
Qed.

Lemma dec_dinode_ext l k i j :
  (∀ c, (c < 64)%nat → byte_at l (i + c) = byte_at k (j + c)) → dec_dinode l i = dec_dinode k j.
Proof.
  intros H. unfold dec_dinode.
  assert (H16 : ∀ c, (c + 2 ≤ 64)%nat → get16 l (i + c) = get16 k (j + c)).
  { intros c Hc. apply get16_ext. intros e He. rewrite <-!Nat.add_assoc. apply H. lia. }
  assert (H32 : ∀ c, (c + 4 ≤ 64)%nat → get32 l (i + c) = get32 k (j + c)).
  { intros c Hc. apply get32_ext. intros e He. rewrite <-!Nat.add_assoc. apply H. lia. }
  f_equal.
  - f_equal. specialize (H16 O). rewrite !Nat.add_0_r in H16. apply H16. lia.
  - f_equal. apply H16. lia.
  - f_equal. apply H16. lia.
  - f_equal. apply H16. lia.
  - apply H32. lia.
  - apply list_fmap_ext. intros e x Hx. apply lookup_seq in Hx as [-> Hx]. simpl.
    rewrite <-!Nat.add_assoc. apply H32. lia.
Qed.

Lemma s16_u16 x : -32768 ≤ x < 32768 → s16 (u16 x) = x.
Proof. unfold s16, u16. intros. zlia. Qed.

Lemma byte_at_cons x l i : byte_at (x :: l) (S i) = byte_at l i.
Proof. done. Qed.

Lemma get16_app_r l k i : (length l ≤ i)%nat → get16 (l ++ k) i = get16 k (i - length l).
Proof.
  intros H. apply get16_ext. intros d Hd. rewrite byte_at_app_r by lia. f_equal. lia.
Qed.
Lemma get32_app_r l k i : (length l ≤ i)%nat → get32 (l ++ k) i = get32 k (i - length l).
Proof.
  intros H. apply get32_ext. intros d Hd. rewrite byte_at_app_r by lia. f_equal. lia.
Qed.
Lemma get16_app_l l k i : (i + 2 ≤ length l)%nat → get16 (l ++ k) i = get16 l i.
Proof. intros H. apply get16_ext. intros d Hd. by rewrite byte_at_app_l by lia. Qed.
Lemma get32_app_l l k i : (i + 4 ≤ length l)%nat → get32 (l ++ k) i = get32 l i.
Proof. intros H. apply get32_ext. intros d Hd. by rewrite byte_at_app_l by lia. Qed.

Lemma get32_concat l k a :
  l !! k = Some a → get32 (concat (le32 <$> l)) (4 * k) = u32 a.
Proof.
  revert k. induction l as [|x l IH]; intros k Hk; [done|].
  rewrite fmap_cons. cbn [concat]. destruct k as [|k].
  - injection Hk as ->. rewrite get32_app_l by (simpl; lia). apply get32_le32.
  - simpl in Hk. rewrite get32_app_r by (simpl; lia).
    replace (4 * S k - length (le32 x))%nat with (4 * k)%nat by (simpl; lia). by apply IH.
Qed.

Lemma dec_enc_dinode d : dinode_ok d → dec_dinode (enc_dinode d) 0 = d.
Proof.
  intros [H1 H2 H3 H4 H5 H6 H7]. destruct d as [ty ma mi nl sz ad]; simpl in *.
  unfold dec_dinode, enc_dinode. cbn [d_type d_major d_minor d_nlink d_size d_addrs].
  f_equal.
  - rewrite get16_app_l by (simpl; lia). rewrite get16_le16. by apply s16_u16.
  - rewrite get16_app_r by (simpl; lia). rewrite get16_app_l by (simpl; lia).
    simpl Nat.sub. rewrite get16_le16. by apply s16_u16.
  - do 2 rewrite get16_app_r by (simpl; lia). rewrite get16_app_l by (simpl; lia).
    simpl Nat.sub. rewrite get16_le16. by apply s16_u16.
  - do 3 rewrite get16_app_r by (simpl; lia). rewrite get16_app_l by (simpl; lia).
    simpl Nat.sub. rewrite get16_le16. by apply s16_u16.
  - do 4 rewrite get32_app_r by (simpl; lia). rewrite get32_app_l by (simpl; lia).
    simpl Nat.sub. rewrite get32_le32. by apply u32_small.
  - apply list_eq. intros k. rewrite list_lookup_fmap.
    destruct (decide (k < 13)%nat) as [Hk|Hk].
    + rewrite lookup_seq_lt by done. cbn [fmap option_fmap option_map].
      destruct (lookup_lt_is_Some_2 ad k) as [a Ha]; [lia|]. rewrite Ha. f_equal.
      do 5 rewrite get32_app_r by (simpl; lia).
      match goal with |- get32 _ ?n = _ => replace n with (4 * k)%nat by (simpl; lia) end.
      rewrite (get32_concat _ _ _ Ha). apply u32_small.
      by apply (Forall_lookup_1 _ _ _ _ H7 Ha).
    + rewrite lookup_seq_ge, lookup_ge_None_2 by lia. done.
Qed.

(** Storing an inode in its slot of an inode block, and reading any slot. *)
Lemma dec_splice_eq d data i :
  dinode_ok d → (i + 64 ≤ length data)%nat → dec_dinode (splice i (enc_dinode d) data) i = d.
Proof.
  intros Hd Hl. rewrite <-(dec_enc_dinode d) at 2 by done. apply dec_dinode_ext. intros c Hc.
  pose proof (length_enc_dinode d (dk_addrs _ Hd)) as Hlen.
  rewrite byte_at_splice by lia. rewrite decide_True by lia. f_equal. lia.
Qed.
Lemma dec_splice_ne d data i j :
  length (d_addrs d) = 13%nat → (i + 64 ≤ length data)%nat →
  (j + 64 ≤ i ∨ i + 64 ≤ j)%nat →
  dec_dinode (splice i (enc_dinode d) data) j = dec_dinode data j.
Proof.
  intros Hd Hl Hj. apply dec_dinode_ext. intros c Hc.
  pose proof (length_enc_dinode d Hd) as Hlen.
  rewrite byte_at_splice by lia. by rewrite decide_False by lia.
Qed.

(** ** The inode an inode number denotes *)

Definition disk_inode (d : ldisk) (sb : superblock) (inum : Z) : dinode :=
  dec_dinode (blk d (IBLOCK inum sb)) (ioff inum).

Lemma ioff_bound inum : 0 ≤ inum → (ioff inum + 64 ≤ 512)%nat.
Proof. unfold ioff, IPB, BSIZE. intros. zlia. Qed.

(** Inode [inum] rewritten to [di]. *)
Definition put_inode (sb : superblock) (inum : Z) (di : dinode) (d : ldisk) : ldisk :=
  put_blk (IBLOCK inum sb)
    (splice (ioff inum) (enc_dinode di) (blk d (IBLOCK inum sb))) d.

Lemma disk_inode_put d sb inum di j :
  dinode_ok di → 0 ≤ inum → 0 ≤ j → length (blk d (IBLOCK inum sb)) = 512%nat →
  disk_inode (put_inode sb inum di d) sb j =
    if decide (inum = j) then di else disk_inode d sb j.
Proof.
  intros Hd Hi Hj Hl. unfold disk_inode, put_inode. rewrite blk_put.
  pose proof (ioff_bound inum Hi). pose proof (ioff_bound j Hj).
  destruct (decide (inum = j)) as [->|Hne].
  - rewrite decide_True by done. apply dec_splice_eq; [done|lia].
  - destruct (decide (IBLOCK inum sb = IBLOCK j sb)) as [E|E]; [|done].
    rewrite E. rewrite E in Hl. apply dec_splice_ne; [apply Hd|lia|].
    unfold IBLOCK, ioff, IPB, BSIZE in *. zlia.
Qed.

Lemma get_inode_ok s ip : (ip < length (ic_inode s))%nat → get_inode ip s = Ok (ino s ip) s.
Proof.
  intros H. unfold get_inode, ino. by destruct (lookup_lt_is_Some_2 _ _ H) as [i ->].
Qed.
Lemma upd_inode_ok s ip f :
  (ip < length (ic_inode s))%nat →
  upd_inode ip f s = Ok tt (set_ic (<[ip := f (ino s ip)]> (ic_inode s)) s).
Proof.
  intros H. unfold upd_inode, ino. by destruct (lookup_lt_is_Some_2 _ _ H) as [i ->].
Qed.
Lemma ino_set s ip i j :
  (ip < length (ic_inode s))%nat →
  ino (set_ic (<[ip := i]> (ic_inode s)) s) j = if decide (ip = j) then i else ino s j.
Proof.
  intros H. unfold ino, set_ic. simpl. case_decide as E.
  - subst. by rewrite list_lookup_insert_eq.
  - by rewrite list_lookup_insert_ne.
Qed.

Lemma iupdate_ok s ip :
  (ip < length (ic_inode s))%nat →
  IBLOCK (i_inum (ino s ip)) (fs_sb s) ∉ ld_held (fs_ld s) → room (fs_ld s) 1 →
  iupdate ip s = Ok tt (lset l_ld (put_inode (fs_sb s) (i_inum (ino s ip))
    (disk_fields (ino s ip)) (fs_ld s)) s).
Proof.
  intros Hip Hh Hr. unfold iupdate. mstep (get_inode_ok s ip Hip). unfold gets at 1. mrun.
  mstep (fbread_ok _ _ s Hh). mstep (fdata_ok _ _). by apply update_hold.
Qed.
