(* ===== verification/FsFile.v ===== *)
(** * File contents (fs.c: bmap, readi, writei, itrunc)

    An inode maps the blocks of a file to disk blocks through twelve direct
    entries and one indirect block.  [slot] numbers these entries: 0 to 11 are
    the direct blocks, 12 is the indirect block, 13 to 140 the entries of the
    indirect block.  [file_ok] is the invariant of an inode, and [file_byte]
    the content of the file it describes. *)

From Stdlib Require Import ZArith Lia.
From stdpp Require Import base numbers strings gmap list.
From S2P Require Import Prelude Memory Locks Bytes Disk Fs FsBlocks FsInode.

(** ** The disk *)

(** The geometry of the disk and the state of its blocks; [mkfs] makes file
    systems whose bitmap is a single block. *)
Record fs_base (d : ldisk) (sb : superblock) : Prop := {
  fb_size : 0 < sb_size sb ≤ BPB;
  fb_bmap : 0 < sb_bmapstart sb < sb_size sb;
  fb_len : ∀ b, length (blk d b) = 512%nat;
  fb_bytes : ∀ b, Forall is_byte (blk d b);
  fb_boot_used : used d sb 0 = true;
  fb_bmap_used : used d sb (sb_bmapstart sb) = true;
}.

Lemma BBLOCK_single sb b : 0 ≤ b < sb_size sb → sb_size sb ≤ BPB → BBLOCK b sb = sb_bmapstart sb.
Proof. unfold BBLOCK, BPB, BSIZE. intros. rewrite Z.div_small by lia. lia. Qed.

(** At least [k] blocks are free. *)
Definition nfree (d : ldisk) (sb : superblock) (k : Z) : Prop :=
  ∃ F : list Z, NoDup F ∧ k ≤ Z.of_nat (length F) ∧
    ∀ c, c ∈ F → 0 ≤ c < sb_size sb ∧ used d sb c = false.

(** The blocks of [P] and [k] more still fit into the transaction. *)
Definition paid (d : ldisk) (P : list Z) (k : Z) : Prop :=
  NoDup (ld_log d) ∧ 1 ≤ ld_outstanding d ∧
  ∃ U : list Z, NoDup U ∧ (∀ c, c ∈ ld_log d → c ∈ U) ∧ (∀ c, c ∈ P → c ∈ U) ∧
    Z.of_nat (length U) + k < log_cap d.

Lemma NoDup_incl_length (l k : list Z) :
  NoDup l → (∀ x, x ∈ l → x ∈ k) → (length l ≤ length k)%nat.
Proof. intros Hl Hi. apply submseteq_length, NoDup_submseteq; done. Qed.

Lemma paid_room d P k : paid d P k → 0 ≤ k → room d 1.
Proof.
  intros (Hn & Ho & U & HU & Hlog & HP & Hc) Hk. split; [|done].
  pose proof (NoDup_incl_length _ _ Hn Hlog). lia.
Qed.

Lemma paid_put d P k b data : paid d P k → b ∈ P → paid (put_blk b data d) P k.
Proof.
  intros (Hn & Ho & U & HU & Hlog & HP & Hc) Hb.
  split_and!; [by apply NoDup_log_add|done|]. exists U. split_and!; try done.
  intros c Hc'. apply elem_of_log_add in Hc' as [->|]; auto.
Qed.

Lemma paid_pay d P k b : paid d P (k + 1) → paid d (b :: P) k.
Proof.
  intros (Hn & Ho & U & HU & Hlog & HP & Hc). split_and!; [done|done|].
  destruct (decide (b ∈ U)) as [Hb|Hb].
  - exists U. split_and!; try done; [|lia]. intros c Hc'. apply elem_of_cons in Hc' as [->|]; auto.
  - exists (b :: U). split_and!.
    + by constructor.
    + intros c Hc'. right. auto.
    + intros c Hc'. apply elem_of_cons in Hc' as [->|]; [by left|right; auto].
    + simpl. lia.
Qed.

Lemma paid_weaken d P P' k k' :
  paid d P k → (∀ c, c ∈ P' → c ∈ P) → k' ≤ k → paid d P' k'.
Proof.
  intros (Hn & Ho & U & HU & Hlog & HP & Hc) HP' Hk. split_and!; [done|done|].
  exists U. split_and!; auto. lia.
Qed.

(** ** Slots *)

Definition slot (d : ldisk) (i : inode) (k : Z) : Z :=
  if k <? 13 then addr_of i k
  else if addr_of i 12 =? 0 then 0
  else get32 (blk d (addr_of i 12)) (Z.to_nat (4 * (k - 13))).
(** The slot of block [bn] of the file. *)
Definition bslot (bn : Z) : Z := if bn <? 12 then bn else bn + 1.

Definition file_byte (d : ldisk) (i : inode) (o : Z) : Z :=
  byte_at (blk d (slot d i (bslot (o / 512)))) (Z.to_nat (o mod 512)).

Record file_ok (d : ldisk) (sb : superblock) (i : inode) : Prop := {
  fo_addrs : length (i_addrs i) = 13%nat;
  fo_addr_range : Forall (λ a, 0 ≤ a < 4294967296) (i_addrs i);
  fo_inum : 0 ≤ i_inum i;
  fo_iblock : 0 < IBLOCK (i_inum i) sb < sb_size sb ∧
    used d sb (IBLOCK (i_inum i) sb) = true ∧ IBLOCK (i_inum i) sb ≠ sb_bmapstart sb;
  fo_slot : ∀ k, 0 ≤ k < 141 → slot d i k ≠ 0 →
    0 < slot d i k < sb_size sb ∧ used d sb (slot d i k) = true ∧
    slot d i k ≠ sb_bmapstart sb ∧ slot d i k ≠ IBLOCK (i_inum i) sb;
  fo_inj : ∀ k k', 0 ≤ k < 141 → 0 ≤ k' < 141 → slot d i k ≠ 0 →
    slot d i k = slot d i k' → k = k';
  fo_size : 0 ≤ i_size i ≤ 71680;
  fo_full : ∀ bn, 0 ≤ bn → 512 * bn < i_size i → slot d i (bslot bn) ≠ 0;
}.

(** The inode with other block addresses. *)
Definition same_but_addrs (i i' : inode) : Prop :=
  i' = Inode (i_dev i) (i_inum i) (i_ref i) (i_lock i) (i_valid i) (i_type i) (i_major i)
    (i_minor i) (i_nlink i) (i_size i) (i_addrs i').

Lemma bslot_range bn : 0 ≤ bn < 140 → 0 ≤ bslot bn < 141 ∧ bslot bn ≠ 12.
Proof. unfold bslot. intros. destruct (Z.ltb_spec bn 12); lia. Qed.
Lemma bslot_inj bn bn' : bslot bn = bslot bn' → bn = bn'.
Proof. unfold bslot. destruct (Z.ltb_spec bn 12), (Z.ltb_spec bn' 12); lia. Qed.

(** One empty slot [k] has been filled with the block [b], which was free. *)
Record filled (sb : superblock) (d : ldisk) (i : inode) (d' : ldisk) (i' : inode)
    (k b : Z) : Prop := {
  fl_same : same_but_addrs i i';
  fl_len : length (i_addrs i') = 13%nat;
  fl_range : Forall (λ a, 0 ≤ a < 4294967296) (i_addrs i');
  fl_slot : ∀ j, 0 ≤ j < 141 → slot d' i' j = if decide (j = k) then b else slot d i j;
  fl_used : ∀ c, 0 ≤ c < sb_size sb →
    used d' sb c = if decide (b = c) then true else used d sb c;
  fl_blk : ∀ c, c ≠ b → c ≠ sb_bmapstart sb → (12 < k → c ≠ slot d i 12) → blk d' c = blk d c;
  fl_new : blk d' b = zero_block;
  fl_base : fs_base d' sb;
}.

Lemma filled_file_ok sb d i d' i' k b :
  file_ok d sb i → filled sb d i d' i' k b → fs_base d sb →
  0 ≤ k < 141 → slot d i k = 0 → 0 < b < sb_size sb → used d sb b = false →
  file_ok d' sb i'.
Proof.
  intros [F1 F2 F3 [F4 [F5 F6]] F7 F8 F9 F10] [L1 L2 L3 L4 L5 L6 L7 L8] Hb Hk Hs Hbr Hbu.
  assert (Ei : i_inum i' = i_inum i) by (by rewrite L1).
  assert (Ez : i_size i' = i_size i) by (by rewrite L1).
  split; try done; rewrite ?Ei, ?Ez; try done.
  - split_and!; try done; try lia. rewrite L5 by lia. by case_decide.
  - intros j Hj. rewrite !L4 by done. destruct (decide (j = k)) as [->|Hjk].
    + intros _. split_and!; try lia.
      * rewrite L5 by lia. by rewrite decide_True.
      * intros ->. pose proof (fb_bmap_used _ _ Hb). congruence.
      * intros ->. congruence.
    + intros Hne. destruct (F7 j Hj Hne) as (? & ? & ? & ?). split_and!; try done; try lia.
      rewrite L5 by lia. by case_decide.
  - intros j j' Hj Hj'. rewrite !L4 by done.
    destruct (decide (j = k)) as [->|Hjk], (decide (j' = k)) as [->|Hjk']; try done.
    + intros _ E. rewrite E in Hbu. destruct (F7 j' Hj') as (_ & ? & _); [lia|congruence].
    + intros Hne E. rewrite <-E in Hbu. destruct (F7 j Hj) as (_ & ? & _); [lia|congruence].
    + by apply F8.
  - intros bn Hbn Hsz. pose proof (bslot_range bn ltac:(lia)) as [Hr _].
    rewrite L4 by done. case_decide; [lia|]. by apply F10.
Qed.

(** A direct entry or the indirect block. *)
Lemma fill_direct sb d i k b :
  fs_base d sb → file_ok d sb i → 0 ≤ k < 13 → slot d i k = 0 →
  0 < b < sb_size sb → used d sb b = false →
  filled sb d i (alloc_blk sb b d) (set_addr (Z.to_nat k) b i) k b.
Proof.
  intros Hb Hf Hk Hs Hbr Hbu.
  assert (Hbm : b ≠ sb_bmapstart sb).
  { intros ->. pose proof (fb_bmap_used _ _ Hb). congruence. }
  assert (HBB : ∀ c, 0 ≤ c < sb_size sb → BBLOCK c sb = sb_bmapstart sb).
  { intros c Hc. apply BBLOCK_single; [done|apply Hb]. }
  assert (Hblk : ∀ c, blk (alloc_blk sb b d) c = if decide (b = c) then zero_block
     else if decide (sb_bmapstart sb = c) then bm_set (blk d c) (b mod BPB) else blk d c).
  { intros c. rewrite blk_alloc. by rewrite HBB by lia. }
  assert (Haddr : ∀ j, 0 ≤ j < 13 → addr_of (set_addr (Z.to_nat k) b i) j =
     if decide (j = k) then b else addr_of i j).
  { intros j Hj. unfold addr_of. simpl. pose proof (fo_addrs _ _ _ Hf). case_decide.
    - subst. by rewrite list_lookup_insert_eq by lia.
    - by rewrite list_lookup_insert_ne by lia. }
  assert (Hused : ∀ c, 0 ≤ c < sb_size sb →
    used (alloc_blk sb b d) sb c = if decide (b = c) then true else used d sb c).
  { intros c Hc. apply used_alloc_blk; try lia; [apply Hb|by rewrite HBB]. }
  split; try done.
  - simpl. rewrite length_insert. apply Hf.
  - simpl. apply Forall_insert; [apply Hf|]. pose proof (fb_size _ _ Hb). unfold BPB, BSIZE in *. lia.
  - intros j Hj. unfold slot in *. destruct (Z.ltb_spec j 13).
    { rewrite Haddr by lia. done. }
    rewrite (decide_False (P := j = k)) by lia. rewrite Haddr by lia.
    destruct (decide (12 = k)) as [<-|Hk12].
    + assert (E0 : addr_of i 12 = 0) by (unfold slot in Hs; done).
      rewrite E0. simpl. destruct (Z.eqb_spec b 0); [done|].
      rewrite Hblk, decide_True by done. unfold get32, byte_at, zero_block.
      rewrite !lookup_replicate_2 by lia. done.
    + destruct (Z.eqb_spec (addr_of i 12) 0) as [|Hne]; [done|].
      destruct (fo_slot _ _ _ Hf 12 ltac:(lia)) as (? & Hu & Hnb & _); [done|].
      change (slot d i 12) with (addr_of i 12) in *. rewrite Hblk.
      rewrite decide_False by (intros ->; congruence). by rewrite decide_False by done.
  - intros c Hcb Hcm _. rewrite Hblk. by rewrite !decide_False by done.
  - rewrite Hblk. by rewrite decide_True.
  - destruct Hb as [B1 B2 B3 B4 B5 B6]. split; try done.
    + intros c. rewrite Hblk. repeat case_decide; try done.
      apply length_bm_set; [done|]. unfold BPB, BSIZE. zlia.
    + intros c. rewrite Hblk. repeat case_decide; try done.
      * unfold zero_block. by apply Forall_replicate.
      * unfold bm_set. apply Forall_splice; [|done]. repeat constructor; apply u8_range.
    + rewrite Hused by lia. case_decide; [done|]. done.
    + rewrite Hused by lia. by case_decide.
Qed.

(** An entry of the indirect block. *)
Definition put_entry (d : ldisk) (ind k b : Z) : ldisk :=
  put_blk ind (splice (Z.to_nat (4 * (k - 13))) (le32 b) (blk d ind)) d.

Lemma put_entry_base d sb ind k b :
  fs_base d sb → ind ≠ sb_bmapstart sb → 13 ≤ k < 141 → fs_base (put_entry d ind k b) sb ∧
  ∀ c, 0 ≤ c < sb_size sb → used (put_entry d ind k b) sb c = used d sb c.
Proof.
  intros [B1 B2 B3 B4 B5 B6] Hn Hk.
  assert (Hu : ∀ c, 0 ≤ c < sb_size sb → used (put_entry d ind k b) sb c = used d sb c).
  { intros c Hc. unfold used, put_entry. rewrite blk_put, decide_False; [done|].
    rewrite BBLOCK_single; [done|done|apply B1]. }
  split; [|done]. split; try done; rewrite ?Hu by lia; try done; intros c;
    unfold put_entry; rewrite blk_put; case_decide; try done.
  - rewrite length_splice; [done|]. rewrite B3. simpl. lia.
  - apply Forall_splice; [apply le32_bytes|done].
Qed.

Lemma fill_indirect sb d i k b :
  fs_base d sb → file_ok d sb i → 13 ≤ k < 141 → slot d i k = 0 → slot d i 12 ≠ 0 →
  0 < b < sb_size sb → used d sb b = false →
  filled sb d i (put_entry (alloc_blk sb b d) (slot d i 12) k b) i k b.
Proof.
  intros Hb Hf Hk Hs H12 Hbr Hbu.
  change (slot d i 12) with (addr_of i 12) in H12 |- *. set (ind := addr_of i 12) in *.
  assert (Hbm : b ≠ sb_bmapstart sb).
  { intros ->. pose proof (fb_bmap_used _ _ Hb). congruence. }
  assert (HBB : ∀ c, 0 ≤ c < sb_size sb → BBLOCK c sb = sb_bmapstart sb).
  { intros c Hc. apply BBLOCK_single; [done|apply Hb]. }
  assert (Hblk : ∀ c, blk (alloc_blk sb b d) c = if decide (b = c) then zero_block
     else if decide (sb_bmapstart sb = c) then bm_set (blk d c) (b mod BPB) else blk d c).
  { intros c. rewrite blk_alloc. by rewrite HBB by lia. }
  destruct (fo_slot _ _ _ Hf 12 ltac:(lia) H12) as (Hir & Hiu & Him & _).
  change (slot d i 12) with ind in Hir, Hiu, Him.
  assert (Hbi : b ≠ ind) by (intros ->; congruence).
  assert (Hused : ∀ c, 0 ≤ c < sb_size sb →
    used (alloc_blk sb b d) sb c = if decide (b = c) then true else used d sb c).
  { intros c Hc. apply used_alloc_blk; try lia; [apply Hb|by rewrite HBB]. }
  assert (Hind : blk (alloc_blk sb b d) ind = blk d ind).
  { rewrite Hblk. by rewrite !decide_False by done. }
  assert (Hb' : fs_base (alloc_blk sb b d) sb).
  { destruct Hb as [B1 B2 B3 B4 B5 B6]. split; try done.
    + intros c. rewrite Hblk. repeat case_decide; try done.
      apply length_bm_set; [done|]. unfold BPB, BSIZE. zlia.
    + intros c. rewrite Hblk. repeat case_decide; try done.
      * unfold zero_block. by apply Forall_replicate.
      * unfold bm_set. apply Forall_splice; [|done]. repeat constructor; apply u8_range.
    + rewrite Hused by lia. case_decide; [done|]. done.
    + rewrite Hused by lia. by case_decide. }
  destruct (put_entry_base _ sb ind k b Hb' Him Hk) as [Hb'' Hu''].
  pose proof (fb_len _ _ Hb ind) as Hlen.
  split; try done; try apply Hf.
  - by destruct i.
  - intros j Hj. unfold slot in *. destruct (Z.ltb_spec j 13).
    { by rewrite decide_False by lia. }
    fold ind. destruct (Z.eqb_spec ind 0); [done|].
    unfold put_entry. rewrite blk_put, decide_True, Hind by done. case_decide as Ejk.
    + subst. rewrite get32_splice_eq by lia. apply u32_small.
      pose proof (fb_size _ _ Hb). unfold BPB, BSIZE in *. lia.
    + apply get32_splice_ne; simpl; lia.
  - intros c Hc. by rewrite Hu'', Hused by done.
  - intros c Hcb Hcm Hci. unfold put_entry. rewrite blk_put, decide_False by (intros <-; apply Hci; [lia|done]).
    rewrite Hblk. by rewrite !decide_False by done.
  - unfold put_entry. rewrite blk_put, decide_False by done. rewrite Hblk. by rewrite decide_True.
Qed.

(** ** Extension of a file's blocks *)

(** What filling slots does to the file: entries stay, new entries are zeroed
    blocks, and no used block changes but the bitmap and the indirect block. *)
Record ext (sb : superblock) (d : ldisk) (i : inode) (d' : ldisk) (i' : inode) : Prop := {
  ex_same : same_but_addrs i i';
  ex_slot : ∀ k, 0 ≤ k < 141 → slot d i k ≠ 0 → slot d' i' k = slot d i k;
  ex_new : ∀ k, 0 ≤ k < 141 → slot d i k = 0 → slot d' i' k ≠ 0 →
    used d sb (slot d' i' k) = false ∧ 0 < slot d' i' k < sb_size sb ∧
    (k ≠ 12 → blk d' (slot d' i' k) = zero_block);
  ex_used : ∀ c, 0 ≤ c < sb_size sb → used d sb c = true → used d' sb c = true;
  ex_blk : ∀ c, 0 ≤ c < sb_size sb → used d sb c = true → c ≠ sb_bmapstart sb →
    c ≠ slot d i 12 → blk d' c = blk d c;
}.

Lemma ext_refl sb d i : ext sb d i d i.
Proof. split; try done. by destruct i. Qed.

Lemma same_but_addrs_trans i i1 i' :
  same_but_addrs i i1 → same_but_addrs i1 i' → same_but_addrs i i'.
Proof. unfold same_but_addrs. intros H1 H2. rewrite H2 at 1. by rewrite H1. Qed.

Lemma filled_ext sb d i d' i' k b :
  file_ok d sb i → filled sb d i d' i' k b → 0 ≤ k < 141 → slot d i k = 0 →
  0 < b < sb_size sb → used d sb b = false → ext sb d i d' i'.
Proof.
  intros Hf [L1 L2 L3 L4 L5 L6 L7 L8] Hk Hs Hbr Hbu. split; try done.
  - intros j Hj Hne. rewrite L4 by done. case_decide; [by subst|done].
  - intros j Hj H0 Hne. rewrite L4 in Hne |- * by done. case_decide; [by subst|done].
  - intros c Hc Hu. rewrite L5 by done. by case_decide.
  - intros c Hc Hu Hm Hi. apply L6; [intros ->; congruence|done|done].
Qed.

Lemma ext_trans sb d i d1 i1 d2 i2 :
  file_ok d sb i → file_ok d1 sb i1 →
  ext sb d i d1 i1 → ext sb d1 i1 d2 i2 → ext sb d i d2 i2.
Proof.
  intros Hf Hf1 [A1 A2 A3 A4 A5] [B1 B2 B3 B4 B5]. split.
  - by eapply same_but_addrs_trans.
  - intros k Hk Hne. rewrite B2, A2 by (rewrite ?A2 by done; done). done.
  - intros k Hk H0 Hne. destruct (decide (slot d1 i1 k = 0)) as [E1|E1].
    + destruct (B3 k Hk E1 Hne) as (Hu & Hr & Hz). split_and!; try lia; [|done].
      destruct (used d sb (slot d2 i2 k)) eqn:E; [|done].
      rewrite A4 in Hu; [done|lia|done].
    + destruct (A3 k Hk H0 E1) as (Hu & Hr & Hz).
      rewrite B2 by done. split_and!; try done; try lia. intros Hk12.
      destruct (fo_slot _ _ _ Hf1 k Hk E1) as (? & Hu1 & Hm & _).
      rewrite B5; [by apply Hz|lia|done|done|].
      intros E. destruct Hk12. by apply (fo_inj _ _ _ Hf1); [| |done|].
  - auto.
  - intros c Hc Hu Hm Hi. rewrite B5; [by apply A5|done|by apply A4|done|].
    intros E. destruct (decide (slot d i 12 = 0)) as [E0|E0].
    + destruct (decide (slot d1 i1 12 = 0)) as [E1|E1].
      * pose proof (fo_slot _ _ _ Hf 12). subst c. rewrite E1 in Hu. rewrite E1 in Hc.
        rewrite E0, E1 in Hi. done.
      * destruct (A3 12 ltac:(lia) E0 E1) as (Hu' & _). congruence.
    + rewrite A2 in E by (done || lia). done.
Qed.

(** The bytes of the file survive. *)
Lemma ext_byte sb d i d' i' o :
  file_ok d sb i → ext sb d i d' i' → 0 ≤ o < 71680 →
  slot d i (bslot (o / 512)) ≠ 0 → file_byte d' i' o = file_byte d i o.
Proof.
  intros Hf He Ho Hs. destruct (bslot_range (o / 512)) as [Hr H12]; [zlia|].
  unfold file_byte. rewrite (ex_slot _ _ _ _ _ He) by done.
  destruct (fo_slot _ _ _ Hf _ Hr Hs) as (? & ? & ? & ?).
  rewrite (ex_blk _ _ _ _ _ He); try done; [lia|].
  intros E. apply H12. apply (fo_inj _ _ _ Hf); try done.
Qed.

(** ** bmap *)

Lemma nfree_alloc d d' sb n b :
  nfree d sb (n + 1) →
  (∀ c, 0 ≤ c < sb_size sb → used d' sb c = if decide (b = c) then true else used d sb c) →
  nfree d' sb n.
Proof.
  intros (F & Hn & Hl & HF) Hu.
  assert (∃ F', NoDup F' ∧ n ≤ Z.of_nat (length F') ∧ ∀ c, c ∈ F' → c ∈ F ∧ c ≠ b)
    as (F' & Hn' & Hl' & HF').
  { destruct (decide (b ∈ F)) as [Hb|Hb].
    - apply elem_of_Permutation in Hb as [F' HP]. exists F'.
      rewrite HP in Hn. apply list.NoDup_cons in Hn as [Hb Hn]. split_and!; [done| |].
      + apply Permutation_length in HP. simpl in HP. lia.
      + intros c Hc. rewrite HP. split; [by right|]. by intros ->.
    - exists F. split_and!; [done|lia|]. intros c Hc. split; [done|]. by intros ->. }
  exists F'. split_and!; [done|done|]. intros c Hc. destruct (HF' c Hc) as [Hc1 Hc2].
  destruct (HF c Hc1) as [? ?]. split; [done|]. rewrite Hu by done. by rewrite decide_False.
Qed.

Lemma balloc_ok dev s n P k :
  fs_base (fs_ld s) (fs_sb s) → nfree (fs_ld s) (fs_sb s) (n + 1) → 0 ≤ n →
  (∀ c, c ∈ ld_held (fs_ld s) → 0 ≤ c < sb_size (fs_sb s) ∧
     used (fs_ld s) (fs_sb s) c = true ∧ c ≠ sb_bmapstart (fs_sb s)) →
  paid (fs_ld s) P (k + 1) → 0 ≤ k → sb_bmapstart (fs_sb s) ∈ P →
  ∃ b, balloc dev s = Ok b (lset l_ld (alloc_blk (fs_sb s) b (fs_ld s)) s) ∧
    0 < b < sb_size (fs_sb s) ∧ used (fs_ld s) (fs_sb s) b = false ∧
    paid (alloc_blk (fs_sb s) b (fs_ld s)) (b :: P) k ∧
    nfree (alloc_blk (fs_sb s) b (fs_ld s)) (fs_sb s) n.
Proof.
  intros Hb Hnf Hn Hheld Hp Hk Hbm. set (sb := fs_sb s) in *. set (d := fs_ld s) in *.
  assert (HBB : ∀ c, 0 ≤ c < sb_size sb → BBLOCK c sb = sb_bmapstart sb).
  { intros c Hc. apply BBLOCK_single; [done|apply Hb]. }
  pose proof (fb_size _ _ Hb).
  destruct (balloc_spec dev s) as [(b & Hbr & Hbu & Hlow & E)|[Hall _]].
  - intros c Hc Hin. fold sb in Hc, Hin. rewrite HBB in Hin by done. by apply Hheld in Hin as (_ & _ & ?).
  - intros c Hc Hu Hin. fold sb d in Hu, Hin. apply Hheld in Hin as (_ & ? & _). congruence.
  - apply (paid_room _ _ _ Hp). lia.
  - intros c data Hc. fold sb in Hc |- *. rewrite HBB by done.
    apply (paid_room _ P (k + 1)); [|lia]. by apply paid_put.
  - fold sb. lia.
  - exists b. fold d sb in Hbr, Hbu, E. split_and!; try done; try lia.
    + destruct (decide (b = 0)) as [->|]; [|lia]. pose proof (fb_boot_used _ _ Hb). congruence.
    + apply paid_put; [|by left]. apply paid_put; [by apply paid_pay|right; by rewrite HBB].
    + eapply nfree_alloc; [done|]. intros c Hc. apply used_alloc_blk; try lia; [apply Hb|].
      rewrite HBB by done. intros ->. pose proof (fb_bmap_used _ _ Hb). congruence.
  - exfalso. destruct Hnf as (F & _ & Hl & HF). destruct F as [|c F]; [simpl in Hl; lia|].
    destruct (HF c) as [Hc Hu]; [by left|]. fold sb d in Hall. by rewrite Hall in Hu.
Qed.

Section file.
Context (ip : nat).

(** The inode being worked on, in a state where nothing else is going on. *)
Definition fstate (s : fsst) : Prop :=
  (ip < length (ic_inode s))%nat ∧ ld_held (fs_ld s) = [] ∧
  fs_base (fs_ld s) (fs_sb s) ∧ file_ok (fs_ld s) (fs_sb s) (ino s ip).

(** Nothing but the disk and the blocks of this inode differs. *)
Definition only_ip (s s' : fsst) : Prop :=
  fs_sb s' = fs_sb s ∧ ic_lock s' = ic_lock s ∧
  length (ic_inode s') = length (ic_inode s) ∧
  (∀ j, j ≠ ip → ino s' j = ino s j) ∧ ld_logsize (fs_ld s') = ld_logsize (fs_ld s) ∧
  ld_outstanding (fs_ld s') = ld_outstanding (fs_ld s).

Lemma bmap_present s bn :
  fstate s → 0 ≤ bn < 140 → slot (fs_ld s) (ino s ip) (bslot bn) ≠ 0 →
  bmap ip bn s = Ok (slot (fs_ld s) (ino s ip) (bslot bn)) s.
Proof.
  intros (Hip & Hh & Hb & Hf) Hbn Hs. unfold bmap. mstep (get_inode_ok s ip Hip).
  unfold bslot, slot, NDIRECT in *. destruct (Z.ltb_spec bn 12) as [Hd|Hd].
  - destruct (Z.ltb_spec bn 13); [|lia].
    destruct (Z.eqb_spec (addr_of (ino s ip) bn) 0); [done|]. done.
  - destruct (Z.ltb_spec (bn + 1) 13); [lia|].
    destruct (Z.ltb_spec (bn - 12) NINDIRECT) as [_|Hx];
      [|unfold NINDIRECT, BSIZE in Hx; change (512 / 4) with 128 in Hx; lia].
    change (512 / 4) with 128 in *.
    destruct (Z.eqb_spec (addr_of (ino s ip) 12) 0); [done|]. mrun.
    assert (Hnh : addr_of (ino s ip) 12 ∉ ld_held (fs_ld s)) by (rewrite Hh; apply not_elem_of_nil).
    mstep (fbread_ok _ _ s Hnh). mstep (fdata_ok _ _).
    change (blk (fs_ld (hold _ s))) with (blk (fs_ld s)).
    replace (bn + 1 - 13) with (bn - 12) in * by lia.
    destruct (Z.eqb_spec (get32 (blk (fs_ld s) (addr_of (ino s ip) 12)) (Z.to_nat (4 * (bn - 12)))) 0);
      [done|]. mrun. by mstep (brelse_hold _ s Hnh).
Qed.

(** The state with another disk and another inode. *)
Definition with_ip (s : fsst) (d : ldisk) (i : inode) : fsst :=
  set_ic (<[ip := i]> (ic_inode s)) (lset l_ld d s).

Lemma ino_with s d i : (ip < length (ic_inode s))%nat → ino (with_ip s d i) ip = i.
Proof. intros H. unfold ino, with_ip. simpl. by rewrite list_lookup_insert_eq. Qed.

Lemma fstate_with s d i :
  (ip < length (ic_inode s))%nat → ld_held d = [] → fs_base d (fs_sb s) →
  file_ok d (fs_sb s) i → fstate (with_ip s d i).
Proof.
  intros Hip Hh Hb Hf. split_and!; try done.
  - unfold with_ip. simpl. by rewrite length_insert.
  - by rewrite ino_with.
Qed.

Lemma only_ip_with s d i :
  ld_logsize d = ld_logsize (fs_ld s) → ld_outstanding d = ld_outstanding (fs_ld s) →
  only_ip s (with_ip s d i).
Proof.
  intros E E'. split_and!; try done.
  - unfold with_ip. simpl. by rewrite length_insert.
  - intros j Hj. unfold ino, with_ip. simpl. by rewrite list_lookup_insert_ne.
Qed.

Lemma only_ip_refl s : only_ip s s.
Proof. done. Qed.
Lemma only_ip_trans s s1 s' : only_ip s s1 → only_ip s1 s' → only_ip s s'.
Proof.
  intros (A1 & A2 & A3 & A4 & A5 & A6) (B1 & B2 & B3 & B4 & B5 & B6).
  split_and!; try congruence. intros j Hj. by rewrite B4, A4.
Qed.

Lemma with_ip_same s d :
  (ip < length (ic_inode s))%nat → lset l_ld d s = with_ip s d (ino s ip).
Proof.
  intros H. unfold with_ip, ino, set_ic. simpl.
  destruct (lookup_lt_is_Some_2 _ _ H) as [i Hi]. rewrite Hi. simpl. by rewrite list_insert_id.
Qed.

Lemma base_held d sb h : fs_base d sb → fs_base (ld_set_held h d) sb.
Proof. by intros []. Qed.
Lemma nfree_held d sb h n : nfree d sb n → nfree (ld_set_held h d) sb n.
Proof. done. Qed.
Lemma paid_held d P k h : paid d P k → paid (ld_set_held h d) P k.
Proof. done. Qed.

(** Whether the indirect block still has to be allocated, or logged. *)
Definition need_ind (d : ldisk) (i : inode) : Z := if decide (slot d i 12 = 0) then 1 else 0.
Definition ind_cost (P : list Z) (d : ldisk) (i : inode) : Z :=
  if decide (slot d i 12 ≠ 0 ∧ slot d i 12 ∈ P) then 0 else 1.

Lemma ind_cost_le P P' d i d' i' :
  (∀ c, c ∈ P → c ∈ P') → (slot d i 12 ≠ 0 → slot d' i' 12 = slot d i 12) →
  ind_cost P' d' i' ≤ ind_cost P d i.
Proof.
  intros HP Hs. unfold ind_cost. repeat case_decide; try lia. exfalso.
  destruct H0 as [Hne Hin]. rewrite Hs in H by done. naive_solver.
Qed.
Lemma need_ind_le d i d' i' :
  (slot d i 12 ≠ 0 → slot d' i' 12 = slot d i 12) → need_ind d' i' ≤ need_ind d i.
Proof. intros Hs. unfold need_ind. repeat case_decide; lia. Qed.

Definition bmap_post (s : fsst) (bn a : Z) (s' : fsst) (P : list Z) (k n : Z) : Prop :=
  fstate s' ∧ only_ip s s' ∧ ext (fs_sb s) (fs_ld s) (ino s ip) (fs_ld s') (ino s' ip) ∧
  slot (fs_ld s') (ino s' ip) (bslot bn) = a ∧ a ≠ 0 ∧
  ∃ P', (∀ c, c ∈ P → c ∈ P') ∧ a ∈ P' ∧
    paid (fs_ld s') P' (k + ind_cost P' (fs_ld s') (ino s' ip)) ∧
    nfree (fs_ld s') (fs_sb s) (n + need_ind (fs_ld s') (ino s' ip)).

Lemma ind_cost_nonneg P d i : 0 ≤ ind_cost P d i ≤ 1.
Proof. unfold ind_cost. case_decide; lia. Qed.
Lemma need_ind_nonneg d i : 0 ≤ need_ind d i ≤ 1.
Proof. unfold need_ind. case_decide; lia. Qed.

(** Filling a direct slot, the indirect block's included. *)
Lemma alloc_direct s k P c n :
  fstate s → 0 ≤ k < 13 → slot (fs_ld s) (ino s ip) k = 0 →
  sb_bmapstart (fs_sb s) ∈ P → paid (fs_ld s) P (c + 1) → 0 ≤ c →
  nfree (fs_ld s) (fs_sb s) (n + 1) → 0 ≤ n →
  ∃ b s', (addr ← balloc (i_dev (ino s ip)); upd_inode ip (set_addr (Z.to_nat k) addr);; mret addr) s
      = Ok b s' ∧ 0 < b ∧
    fstate s' ∧ only_ip s s' ∧ ext (fs_sb s) (fs_ld s) (ino s ip) (fs_ld s') (ino s' ip) ∧
    (∀ j, 0 ≤ j < 141 → slot (fs_ld s') (ino s' ip) j =
       if decide (j = k) then b else slot (fs_ld s) (ino s ip) j) ∧
    paid (fs_ld s') (b :: P) c ∧ nfree (fs_ld s') (fs_sb s) n.
Proof.
  intros (Hip & Hh & Hb & Hf) Hk Hs HP Hpaid Hc Hn Hn0.
  destruct (balloc_ok (i_dev (ino s ip)) s n P c) as (b & E & Hbr & Hbu & Hpd & Hnf); try done.
  { intros x Hx. rewrite Hh in Hx. by apply elem_of_nil in Hx. }
  pose proof (fill_direct _ _ _ k b Hb Hf Hk Hs Hbr Hbu) as Hfill.
  set (d' := alloc_blk _ _ _) in *. set (i' := set_addr _ _ _) in *.
  exists b, (with_ip s d' i'). mstep E.
  split_and!.
  - mstep by (apply upd_inode_ok; done). done.
  - lia.
  - apply fstate_with; try done; [apply Hfill|].
    eapply filled_file_ok; try done. lia.
  - by apply only_ip_with.
  - rewrite ino_with by done. eapply filled_ext; try done; lia.
  - intros j Hj. rewrite ino_with by done. by apply Hfill.
  - done.
  - done.
Qed.

Definition bmap_entry (dev ind bn : Z) : M fsst Z :=
  bp ← fbread dev ind;
  a ← fdata bp;
  let addr := get32 a (Z.to_nat (4 * bn)) in
  addr ← (if addr =? 0 then
            addr ← balloc dev;
            a ← fdata bp;
            fstore bp (splice (Z.to_nat (4 * bn)) (le32 addr) a);;
            flog_write bp;;
            mret addr
          else mret addr);
  fbrelse bp;;
  mret addr.

Lemma bmap_entry_ok dev s bn P c n :
  fstate s → 12 ≤ bn < 140 → slot (fs_ld s) (ino s ip) 12 ≠ 0 →
  slot (fs_ld s) (ino s ip) 12 ∈ P → sb_bmapstart (fs_sb s) ∈ P →
  paid (fs_ld s) P (c + 1) → 0 ≤ c → nfree (fs_ld s) (fs_sb s) (n + 1) → 0 ≤ n →
  ∃ a s', bmap_entry dev (slot (fs_ld s) (ino s ip) 12) (bn - 12) s = Ok a s' ∧
    fstate s' ∧ only_ip s s' ∧ ext (fs_sb s) (fs_ld s) (ino s ip) (fs_ld s') (ino s' ip) ∧
    slot (fs_ld s') (ino s' ip) (bslot bn) = a ∧ a ≠ 0 ∧
    slot (fs_ld s') (ino s' ip) 12 = slot (fs_ld s) (ino s ip) 12 ∧
    paid (fs_ld s') (a :: P) c ∧ nfree (fs_ld s') (fs_sb s) n.
Proof.
  intros (Hip & Hh & Hb & Hf) Hbn H12 HP12 HPbm Hpaid Hc Hn Hn0.
  set (d := fs_ld s) in *. set (i := ino s ip) in *. set (sb := fs_sb s) in *.
  destruct (fo_slot _ _ _ Hf 12 ltac:(lia) H12) as (Hir & Hiu & Him & Hii).
  set (ind := slot d i 12) in *.
  assert (Hbs : bslot bn = bn + 1) by (unfold bslot; destruct (Z.ltb_spec bn 12); lia).
  assert (Hsl : slot d i (bn + 1) = get32 (blk d ind) (Z.to_nat (4 * (bn - 12)))).
  { unfold slot. destruct (Z.ltb_spec (bn + 1) 13); [lia|]. change (addr_of i 12) with ind.
    destruct (Z.eqb_spec ind 0); [done|]. do 2 f_equal. lia. }
  assert (Hnh : ind ∉ ld_held d) by (rewrite Hh; apply not_elem_of_nil).
  unfold bmap_entry. mstep (fbread_ok dev _ s Hnh). mstep (fdata_ok _ _).
  change (blk (fs_ld (hold ind s))) with (blk d). rewrite <-Hsl.
  destruct (Z.eqb_spec (slot d i (bn + 1)) 0) as [E0|E0]; cycle 1.
  { mrun. rewrite (bind_ok _ _ _ _ _ (brelse_hold _ s Hnh)).
    exists (slot d i (bn + 1)), s. rewrite Hbs.
    assert (nfree d sb n).
    { destruct Hn as (F & ? & ? & ?). exists F. split_and!; try done; lia. }
    split_and!; try done; [apply ext_refl|by apply paid_pay]. }
  destruct (balloc_ok dev (hold ind s) n P c) as (b & E & Hbr & Hbu & Hpd & Hnf);
    try done.
  { by apply base_held. }
  { intros x Hx. simpl in Hx. fold d in Hx. rewrite Hh in Hx.
    apply list_elem_of_singleton in Hx as ->. change (fs_sb (hold ind s)) with sb.
    split_and!; [lia|lia|exact Hiu|exact Him]. }
  change (fs_sb (hold ind s)) with sb in *. change (fs_ld (hold ind s)) with (ld_set_held (ind :: ld_held d) d) in *.
  change (used d sb b = false) in Hbu. rewrite bind_assoc. mstep E.
  change (lset l_ld (alloc_blk sb b (ld_set_held (ind :: ld_held d) d)) (hold ind s))
    with (hold ind (lset l_ld (alloc_blk sb b d) s)).
  rewrite bind_assoc. mstep (fdata_ok _ _).
  change (blk (fs_ld (hold ind (lset l_ld (alloc_blk sb b d) s)))) with (blk (alloc_blk sb b d)).
  pose proof (fill_indirect sb d i (bn + 1) b Hb Hf ltac:(lia) E0 H12 Hbr Hbu) as Hfill.
  replace (bn - 12) with (bn + 1 - 13) by lia.
  set (d' := put_entry (alloc_blk sb b d) (slot d i 12) (bn + 1) b) in *.
  exists b, (with_ip s d' i).
  rewrite store_log_hold_assoc by (apply (paid_room _ (b :: P) c); [exact Hpd|lia]).
  mrun. mstep (brelse_hold _ (lset l_ld d' s) Hnh).
  split_and!.
  - rewrite with_ip_same by done. done.
  - apply fstate_with; try done; [apply Hfill|]. eapply filled_file_ok; try done; lia.
  - by apply only_ip_with.
  - rewrite ino_with by done. eapply filled_ext; try done; lia.
  - rewrite ino_with, Hbs by done. change (fs_ld (with_ip s d' i)) with d'.
    rewrite (fl_slot _ _ _ _ _ _ _ Hfill) by lia. by rewrite decide_True.
  - lia.
  - rewrite ino_with by done. change (fs_ld (with_ip s d' i)) with d'.
    rewrite (fl_slot _ _ _ _ _ _ _ Hfill) by lia. by rewrite decide_False by lia.
  - change (fs_ld (with_ip s d' i)) with d'. apply paid_put; [exact Hpd|by right].
  - change (fs_ld (with_ip s d' i)) with d'. destruct Hnf as (F & ? & ? & HF).
    exists F. split_and!; try done. intros x Hx. destruct (HF x Hx) as [? Hux]. split; [done|].
    rewrite (fl_used _ _ _ _ _ _ _ Hfill) by done.
    assert (Ha : used (alloc_blk sb b d) sb x = false) by exact Hux.
    rewrite used_alloc_blk in Ha; try lia; [done|apply Hb|].
    rewrite BBLOCK_single by (done || apply Hb).
    intros ->. pose proof (fb_bmap_used _ _ Hb). congruence.
Qed.

Lemma bmap_spec s bn P k n :
  fstate s → 0 ≤ bn < 140 → sb_bmapstart (fs_sb s) ∈ P →
  paid (fs_ld s) P (k + 1 + ind_cost P (fs_ld s) (ino s ip)) → 0 ≤ k →
  nfree (fs_ld s) (fs_sb s) (n + 1 + need_ind (fs_ld s) (ino s ip)) → 0 ≤ n →
  ∃ a s', bmap ip bn s = Ok a s' ∧ bmap_post s bn a s' P k n.
Proof.
  intros Hst Hbn HP Hpaid Hk Hnf Hn.
  destruct Hst as (Hip & Hh & Hb & Hf). set (d := fs_ld s) in *. set (i := ino s ip) in *.
  pose proof (ind_cost_nonneg P d i). pose proof (need_ind_nonneg d i).
  destruct (decide (slot d i (bslot bn) = 0)) as [E0|E0]; cycle 1.
  { exists (slot d i (bslot bn)), s. split; [by apply bmap_present|].
    split_and!; try done; [apply ext_refl|].
    exists (slot d i (bslot bn) :: P). split_and!; [set_solver|by left| |].
    - apply paid_pay. eapply paid_weaken; [done|done|].
      pose proof (ind_cost_le P (slot d i (bslot bn) :: P) d i d i ltac:(set_solver) ltac:(done)).
      fold d i. lia.
    - destruct Hnf as (F & ? & ? & ?). exists F. split_and!; try done. fold d i. lia. }
  unfold bmap. mstep (get_inode_ok s ip Hip). fold i.
  unfold bslot, NDIRECT in *. destruct (Z.ltb_spec bn 12) as [Hd|Hd].
  - assert (Ea : addr_of i bn = 0).
    { unfold slot in E0. by destruct (Z.ltb_spec bn 13); [|lia]. }
    rewrite Ea. cbn [Z.eqb].
    destruct (alloc_direct s bn P (k + ind_cost P d i) (n + need_ind d i))
      as (b & s' & E & Hb0 & Hst' & Hon & Hext & Hsl & Hpd & Hnf'); try done; try lia.
    { eapply paid_weaken; [done|done|]. fold d. lia. }
    { destruct Hnf as (F & ? & ? & ?). exists F. split_and!; try done. lia. }
    exists b, s'. split; [done|]. fold d i in Hsl.
    assert (E12 : slot (fs_ld s') (ino s' ip) 12 = slot d i 12)
      by (rewrite Hsl by lia; by rewrite decide_False by lia).
    split_and!; try done; try lia.
    { unfold bslot. destruct (Z.ltb_spec bn 12); [|lia]. rewrite Hsl by lia. by rewrite decide_True. }
    exists (b :: P). split_and!; [set_solver|by left| |].
    + eapply paid_weaken; [done|done|].
      pose proof (ind_cost_le P (b :: P) d i (fs_ld s') (ino s' ip) ltac:(set_solver) ltac:(done)). lia.
    + unfold need_ind in *. by rewrite E12.
  - destruct (Z.ltb_spec (bn - 12) NINDIRECT) as [_|Hx];
      [|unfold NINDIRECT, BSIZE in Hx; change (512 / 4) with 128 in Hx; lia].
    change (addr_of i 12) with (slot d i 12).
    assert (∃ P1 s1, (if slot d i 12 =? 0 then addr ← balloc (i_dev i);
         upd_inode ip (set_addr (Z.to_nat 12) addr);; mret addr else mret (slot d i 12)) s =
        Ok (slot (fs_ld s1) (ino s1 ip) 12) s1 ∧ fstate s1 ∧ only_ip s s1 ∧
        ext (fs_sb s) d i (fs_ld s1) (ino s1 ip) ∧ slot (fs_ld s1) (ino s1 ip) 12 ≠ 0 ∧
        slot (fs_ld s1) (ino s1 ip) 12 ∈ P1 ∧ (∀ c, c ∈ P → c ∈ P1) ∧
        paid (fs_ld s1) P1 (k + 1) ∧ nfree (fs_ld s1) (fs_sb s) (n + 1))
      as (P1 & s1 & E1 & Hst1 & Hon1 & Hext1 & H12 & HP12 & HPP1 & Hpd1 & Hnf1).
    { unfold ind_cost, need_ind in *. destruct (Z.eqb_spec (slot d i 12) 0) as [Ez|Ez].
      - rewrite decide_False in Hpaid by naive_solver. rewrite decide_True in Hnf by done.
        destruct (alloc_direct s 12 P (k + 1) (n + 1))
          as (b & s1 & E & Hb0 & Hst' & Hon & Hext & Hsl & Hpd & Hnf'); try done; try lia.
        assert (E12 : slot (fs_ld s1) (ino s1 ip) 12 = b)
          by (rewrite Hsl by lia; by rewrite decide_True).
        exists (b :: P), s1. rewrite E12. split_and!; try done; try lia; [by left|set_solver].
      - rewrite decide_False in Hnf by done. exists (slot d i 12 :: P), s.
        split_and!; try done; [apply ext_refl|by left|set_solver| |].
        + destruct (decide (slot d i 12 ≠ 0 ∧ slot d i 12 ∈ P)) as [[_ Hin]|].
          * eapply paid_weaken; [done|set_solver|lia].
          * apply paid_pay. eapply paid_weaken; [done|done|]. lia.
        + destruct Hnf as (F & ? & ? & ?). exists F. split_and!; try done. lia. }
    mstep E1. fold (bmap_entry (i_dev i) (slot (fs_ld s1) (ino s1 ip) 12) (bn - 12)).
    assert (Esb : fs_sb s1 = fs_sb s) by apply Hon1.
    destruct (bmap_entry_ok (i_dev i) s1 bn P1 k n) as
      (a & s' & E & Hst' & Hon & Hext & Hsl & Ha & Hs12 & Hpd & Hnf'); try done; try lia.
    { rewrite Esb. auto. }
    { by rewrite Esb. }
    exists a, s'. split; [done|]. split_and!; try done.
    + by eapply only_ip_trans.
    + rewrite Esb in Hext. eapply ext_trans; [exact Hf| |done|done].
      destruct Hst1 as (_ & _ & _ & Hf1). by rewrite Esb in Hf1.
    + exists (a :: P1). split_and!; [set_solver|by left| |].
      * eapply paid_weaken; [done|done|]. unfold ind_cost. rewrite decide_True; [lia|].
        rewrite Hs12. split; [done|by right].
      * unfold need_ind. rewrite decide_False by (by rewrite Hs12). rewrite Z.add_0_r.
        by rewrite Esb in Hnf'.
Qed.
End file.
