(* ===== verification/FsRw.v ===== *)
(** * Reading and writing files (fs.c: readi, writei)

    [readi] returns the file's bytes and changes nothing; [writei] replaces
    the bytes it is given, extends the file and touches no other file. *)

From Stdlib Require Import ZArith Lia.
From stdpp Require Import base numbers strings gmap list.
From S2P Require Import Prelude Memory Locks Bytes Disk Fs FsBlocks FsInode FsFile.

(** The [n] bytes of the file at offset [off]. *)
Definition fbytes (d : ldisk) (i : inode) (off : Z) (n : nat) : list Z :=
  (λ j, file_byte d i (off + Z.of_nat j)) <$> seq 0 n.

Lemma length_fbytes d i off n : length (fbytes d i off n) = n.
Proof. unfold fbytes. by rewrite length_fmap, length_seq. Qed.

Lemma lookup_fbytes d i off n j :
  (j < n)%nat → fbytes d i off n !! j = Some (file_byte d i (off + Z.of_nat j)).
Proof. intros H. unfold fbytes. by rewrite list_lookup_fmap, lookup_seq_lt. Qed.

Lemma fbytes_app d i off m n :
  fbytes d i off (m + n) = fbytes d i off m ++ fbytes d i (off + Z.of_nat m) n.
Proof.
  unfold fbytes. rewrite seq_app, fmap_app. f_equal. apply list_eq. intros j.
  rewrite !list_lookup_fmap. destruct (decide (j < n)%nat).
  - rewrite !lookup_seq_lt by done. simpl. do 2 f_equal. lia.
  - by rewrite !lookup_seq_ge by lia.
Qed.

Lemma block_slice d i sb off m :
  fs_base d sb → 0 ≤ off → (Z.to_nat (off mod 512) + m ≤ 512)%nat →
  slice (Z.to_nat (off mod 512)) m (blk d (slot d i (bslot (off / 512)))) = fbytes d i off m.
Proof.
  intros Hb Ho Hm. apply list_eq. intros j. destruct (decide (j < m)%nat) as [Hj|Hj].
  - rewrite lookup_slice, lookup_fbytes by done. unfold file_byte, byte_at.
    assert ((off + Z.of_nat j) / 512 = off / 512) as -> by zlia.
    assert (Z.to_nat ((off + Z.of_nat j) mod 512) = (Z.to_nat (off mod 512) + j)%nat) as -> by zlia.
    destruct (lookup_lt_is_Some_2 (blk d (slot d i (bslot (off / 512))))
      (Z.to_nat (off mod 512) + j)) as [x ->]; [|done].
    rewrite (fb_len _ _ Hb). lia.
  - rewrite !lookup_ge_None_2; [done| |].
    + rewrite length_fbytes. lia.
    + unfold slice. rewrite length_take. lia.
Qed.

Section rw.
Context (ip : nat).

(** ** readi *)

Lemma readi_loop_spec fuel off tot n s :
  fstate ip s → 0 ≤ off → 0 ≤ tot ≤ n → off + (n - tot) ≤ i_size (ino s ip) →
  (1 ≤ fuel)%nat → (tot < n → (Z.to_nat ((off mod 512 + (n - tot) + 511) / 512) < fuel)%nat) →
  readi_loop fuel ip off tot n s =
    Ok (fbytes (fs_ld s) (ino s ip) off (Z.to_nat (n - tot))) s.
Proof.
  intros Hst. revert off tot. induction fuel as [|fuel IH]; intros off tot Ho Ht Hs Hf1 Hf; [lia|].
  cbn [readi_loop]. destruct (Z.ltb_spec tot n) as [Hlt|Hge]; cycle 1.
  { replace (n - tot) with 0 by lia. done. }
  pose proof Hst as (Hip & Hh & Hb & Hfo). pose proof (fo_size _ _ _ Hfo) as Hsz.
  mstep (get_inode_ok s ip Hip). unfold BSIZE.
  assert (Hbn : 0 ≤ off / 512 < 140) by zlia.
  assert (Hne : slot (fs_ld s) (ino s ip) (bslot (off / 512)) ≠ 0).
  { apply (fo_full _ _ _ Hfo); zlia. }
  mstep (bmap_present ip s _ Hst Hbn Hne).
  set (a := slot (fs_ld s) (ino s ip) (bslot (off / 512))) in *.
  assert (Hnh : a ∉ ld_held (fs_ld s)) by (rewrite Hh; apply not_elem_of_nil).
  mstep (fbread_ok _ _ s Hnh). mstep (fdata_ok _ _). mstep (brelse_hold _ s Hnh).
  set (m := Z.min (n - tot) (512 - off mod 512)).
  assert (Hm : 0 < m ≤ n - tot ∧ off mod 512 + m ≤ 512 ∧
    (m = n - tot ∨ off mod 512 + m = 512)) by (unfold m; zlia).
  rewrite (u32_small (off + m)) by lia.
  assert (Efuel : (1 ≤ fuel)%nat ∧
    (tot + m < n → (Z.to_nat (((off + m) mod 512 + (n - (tot + m)) + 511) / 512) < fuel)%nat)).
  { specialize (Hf Hlt). split; [zlia|]. intros ?. destruct Hm as (? & ? & [E|E]); [lia|zlia]. }
  mstep (IH (off + m) (tot + m) ltac:(lia) ltac:(lia) ltac:(lia) (proj1 Efuel) (proj2 Efuel)). mrun.
  change (blk (fs_ld (hold a s))) with (blk (fs_ld s)). unfold a.
  rewrite (block_slice _ _ (fs_sb s)) by (try done; zlia).
  unfold mret, M_ret. f_equal.
  replace (Z.to_nat (n - tot)) with (Z.to_nat m + Z.to_nat (n - (tot + m)))%nat by lia.
  rewrite fbytes_app. by rewrite Z2Nat.id by lia.
Qed.

Lemma readi_spec dev_read s off n :
  fstate ip s → i_type (ino s ip) ≠ T_DEV → 0 ≤ off < 4294967296 → 0 ≤ n < 4294967296 →
  readi dev_read ip off n s =
    if (off >? i_size (ino s ip)) || (4294967296 <=? off + n) then Ok (-1, []) s
    else let n' := Z.min n (i_size (ino s ip) - off) in
      Ok (n', fbytes (fs_ld s) (ino s ip) off (Z.to_nat n')) s.
Proof.
  intros Hst Ht Ho Hn. pose proof Hst as (Hip & Hh & Hb & Hfo).
  pose proof (fo_size _ _ _ Hfo) as Hsz.
  unfold readi. mstep (get_inode_ok s ip Hip).
  destruct (Z.eqb_spec (i_type (ino s ip)) T_DEV); [done|].
  destruct (Z.gtb_spec off (i_size (ino s ip))) as [|Hle]; [done|]. cbn [orb].
  destruct (Z.leb_spec 4294967296 (off + n)) as [Hov|Hno].
  { destruct (Z.ltb_spec (u32 (off + n)) off); [done|]. exfalso. unfold u32 in *. zlia. }
  rewrite !u32_small by lia. destruct (Z.ltb_spec (off + n) off); [lia|].
  assert (En : (if off + n >? i_size (ino s ip) then i_size (ino s ip) - off else n) =
    Z.min n (i_size (ino s ip) - off)) by (destruct (Z.gtb_spec (off + n) (i_size (ino s ip))); lia).
  rewrite En. set (n' := Z.min n _). cbv zeta.
  mstep by (apply readi_loop_spec; [done|lia|lia|lia|lia|unfold BSIZE; zlia]).
  by rewrite Z.sub_0_r.
Qed.

(** ** writei *)

(** Overwriting part of one block of the file. *)
Lemma write_block sb d i off bytes :
  fs_base d sb → file_ok d sb i → 0 ≤ off < 71680 →
  slot d i (bslot (off / 512)) ≠ 0 → off mod 512 + Z.of_nat (length bytes) ≤ 512 →
  Forall is_byte bytes →
  let a := slot d i (bslot (off / 512)) in
  let d' := put_blk a (splice (Z.to_nat (off mod 512)) bytes (blk d a)) d in
  fs_base d' sb ∧ file_ok d' sb i ∧ (∀ k, 0 ≤ k < 141 → slot d' i k = slot d i k) ∧
  (∀ o, 0 ≤ o < 71680 → file_byte d' i o =
     if decide (off ≤ o < off + Z.of_nat (length bytes))
     then byte_at bytes (Z.to_nat (o - off)) else file_byte d i o) ∧
  (∀ c, c ≠ a → blk d' c = blk d c) ∧
  (∀ c, 0 ≤ c < sb_size sb → used d' sb c = used d sb c).
Proof.
  intros Hb Hf Ho Hne Hlen Hby a d'.
  destruct (bslot_range (off / 512)) as [Hr H12]; [zlia|].
  destruct (fo_slot _ _ _ Hf _ Hr Hne) as (Har & Hau & Ham & Hai). fold a in Hne, Har, Hau, Ham, Hai.
  assert (Hother : ∀ c, c ≠ a → blk d' c = blk d c).
  { intros c Hc. unfold d'. by rewrite blk_put, decide_False. }
  assert (Ha : blk d' a = splice (Z.to_nat (off mod 512)) bytes (blk d a)).
  { unfold d'. by rewrite blk_put, decide_True. }
  pose proof (fb_len _ _ Hb a) as Hla.
  assert (Hu : ∀ c, 0 ≤ c < sb_size sb → used d' sb c = used d sb c).
  { intros c Hc. unfold used. rewrite Hother; [done|].
    rewrite BBLOCK_single by (done || apply Hb). done. }
  assert (Hslot : ∀ k, 0 ≤ k < 141 → slot d' i k = slot d i k).
  { intros k Hk. unfold slot. destruct (Z.ltb_spec k 13); [done|].
    destruct (Z.eqb_spec (addr_of i 12) 0) as [|Hn]; [done|]. rewrite Hother; [done|].
    intros E. apply H12. symmetry. apply (fo_inj _ _ _ Hf); try lia; [done|exact E]. }
  split_and!; try done.
  - destruct Hb as [B1 B2 B3 B4 B5 B6]. split; try done; rewrite ?Hu by lia; try done.
    + intros c. destruct (decide (c = a)) as [->|]; [|by rewrite Hother].
      rewrite Ha, length_splice; [done|]. rewrite Hla. zlia.
    + intros c. destruct (decide (c = a)) as [->|]; [|by rewrite Hother].
      rewrite Ha. by apply Forall_splice.
  - destruct Hf as [F1 F2 F3 (F4 & F5 & F6) F7 F8 F9 F10]. split; try done.
    + rewrite Hu by lia. done.
    + intros k Hk. rewrite Hslot by done. intros Hs. destruct (F7 k Hk Hs) as (? & ? & ? & ?).
      split_and!; try done; try lia. by rewrite Hu by lia.
    + intros k k' Hk Hk'. rewrite !Hslot by done. by apply F8.
    + intros bn Hbn Hsz. rewrite Hslot; [by apply F10|]. apply bslot_range. lia.
  - intros o Ho'. unfold file_byte.
    destruct (bslot_range (o / 512)) as [Hr' _]; [zlia|]. rewrite Hslot by done.
    destruct (decide (o / 512 = off / 512)) as [E|E].
    + rewrite E. fold a. rewrite Ha, byte_at_splice by (rewrite Hla; zlia).
      case_decide as C1; case_decide as C2; try done; try (exfalso; zlia).
      f_equal. zlia.
    + rewrite decide_False by zlia. f_equal. apply Hother. intros Ea.
      apply E, bslot_inj. symmetry. apply (fo_inj _ _ _ Hf); done.
Qed.

(** Number of blocks the bytes [off .. off+n) lie in. *)
Definition nblk (off n : Z) : Z := if 0 <? n then (off mod 512 + n + 511) / 512 else 0.

(** [src] has been written at [off]. *)
Record wrote (s s' : fsst) (off : Z) (src : list Z) : Prop := {
  wr_st : fstate ip s';
  wr_on : only_ip ip s s';
  wr_same : same_but_addrs (ino s ip) (ino s' ip);
  wr_slot : ∀ k, 0 ≤ k < 141 → slot (fs_ld s) (ino s ip) k ≠ 0 →
    slot (fs_ld s') (ino s' ip) k = slot (fs_ld s) (ino s ip) k;
  wr_fresh : ∀ k, 0 ≤ k < 141 → slot (fs_ld s) (ino s ip) k = 0 →
    slot (fs_ld s') (ino s' ip) k ≠ 0 →
    used (fs_ld s) (fs_sb s) (slot (fs_ld s') (ino s' ip) k) = false;
  wr_alloc : ∀ o, off ≤ o < off + Z.of_nat (length src) →
    slot (fs_ld s') (ino s' ip) (bslot (o / 512)) ≠ 0;
  wr_new : ∀ o, off ≤ o < off + Z.of_nat (length src) →
    file_byte (fs_ld s') (ino s' ip) o = byte_at src (Z.to_nat (o - off));
  wr_old : ∀ o, 0 ≤ o < 71680 → slot (fs_ld s) (ino s ip) (bslot (o / 512)) ≠ 0 →
    ¬ (off ≤ o < off + Z.of_nat (length src)) →
    file_byte (fs_ld s') (ino s' ip) o = file_byte (fs_ld s) (ino s ip) o;
  wr_used : ∀ c, 0 ≤ c < sb_size (fs_sb s) → used (fs_ld s) (fs_sb s) c = true →
    used (fs_ld s') (fs_sb s) c = true;
  wr_frame : ∀ c, 0 ≤ c < sb_size (fs_sb s) → used (fs_ld s) (fs_sb s) c = true →
    c ≠ sb_bmapstart (fs_sb s) →
    (∀ k, 0 ≤ k < 141 → slot (fs_ld s) (ino s ip) k ≠ c) →
    blk (fs_ld s') c = blk (fs_ld s) c;
  wr_noalloc : (∀ o, off ≤ o < off + Z.of_nat (length src) →
    slot (fs_ld s) (ino s ip) (bslot (o / 512)) ≠ 0) → ino s' ip = ino s ip;
}.

Lemma wrote_nil s off : fstate ip s → wrote s s off [].
Proof.
  intros Hst. split; try done; simpl; try (intros; lia).
  - by destruct (ino s ip).
Qed.

Lemma wrote_app s s1 s' off src src' :
  0 ≤ off → off + Z.of_nat (length src) + Z.of_nat (length src') ≤ 71680 →
  wrote s s1 off src → wrote s1 s' (off + Z.of_nat (length src)) src' →
  wrote s s' off (src ++ src').
Proof.
  intros Ho Hmax A B. assert (Esb : fs_sb s1 = fs_sb s) by apply (wr_on _ _ _ _ A).
  assert (Hpos : ∀ k, 0 ≤ k < 141 → slot (fs_ld s1) (ino s1 ip) k ≠ 0 →
    slot (fs_ld s') (ino s' ip) k = slot (fs_ld s1) (ino s1 ip) k) by apply B.
  assert (Hr : ∀ o, 0 ≤ o < 71680 → 0 ≤ bslot (o / 512) < 141).
  { intros o Ho'. apply bslot_range. zlia. }
  split.
  - apply B.
  - eapply only_ip_trans; [apply A|apply B].
  - eapply same_but_addrs_trans; [apply A|apply B].
  - intros k Hk Hne. pose proof (wr_slot _ _ _ _ A k Hk Hne) as E1.
    rewrite Hpos; [done|done|by rewrite E1].
  - intros k Hk H0 Hne. destruct (decide (slot (fs_ld s1) (ino s1 ip) k = 0)) as [E1|E1].
    + pose proof (wr_fresh _ _ _ _ B k Hk E1 Hne) as Hu. rewrite Esb in Hu.
      destruct (used (fs_ld s) (fs_sb s) _) eqn:E; [|done].
      rewrite (wr_used _ _ _ _ A) in Hu; [done| |done].
      destruct (wr_st _ _ _ _ B) as (_ & _ & _ & Hf').
      destruct (fo_slot _ _ _ Hf' k Hk Hne) as [Hr' _].
      assert (fs_sb s' = fs_sb s1) as E' by apply (wr_on _ _ _ _ B). rewrite E', Esb in Hr'. lia.
    + rewrite Hpos by done. by apply (wr_fresh _ _ _ _ A).
  - intros o. rewrite length_app. intros Hor.
    destruct (decide (o < off + Z.of_nat (length src))).
    + rewrite Hpos; [by apply (wr_alloc _ _ _ _ A); lia|apply Hr; lia|].
      apply (wr_alloc _ _ _ _ A). lia.
    + apply (wr_alloc _ _ _ _ B). lia.
  - intros o. rewrite length_app. intros Hor.
    destruct (decide (o < off + Z.of_nat (length src))).
    + rewrite (wr_old _ _ _ _ B); [|lia|apply (wr_alloc _ _ _ _ A); lia|lia].
      rewrite (wr_new _ _ _ _ A) by lia. by rewrite byte_at_app_l by lia.
    + rewrite (wr_new _ _ _ _ B) by lia. rewrite byte_at_app_r by lia. f_equal. lia.
  - intros o Ho' Hne. rewrite length_app. intros Hor.
    rewrite (wr_old _ _ _ _ B); [|done| |lia].
    + apply (wr_old _ _ _ _ A); [done|done|lia].
    + by rewrite (wr_slot _ _ _ _ A) by auto.
  - intros c Hc Hu. pose proof (wr_used _ _ _ _ B c) as H'. rewrite Esb in H'.
    apply H'; [done|]. by apply (wr_used _ _ _ _ A).
  - intros c Hc Hu Hm Hs. rewrite (wr_frame _ _ _ _ B); rewrite ?Esb; try done.
    + by apply (wr_frame _ _ _ _ A).
    + by apply (wr_used _ _ _ _ A).
    + intros k Hk E. destruct (decide (slot (fs_ld s) (ino s ip) k = 0)) as [E0|E0].
      * destruct (decide (c = 0)) as [->|Hc0]; [by destruct (Hs k Hk)|].
        pose proof (wr_fresh _ _ _ _ A k Hk E0) as Hfr. rewrite E in Hfr.
        rewrite Hfr in Hu by done. done.
      * rewrite (wr_slot _ _ _ _ A) in E by done. by destruct (Hs k Hk).
  - intros Hall.
    assert (E1 : ino s1 ip = ino s ip).
    { apply (wr_noalloc _ _ _ _ A). intros o Ho'. apply Hall. rewrite length_app. lia. }
    rewrite <-E1. apply (wr_noalloc _ _ _ _ B). intros o Ho'.
    rewrite (wr_slot _ _ _ _ A); [|apply Hr; lia|]; apply Hall; rewrite length_app; lia.
Qed.

(** The first iteration's block is mapped: the file may have grown blocks. *)
Lemma ext_wrote s s1 s' off bytes :
  fstate ip s → fstate ip s1 → only_ip ip s s1 →
  ext (fs_sb s) (fs_ld s) (ino s ip) (fs_ld s1) (ino s1 ip) →
  slot (fs_ld s1) (ino s1 ip) (bslot (off / 512)) ≠ 0 →
  0 ≤ off → off + Z.of_nat (length bytes) ≤ 71680 → (0 < length bytes)%nat →
  off mod 512 + Z.of_nat (length bytes) ≤ 512 → Forall is_byte bytes →
  (slot (fs_ld s) (ino s ip) (bslot (off / 512)) ≠ 0 → s1 = s) →
  s' = lset l_ld (put_blk (slot (fs_ld s1) (ino s1 ip) (bslot (off / 512)))
     (splice (Z.to_nat (off mod 512)) bytes
        (blk (fs_ld s1) (slot (fs_ld s1) (ino s1 ip) (bslot (off / 512))))) (fs_ld s1)) s1 →
  wrote s s' off bytes.
Proof.
  intros (Hip & Hh & Hb & Hf) (Hip1 & Hh1 & Hb1 & Hf1) Hon He Hne Ho Hmax Hlen Hfit Hby Hpres ->.
  assert (Esb : fs_sb s1 = fs_sb s) by apply Hon. rewrite Esb in Hb1, Hf1.
  destruct (write_block (fs_sb s) (fs_ld s1) (ino s1 ip) off bytes)
    as (Hb2 & Hf2 & Hsl2 & Hby2 & Hoth & Hu2); try done; [lia|].
  destruct (bslot_range (off / 512)) as [Hr H12]; [zlia|].
  destruct (fo_slot _ _ _ Hf1 _ Hr Hne) as (Har & Hau & Ham & Hai).
  set (a := slot (fs_ld s1) (ino s1 ip) (bslot (off / 512))) in *.
  set (d2 := put_blk _ _ _) in *.
  change (ino (lset l_ld d2 s1) ip) with (ino s1 ip). change (fs_ld (lset l_ld d2 s1)) with d2.
  assert (Hblk : ∀ o, off ≤ o < off + Z.of_nat (length bytes) → o / 512 = off / 512) by (intros; zlia).
  split.
  - split_and!; try done; change (fs_sb (lset l_ld d2 s1)) with (fs_sb s1); by rewrite Esb.
  - eapply only_ip_trans; [done|]. split_and!; try done.
  - apply He.
  - intros k Hk H0. rewrite Hsl2 by done. by apply (ex_slot _ _ _ _ _ He).
  - intros k Hk H0 Hn. rewrite Hsl2 in Hn |- * by done. by apply (ex_new _ _ _ _ _ He).
  - intros o Ho'. rewrite Hblk by done. rewrite Hsl2 by done. done.
  - intros o Ho'. rewrite Hby2 by lia. by rewrite decide_True.
  - intros o Ho' Hn Hnr. rewrite Hby2 by lia. rewrite decide_False by done.
    apply (ext_byte (fs_sb s)); done.
  - intros c Hc Hu. rewrite Hu2 by done. by apply (ex_used _ _ _ _ _ He).
  - intros c Hc Hu Hm Hs. rewrite Hoth.
    + apply (ex_blk _ _ _ _ _ He); try done. intros E. by apply (Hs 12); [lia|].
    + intros ->. destruct (decide (slot (fs_ld s) (ino s ip) (bslot (off / 512)) = 0)) as [E0|E0].
      * destruct (ex_new _ _ _ _ _ He _ Hr E0 Hne) as (Hu' & _). fold a in Hu'. congruence.
      * apply (Hs _ Hr). symmetry. by apply (ex_slot _ _ _ _ _ He).
  - intros Hall. rewrite Hpres; [done|]. apply (Hall off). lia.
Qed.

Lemma write_step s off bytes P k n :
  fstate ip s → 0 ≤ off → off + Z.of_nat (length bytes) ≤ 71680 → (0 < length bytes)%nat →
  off mod 512 + Z.of_nat (length bytes) ≤ 512 → Forall is_byte bytes →
  sb_bmapstart (fs_sb s) ∈ P →
  paid (fs_ld s) P (k + 1 + ind_cost P (fs_ld s) (ino s ip)) → 0 ≤ k →
  nfree (fs_ld s) (fs_sb s) (n + 1 + need_ind (fs_ld s) (ino s ip)) → 0 ≤ n →
  ∃ a s1 s', bmap ip (off / 512) s = Ok a s1 ∧ (a ∉ ld_held (fs_ld s1)) ∧ room (fs_ld s1) 1 ∧
    s' = lset l_ld (put_blk a (splice (Z.to_nat (off mod 512)) bytes (blk (fs_ld s1) a))
           (fs_ld s1)) s1 ∧
    wrote s s' off bytes ∧
    ∃ P', (∀ c, c ∈ P → c ∈ P') ∧ paid (fs_ld s') P' (k + ind_cost P' (fs_ld s') (ino s' ip)) ∧
      nfree (fs_ld s') (fs_sb s) (n + need_ind (fs_ld s') (ino s' ip)).
Proof.
  intros Hst Ho Hmax Hlen Hfit Hby HP Hpaid Hk Hnf Hn.
  assert (Hbn : 0 ≤ off / 512 < 140) by zlia.
  destruct (bmap_spec ip s (off / 512) P k n) as (a & s1 & E & Hst1 & Hon & He & Hsl & Ha & P' & HPP & HaP & Hpd & Hn1); try done.
  eexists a, s1, _. split_and!; [done| | |done| |].
  - destruct Hst1 as (_ & Hh & _). rewrite Hh. apply not_elem_of_nil.
  - eapply paid_room; [done|]. pose proof (ind_cost_nonneg P' (fs_ld s1) (ino s1 ip)). lia.
  - eapply (ext_wrote s s1); try done; rewrite ?Hsl; try done.
    intros Hne. rewrite (bmap_present ip s (off / 512) Hst Hbn Hne) in E. congruence.
  - exists P'. destruct Hst1 as (Hip1 & Hh1 & Hb1 & Hf1).
    assert (Esb : fs_sb s1 = fs_sb s) by apply Hon. rewrite Esb in Hb1, Hf1.
    destruct (write_block (fs_sb s) (fs_ld s1) (ino s1 ip) off bytes)
      as (Hb2 & Hf2 & Hsl2 & Hby2 & Hoth & Hu2); rewrite ?Hsl; try done; [lia|].
    rewrite Hsl in Hsl2, Hu2. set (d2 := put_blk _ _ _) in *.
    change (ino (lset l_ld d2 s1) ip) with (ino s1 ip). change (fs_ld (lset l_ld d2 s1)) with d2.
    unfold ind_cost, need_ind in *. rewrite Hsl2 by lia. split_and!; [done|by apply paid_put|].
    destruct Hn1 as (F & ? & ? & HF). exists F. split_and!; try done. intros c Hc.
    destruct (HF c Hc). rewrite Hu2 by done. done.
Qed.

Lemma nblk_step off n m :
  0 < m ≤ n → off mod 512 + m ≤ 512 → m = n ∨ off mod 512 + m = 512 →
  nblk off n = nblk (off + m) (n - m) + 1.
Proof.
  intros Hm Hf Hc. unfold nblk. destruct (Z.ltb_spec 0 n); [|lia].
  destruct (Z.ltb_spec 0 (n - m)); zlia.
Qed.
Lemma nblk_nonneg off n : 0 ≤ nblk off n.
Proof. unfold nblk. destruct (Z.ltb_spec 0 n); zlia. Qed.

Lemma writei_loop_spec q fuel src off tot n s P k :
  fstate ip s → 0 ≤ off → 0 ≤ tot ≤ n → Z.of_nat (length src) = n - tot →
  off + (n - tot) ≤ 71680 → Forall is_byte src →
  (1 ≤ fuel)%nat → (tot < n → (Z.to_nat (nblk off (n - tot)) < fuel)%nat) →
  sb_bmapstart (fs_sb s) ∈ P → 0 ≤ k →
  paid (fs_ld s) P (k + nblk off (n - tot) + ind_cost P (fs_ld s) (ino s ip)) →
  nfree (fs_ld s) (fs_sb s) (q + nblk off (n - tot) + need_ind (fs_ld s) (ino s ip)) → 0 ≤ q →
  ∃ s', writei_loop fuel ip src off tot n s = Ok (off + (n - tot)) s' ∧ wrote s s' off src ∧
    nfree (fs_ld s') (fs_sb s) q ∧
    ∃ P', (∀ c, c ∈ P → c ∈ P') ∧ paid (fs_ld s') P' k.
Proof.
  intros Hst Ho Ht Hlen Hmax Hby Hf1 Hf HP Hk Hpaid Hnf Hq.
  revert src off tot s P Hst Ho Ht Hlen Hmax Hby Hf1 Hf HP Hpaid Hnf. induction fuel as [|fuel IH];
    intros src off tot s P Hst Ho Ht Hlen Hmax Hby Hf1 Hf HP Hpaid Hnf; [lia|].
  cbn [writei_loop]. destruct (Z.ltb_spec tot n) as [Hlt|Hge]; cycle 1.
  { assert (src = []) as -> by (apply length_zero_iff_nil; lia).
    exists s. replace (off + (n - tot)) with off by lia. split; [done|]. split; [by apply wrote_nil|]. split.
    { pose proof (need_ind_nonneg (fs_ld s) (ino s ip)). pose proof (nblk_nonneg off (n - tot)).
      destruct Hnf as (F & ? & ? & ?). exists F. split_and!; try done. lia. }
    exists P. split; [done|]. pose proof (ind_cost_nonneg P (fs_ld s) (ino s ip)).
    pose proof (nblk_nonneg off (n - tot)).
    eapply paid_weaken; [done|done|]. lia. }
  pose proof Hst as (Hip & _). mstep (get_inode_ok s ip Hip). unfold BSIZE.
  set (m := Z.min (n - tot) (512 - off mod 512)).
  assert (Hm : 0 < m ≤ n - tot ∧ off mod 512 + m ≤ 512 ∧
    (m = n - tot ∨ off mod 512 + m = 512)) by (unfold m; zlia).
  assert (Hnb : nblk off (n - tot) = nblk (off + m) (n - (tot + m)) + 1).
  { rewrite (nblk_step off (n - tot) m) by lia. do 2 f_equal. lia. }
  set (bytes := take (Z.to_nat m) src).
  assert (Hbl : length bytes = Z.to_nat m) by (unfold bytes; rewrite length_take; lia).
  pose proof (nblk_nonneg (off + m) (n - (tot + m))).
  destruct (write_step s off bytes P (k + nblk (off + m) (n - (tot + m))) (q + nblk (off + m) (n - (tot + m))))
    as (a & s1 & s2 & Ebm & Hnh & Hroom & Es2 & Hw & P1 & HP1 & Hpd1 & Hnf1); try done; try lia.
  { by apply Forall_take. }
  { eapply paid_weaken; [done|done|]. lia. }
  { rewrite Hnb in Hnf. by rewrite <-!Z.add_assoc in *. }
  mstep Ebm. mstep (fbread_ok _ _ s1 Hnh). mstep (fdata_ok _ _).
  change (blk (fs_ld (hold a s1))) with (blk (fs_ld s1)).
  rewrite update_hold_then by done. rewrite <-Es2.
  rewrite (u32_small (off + m)) by lia.
  assert (Esb : fs_sb s2 = fs_sb s) by apply (wr_on _ _ _ _ Hw).
  destruct (IH (drop (Z.to_nat m) src) (off + m) (tot + m) s2 P1)
    as (s' & E' & Hw' & Hnf' & P' & HP' & Hpd'); try done; try lia.
  - apply Hw.
  - rewrite length_drop. lia.
  - by apply Forall_drop.
  - rewrite Esb. auto.
  - by rewrite Esb.
  - exists s'. replace (off + (n - tot)) with (off + m + (n - (tot + m))) by lia.
    split; [done|]. split; [|split; [by rewrite Esb in Hnf'|exists P'; split; [auto|done]]].
    rewrite <-(take_drop (Z.to_nat m) src). fold bytes.
    eapply wrote_app; [done| |exact Hw|]; rewrite Hbl, Z2Nat.id by lia; [rewrite length_drop; lia|done].
Qed.

(** Rewriting the inode on disk touches no block of the file. *)
Lemma put_inode_file sb d i di :
  fs_base d sb → file_ok d sb i → length (d_addrs di) = 13%nat →
  let d' := put_inode sb (i_inum i) di d in
  fs_base d' sb ∧ (∀ k, 0 ≤ k < 141 → slot d' i k = slot d i k) ∧
  (∀ o, 0 ≤ o < 71680 → file_byte d' i o = file_byte d i o ∨ slot d i (bslot (o / 512)) = 0) ∧
  (∀ c, c ≠ IBLOCK (i_inum i) sb → blk d' c = blk d c) ∧
  (∀ c, 0 ≤ c < sb_size sb → used d' sb c = used d sb c).
Proof.
  intros Hb Hf Hl d'. destruct (fo_iblock _ _ _ Hf) as (Hir & Hiu & Him).
  assert (Hoth : ∀ c, c ≠ IBLOCK (i_inum i) sb → blk d' c = blk d c).
  { intros c Hc. unfold d', put_inode. by rewrite blk_put, decide_False. }
  assert (Hu : ∀ c, 0 ≤ c < sb_size sb → used d' sb c = used d sb c).
  { intros c Hc. unfold used. rewrite Hoth; [done|].
    rewrite BBLOCK_single by (done || apply Hb). done. }
  assert (Hslot : ∀ k, 0 ≤ k < 141 → slot d' i k = slot d i k).
  { intros k Hk. unfold slot. destruct (Z.ltb_spec k 13); [done|].
    destruct (Z.eqb_spec (addr_of i 12) 0) as [|Hn]; [done|]. rewrite Hoth; [done|].
    by apply (fo_slot _ _ _ Hf 12). }
  pose proof (ioff_bound (i_inum i) (fo_inum _ _ _ Hf)).
  split_and!; try done.
  - destruct Hb as [B1 B2 B3 B4 B5 B6]. split; try done; rewrite ?Hu by lia; try done.
    + intros c. unfold d', put_inode. rewrite blk_put. case_decide; [|done].
      rewrite length_splice; [done|]. rewrite length_enc_dinode, B3 by done. lia.
    + intros c. unfold d', put_inode. rewrite blk_put. case_decide; [|done].
      apply Forall_splice; [apply enc_dinode_bytes|done].
  - intros o Ho. destruct (decide (slot d i (bslot (o / 512)) = 0)) as [|Hn]; [by right|left].
    destruct (bslot_range (o / 512)) as [Hr _]; [zlia|].
    unfold file_byte. rewrite Hslot by done. f_equal. apply Hoth. by apply (fo_slot _ _ _ Hf).
Qed.

(** The in-memory inode agrees with the one on disk. *)
Definition synced (s : fsst) : Prop :=
  disk_inode (fs_ld s) (fs_sb s) (i_inum (ino s ip)) = disk_fields (ino s ip).

Record writei_post (s : fsst) (off : Z) (src : list Z) (s' : fsst) : Prop := {
  wp_st : fstate ip s';
  wp_on : only_ip ip s s';
  wp_inode : ino s' ip = Inode (i_dev (ino s ip)) (i_inum (ino s ip)) (i_ref (ino s ip))
    (i_lock (ino s ip)) (i_valid (ino s ip)) (i_type (ino s ip)) (i_major (ino s ip))
    (i_minor (ino s ip)) (i_nlink (ino s ip))
    (Z.max (i_size (ino s ip)) (off + Z.of_nat (length src))) (i_addrs (ino s' ip));
  wp_bytes : ∀ o, 0 ≤ o < i_size (ino s' ip) → file_byte (fs_ld s') (ino s' ip) o =
    if decide (off ≤ o < off + Z.of_nat (length src))
    then byte_at src (Z.to_nat (o - off)) else file_byte (fs_ld s) (ino s ip) o;
  wp_used : ∀ c, 0 ≤ c < sb_size (fs_sb s) → used (fs_ld s) (fs_sb s) c = true →
    used (fs_ld s') (fs_sb s) c = true;
  wp_frame : ∀ c, 0 ≤ c < sb_size (fs_sb s) → used (fs_ld s) (fs_sb s) c = true →
    c ≠ sb_bmapstart (fs_sb s) → c ≠ IBLOCK (i_inum (ino s ip)) (fs_sb s) →
    (∀ k, 0 ≤ k < 141 → slot (fs_ld s) (ino s ip) k ≠ c) →
    blk (fs_ld s') c = blk (fs_ld s) c;
  wp_inodes : ∀ j, 0 ≤ j → j ≠ i_inum (ino s ip) →
    IBLOCK j (fs_sb s) = IBLOCK (i_inum (ino s ip)) (fs_sb s) →
    disk_inode (fs_ld s') (fs_sb s) j = disk_inode (fs_ld s) (fs_sb s) j;
  wp_synced : synced s → synced s';
}.

Lemma wrote_iblock s s' off src :
  fstate ip s → wrote s s' off src →
  blk (fs_ld s') (IBLOCK (i_inum (ino s ip)) (fs_sb s)) =
  blk (fs_ld s) (IBLOCK (i_inum (ino s ip)) (fs_sb s)).
Proof.
  intros (Hip & Hh & Hb & Hf) Hw. destruct (fo_iblock _ _ _ Hf) as (Hir & Hiu & Him).
  apply (wr_frame _ _ _ _ Hw); [lia|done|done|]. intros k Hk E.
  destruct (decide (slot (fs_ld s) (ino s ip) k = 0)) as [E0|E0].
  - lia.
  - by apply (fo_slot _ _ _ Hf k Hk E0).
Qed.

(** The two ends of [writei]: without and with a new size. *)
Lemma writei_keep s s1 off src :
  fstate ip s → wrote s s1 off src → 0 ≤ off ≤ i_size (ino s ip) →
  off + Z.of_nat (length src) ≤ i_size (ino s ip) → writei_post s off src s1.
Proof.
  intros Hst Hw Ho Hend. pose proof Hst as (Hip & Hh & Hb & Hf). pose proof (fo_size _ _ _ Hf).
  assert (Hall : ∀ o, 0 ≤ o < i_size (ino s ip) → slot (fs_ld s) (ino s ip) (bslot (o / 512)) ≠ 0).
  { intros o Ho'. apply (fo_full _ _ _ Hf); zlia. }
  assert (Ei : ino s1 ip = ino s ip) by (apply (wr_noalloc _ _ _ _ Hw); intros; apply Hall; lia).
  assert (Esb : fs_sb s1 = fs_sb s) by apply (wr_on _ _ _ _ Hw).
  pose proof (wrote_iblock _ _ _ _ Hst Hw) as Hib.
  split; try apply Hw.
  - rewrite Ei. rewrite Z.max_l by lia. by destruct (ino s ip).
  - intros o Ho'. rewrite Ei in Ho'. case_decide; [by apply (wr_new _ _ _ _ Hw)|].
    apply (wr_old _ _ _ _ Hw); [lia|by apply Hall|done].
  - intros c Hc Hu Hm _ Hs. by apply (wr_frame _ _ _ _ Hw).
  - intros j Hj Hne E. unfold disk_inode. by rewrite E, Hib.
  - unfold synced, disk_inode. rewrite Ei, Esb, Hib. done.
Qed.

Lemma writei_grow s s1 off src :
  fstate ip s → wrote s s1 off src → 0 ≤ off ≤ i_size (ino s ip) →
  i_size (ino s ip) < off + Z.of_nat (length src) ≤ 71680 →
  dinode_ok (disk_fields (ino s ip)) →
  let i' := set_size (off + Z.of_nat (length src)) (ino s1 ip) in
  writei_post s off src (with_ip ip s1
    (put_inode (fs_sb s) (i_inum (ino s ip)) (disk_fields i') (fs_ld s1)) i').
Proof.
  intros Hst Hw Ho Hend Hdk i'. pose proof Hst as (Hip & Hh & Hb & Hf).
  assert (Esb : fs_sb s1 = fs_sb s) by apply (wr_on _ _ _ _ Hw).
  destruct (wr_st _ _ _ _ Hw) as (Hip1 & Hh1 & Hb1 & Hf1). rewrite Esb in Hb1, Hf1.
  pose proof (wr_same _ _ _ _ Hw) as Es.
  assert (En : i_inum (ino s1 ip) = i_inum (ino s ip)) by (by rewrite Es).
  assert (Ez : i_size (ino s1 ip) = i_size (ino s ip)) by (by rewrite Es).
  assert (Hla : length (d_addrs (disk_fields i')) = 13%nat) by apply Hf1.
  destruct (put_inode_file (fs_sb s) (fs_ld s1) (ino s1 ip) (disk_fields i') Hb1 Hf1 Hla)
    as (Hb2 & Hsl2 & Hby2 & Hoth & Hu2).
  rewrite En in *. set (d2 := put_inode _ _ _ _) in *.
  assert (Esl : ∀ k, slot d2 i' k = slot d2 (ino s1 ip) k) by done.
  assert (Efb : ∀ o, file_byte d2 i' o = file_byte d2 (ino s1 ip) o) by done.
  pose proof (fo_size _ _ _ Hf).
  assert (Hall : ∀ o, 0 ≤ o < i_size (ino s ip) → slot (fs_ld s) (ino s ip) (bslot (o / 512)) ≠ 0).
  { intros o Ho'. apply (fo_full _ _ _ Hf); zlia. }
  assert (Hnz : ∀ o, 0 ≤ o < off + Z.of_nat (length src) →
    slot (fs_ld s1) (ino s1 ip) (bslot (o / 512)) ≠ 0).
  { intros o Ho'. destruct (decide (off ≤ o)); [apply (wr_alloc _ _ _ _ Hw); lia|].
    destruct (bslot_range (o / 512)) as [Hr _]; [zlia|].
    rewrite (wr_slot _ _ _ _ Hw) by (done || apply Hall; lia). apply Hall. lia. }
  pose proof (wrote_iblock _ _ _ _ Hst Hw) as Hib.
  assert (Hfo : file_ok d2 (fs_sb s) i').
  { destruct Hf1 as [F1 F2 F3 (F4 & F5 & F6) F7 F8 F9 F10]. split; try done; change (i_inum i') with (i_inum (ino s1 ip)); rewrite ?En in *.
    - split_and!; try done; try lia. rewrite Hu2 by lia. done.
    - intros k Hk. rewrite Esl, Hsl2 by done. intros Hs. destruct (F7 k Hk Hs) as (? & ? & ? & ?).
      split_and!; try done; try lia. by rewrite Hu2 by lia.
    - intros k k' Hk Hk'. rewrite !Esl, !Hsl2 by done. by apply F8.
    - simpl. lia.
    - intros bn Hbn Hsz. simpl in Hsz. rewrite Esl, Hsl2 by (apply bslot_range; lia).
      specialize (Hnz (512 * bn)). replace (512 * bn / 512) with bn in Hnz by zlia. apply Hnz. lia. }
  assert (Hdk' : dinode_ok (disk_fields i')).
  { destruct Hdk as [K1 K2 K3 K4 K5 K6 K7]. simpl in *.
    split; simpl; [by rewrite Es|by rewrite Es|by rewrite Es|by rewrite Es|lia|apply Hf1|apply Hf1]. }
  split.
  - apply fstate_with; try done; by rewrite Esb.
  - eapply only_ip_trans; [apply Hw|]. by apply only_ip_with.
  - rewrite ino_with by done. rewrite Z.max_r by lia. unfold i', set_size.
    f_equal; by rewrite Es.
  - intros o. rewrite ino_with by done. change (fs_ld (with_ip ip s1 d2 i')) with d2.
    change (i_size i') with (off + Z.of_nat (length src)). intros Ho'. rewrite Efb.
    destruct (Hby2 o ltac:(lia)) as [->|E]; [|by apply Hnz in E].
    case_decide; [by apply (wr_new _ _ _ _ Hw)|].
    apply (wr_old _ _ _ _ Hw); [lia|apply Hall; lia|done].
  - intros c Hc Hu. change (fs_ld (with_ip ip s1 d2 i')) with d2. rewrite Hu2 by done.
    by apply (wr_used _ _ _ _ Hw).
  - intros c Hc Hu Hm Hi Hs. change (fs_ld (with_ip ip s1 d2 i')) with d2. rewrite Hoth by done.
    by apply (wr_frame _ _ _ _ Hw).
  - intros j Hj Hne E. change (fs_ld (with_ip ip s1 d2 i')) with d2.
    unfold d2. rewrite disk_inode_put; [|done|apply Hf|done|apply Hb1].
    rewrite decide_False by done. unfold disk_inode. by rewrite E, Hib.
  - intros _. unfold synced. rewrite ino_with by done. change (fs_ld (with_ip ip s1 d2 i')) with d2.
    change (fs_sb (with_ip ip s1 d2 i')) with (fs_sb s1). rewrite Esb.
    change (i_inum i') with (i_inum (ino s1 ip)). rewrite En. unfold d2.
    rewrite disk_inode_put; [|done|apply Hf|apply Hf|apply Hb1]. by rewrite decide_True.
Qed.

Lemma writei_spec_free q dev_write s off src P k :
  fstate ip s → i_type (ino s ip) ≠ T_DEV → 0 ≤ off ≤ i_size (ino s ip) →
  off + Z.of_nat (length src) ≤ 71680 → Forall is_byte src →
  dinode_ok (disk_fields (ino s ip)) →
  sb_bmapstart (fs_sb s) ∈ P → IBLOCK (i_inum (ino s ip)) (fs_sb s) ∈ P → 0 ≤ k →
  paid (fs_ld s) P (k + nblk off (Z.of_nat (length src)) + 1) →
  nfree (fs_ld s) (fs_sb s) (q + nblk off (Z.of_nat (length src)) + 1) → 0 ≤ q →
  ∃ s' P', writei dev_write ip src off s = Ok (Z.of_nat (length src)) s' ∧
    writei_post s off src s' ∧ (∀ c, c ∈ P → c ∈ P') ∧ paid (fs_ld s') P' k ∧
    nfree (fs_ld s') (fs_sb s) q.
Proof.
  intros Hst Ht Ho Hmax Hby Hdk HP HPi Hk Hpaid Hnf Hq. pose proof Hst as (Hip & Hh & Hb & Hf).
  pose proof (fo_size _ _ _ Hf). set (n := Z.of_nat (length src)) in *.
  unfold writei. fold n. mstep (get_inode_ok s ip Hip).
  destruct (Z.eqb_spec (i_type (ino s ip)) T_DEV); [done|].
  destruct (Z.gtb_spec off (i_size (ino s ip))); [lia|]. cbn [orb].
  rewrite u32_small by lia. destruct (Z.ltb_spec (off + n) off); [lia|].
  destruct (Z.gtb_spec (off + n) (MAXFILE * BSIZE)) as [Hx|_];
    [change (MAXFILE * BSIZE) with 71680 in Hx; lia|].
  pose proof (ind_cost_nonneg P (fs_ld s) (ino s ip)).
  pose proof (need_ind_nonneg (fs_ld s) (ino s ip)).
  destruct (writei_loop_spec q (S (S (Z.to_nat (n / BSIZE + 1)))) src off 0 n s P k)
    as (s1 & E & Hw & Hnf1 & P' & HPP & Hpd); try done; try lia.
  { intros _. rewrite Z.sub_0_r. unfold nblk, BSIZE. destruct (Z.ltb_spec 0 n); zlia. }
  { rewrite Z.sub_0_r. eapply paid_weaken; [done|done|]. lia. }
  { rewrite Z.sub_0_r. destruct Hnf as (F & ? & ? & ?). exists F. split_and!; try done. lia. }
  rewrite Z.sub_0_r in E. mstep E.
  destruct (wr_st _ _ _ _ Hw) as (Hip1 & Hh1 & Hb1 & Hf1).
  mstep (get_inode_ok s1 ip Hip1).
  assert (Ez : i_size (ino s1 ip) = i_size (ino s ip)) by (by rewrite (wr_same _ _ _ _ Hw)).
  assert (En : i_inum (ino s1 ip) = i_inum (ino s ip)) by (by rewrite (wr_same _ _ _ _ Hw)).
  assert (Esb : fs_sb s1 = fs_sb s) by apply (wr_on _ _ _ _ Hw).
  rewrite Ez. destruct (Z.gtb_spec n 0) as [Hn0|Hn0]; cbn [andb];
    [destruct (Z.gtb_spec (off + n) (i_size (ino s ip))) as [Hg|Hg]|].
  - rewrite bind_assoc. mstep by (apply upd_inode_ok; done).
    change (set_ic (<[ip:=?x]> (ic_inode s1)) s1) with (with_ip ip s1 (fs_ld s1) x).
    set (i' := set_size (off + n) (ino s1 ip)).
    assert (Hip2 : (ip < length (ic_inode (with_ip ip s1 (fs_ld s1) i')))%nat)
      by (unfold with_ip; simpl; by rewrite length_insert).
    mstep by (apply iupdate_ok; [done|simpl; rewrite Hh1; apply not_elem_of_nil|];
      by apply (paid_room _ P' k)). mrun.
    rewrite ino_with by done. change (fs_sb (with_ip ip s1 (fs_ld s1) i')) with (fs_sb s1).
    change (i_inum i') with (i_inum (ino s1 ip)). rewrite En, Esb.
    exists (with_ip ip s1 (put_inode (fs_sb s) (i_inum (ino s ip)) (disk_fields i') (fs_ld s1)) i'), P'.
    split_and!; [done|apply (writei_grow s s1 off src); (done || lia)|done| |].
    { apply paid_put; [done|]. auto. }
    destruct (put_inode_file (fs_sb s) (fs_ld s1) (ino s1 ip) (disk_fields i'))
      as (_ & _ & _ & _ & Hu); [by rewrite <-Esb|by rewrite <-Esb|apply Hf1|].
    destruct Hnf1 as (F & ? & ? & HF). exists F. split_and!; try done. intros c Hc.
    destruct (HF c Hc). rewrite <-En. split; [done|]. by rewrite <-(Hu c) in * by done.
  - mrun. exists s1, P'. split_and!; try done. apply writei_keep; done.
  - mrun. exists s1, P'. split_and!; try done. apply writei_keep; try done. lia.
Qed.

Lemma writei_spec dev_write s off src P k :
  fstate ip s → i_type (ino s ip) ≠ T_DEV → 0 ≤ off ≤ i_size (ino s ip) →
  off + Z.of_nat (length src) ≤ 71680 → Forall is_byte src →
  dinode_ok (disk_fields (ino s ip)) →
  sb_bmapstart (fs_sb s) ∈ P → IBLOCK (i_inum (ino s ip)) (fs_sb s) ∈ P → 0 ≤ k →
  paid (fs_ld s) P (k + nblk off (Z.of_nat (length src)) + 1) →
  nfree (fs_ld s) (fs_sb s) (nblk off (Z.of_nat (length src)) + 1) →
  ∃ s' P', writei dev_write ip src off s = Ok (Z.of_nat (length src)) s' ∧
    writei_post s off src s' ∧ (∀ c, c ∈ P → c ∈ P') ∧ paid (fs_ld s') P' k.
Proof.
  intros. destruct (writei_spec_free 0 dev_write s off src P k) as (s' & P' & ? & ? & ? & ? & _);
    try done. eauto 10.
Qed.
End rw.

(** ** A small file system *)

(** 64 blocks: boot block, superblock, one inode block, the bitmap, data; a
    transaction is open and one empty file is open and locked. *)
Definition demo_sb : superblock := Superblock 64 60 8 31 1 2 3.
Definition demo_disk : ldisk := LDisk {[3 := 15 :: replicate 511 0]} [] [] 31 1.
Definition demo_inode (type : Z) : inode :=
  Inode 1 1 1 (sl_held 7) true type 0 0 1 0 (replicate 13 0).
Definition demo_fs (type : Z) : fsst := FsSt demo_disk demo_sb unlocked [demo_inode type].

Lemma demo_base : fs_base demo_disk demo_sb.
Proof.
  assert (Hc : ∀ b, blk demo_disk b = 15 :: replicate 511 0 ∨ blk demo_disk b = zero_block).
  { intros b. unfold blk, demo_disk. simpl. destruct (decide (b = 3)) as [->|Hn].
    - left. by rewrite lookup_singleton_eq.
    - right. by rewrite lookup_singleton_ne. }
  split; try (vm_compute; done).
  - intros b. by destruct (Hc b) as [-> | ->].
  - intros b. destruct (Hc b) as [-> | ->].
    + constructor; [done|]. by apply Forall_replicate.
    + by apply Forall_replicate.
Qed.

Lemma demo_fstate type : fstate 0 (demo_fs type).
Proof.
  assert (Hz : ∀ k, slot demo_disk (demo_inode type) k = 0).
  { intros k. assert (Ha : ∀ j, addr_of (demo_inode type) j = 0).
    { intros j. unfold addr_of. change (i_addrs (demo_inode type)) with (replicate 13 0).
      destruct (replicate 13 0 !! Z.to_nat j) eqn:E; [|done].
      by apply lookup_replicate in E as [-> _]. }
    unfold slot. rewrite !Ha. by destruct (k <? 13). }
  split_and!; [simpl; lia|done|apply demo_base|].
  change (ino (demo_fs type) 0) with (demo_inode type). change (fs_ld (demo_fs type)) with demo_disk.
  split.
  - reflexivity.
  - by apply Forall_replicate.
  - simpl. lia.
  - vm_compute. done.
  - intros k _ Hn. by rewrite Hz in Hn.
  - intros k k' _ _ Hn. by rewrite Hz in Hn.
  - simpl. lia.
  - intros bn Hb Hs. simpl in Hs. lia.
Qed.

Lemma demo_dinode type : 0 ≤ type < 4 → dinode_ok (disk_fields (demo_inode type)).
Proof.
  intros Ht. split; [simpl; lia|simpl; lia|simpl; lia|simpl; lia|simpl; lia|reflexivity|].
  by apply Forall_replicate.
Qed.

Lemma demo_paid k : k ≤ 27 → paid demo_disk [3; 2] k.
Proof.
  intros Hk. split_and!; [constructor|done|]. exists [3; 2]. split_and!; try done.
  - apply (bool_decide_unpack _). by vm_compute.
  - intros c Hc. by apply elem_of_nil in Hc.
  - change (log_cap demo_disk) with 30. simpl. lia.
Qed.
Lemma demo_nfree : nfree demo_disk demo_sb 5.
Proof.
  exists [4; 5; 6; 7; 8]. split_and!; [apply (bool_decide_unpack _); by vm_compute|simpl; lia|].
  intros c Hc. apply (Forall_forall (λ c, 0 ≤ c < sb_size demo_sb ∧ used demo_disk demo_sb c = false) [4; 5; 6; 7; 8]); [|done].
  repeat constructor; try done; simpl; lia.
Qed.

(** ** Claims *)

(** C9. Writing a file: with enough free blocks and log space [writei]
    stores the given bytes at the given offset, extends the size to cover
    them, keeps every other byte of the file, writes the inode through to
    disk, and changes no block in use that does not belong to the file and no
    other inode of the inode block.  It adds at most one block to the
    transaction per block of data, plus the bitmap, indirect and inode
    blocks. *)
Theorem writei_correct ip dev_write s off src P k :
  fstate ip s → i_type (ino s ip) ≠ T_DEV → 0 ≤ off ≤ i_size (ino s ip) →
  off + Z.of_nat (length src) ≤ MAXFILE * BSIZE → Forall is_byte src →
  dinode_ok (disk_fields (ino s ip)) →
  sb_bmapstart (fs_sb s) ∈ P → IBLOCK (i_inum (ino s ip)) (fs_sb s) ∈ P → 0 ≤ k →
  paid (fs_ld s) P (k + nblk off (Z.of_nat (length src)) + 1) →
  nfree (fs_ld s) (fs_sb s) (nblk off (Z.of_nat (length src)) + 1) →
  ∃ s' P', writei dev_write ip src off s = Ok (Z.of_nat (length src)) s' ∧
    writei_post ip s off src s' ∧ (∀ c, c ∈ P → c ∈ P') ∧ paid (fs_ld s') P' k.
Proof. exact (writei_spec ip dev_write s off src P k). Qed.

Lemma writei_correct_witness :
  ∃ s', writei (λ _, None) 0 [104; 105] 0 (demo_fs T_FILE) = Ok 2 s' ∧
    writei_post 0 (demo_fs T_FILE) 0 [104; 105] s'.
Proof.
  destruct (writei_correct 0 (λ _, None) (demo_fs T_FILE) 0 [104; 105] [3; 2] 0)
    as (s' & P' & E & Hp & _).
  - apply demo_fstate.
  - discriminate.
  - simpl. lia.
  - vm_compute. discriminate.
  - repeat constructor; lia.
  - apply demo_dinode. unfold T_FILE. lia.
  - by left.
  - right. by left.
  - lia.
  - apply demo_paid. vm_compute. discriminate.
  - destruct demo_nfree as (F & H1 & H2 & H3). exists F. split; [exact H1|split; [|exact H3]].
    change (nblk 0 (Z.of_nat (length [104; 105]))) with 1. lia.
  - exists s'. split; [exact E|exact Hp].
Defined.

(** C20. Reading back: after a successful [writei] of [src] at [off], [readi]
    of that range returns exactly [src] and does not change the state. *)
Theorem writei_readi_roundtrip ip dev_read dev_write s off src P k :
  fstate ip s → i_type (ino s ip) ≠ T_DEV → 0 ≤ off ≤ i_size (ino s ip) →
  off + Z.of_nat (length src) ≤ MAXFILE * BSIZE → Forall is_byte src →
  dinode_ok (disk_fields (ino s ip)) →
  sb_bmapstart (fs_sb s) ∈ P → IBLOCK (i_inum (ino s ip)) (fs_sb s) ∈ P → 0 ≤ k →
  paid (fs_ld s) P (k + nblk off (Z.of_nat (length src)) + 1) →
  nfree (fs_ld s) (fs_sb s) (nblk off (Z.of_nat (length src)) + 1) →
  ∃ s', writei dev_write ip src off s = Ok (Z.of_nat (length src)) s' ∧
    readi dev_read ip off (Z.of_nat (length src)) s' = Ok (Z.of_nat (length src), src) s'.
Proof.
  intros Hst Ht Ho Hmax Hby Hdk HP HPi Hk Hpaid Hnf. change (MAXFILE * BSIZE) with 71680 in Hmax.
  destruct (writei_spec ip dev_write s off src P k) as (s' & P' & E & Hp & _); try done.
  exists s'. split; [done|]. pose proof (wp_inode _ _ _ _ _ Hp) as Ei.
  assert (Ez : i_size (ino s' ip) = Z.max (i_size (ino s ip)) (off + Z.of_nat (length src)))
    by (by rewrite Ei).
  assert (Et : i_type (ino s' ip) = i_type (ino s ip)) by (by rewrite Ei).
  pose proof (fo_size _ _ _ (proj2 (proj2 (proj2 Hst)))).
  rewrite readi_spec; [|apply Hp|by rewrite Et|lia|lia]. rewrite Ez.
  destruct (Z.gtb_spec off (Z.max (i_size (ino s ip)) (off + Z.of_nat (length src)))); [lia|].
  destruct (Z.leb_spec 4294967296 (off + Z.of_nat (length src))); [lia|]. cbn [orb]. cbv zeta.
  rewrite Z.min_l by lia. do 2 f_equal. rewrite Nat2Z.id. apply list_eq. intros j.
  destruct (decide (j < length src)%nat) as [Hj|Hj].
  - rewrite lookup_fbytes by done. rewrite (wp_bytes _ _ _ _ _ Hp) by (rewrite Ez; lia).
    rewrite decide_True by lia. replace (Z.to_nat (off + Z.of_nat j - off)) with j by lia.
    destruct (lookup_lt_is_Some_2 src j Hj) as [x Hx]. unfold byte_at. by rewrite Hx.
  - rewrite !lookup_ge_None_2; [done|lia|]. rewrite length_fbytes. lia.
Qed.

Lemma writei_readi_roundtrip_witness :
  ∃ s', writei (λ _, None) 0 [104; 105] 0 (demo_fs T_FILE) = Ok 2 s' ∧
    readi (λ _, None) 0 0 2 s' = Ok (2, [104; 105]) s'.
Proof.
  apply (writei_readi_roundtrip 0 (λ _, None) (λ _, None) (demo_fs T_FILE) 0 [104; 105] [3; 2] 0).
  - apply demo_fstate.
  - discriminate.
  - simpl. lia.
  - vm_compute. discriminate.
  - repeat constructor; lia.
  - apply demo_dinode. unfold T_FILE. lia.
  - by left.
  - right. by left.
  - lia.
  - apply demo_paid. vm_compute. discriminate.
  - destruct demo_nfree as (F & H1 & H2 & H3). exists F. split; [exact H1|split; [|exact H3]].
    change (nblk 0 (Z.of_nat (length [104; 105]))) with 1. lia.
Defined.
