(* ===== verification/FsDir.v ===== *)
(** * Directories and paths (fs.c: dirlookup, dirlink, skipelem)

    A directory is a file of 16-byte entries.  [dir_find] is the lookup as a
    function on the list of entries; the routines are shown to compute it, and
    linking a name to make exactly that name resolvable. *)

From Stdlib Require Import ZArith Lia.
From stdpp Require Import base numbers strings gmap list.
From S2P Require Import Prelude Memory Locks Bytes Disk Fs FsBlocks FsInode FsFile FsRw.

(** ** Names *)

Definition name_char (s : list Z) (k : nat) : Z := byte_at s k.

(** Two names agree on their first [DIRSIZ] bytes, up to a NUL. *)
Definition same_name (s t : list Z) : Prop :=
  ∀ k, (k < 14)%nat → (∀ j, (j < k)%nat → byte_at s j ≠ 0) → byte_at s k = byte_at t k.

Lemma u8_byte_at l k : Forall is_byte l → u8 (byte_at l k) = byte_at l k.
Proof. intros H. apply u8_small. by apply byte_at_range. Qed.

Lemma namecmp_zero s t :
  Forall is_byte s → Forall is_byte t → (namecmp s t = 0 ↔ same_name s t).
Proof.
  intros Hs Ht. unfold namecmp, strncmp. rewrite strncmp_loop_zero. unfold same_name.
  change (Z.to_nat DIRSIZ) with 14%nat. change (cstr_of s) with (byte_at s). change (cstr_of t) with (byte_at t).
  split; intros H k Hk Hj.
  - rewrite <-(u8_byte_at s), <-(u8_byte_at t) by done. apply H; [lia|].
    intros j Hj'. rewrite u8_byte_at by done. apply Hj. lia.
  - rewrite !u8_byte_at by done. apply H; [lia|].
    intros j Hj'. rewrite <-(u8_byte_at s) by done. apply Hj. lia.
Qed.

#[export] Instance same_name_equiv : Equivalence same_name.
Proof.
  assert (Hsn : ∀ a b c, same_name a b → same_name a c → same_name b c).
  { intros a b c Hab Hac q Hq Hb.
    assert (∀ j, (j < q)%nat → byte_at a j ≠ 0).
    { induction j as [j IHj] using lt_wf_ind. intros Hj.
      rewrite Hab; [by apply Hb|lia|]. intros l Hl. apply IHj; lia. }
    rewrite <-Hab, <-Hac by (done || lia). done. }
  assert (Hr : ∀ a, same_name a a) by (intros a q Hq Ha; done).
  assert (Hsym : ∀ a b, same_name a b → same_name b a).
  { intros a b Hab. by apply (Hsn a b a). }
  split; [exact Hr|exact Hsym|]. intros a b c Hab Hbc. by apply (Hsn b); [apply Hsym|].
Qed.

(** The name field of a new entry. *)
Definition dirent_name (name : list Z) : list Z := strncpy (cstr_of name) DIRSIZ.

Lemma byte_at_dirent_name name k :
  (k < 14)%nat → byte_at (dirent_name name) k =
    if forallb (λ j, nz (byte_at name j)) (seq 0 k) then byte_at name k else 0.
Proof.
  intros Hk. unfold dirent_name, strncpy, byte_at at 1.
  rewrite lookup_strncpy_loop by (change (Z.to_nat DIRSIZ) with 14%nat; lia). done.
Qed.

Lemma length_dirent_name name : length (dirent_name name) = 14%nat.
Proof. unfold dirent_name, strncpy. by rewrite length_strncpy_loop. Qed.

Lemma dirent_name_bytes name : Forall is_byte name → Forall is_byte (dirent_name name).
Proof.
  intros H. apply Forall_lookup. intros k x Hx.
  assert (Hk : (k < 14)%nat) by (apply lookup_lt_Some in Hx; by rewrite length_dirent_name in Hx).
  pose proof (byte_at_dirent_name name k Hk) as E. unfold byte_at at 1 in E. rewrite Hx in E.
  simpl in E. rewrite E. destruct (forallb _ _); [by apply byte_at_range|done].
Qed.

Lemma forallb_nz l k :
  forallb (λ j, nz (byte_at l j)) (seq 0 k) = true ↔ ∀ j, (j < k)%nat → byte_at l j ≠ 0.
Proof.
  rewrite forallb_forall. split.
  - intros H j Hj. specialize (H j). rewrite in_seq in H. specialize (H ltac:(lia)).
    unfold nz in H. by destruct (Z.eqb_spec (byte_at l j) 0).
  - intros H j Hj. rewrite in_seq in Hj. unfold nz. destruct (Z.eqb_spec (byte_at l j) 0); [|done].
    by destruct (H j ltac:(lia)).
Qed.

(** Padding and truncating a name does not change which names it equals. *)
Lemma same_name_stored s t : same_name s (dirent_name t) ↔ same_name s t.
Proof.
  assert (Hpre : ∀ q, same_name s q → ∀ k, (k ≤ 14)%nat → (∀ j, (j < k)%nat → byte_at s j ≠ 0) →
    ∀ j, (j < k)%nat → byte_at q j = byte_at s j).
  { intros q H k Hk Hs j Hj. symmetry. apply H; [lia|]. intros l Hl. apply Hs. lia. }
  split; intros H k Hk Hs.
  - specialize (Hpre _ H). pose proof (H k Hk Hs) as E.
    rewrite byte_at_dirent_name in E by done.
    destruct (forallb (λ j, nz (byte_at t j)) (seq 0 k)) eqn:F; [done|].
    exfalso. assert (F' : forallb (λ j, nz (byte_at t j)) (seq 0 k) = true); [|congruence].
    apply forallb_nz. clear E F. induction k as [|k IH]; [intros; lia|].
    intros j Hj. destruct (decide (j < k)%nat) as [|Hjk].
    { apply IH; [lia|intros; apply Hs; lia|done]. }
    assert (j = k) as -> by lia.
    assert (F' : forallb (λ j, nz (byte_at t j)) (seq 0 k) = true).
    { apply forallb_nz. intros l Hl. apply IH; [lia|intros; apply Hs; lia|done]. }
    pose proof (Hpre (S k) ltac:(lia) Hs k ltac:(lia)) as Ek.
    rewrite byte_at_dirent_name, F' in Ek by lia. rewrite Ek. apply Hs. lia.
  - specialize (Hpre _ H). rewrite byte_at_dirent_name by done.
    rewrite (proj2 (forallb_nz t k)); [by apply H|].
    intros j Hj. rewrite (Hpre k) by (done || lia). by apply Hs.
Qed.

(** ** The entries of a directory *)

Definition entry (d : ldisk) (i : inode) (k : nat) : list Z := fbytes d i (16 * Z.of_nat k) 16.
Definition entries (d : ldisk) (i : inode) (n : nat) : list (list Z) := entry d i <$> seq 0 n.

Fixpoint dir_find (ents : list (list Z)) (name : list Z) (k : nat) : option nat :=
  match ents with
  | [] => None
  | e :: ents =>
      if de_inum e =? 0 then dir_find ents name (S k)
      else if namecmp name (de_name e) =? 0 then Some k
      else dir_find ents name (S k)
  end.
(** The first unused entry, or the number of entries. *)
Fixpoint dir_free (ents : list (list Z)) (k : nat) : nat :=
  match ents with
  | [] => k
  | e :: ents => if de_inum e =? 0 then k else dir_free ents (S k)
  end.

Lemma lookup_entries d i n k : (k < n)%nat → entries d i n !! k = Some (entry d i k).
Proof. intros H. unfold entries. by rewrite list_lookup_fmap, lookup_seq_lt. Qed.
Lemma length_entries d i n : length (entries d i n) = n.
Proof. unfold entries. by rewrite length_fmap, length_seq. Qed.

Lemma drop_entries d i n k :
  (k < n)%nat → drop k (entries d i n) = entry d i k :: drop (S k) (entries d i n).
Proof. intros H. by apply drop_S, lookup_entries. Qed.

Lemma entry_bytes d sb i k : fs_base d sb → Forall is_byte (entry d i k).
Proof.
  intros Hb. unfold entry, fbytes. apply Forall_fmap, Forall_true. intros j.
  unfold file_byte, compose. apply byte_at_range. apply (fb_bytes _ _ Hb).
Qed.

(** Lookup depends on the first 14 bytes of the name only. *)
Lemma dir_find_same ents name name' k :
  Forall is_byte name → Forall is_byte name' → Forall (Forall is_byte) ents →
  same_name name' name → dir_find ents name' k = dir_find ents name k.
Proof.
  intros Hb Hb' He Hs. revert k. induction He as [|e ents He _ IH]; intros k; [done|].
  simpl. rewrite !IH. destruct (de_inum e =? 0); [done|].
  assert ((namecmp name' (de_name e) =? 0) = (namecmp name (de_name e) =? 0)) as ->; [|done].
  assert (Hbe : Forall is_byte (de_name e)) by (by apply Forall_slice).
  apply eq_true_iff_eq. rewrite !Z.eqb_eq, !namecmp_zero by done. by rewrite Hs.
Qed.

Section dir.
Context (dev_read : Z → option (nat → Z → M fsst (Z * list Z))).

Lemma readi_entry dp s n k :
  fstate dp s → i_type (ino s dp) ≠ T_DEV → i_size (ino s dp) = 16 * Z.of_nat n → (k < n)%nat →
  readi dev_read dp (16 * Z.of_nat k) 16 s =
    Ok (16, entry (fs_ld s) (ino s dp) k) s.
Proof.
  intros Hst Ht Hsz Hk. pose proof Hst as (_ & _ & _ & Hf). pose proof (fo_size _ _ _ Hf).
  rewrite readi_spec by (done || lia). rewrite Hsz.
  destruct (Z.gtb_spec (16 * Z.of_nat k) (16 * Z.of_nat n)); [lia|].
  destruct (Z.leb_spec 4294967296 (16 * Z.of_nat k + 16)); [lia|]. cbn [orb]. cbv zeta.
  rewrite Z.min_l by lia. done.
Qed.

Lemma dirlookup_loop_spec dp name s n fuel k :
  fstate dp s → i_type (ino s dp) ≠ T_DEV → i_size (ino s dp) = 16 * Z.of_nat n →
  (k ≤ n)%nat → (n - k < fuel)%nat →
  dirlookup_loop dev_read fuel dp name (16 * Z.of_nat k) s =
    match dir_find (drop k (entries (fs_ld s) (ino s dp) n)) name k with
    | None => Ok None s
    | Some j => (ip ← iget (i_dev (ino s dp)) (de_inum (entry (fs_ld s) (ino s dp) j));
                 mret (Some (ip, 16 * Z.of_nat j))) s
    end.
Proof.
  intros Hst Ht Hsz. revert k. induction fuel as [|fuel IH]; intros k Hk Hf; [lia|].
  pose proof Hst as (Hip & _ & _ & Hfo). pose proof (fo_size _ _ _ Hfo).
  cbn [dirlookup_loop]. mstep (get_inode_ok s dp Hip). rewrite Hsz.
  destruct (Z.ltb_spec (16 * Z.of_nat k) (16 * Z.of_nat n)) as [Hlt|Hge]; cycle 1.
  { rewrite drop_ge by (rewrite length_entries; lia). done. }
  mstep (readi_entry dp s n k Hst Ht Hsz ltac:(lia)). cbn [negb Z.eqb Pos.eqb].
  rewrite drop_entries by lia. cbn [dir_find].
  rewrite u32_small by lia. replace (16 * Z.of_nat k + 16) with (16 * Z.of_nat (S k)) by lia.
  destruct (de_inum _ =? 0); [apply IH; lia|].
  destruct (namecmp name _ =? 0); [done|]. apply IH; lia.
Qed.

Lemma dirlookup_spec dp name s n :
  fstate dp s → i_type (ino s dp) = T_DIR → i_size (ino s dp) = 16 * Z.of_nat n →
  dirlookup dev_read dp name s =
    match dir_find (entries (fs_ld s) (ino s dp) n) name 0 with
    | None => Ok None s
    | Some j => (ip ← iget (i_dev (ino s dp)) (de_inum (entry (fs_ld s) (ino s dp) j));
                 mret (Some (ip, 16 * Z.of_nat j))) s
    end.
Proof.
  intros Hst Ht Hsz. pose proof Hst as (Hip & _). unfold dirlookup.
  mstep (get_inode_ok s dp Hip). rewrite Ht. cbn [negb Z.eqb T_DIR Pos.eqb].
  rewrite Hsz. change (dirlookup_loop dev_read ?f dp name 0 s) with
    (dirlookup_loop dev_read f dp name (16 * Z.of_nat 0) s).
  rewrite (dirlookup_loop_spec dp name s n); [done|done|by rewrite Ht|done|lia|zlia].
Qed.

Lemma dirlink_loop_spec dp s n fuel k :
  fstate dp s → i_type (ino s dp) ≠ T_DEV → i_size (ino s dp) = 16 * Z.of_nat n →
  (k ≤ n)%nat → (n - k < fuel)%nat →
  dirlink_loop dev_read fuel dp (16 * Z.of_nat k) s =
    Ok (16 * Z.of_nat (dir_free (drop k (entries (fs_ld s) (ino s dp) n)) k)) s.
Proof.
  intros Hst Ht Hsz. revert k. induction fuel as [|fuel IH]; intros k Hk Hf; [lia|].
  pose proof Hst as (Hip & _ & _ & Hfo). pose proof (fo_size _ _ _ Hfo).
  cbn [dirlink_loop]. mstep (get_inode_ok s dp Hip). rewrite Hsz.
  destruct (Z.ltb_spec (16 * Z.of_nat k) (16 * Z.of_nat n)) as [Hlt|Hge]; cycle 1.
  { rewrite drop_ge by (rewrite length_entries; lia). simpl. assert (k = n) as -> by lia. done. }
  mstep (readi_entry dp s n k Hst Ht Hsz ltac:(lia)). cbn [negb Z.eqb Pos.eqb].
  rewrite drop_entries by lia. cbn [dir_free].
  destruct (de_inum _ =? 0); [done|].
  replace (16 * Z.of_nat k + 16) with (16 * Z.of_nat (S k)) by lia. apply IH; lia.
Qed.

Lemma dir_free_range ents k : (k ≤ dir_free ents k ≤ k + length ents)%nat.
Proof.
  revert k. induction ents as [|e ents IH]; intros k; simpl; [lia|].
  destruct (de_inum e =? 0); [lia|]. specialize (IH (S k)). lia.
Qed.
End dir.

(** ** Linking a name *)

Definition matches (name e : list Z) : bool :=
  negb (de_inum e =? 0) && (namecmp name (de_name e) =? 0).

Lemma dir_find_app l1 l2 name k :
  dir_find (l1 ++ l2) name k =
    match dir_find l1 name k with
    | Some j => Some j
    | None => dir_find l2 name (k + length l1)
    end.
Proof.
  revert k. induction l1 as [|e l1 IH]; intros k; simpl; [by rewrite Nat.add_0_r|].
  rewrite IH. replace (S k + length l1)%nat with (k + S (length l1))%nat by lia.
  destruct (de_inum e =? 0); [done|]. by destruct (namecmp name (de_name e) =? 0).
Qed.

Lemma dir_find_cons e l name k :
  dir_find (e :: l) name k = if matches name e then Some k else dir_find l name (S k).
Proof.
  unfold matches. simpl. by destruct (de_inum e =? 0), (namecmp name (de_name e) =? 0).
Qed.

Lemma dir_free_split ents :
  ∃ l1 l2, ents = l1 ++ l2 ∧ length l1 = dir_free ents 0 ∧
    (l2 = [] ∨ ∃ e l3, l2 = e :: l3 ∧ de_inum e = 0).
Proof.
  assert (H : ∀ k, ∃ l1 l2, ents = l1 ++ l2 ∧ (k + length l1)%nat = dir_free ents k ∧
    (l2 = [] ∨ ∃ e l3, l2 = e :: l3 ∧ de_inum e = 0)); [|apply (H O)].
  induction ents as [|e ents IH]; intros k; simpl.
  - exists [], []. split_and!; [done|simpl; lia|by left].
  - destruct (Z.eqb_spec (de_inum e) 0) as [E|E].
    + exists [], (e :: ents). split_and!; [done|simpl; lia|right; eauto].
    + destruct (IH (S k)) as (l1 & l2 & -> & Hl & Hc). exists (e :: l1), l2.
      split_and!; [done|simpl; lia|done].
Qed.

(** Filling the first unused entry changes the lookup of names that match the
    new entry, and of no other. *)
Lemma dir_find_link l1 l2 de name :
  (l2 = [] ∨ ∃ e l3, l2 = e :: l3 ∧ de_inum e = 0) →
  (matches name de = true → dir_find (l1 ++ l2) name 0 = None) →
  dir_find (l1 ++ de :: tail l2) name 0 =
    if matches name de then Some (length l1) else dir_find (l1 ++ l2) name 0.
Proof.
  intros Hl2 Hnone. rewrite dir_find_app, dir_find_cons. rewrite dir_find_app in Hnone |- *.
  destruct (matches name de).
  - specialize (Hnone eq_refl). by destruct (dir_find l1 name 0).
  - destruct (dir_find l1 name 0); [done|]. destruct Hl2 as [->|(e & l3 & -> & E)]; [done|].
    simpl. by rewrite E.
Qed.

(** The bytes of a new entry. *)
Definition new_dirent (name : list Z) (inum : Z) : list Z := le16 inum ++ dirent_name name.

Lemma de_inum_new name inum : 0 ≤ inum < 65536 → de_inum (new_dirent name inum) = inum.
Proof.
  intros H. unfold de_inum, new_dirent. rewrite get16_app_l by (simpl; lia).
  rewrite get16_le16. unfold u16. apply Z.mod_small. lia.
Qed.
Lemma de_name_new name inum : de_name (new_dirent name inum) = dirent_name name.
Proof.
  unfold de_name, new_dirent, slice. change (le16 inum ++ dirent_name name) with
    (u8 inum :: u8 (inum / 256) :: dirent_name name). cbn [drop].
  apply take_ge. rewrite length_dirent_name. lia.
Qed.
Lemma length_new_dirent name inum : length (new_dirent name inum) = 16%nat.
Proof. unfold new_dirent. rewrite length_app, length_dirent_name. done. Qed.

Lemma matches_new name name' inum :
  Forall is_byte name → Forall is_byte name' → 0 < inum < 65536 →
  (matches name' (new_dirent name inum) = true ↔ same_name name' name).
Proof.
  intros Hb Hb' Hi. unfold matches. rewrite de_inum_new, de_name_new by lia.
  destruct (Z.eqb_spec inum 0); [lia|]. cbn [negb andb].
  rewrite Z.eqb_eq, namecmp_zero by (try done; by apply dirent_name_bytes).
  apply same_name_stored.
Qed.

Section link.
Context (pid : Z).
Context (dev_read : Z → option (nat → Z → M fsst (Z * list Z))).
Context (dev_write : Z → option (nat → list Z → M fsst Z)).
Context (dp : nat).

Lemma entry_after_write s s' j de k :
  fstate dp s → writei_post dp s (16 * Z.of_nat j) de s' → length de = 16%nat →
  16 * Z.of_nat (S k) ≤ i_size (ino s' dp) →
  entry (fs_ld s') (ino s' dp) k = if decide (k = j) then de else entry (fs_ld s) (ino s dp) k.
Proof.
  intros Hst Hp Hl Hk. apply list_eq. intros l. unfold entry.
  destruct (decide (l < 16)%nat) as [Hl16|Hl16]; cycle 1.
  { rewrite lookup_ge_None_2 by (rewrite length_fbytes; lia).
    case_decide; symmetry; apply lookup_ge_None_2; [lia|rewrite length_fbytes; lia]. }
  rewrite lookup_fbytes by done. rewrite (wp_bytes _ _ _ _ _ Hp) by lia. rewrite Hl.
  destruct (decide (k = j)) as [->|Hn].
  - rewrite decide_True by lia.
    replace (Z.to_nat (16 * Z.of_nat j + Z.of_nat l - 16 * Z.of_nat j)) with l by lia.
    destruct (lookup_lt_is_Some_2 de l) as [x Hx]; [lia|]. unfold byte_at. by rewrite Hx.
  - rewrite decide_False by lia. by rewrite lookup_fbytes.
Qed.

Definition dirlink_post (s : fsst) (n : nat) (name : list Z) (inum : Z) (s' : fsst) : Prop :=
  ∃ l1 l2, entries (fs_ld s) (ino s dp) n = l1 ++ l2 ∧
    length l1 = dir_free (entries (fs_ld s) (ino s dp) n) 0 ∧
    (l2 = [] ∨ ∃ e l3, l2 = e :: l3 ∧ de_inum e = 0) ∧
    let ents' := l1 ++ new_dirent name inum :: tail l2 in
    fstate dp s' ∧ i_type (ino s' dp) = T_DIR ∧ i_dev (ino s' dp) = i_dev (ino s dp) ∧
    i_size (ino s' dp) = 16 * Z.of_nat (length ents') ∧
    entries (fs_ld s') (ino s' dp) (length ents') = ents' ∧
    writei_post dp s (16 * Z.of_nat (length l1)) (new_dirent name inum) s'.

Lemma dirlink_ok s n name inum P k :
  fstate dp s → i_type (ino s dp) = T_DIR → i_size (ino s dp) = 16 * Z.of_nat n →
  16 * Z.of_nat (S n) ≤ 71680 → Forall is_byte name → 0 < inum < 65536 →
  dinode_ok (disk_fields (ino s dp)) →
  dir_find (entries (fs_ld s) (ino s dp) n) name 0 = None →
  sb_bmapstart (fs_sb s) ∈ P → IBLOCK (i_inum (ino s dp)) (fs_sb s) ∈ P → 0 ≤ k →
  paid (fs_ld s) P (k + 2) → nfree (fs_ld s) (fs_sb s) 2 →
  ∃ s', dirlink pid dev_read dev_write dp name inum s = Ok 0 s' ∧
    dirlink_post s n name inum s' ∧ ∃ P', (∀ c, c ∈ P → c ∈ P') ∧ paid (fs_ld s') P' k.
Proof.
  intros Hst Ht Hsz Hmax Hby Hi Hdk Hnone HP HPi Hk Hpaid Hnf.
  pose proof Hst as (Hip & _ & _ & Hf).
  assert (HtD : i_type (ino s dp) ≠ T_DEV) by (by rewrite Ht).
  unfold dirlink. rewrite (bind_ok _ _ _ None s);
    [|rewrite (dirlookup_spec dev_read dp name s n Hst Ht Hsz); by rewrite Hnone].
  mstep (get_inode_ok s dp Hip). rewrite Hsz.
  change (dirlink_loop dev_read ?f dp 0) with (dirlink_loop dev_read f dp (16 * Z.of_nat 0)).
  mstep by (apply (dirlink_loop_spec dev_read dp s n); [done|done|done|lia|zlia]).
  change (drop 0 ?l) with l. set (ents := entries (fs_ld s) (ino s dp) n) in *.
  destruct (dir_free_split ents) as (l1 & l2 & El & Hlen & Hc). rewrite <-Hlen.
  fold (dirent_name name). fold (new_dirent name inum).
  assert (Hn : length ents = n) by apply length_entries.
  assert (Hn' : length ents = (length l1 + length l2)%nat) by (rewrite El; apply length_app).
  pose proof (length_new_dirent name inum) as Hde.
  assert (Hnb : nblk (16 * Z.of_nat (length l1)) (Z.of_nat (length (new_dirent name inum))) = 1).
  { rewrite Hde. unfold nblk. simpl. zlia. }
  destruct (writei_spec dp dev_write s (16 * Z.of_nat (length l1)) (new_dirent name inum) P k)
    as (s' & P' & E & Hp & HPP & Hpd); try done; rewrite ?Hnb.
  - lia.
  - lia.
  - unfold new_dirent. apply Forall_app. split; [apply le16_bytes|by apply dirent_name_bytes].
  - eapply paid_weaken; [done|done|lia].
  - done.
  - exists s'. mstep E. rewrite Hde. split; [done|]. split; [|by exists P'].
    exists l1, l2. split; [done|]. split; [done|]. split; [done|]. cbv zeta.
    pose proof (wp_inode _ _ _ _ _ Hp) as Ei.
    assert (Ez : i_size (ino s' dp) = 16 * Z.of_nat (length (l1 ++ new_dirent name inum :: tail l2))).
    { rewrite Ei. cbn [i_size]. rewrite Hde, Hsz, length_app. simpl.
      destruct l2 as [|e l2]; simpl in *; lia. }
    split_and!; try done; [apply Hp|by rewrite Ei|by rewrite Ei|].
    apply list_eq. intros j. destruct (decide (j < length (l1 ++ new_dirent name inum :: tail l2))%nat) as [Hj|Hj].
    + rewrite lookup_entries by done.
      rewrite (entry_after_write s s' (length l1) (new_dirent name inum)) by (done || lia).
      case_decide as Ej.
      * subst j. by rewrite list_lookup_middle.
      * assert (Hjn : (j < n)%nat).
        { rewrite length_app in Hj. simpl in Hj. destruct l2 as [|e l2]; simpl in *; lia. }
        rewrite <-(lookup_entries (fs_ld s) (ino s dp) n j Hjn). fold ents. rewrite El.
        destruct (decide (j < length l1)%nat).
        -- by rewrite !lookup_app_l by done.
        -- rewrite !lookup_app_r by lia. destruct l2 as [|e l2]; simpl in *; [lia|].
           destruct (j - length l1)%nat eqn:Ed; [lia|done].
    + rewrite !lookup_ge_None_2; [done|lia|]. rewrite length_entries. lia.
Qed.
End link.

(** The entries of a directory with [name] linked: in the first unused one, or
    behind the last. *)
Definition dir_link (ents : list (list Z)) (name : list Z) (inum : Z) : list (list Z) :=
  let j := dir_free ents 0 in take j ents ++ new_dirent name inum :: drop (S j) ents.

Lemma dir_link_split l1 l2 name inum :
  length l1 = dir_free (l1 ++ l2) 0 → dir_link (l1 ++ l2) name inum = l1 ++ new_dirent name inum :: tail l2.
Proof.
  intros H. unfold dir_link. rewrite <-H, take_app_length. f_equal. f_equal.
  rewrite drop_app_ge by lia. replace (S (length l1) - length l1)%nat with 1%nat by lia. by destruct l2.
Qed.

(** ** Claims *)

(** C21. Linking a name: on a directory in which [name] does not occur,
    [dirlink] puts one entry for it into the first unused slot, or behind the
    last entry if all are used, and keeps all others as and where they are; so
    afterwards [dirlookup] resolves [name], and every name equal to it in its
    first 14 bytes, to [inum] and the offset of that slot, and every other name as
    before.  This is inside a transaction with room for two blocks beyond the
    bitmap block and the block of the directory's inode, on a disk with two free
    blocks, for a directory that one more entry does not make larger than a file
    can be; without them the code may panic. *)
Theorem dirlink_dirlookup pid dev_read dev_write dp s n name inum P k :
  fstate dp s → i_type (ino s dp) = T_DIR → i_size (ino s dp) = 16 * Z.of_nat n →
  16 * Z.of_nat (S n) ≤ 71680 → Forall is_byte name → 0 < inum < 65536 →
  dinode_ok (disk_fields (ino s dp)) →
  dir_find (entries (fs_ld s) (ino s dp) n) name 0 = None →
  sb_bmapstart (fs_sb s) ∈ P → IBLOCK (i_inum (ino s dp)) (fs_sb s) ∈ P → 0 ≤ k →
  paid (fs_ld s) P (k + 2) → nfree (fs_ld s) (fs_sb s) 2 →
  let ents := entries (fs_ld s) (ino s dp) n in
  let ents' := dir_link ents name inum in
  ∃ s', dirlink pid dev_read dev_write dp name inum s = Ok 0 s' ∧
    i_size (ino s' dp) = 16 * Z.of_nat (length ents') ∧
    entries (fs_ld s') (ino s' dp) (length ents') = ents' ∧
    ∀ name', Forall is_byte name' →
      (same_name name' name →
        dirlookup dev_read dp name' s' =
          (ip ← iget (i_dev (ino s dp)) inum; mret (Some (ip, 16 * Z.of_nat (dir_free ents 0)))) s') ∧
      (¬ same_name name' name → dir_find ents' name' 0 = dir_find ents name' 0).
Proof.
  intros Hst Ht Hsz Hmax Hby Hi Hdk Hnone HP HPi Hk Hpaid Hnf ents ents'. subst ents'.
  destruct (dirlink_ok pid dev_read dev_write dp s n name inum P k)
    as (s' & E & (l1 & l2 & El & Hlen & Hc & Hst' & Ht' & Hdev & Hsz' & Hents & Hp) & _); try done.
  fold ents in El, Hlen. rewrite <-Hlen. rewrite El in Hlen |- *. rewrite (dir_link_split l1 l2 name inum Hlen).
  exists s'. split; [done|]. split; [done|]. split; [done|]. intros name' Hby'.
  pose proof (matches_new name name' inum Hby Hby' Hi) as Hm.
  assert (Hfind : dir_find (l1 ++ new_dirent name inum :: tail l2) name' 0 =
    if matches name' (new_dirent name inum) then Some (length l1)
    else dir_find (l1 ++ l2) name' 0).
  { apply dir_find_link; [done|]. intros Hmt. rewrite <-El.
    rewrite (dir_find_same _ name name'); try done; [|by apply Hm].
    apply Forall_fmap, Forall_true. intros q. apply (entry_bytes _ (fs_sb s)), Hst. }
  split; intros Hn.
  - apply Hm in Hn. rewrite Hn in Hfind.
    rewrite (dirlookup_spec dev_read dp name' s' _ Hst' Ht' Hsz'), Hents, Hfind, Hdev.
    assert (Hj : entries (fs_ld s') (ino s' dp) (length (l1 ++ new_dirent name inum :: tail l2))
      !! length l1 = Some (new_dirent name inum)) by (rewrite Hents; by apply list_lookup_middle).
    rewrite lookup_entries in Hj by (rewrite length_app; simpl; lia).
    apply (inj Some) in Hj. rewrite Hj. by rewrite de_inum_new by lia.
  - rewrite Hfind. destruct (matches name' (new_dirent name inum)); [|done].
    by destruct Hn; apply Hm.
Qed.

Lemma dirlink_dirlookup_witness :
  ∃ s', dirlink 7 (λ _, None) (λ _, None) 0 [97; 98] 5 (demo_fs T_DIR) = Ok 0 s' ∧
    i_size (ino s' 0) = 16 ∧ entries (fs_ld s') (ino s' 0) 1 = [new_dirent [97; 98] 5] ∧
    dirlookup (λ _, None) 0 [97; 98] s' = (ip ← iget 1 5; mret (Some (ip, 0))) s'.
Proof.
  destruct (dirlink_dirlookup 7 (λ _, None) (λ _, None) 0 (demo_fs T_DIR) 0 [97; 98] 5 [3; 2] 0)
    as (s' & E & Hsz & He & Hl).
  - apply demo_fstate.
  - reflexivity.
  - reflexivity.
  - lia.
  - repeat constructor; lia.
  - lia.
  - apply demo_dinode. unfold T_DIR. lia.
  - reflexivity.
  - by left.
  - right. by left.
  - lia.
  - apply demo_paid. lia.
  - destruct demo_nfree as (F & H1 & H2 & H3). exists F. split; [exact H1|split; [lia|exact H3]].
  - exists s'. split; [exact E|]. split; [exact Hsz|]. split; [exact He|].
    apply (Hl [97; 98]); [repeat constructor; lia|reflexivity].
Defined.
