(* ===== verification/FsPath.v ===== *)
(** * Path names (fs.c: skipelem)

    [path_elems] splits a path at its slashes; [skipelem] is shown to return
    its elements one by one, cut to [DIRSIZ] bytes, and to make progress. *)

From Stdlib Require Import ZArith Lia.
From stdpp Require Import base numbers strings gmap list.
From S2P Require Import Prelude Memory Locks Bytes Disk Fs.

(** The reference: the maximal runs of non-slash bytes. *)
Fixpoint split_path (path cur : list Z) : list (list Z) :=
  match path with
  | [] => if decide (cur = []) then [] else [cur]
  | c :: path =>
      if c =? SLASH then
        if decide (cur = []) then split_path path [] else cur :: split_path path []
      else split_path path (cur ++ [c])
  end.
Definition path_elems (path : list Z) : list (list Z) := split_path path [].

(** The name in a [DIRSIZ]-byte buffer, up to its NUL. *)
Fixpoint upto_nul (l : list Z) : list Z :=
  match l with
  | [] => []
  | c :: l => if c =? 0 then [] else c :: upto_nul l
  end.
Definition cname (buf : list Z) : list Z := upto_nul (take 14 buf).

(** Calling [skipelem] until it returns null: the names it stores. *)
Fixpoint skip_all (fuel : nat) (path name : list Z) : option (list (list Z)) :=
  match fuel with
  | O => None
  | S fuel =>
      match skipelem path name with
      | None => Some []
      | Some (rest, name) => cons (cname name) <$> skip_all fuel rest name
      end
  end.

Lemma split_slashes path : split_path (skip_slashes path) [] = split_path path [].
Proof.
  induction path as [|c path IH]; [done|]. simpl. destruct (Z.eqb_spec c SLASH) as [->|Hc].
  - exact IH.
  - simpl. by destruct (Z.eqb_spec c SLASH).
Qed.

Lemma skip_slashes_head path c rest : skip_slashes path = c :: rest → c ≠ SLASH.
Proof.
  induction path as [|x path IH]; [done|]. simpl. destruct (Z.eqb_spec x SLASH); [done|].
  by intros [= -> ->].
Qed.
Lemma skip_slashes_length path : (length (skip_slashes path) ≤ length path)%nat.
Proof. induction path as [|c path IH]; [done|]. simpl. destruct (c =? SLASH); simpl; lia. Qed.
Lemma skip_slashes_nonul path : 0 ∉ path → 0 ∉ skip_slashes path.
Proof. induction path as [|c path IH]; [done|]. simpl. destruct (c =? SLASH); set_solver. Qed.

Lemma span_elem_spec path s rest :
  span_elem path = (s, rest) →
  path = s ++ rest ∧ (SLASH ∉ s) ∧ (rest = [] ∨ ∃ r, rest = SLASH :: r).
Proof.
  revert s rest. induction path as [|c path IH]; intros s rest; simpl.
  { intros [= <- <-]. split_and!; [done|apply not_elem_of_nil|by left]. }
  destruct (Z.eqb_spec c SLASH) as [->|Hc].
  - intros [= <- <-]. split_and!; [done|apply not_elem_of_nil|right; eauto].
  - destruct (span_elem path) as [s' r'] eqn:E. intros [= <- <-].
    destruct (IH _ _ eq_refl) as (-> & Hs & Hr). split_and!; [done| |done].
    apply not_elem_of_cons. split; [congruence|done].
Qed.

Lemma split_path_app s rest cur :
  SLASH ∉ s → split_path (s ++ rest) cur = split_path rest (cur ++ s).
Proof.
  revert cur. induction s as [|c s IH]; intros cur Hs; [by rewrite app_nil_r|].
  apply not_elem_of_cons in Hs as [Hc Hs]. simpl. destruct (Z.eqb_spec c SLASH); [congruence|].
  rewrite IH by done. by rewrite <-app_assoc.
Qed.

Lemma upto_nul_clean s l : 0 ∉ s → upto_nul (s ++ 0 :: l) = s.
Proof.
  induction s as [|c s IH]; intros H; [done|]. apply not_elem_of_cons in H as [Hc H].
  simpl. destruct (Z.eqb_spec c 0); [congruence|]. by rewrite IH.
Qed.
Lemma upto_nul_all s : 0 ∉ s → upto_nul s = s.
Proof.
  induction s as [|c s IH]; intros H; [done|]. apply not_elem_of_cons in H as [Hc H].
  simpl. destruct (Z.eqb_spec c 0); [congruence|]. by rewrite IH.
Qed.

Lemma skipelem_none path name : skipelem path name = None ↔ path_elems path = [].
Proof.
  unfold skipelem, path_elems. rewrite <-split_slashes.
  destruct (skip_slashes path) as [|c p] eqn:E.
  - by simpl.
  - destruct (span_elem (c :: p)) as [s rest] eqn:Es. split; [done|]. intros H. exfalso.
    pose proof (skip_slashes_head _ _ _ E) as Hc.
    destruct (span_elem_spec _ _ _ Es) as (Ep & Hs & Hr). rewrite Ep in H.
    rewrite split_path_app in H by done. simpl in H.
    assert (s ≠ []) as Hne.
    { intros ->. destruct Hr as [->|[r ->]]; [done|]. simpl in Ep. congruence. }
    destruct Hr as [->|[r ->]]; simpl in H.
    + by rewrite decide_False in H.
    + by rewrite decide_False in H.
Qed.

Lemma skipelem_some path name rest name' :
  length name = 14%nat → 0 ∉ path → skipelem path name = Some (rest, name') →
  ∃ e, path_elems path = e :: path_elems rest ∧ cname name' = take 14 e ∧
    length name' = 14%nat ∧ (0 ∉ rest) ∧ (length rest < length path)%nat ∧
    skip_slashes rest = rest.
Proof.
  intros Hn H0. unfold skipelem, path_elems. rewrite <-(split_slashes path).
  pose proof (skip_slashes_nonul path H0) as H0'. pose proof (skip_slashes_length path) as Hlp.
  destruct (skip_slashes path) as [|c p] eqn:E; [done|].
  destruct (span_elem (c :: p)) as [s r] eqn:Es. intros [= <- <-].
  pose proof (skip_slashes_head _ _ _ E) as Hc.
  destruct (span_elem_spec _ _ _ Es) as (Ep & Hs & Hr).
  assert (s ≠ []) as Hne.
  { intros ->. destruct Hr as [->|[r' ->]]; [done|]. simpl in Ep. congruence. }
  assert (H0s : 0 ∉ s) by (rewrite Ep in H0'; set_solver).
  exists s. rewrite split_slashes. split_and!.
  - rewrite Ep, split_path_app by done. simpl.
    destruct Hr as [->|[r' ->]]; simpl; by rewrite decide_False.
  - unfold cname. change (Z.to_nat DIRSIZ) with 14%nat. unfold DIRSIZ.
    destruct (Z.geb_spec (Z.of_nat (length s)) 14).
    + unfold splice. simpl. rewrite drop_ge by (rewrite length_take; lia).
      rewrite app_nil_r, take_take, Nat.min_id. apply upto_nul_all.
      intros Hin. apply H0s. apply elem_of_take in Hin as (j & Hj & _). by eapply list_elem_of_lookup_2.
    + unfold splice. simpl. rewrite <-app_assoc. simpl.
      rewrite take_app_ge by lia. destruct (14 - length s)%nat as [|k] eqn:Ek; [lia|].
      cbn [take]. rewrite upto_nul_clean by done. by rewrite take_ge by lia.
  - unfold DIRSIZ. destruct (Z.geb_spec (Z.of_nat (length s)) 14).
    + rewrite length_splice; [done|]. rewrite length_take. change (Z.to_nat 14) with 14%nat. lia.
    + rewrite length_splice; [done|]. rewrite length_app. simpl. lia.
  - apply skip_slashes_nonul. rewrite Ep in H0'. set_solver.
  - pose proof (skip_slashes_length r). rewrite Ep, length_app in Hlp.
    destruct s; [done|]. simpl in *. lia.
  - clear. induction r as [|c r IH]; [done|]. simpl. destruct (c =? SLASH) eqn:E; [done|].
    simpl. by rewrite E.
Qed.

Lemma skip_all_spec fuel path name :
  length name = 14%nat → 0 ∉ path → (length path < fuel)%nat →
  skip_all fuel path name = Some (take 14 <$> path_elems path).
Proof.
  revert path name. induction fuel as [|fuel IH]; intros path name Hn H0 Hf; [lia|]. simpl.
  destruct (skipelem path name) as [[rest name']|] eqn:E.
  - destruct (skipelem_some _ _ _ _ Hn H0 E) as (e & -> & Ec & Hn' & H0' & Hl & _).
    rewrite IH by (done || lia). by rewrite Ec.
  - apply skipelem_none in E. by rewrite E.
Qed.

(** ** Claims *)

(** Path names: calling [skipelem] until it returns null yields the
    elements between the slashes of the path, in order, without empty ones
    and each cut to 14 bytes, and it returns null after at most as many calls
    as the path has bytes. *)
Theorem skipelem_splits_path path name :
  length name = 14%nat → 0 ∉ path →
  skip_all (S (length path)) path name = Some (take 14 <$> path_elems path).
Proof. intros Hn H0. apply skip_all_spec; [done|done|lia]. Qed.

(** "//usr//rtm" has the elements "usr" and "rtm". *)
Lemma skipelem_splits_path_witness :
  skip_all 11 [47; 47; 117; 115; 114; 47; 47; 114; 116; 109] (replicate 14 0) =
    Some [[117; 115; 114]; [114; 116; 109]].
Proof.
  refine (skipelem_splits_path [47; 47; 117; 115; 114; 47; 47; 114; 116; 109] (replicate 14 0) _ _).
  - reflexivity.
  - apply (bool_decide_unpack _). by vm_compute.
Defined.
