(* ===== verification/Grep.v ===== *)
(** * grep (grep.c)

    The regular expression matcher and the line loop of grep.  The matcher is
    shown equivalent to the language of the expression, and the loop, run on a
    regular file, to print exactly the matching lines.  C strings are lists of
    their bytes without the final NUL. *)

From Stdlib Require Import ZArith Lia.
From stdpp Require Import base numbers list.
From S2P Require Import Prelude.

Definition CARET : Z := 94.
Definition DOLLAR : Z := 36.
Definition STAR : Z := 42.
Definition DOT : Z := 46.
Definition NEWLINE : Z := 10.

(** ** The matcher *)

(** The loop of [matchstar], for a given matcher of the rest. *)
Fixpoint star_loop (here : list Z → bool) (c : Z) (text : list Z) : bool :=
  if here text then true
  else match text with
       | [] => false
       | t :: text => if (t =? c) || (c =? DOT) then star_loop here c text else false
       end.

Fixpoint matchhere (re text : list Z) : bool :=
  match re with
  | [] => true
  | c :: re1 =>
      match re1 with
      | s :: re2 =>
          if s =? STAR then star_loop (matchhere re2) c text
          else
            match text with
            | t :: text => if (c =? DOT) || (c =? t) then matchhere re1 text else false
            | [] => false
            end
      | [] =>
          if c =? DOLLAR then match text with [] => true | _ => false end
          else
            match text with
            | t :: text => if (c =? DOT) || (c =? t) then matchhere re1 text else false
            | [] => false
            end
      end
  end.

Definition matchstar (c : Z) (re text : list Z) : bool := star_loop (matchhere re) c text.

Fixpoint match_loop (re text : list Z) : bool :=
  if matchhere re text then true
  else match text with [] => false | _ :: text => match_loop re text end.

Definition match_re (re text : list Z) : bool :=
  match re with
  | c :: re1 => if c =? CARET then matchhere re1 text else match_loop re text
  | [] => match_loop re text
  end.

(** ** The line loop

    [read s n] is the result of [read(fd, .., n)] in state [s] of the file:
    the bytes delivered (none at the end of the file) and the next state.
    [grep] carries the [m] bytes of the buffer that are not yet printed, and
    returns what it wrote to file descriptor 1. *)

(** [strchr(p, '\n')]: the bytes before and after the first newline. *)
Fixpoint strchr_nl (p : list Z) : option (list Z * list Z) :=
  match p with
  | [] => None
  | c :: p =>
      if c =? 0 then None
      else if c =? NEWLINE then Some ([], p)
      else '(l, r) ← strchr_nl p; Some (c :: l, r)
  end.

(** The inner loop: what it prints, and the bytes after the last newline. *)
Fixpoint grep_lines (fuel : nat) (pattern p : list Z) : option (list Z * list Z) :=
  match fuel with
  | O => None
  | S fuel =>
      match strchr_nl p with
      | None => Some ([], p)
      | Some (line, rest) =>
          '(out, p') ← grep_lines fuel pattern rest;
          Some ((if match_re pattern line then line ++ [NEWLINE] else []) ++ out, p')
      end
  end.

Section grep.
Context {S : Type} (read : S → Z → list Z * S).

Fixpoint grep_loop (fuel : nat) (pattern buf : list Z) (s : S) : option (list Z) :=
  match fuel with
  | O => None
  | Datatypes.S fuel =>
      let '(data, s) := read s (1024 - Z.of_nat (length buf) - 1) in
      if bool_decide (data = []) then Some []
      else
        let buf := buf ++ data in
        '(out, p) ← grep_lines (Datatypes.S (length buf)) pattern buf;
        (* no newline in the buffer: the bytes are dropped *)
        let buf := if bool_decide (length p = length buf) then [] else p in
        out' ← grep_loop fuel pattern buf s;
        Some (out ++ out')
  end.
Definition grep (fuel : nat) (pattern : list Z) (s : S) : option (list Z) :=
  grep_loop fuel pattern [] s.
End grep.

(** ** The language of an expression *)

Inductive atom := Any | Lit (c : Z).
Inductive item := One (a : atom) | Star (a : atom).
Record regex := Regex { rx_bol : bool; rx_items : list item; rx_eol : bool }.

Definition atom_of (c : Z) : atom := if c =? DOT then Any else Lit c.
Fixpoint parse_items (re : list Z) : list item * bool :=
  match re with
  | [] => ([], false)
  | c :: re1 =>
      match re1 with
      | s :: re2 =>
          if s =? STAR then let '(r, e) := parse_items re2 in (Star (atom_of c) :: r, e)
          else let '(r, e) := parse_items re1 in (One (atom_of c) :: r, e)
      | [] => if c =? DOLLAR then ([], true) else ([One (atom_of c)], false)
      end
  end.
Definition parse_re (re : list Z) : regex :=
  match re with
  | c :: re1 =>
      if c =? CARET then let '(r, e) := parse_items re1 in Regex true r e
      else let '(r, e) := parse_items re in Regex false r e
  | [] => Regex false [] false
  end.

Definition atom_ok (a : atom) (c : Z) : Prop :=
  match a with Any => True | Lit d => c = d end.
Fixpoint lang (r : list item) (w : list Z) : Prop :=
  match r with
  | [] => w = []
  | One a :: r => ∃ c w', w = c :: w' ∧ atom_ok a c ∧ lang r w'
  | Star a :: r => ∃ w1 w2, w = w1 ++ w2 ∧ Forall (atom_ok a) w1 ∧ lang r w2
  end.
Definition prefix_lang (r : list item) (eol : bool) (text : list Z) : Prop :=
  ∃ w post, text = w ++ post ∧ lang r w ∧ (eol = true → post = []).
Definition re_matches (x : regex) (text : list Z) : Prop :=
  ∃ pre w post, text = pre ++ w ++ post ∧ lang (rx_items x) w ∧
    (rx_bol x = true → pre = []) ∧ (rx_eol x = true → post = []).

Lemma atom_of_ok c t : atom_ok (atom_of c) t ↔ (c =? DOT) || (c =? t) = true.
Proof.
  unfold atom_of. destruct (Z.eqb_spec c DOT); simpl; [done|].
  rewrite Z.eqb_eq. naive_solver.
Qed.

Lemma star_loop_spec here c text :
  star_loop here c text = true ↔
  ∃ w post, text = w ++ post ∧ Forall (atom_ok (atom_of c)) w ∧ here post = true.
Proof.
  revert here. induction text as [|t text IH]; intros here; simpl.
  - destruct (here []) eqn:E; split; try done.
    + intros _. by exists [], [].
    + intros (w & post & H & _ & Hp). symmetry in H. apply app_eq_nil in H as [-> ->]. congruence.
  - destruct (here (t :: text)) eqn:E.
    { split; [|done]. intros _. by exists [], (t :: text). }
    assert (Ha : (t =? c) || (c =? DOT) = (c =? DOT) || (c =? t)).
    { by rewrite orb_comm, (Z.eqb_sym t c). }
    rewrite Ha. split.
    + destruct ((c =? DOT) || (c =? t)) eqn:Ec; [|discriminate]. rewrite IH. intros (w & post & -> & Hw & Hp).
      exists (t :: w), post. split_and!; [done| |done]. constructor; [by apply atom_of_ok|done].
    + intros (w & post & Eq & Hw & Hp). destruct w as [|t' w]; simplify_eq/=; [congruence|].
      apply Forall_cons in Hw as [Ht Hw]. apply atom_of_ok in Ht. rewrite Ht. apply IH. eauto.
Qed.

Lemma prefix_lang_one c r e text :
  prefix_lang (One (atom_of c) :: r) e text ↔
  ∃ t text', text = t :: text' ∧ (c =? DOT) || (c =? t) = true ∧ prefix_lang r e text'.
Proof.
  split.
  - intros (w & post & -> & (t & w' & -> & Ht & Hw) & He). apply atom_of_ok in Ht.
    exists t, (w' ++ post). split_and!; [done..|]. by exists w', post.
  - intros (t & text' & -> & Ht & w & post & -> & Hw & He).
    exists (t :: w), post. split_and!; [done| |done]. exists t, w. by rewrite atom_of_ok.
Qed.

Lemma prefix_lang_star c r e text :
  prefix_lang (Star (atom_of c) :: r) e text ↔
  ∃ w post, text = w ++ post ∧ Forall (atom_ok (atom_of c)) w ∧ prefix_lang r e post.
Proof.
  split.
  - intros (w & post & -> & (w1 & w2 & -> & Hw1 & Hw2) & He).
    exists w1, (w2 ++ post). rewrite <-app_assoc. split_and!; [done..|]. by exists w2, post.
  - intros (w1 & rest & -> & Hw1 & w2 & post & -> & Hw2 & He).
    exists (w1 ++ w2), post. rewrite <-app_assoc. split_and!; [done| |done]. by exists w1, w2.
Qed.

Lemma one_char (c : Z) (text : list Z) (b : list Z → bool) (P : list Z → Prop) :
  (∀ t, b t = true ↔ P t) →
  match text with t :: text => if (c =? DOT) || (c =? t) then b text else false | [] => false end = true ↔
  ∃ t text', text = t :: text' ∧ (c =? DOT) || (c =? t) = true ∧ P text'.
Proof.
  intros Hb. destruct text as [|t text].
  - split; [done|]. by intros (? & ? & ? & _).
  - destruct (_ || _) eqn:E.
    + rewrite Hb. naive_solver.
    + split; [done|]. naive_solver congruence.
Qed.

Lemma matchhere_spec re text :
  matchhere re text = true ↔ prefix_lang (parse_items re).1 (parse_items re).2 text.
Proof.
  revert text. induction re as [re IH] using (induction_ltof1 _ (@length Z)). unfold ltof in IH.
  intros text. destruct re as [|c re1].
  { split; [|done]. intros _. by exists [], text. }
  destruct re1 as [|s re2].
  - simpl. destruct (Z.eqb_spec c DOLLAR) as [->|Hd].
    + simpl. split.
      * destruct text; [|done]. intros _. by exists [], [].
      * intros (w & post & -> & -> & He). by rewrite He.
    + cbn [fst snd]. rewrite prefix_lang_one. apply (one_char c text (λ _, true)).
      intros t. split; [|done]. intros _. by exists [], t.
  - change (matchhere (c :: s :: re2) text) with
      (if s =? STAR then star_loop (matchhere re2) c text
       else match text with
            | t :: text => if (c =? DOT) || (c =? t) then matchhere (s :: re2) text else false
            | [] => false end).
    change (parse_items (c :: s :: re2)) with
      (if s =? STAR then let '(r, e) := parse_items re2 in (Star (atom_of c) :: r, e)
       else let '(r, e) := parse_items (s :: re2) in (One (atom_of c) :: r, e)).
    destruct (s =? STAR).
    + specialize (IH re2). destruct (parse_items re2) as [r e]. cbn [fst snd].
      rewrite star_loop_spec, prefix_lang_star. setoid_rewrite IH; [done|simpl; lia..].
    + specialize (IH (s :: re2)). destruct (parse_items (s :: re2)) as [r e]. cbn [fst snd].
      rewrite prefix_lang_one. apply one_char. intros t. apply IH. simpl. lia.
Qed.

Lemma match_loop_spec re text :
  match_loop re text = true ↔ ∃ pre rest, text = pre ++ rest ∧ matchhere re rest = true.
Proof.
  induction text as [|t text IH]; simpl.
  - destruct (matchhere re []) eqn:E; split; try done.
    + intros _. by exists [], [].
    + intros (pre & rest & H & Hm). symmetry in H. apply app_eq_nil in H as [-> ->]. congruence.
  - destruct (matchhere re (t :: text)) eqn:E.
    { split; [|done]. intros _. by exists [], (t :: text). }
    rewrite IH. split.
    + intros (pre & rest & -> & Hm). by exists (t :: pre), rest.
    + intros (pre & rest & Eq & Hm). destruct pre as [|t' pre]; simplify_eq/=; [congruence|]. eauto.
Qed.

Lemma match_re_spec re text : match_re re text = true ↔ re_matches (parse_re re) text.
Proof.
  assert (Hl : match_loop re text = true ↔
    re_matches (Regex false (parse_items re).1 (parse_items re).2) text).
  { rewrite match_loop_spec. split.
    - intros (pre & rest & -> & Hm). apply matchhere_spec in Hm as (w & post & -> & Hw & He).
      by exists pre, w, post.
    - intros (pre & w & post & -> & Hw & _ & He). exists pre, (w ++ post). split; [done|].
      apply matchhere_spec. by exists w, post. }
  destruct re as [|c re1].
  { simpl in *. exact Hl. }
  unfold match_re, parse_re. destruct (c =? CARET) eqn:E.
  - rewrite matchhere_spec. destruct (parse_items re1) as [r e]. split.
    + intros (w & post & -> & Hw & He). by exists [], w, post.
    + intros (pre & w & post & -> & Hw & Hp & He). rewrite Hp by done. by exists w, post.
  - destruct (parse_items (c :: re1)) as [r e]. exact Hl.
Qed.

(** ** The lines of a file *)

(** The lines of a text whose last line ends in a newline. *)
Definition text_of (lines : list (list Z)) : list Z := concat ((λ l, l ++ [NEWLINE]) <$> lines).
Definition line_ok (l : list Z) : Prop := (0 ∉ l) ∧ (NEWLINE ∉ l).
Definition selected (pattern : list Z) (lines : list (list Z)) : list (list Z) :=
  filter (λ l, match_re pattern l = true) lines.

(** Reading a regular file: up to [n] bytes from the current offset. *)
Definition file_read (data : list Z) (n : Z) : list Z * list Z :=
  (take (Z.to_nat n) data, drop (Z.to_nat n) data).

Lemma text_of_cons l ls : text_of (l :: ls) = l ++ NEWLINE :: text_of ls.
Proof. unfold text_of. simpl. by rewrite <-app_assoc. Qed.
Lemma text_of_app ls ls' : text_of (ls ++ ls') = text_of ls ++ text_of ls'.
Proof. unfold text_of. by rewrite fmap_app, concat_app. Qed.

Lemma strchr_nl_line l rest : line_ok l → strchr_nl (l ++ NEWLINE :: rest) = Some (l, rest).
Proof.
  induction l as [|c l IH]; intros [H0 Hn]; [done|].
  apply not_elem_of_cons in H0 as [Hc0 H0]. apply not_elem_of_cons in Hn as [Hcn Hn]. simpl.
  destruct (Z.eqb_spec c 0); [congruence|]. destruct (Z.eqb_spec c NEWLINE); [congruence|].
  by rewrite IH.
Qed.
Lemma strchr_nl_none p : NEWLINE ∉ p → strchr_nl p = None.
Proof.
  induction p as [|c p IH]; intros Hn; [done|]. apply not_elem_of_cons in Hn as [Hcn Hn]. simpl.
  destruct (c =? 0); [done|]. destruct (Z.eqb_spec c NEWLINE); [congruence|]. by rewrite IH.
Qed.

Lemma grep_lines_spec fuel pattern ls p :
  Forall line_ok ls → NEWLINE ∉ p → (length ls < fuel)%nat →
  grep_lines fuel pattern (text_of ls ++ p) = Some (text_of (selected pattern ls), p).
Proof.
  revert fuel. induction ls as [|l ls IH]; intros fuel Hls Hp Hf; (destruct fuel as [|fuel]; [lia|]).
  - simpl. by rewrite strchr_nl_none.
  - apply Forall_cons in Hls as [Hl Hls]. simpl in Hf.
    rewrite text_of_cons, <-app_assoc. simpl. rewrite strchr_nl_line by done.
    rewrite IH by (done || lia). simpl. unfold selected. rewrite filter_cons.
    case_decide as Hm.
    + rewrite Hm. rewrite text_of_cons, <-app_assoc. done.
    + destruct (match_re pattern l); done.
Qed.

(** Cutting a text at a position: whole lines, and the beginning of a line. *)
Lemma text_cut ls k :
  Forall line_ok ls →
  ∃ ls1 ls2 p, ls = ls1 ++ ls2 ∧ take k (text_of ls) = text_of ls1 ++ p ∧
    p ++ drop k (text_of ls) = text_of ls2 ∧ (0 ∉ p) ∧ (NEWLINE ∉ p) ∧
    (length p < length (text_of ls2) ∨ ls2 = [])%nat.
Proof.
  revert k. induction ls as [|l ls IH]; intros k Hls.
  { exists [], [], []. change (text_of []) with (@nil Z). rewrite take_nil, drop_nil. split_and!; try done; [apply not_elem_of_nil..|by right]. }
  apply Forall_cons in Hls as [Hl Hls]. rewrite text_of_cons.
  destruct (decide (k ≤ length l)%nat) as [Hk|Hk].
  - exists [], (l :: ls), (take k l). rewrite text_of_cons. split_and!.
    + done.
    + simpl. by rewrite take_app_le by lia.
    + rewrite drop_app_le by lia. by rewrite app_assoc, take_drop.
    + intros H. apply (proj1 Hl). apply elem_of_take in H as (j & Hj & _). by eapply list_elem_of_lookup_2.
    + intros H. apply (proj2 Hl). apply elem_of_take in H as (j & Hj & _). by eapply list_elem_of_lookup_2.
    + left. rewrite length_take, length_app. simpl. lia.
  - destruct (IH (k - S (length l))%nat Hls) as (ls1 & ls2 & p & -> & Ht & Hd & H0 & Hn & Hlen).
    exists (l :: ls1), ls2, p. split_and!; try done.
    + rewrite text_of_cons, <-app_assoc. simpl. rewrite take_app_ge by lia.
      destruct (k - length l)%nat as [|j] eqn:Ej; [lia|]. cbn [take].
      replace (k - S (length l))%nat with j in Ht by lia. by rewrite Ht.
    + rewrite drop_app_ge by lia. destruct (k - length l)%nat as [|j] eqn:Ej; [lia|]. cbn [drop].
      by replace (k - S (length l))%nat with j in Hd by lia.
Qed.

Lemma text_of_nil_inv ls : text_of ls = [] → ls = [].
Proof. destruct ls as [|l ls]; [done|]. rewrite text_of_cons. by destruct l. Qed.
Lemma length_lines ls : (length ls ≤ length (text_of ls))%nat.
Proof. induction ls as [|l ls IH]; [done|]. rewrite text_of_cons, length_app. simpl. lia. Qed.

Lemma grep_loop_spec fuel pattern buf data ls :
  Forall line_ok ls → Forall (λ l, length l < 1023)%nat ls →
  buf ++ data = text_of ls → (NEWLINE ∉ buf) → (length buf < length (text_of ls) ∨ ls = [])%nat →
  (length data < fuel)%nat →
  grep_loop file_read fuel pattern buf data = Some (text_of (selected pattern ls)).
Proof.
  revert buf data ls. induction fuel as [|fuel IH]; intros buf data ls Hls Hlen E Hnb Hb Hf; [lia|].
  cbn [grep_loop]. unfold file_read at 1. cbv zeta.
  destruct (decide (ls = [])) as [->|Hne].
  { apply app_eq_nil in E as [-> ->]. by rewrite take_nil. }
  destruct Hb as [Hb|]; [|done].
  destruct ls as [|l ls']; [done|]. set (ls := l :: ls') in *.
  (* the pending bytes begin the first line *)
  assert (Hbl : (length buf ≤ length l)%nat).
  { subst ls. rewrite text_of_cons in E. destruct (decide (length buf ≤ length l)%nat); [done|].
    exfalso. apply Hnb. apply (list_elem_of_lookup_2 _ (length l)).
    rewrite <-(lookup_app_l buf data) by lia. rewrite E. by apply list_lookup_middle. }
  assert (Hll : (length l < 1023)%nat) by (by apply Forall_cons in Hlen as [? _]).
  set (n := Z.to_nat (1024 - Z.of_nat (length buf) - 1)).
  assert (Hn : n = (1023 - length buf)%nat) by lia. clearbody n.
  assert (Hdne : data ≠ []).
  { intros ->. rewrite app_nil_r in E. rewrite E in Hb. lia. }
  rewrite bool_decide_eq_false_2.
  2:{ destruct data; [done|]. destruct n eqn:En; [lia|]. done. }
  assert (Etk : buf ++ take n data = take 1023 (text_of ls)).
  { rewrite <-E, take_app_ge by lia. by rewrite Hn. }
  assert (Edr : drop n data = drop 1023 (text_of ls)).
  { rewrite <-E, drop_app_ge by lia. by rewrite Hn. }
  rewrite Etk, Edr.
  destruct (text_cut ls 1023 Hls) as (ls1 & ls2 & p & Els & Ht & Hd & H0 & Hnp & Hl2).
  rewrite Ht. rewrite grep_lines_spec.
  2:{ rewrite Els in Hls. by apply Forall_app in Hls as [? _]. }
  2:{ done. }
  2:{ rewrite length_app. pose proof (length_lines ls1). lia. }
  cbn [mbind option_bind].
  assert (Hls1 : ls1 ≠ []).
  { intros ->. simpl in Ht, Els. subst ls2. unfold ls in Ht. rewrite text_of_cons in Ht.
    change (l ++ NEWLINE :: text_of ls') with (l ++ ([NEWLINE] ++ text_of ls')) in Ht.
    rewrite app_assoc, take_app_ge in Ht by (rewrite length_app; simpl; lia).
    apply Hnp. rewrite <-Ht. apply elem_of_app. left. apply elem_of_app. right. by apply list_elem_of_singleton. }
  rewrite bool_decide_eq_false_2.
  2:{ rewrite length_app. intros Heq. apply Hls1, text_of_nil_inv, length_zero_iff_nil. lia. }
  rewrite (IH p (drop 1023 (text_of ls)) ls2).
  - simpl. unfold selected. by rewrite Els, filter_app, text_of_app.
  - rewrite Els in Hls. by apply Forall_app in Hls as [_ ?].
  - rewrite Els in Hlen. by apply Forall_app in Hlen as [_ ?].
  - done.
  - done.
  - done.
  - rewrite <-Edr, length_drop. destruct data; [done|]. simpl in *. lia.
Qed.

(** ** Claims *)

(** C33. The regular expression matcher of grep is correct: [match] returns 1
    on a line exactly when some part of the line, anchored at its beginning by
    a leading ^ and at its end by a final $, belongs to the language of the
    expression, where c* stands for any number of c and a dot for any
    character.  This covers termination of the mutually recursive matcher. *)
Theorem match_is_language re text :
  match_re re text = true ↔ re_matches (parse_re re) text.
Proof. apply match_re_spec. Qed.

(** On a regular file whose lines are shorter than the buffer (1023 bytes
    with the newline) and contain no NUL, [grep] terminates and prints exactly
    the lines that match, in order, although it reads the file in pieces that
    cut lines at arbitrary places. *)
Theorem grep_prints_matching_lines pattern lines :
  Forall line_ok lines → Forall (λ l, length l < 1023)%nat lines →
  grep file_read (S (length (text_of lines))) pattern (text_of lines) =
    Some (text_of (selected pattern lines)).
Proof.
  intros Hl Hlen. unfold grep. apply grep_loop_spec; try done; try lia.
  - apply not_elem_of_nil.
  - destruct lines as [|l ls]; [by right|left]. rewrite text_of_cons, length_app. simpl. lia.
Qed.

(** "a.c" selects "xabc" and "aac" but not "ac". *)
Lemma grep_prints_matching_lines_witness :
  let lines := [[120; 97; 98; 99]; [97; 99]; [97; 97; 99]] in
  grep file_read (S (length (text_of lines))) [97; 46; 99] (text_of lines) =
    Some (text_of [[120; 97; 98; 99]; [97; 97; 99]]).
Proof.
  refine (grep_prints_matching_lines [97; 46; 99] [[120; 97; 98; 99]; [97; 99]; [97; 97; 99]] _ _).
  - apply (bool_decide_unpack _). by vm_compute.
  - apply (bool_decide_unpack _). by vm_compute.
Defined.

(** A read that delivers part of a line only (from a pipe, say) makes
    [grep] drop those bytes: "ab" followed by "c\n" is not matched by "abc"
    when the two arrive separately, but is when they arrive together. *)
Theorem grep_drops_partial_read :
  let read (s : list (list Z)) (_ : Z) := match s with [] => ([], []) | d :: s => (d, s) end in
  grep read 10 [97; 98; 99] [[97; 98]; [99; NEWLINE]] = Some [] ∧
  grep read 10 [97; 98; 99] [[97; 98; 99; NEWLINE]] = Some [97; 98; 99; NEWLINE].
Proof. split; reflexivity. Qed.
