(* ===== verification/Kbd.v ===== *)
(** * The keyboard driver (kbd.c, kbd.h)

    [kbdgetc] turns the scan codes of the keyboard controller into characters
    and keeps track of the modifier keys in its static variable [shift].  A
    call takes the values read from the status and the data port.  The driver
    is related to a model of the modifier keys that knows nothing of bits. *)

From Stdlib Require Import ZArith Lia.
From stdpp Require Import base numbers list.
From S2P Require Import Prelude.

Definition KBS_DIB : Z := 0x01.
Definition SHIFT : Z := Z.shiftl 1 0.
Definition CTL : Z := Z.shiftl 1 1.
Definition ALT : Z := Z.shiftl 1 2.
Definition CAPSLOCK : Z := Z.shiftl 1 3.
Definition NUMLOCK : Z := Z.shiftl 1 4.
Definition SCROLLLOCK : Z := Z.shiftl 1 5.
Definition E0ESC : Z := Z.shiftl 1 6.

Definition KEY_HOME : Z := 0xE0.
Definition KEY_END : Z := 0xE1.
Definition KEY_UP : Z := 0xE2.
Definition KEY_DN : Z := 0xE3.
Definition KEY_LF : Z := 0xE4.
Definition KEY_RT : Z := 0xE5.
Definition KEY_PGUP : Z := 0xE6.
Definition KEY_PGDN : Z := 0xE7.
Definition KEY_INS : Z := 0xE8.
Definition KEY_DEL : Z := 0xE9.

(** An initialiser of a [uchar] array of 256 elements: the leading elements,
    then designated ones; the rest is zero. *)
Definition table (init : list Z) (desig : list (Z * Z)) : list Z :=
  foldr (λ '(i, v) l, <[Z.to_nat i := u8 v]> l)
    ((u8 <$> init) ++ replicate (256 - length init) 0) desig.
Definition tbl (t : list Z) (i : Z) : Z := default 0 (t !! Z.to_nat i).

Definition shiftcode : list Z := table []
  [(0x1D, CTL); (0x2A, SHIFT); (0x36, SHIFT); (0x38, ALT); (0x9D, CTL); (0xB8, ALT)].

Definition togglecode : list Z := table []
  [(0x3A, CAPSLOCK); (0x45, NUMLOCK); (0x46, SCROLLLOCK)].

Definition normalmap : list Z := table [
  0; 27; 49; 50; 51; 52; 53; 54;
  55; 56; 57; 48; 45; 61; 8; 9;
  113; 119; 101; 114; 116; 121; 117; 105;
  111; 112; 91; 93; 10; 0; 97; 115;
  100; 102; 103; 104; 106; 107; 108; 59;
  39; 96; 0; 92; 122; 120; 99; 118;
  98; 110; 109; 44; 46; 47; 0; 42;
  0; 32; 0; 0; 0; 0; 0; 0;
  0; 0; 0; 0; 0; 0; 0; 55;
  56; 57; 45; 52; 53; 54; 43; 49;
  50; 51; 48; 46; 0; 0; 0; 0] [
  (0x9C, 10); (0xB5, 47); (0xC8, KEY_UP); (0xD0, KEY_DN);
  (0xC9, KEY_PGUP); (0xD1, KEY_PGDN); (0xCB, KEY_LF); (0xCD, KEY_RT);
  (0x97, KEY_HOME); (0xCF, KEY_END); (0xD2, KEY_INS); (0xD3, KEY_DEL)].

Definition shiftmap : list Z := table [
  0; 27; 33; 64; 35; 36; 37; 94;
  38; 42; 40; 41; 95; 43; 8; 9;
  81; 87; 69; 82; 84; 89; 85; 73;
  79; 80; 123; 125; 10; 0; 65; 83;
  68; 70; 71; 72; 74; 75; 76; 58;
  34; 126; 0; 124; 90; 88; 67; 86;
  66; 78; 77; 60; 62; 63; 0; 42;
  0; 32; 0; 0; 0; 0; 0; 0;
  0; 0; 0; 0; 0; 0; 0; 55;
  56; 57; 45; 52; 53; 54; 43; 49;
  50; 51; 48; 46; 0; 0; 0; 0] [
  (0x9C, 10); (0xB5, 47); (0xC8, KEY_UP); (0xD0, KEY_DN);
  (0xC9, KEY_PGUP); (0xD1, KEY_PGDN); (0xCB, KEY_LF); (0xCD, KEY_RT);
  (0x97, KEY_HOME); (0xCF, KEY_END); (0xD2, KEY_INS); (0xD3, KEY_DEL)].

Definition ctlmap : list Z := table [
  0; 0; 0; 0; 0; 0; 0; 0;
  0; 0; 0; 0; 0; 0; 0; 0;
  17; 23; 5; 18; 20; 25; 21; 9;
  15; 16; 0; 0; 13; 0; 1; 19;
  4; 6; 7; 8; 10; 11; 12; 0;
  0; 0; 0; 28; 26; 24; 3; 22;
  2; 14; 13; 0; 0; -17; 0; 0] [
  (0x9C, 13); (0xB5, -17); (0xC8, KEY_UP); (0xD0, KEY_DN);
  (0xC9, KEY_PGUP); (0xD1, KEY_PGDN); (0xCB, KEY_LF); (0xCD, KEY_RT);
  (0x97, KEY_HOME); (0xCF, KEY_END); (0xD2, KEY_INS); (0xD3, KEY_DEL)].

Definition charcode (i : Z) : list Z :=
  match i with 0 => normalmap | 1 => shiftmap | _ => ctlmap end.

(** The new value of [shift] and the value returned. *)
Definition kbdgetc (shift st data : Z) : Z * Z :=
  if Z.land st KBS_DIB =? 0 then (shift, -1)
  else if data =? 0xE0 then (Z.lor shift E0ESC, 0)
  else if nz (Z.land data 0x80) then
    (* Key released *)
    let data := if nz (Z.land shift E0ESC) then data else Z.land data 0x7F in
    (Z.land shift (Z.lnot (Z.lor (tbl shiftcode data) E0ESC)), 0)
  else
    let '(shift, data) :=
      if nz (Z.land shift E0ESC) then (Z.land shift (Z.lnot E0ESC), Z.lor data 0x80)
      else (shift, data) in
    let shift := Z.lor shift (tbl shiftcode data) in
    let shift := Z.lxor shift (tbl togglecode data) in
    let c := tbl (charcode (Z.land shift (Z.lor CTL SHIFT))) data in
    let c := if nz (Z.land shift CAPSLOCK) then
               if (97 <=? c) && (c <=? 122) then c + (65 - 97)
               else if (65 <=? c) && (c <=? 90) then c + (97 - 65) else c
             else c in
    (shift, c).

(** The characters of a sequence of scan codes, one call per code. *)
Fixpoint kbd_run (shift : Z) (codes : list Z) : Z * list Z :=
  match codes with
  | [] => (shift, [])
  | data :: codes =>
      let '(shift, c) := kbdgetc shift KBS_DIB data in
      let '(shift, cs) := kbd_run shift codes in
      (shift, c :: cs)
  end.

(** ** The keyboard as the user sees it

    A scan code with the high bit set is a release; the prefix 0xE0 moves the
    next code to the second half of the key codes. *)

Record event := Event { ev_key : Z; ev_press : bool }.

Fixpoint events (e0 : bool) (codes : list Z) : list event * bool :=
  match codes with
  | [] => ([], e0)
  | d :: codes =>
      if d =? 0xE0 then events true codes
      else
        let '(es, e) := events false codes in
        (Event (d mod 128 + (if e0 then 128 else 0)) (d <? 128) :: es, e)
  end.

(** A modifier is on when its last event was a press; a lock is on after an odd
    number of presses. *)
Definition is_shift (k : Z) : bool := (k =? 0x2A) || (k =? 0x36).
Definition is_ctl (k : Z) : bool := (k =? 0x1D) || (k =? 0x9D).
Definition is_alt (k : Z) : bool := (k =? 0x38) || (k =? 0xB8).
Definition is_key (k0 k : Z) : bool := k =? k0.

Definition held (p : Z → bool) (on : bool) (es : list event) : bool :=
  foldl (λ on e, if p (ev_key e) then ev_press e else on) on es.
Definition toggled (p : Z → bool) (on : bool) (es : list event) : bool :=
  foldl (λ on e, if p (ev_key e) && ev_press e then negb on else on) on es.

Record mods := Mods {
  m_shift : bool; m_ctl : bool; m_alt : bool;
  m_caps : bool; m_num : bool; m_scroll : bool; m_e0 : bool }.
#[global] Instance mods_eq_dec : EqDecision mods.
Proof. solve_decision. Defined.
Definition mods0 : mods := Mods false false false false false false false.
Definition enc_mods (m : mods) : Z :=
  b2z (m_shift m) + 2 * b2z (m_ctl m) + 4 * b2z (m_alt m) + 8 * b2z (m_caps m)
  + 16 * b2z (m_num m) + 32 * b2z (m_scroll m) + 64 * b2z (m_e0 m).

Definition mods_after (m : mods) (codes : list Z) : mods :=
  let '(es, e0) := events (m_e0 m) codes in
  Mods (held is_shift (m_shift m) es) (held is_ctl (m_ctl m) es) (held is_alt (m_alt m) es)
    (toggled (is_key 0x3A) (m_caps m) es) (toggled (is_key 0x45) (m_num m) es)
    (toggled (is_key 0x46) (m_scroll m) es) e0.

(** The letters of the keyboard: scan code and lower-case character. *)
Definition letters : list (Z * Z) :=
  zip [0x10; 0x11; 0x12; 0x13; 0x14; 0x15; 0x16; 0x17; 0x18; 0x19]
      [113; 119; 101; 114; 116; 121; 117; 105; 111; 112] ++
  zip [0x1E; 0x1F; 0x20; 0x21; 0x22; 0x23; 0x24; 0x25; 0x26]
      [97; 115; 100; 102; 103; 104; 106; 107; 108] ++
  zip [0x2C; 0x2D; 0x2E; 0x2F; 0x30; 0x31; 0x32] [122; 120; 99; 118; 98; 110; 109].

(** *** All modifier states and bytes *)

Definition all_mods : list mods :=
  s ← [false; true]; c ← [false; true]; a ← [false; true]; k ← [false; true];
  n ← [false; true]; l ← [false; true]; e ← [false; true]; [Mods s c a k n l e].
Definition bytes256 : list Z := seqZ 0 256.

Lemma all_mods_in m : m ∈ all_mods.
Proof.
  apply (bool_decide_unpack _). destruct m as [[] [] [] [] [] [] []]; by vm_compute.
Qed.
Lemma byte_in b : 0 ≤ b < 256 → b ∈ bytes256.
Proof. intros. apply elem_of_seqZ. lia. Qed.

Definition step_check (m : mods) (d : Z) : bool :=
  let '(shift, c) := kbdgetc (enc_mods m) KBS_DIB d in
  (shift =? enc_mods (mods_after m [d])) && (0 <=? c) && (c <? 256).

Lemma step_checked m d : 0 ≤ d < 256 → step_check m d = true.
Proof.
  intros Hd.
  assert (H : forallb (λ m, forallb (step_check m) bytes256) all_mods = true) by by vm_compute.
  rewrite forallb_forall in H.
  specialize (H m (proj1 (list_elem_of_In _ _) (all_mods_in m))).
  rewrite forallb_forall in H. apply H, list_elem_of_In, byte_in, Hd.
Qed.

Lemma kbdgetc_step m d :
  0 ≤ d < 256 →
  ∃ c, kbdgetc (enc_mods m) KBS_DIB d = (enc_mods (mods_after m [d]), c) ∧ 0 ≤ c < 256.
Proof.
  intros Hd. pose proof (step_checked m d Hd) as H. unfold step_check in H.
  destruct (kbdgetc _ _ _) as [s c]. rewrite !andb_true_iff in H. destruct H as [[H1 H2] H3].
  exists c. split; [f_equal; lia|lia].
Qed.

Lemma mods_after_cons m d codes :
  mods_after m (d :: codes) = mods_after (mods_after m [d]) codes.
Proof.
  unfold mods_after. simpl. destruct (d =? 0xE0); simpl.
  - by destruct (events true codes).
  - by destruct (events false codes).
Qed.

(** ** Claims *)

(** The keyboard driver keeps track of the modifier keys: after any
    sequence of scan codes, the bits of [shift] say for Shift, Ctrl and Alt
    whether the last event of one of its keys was a press, for Caps, Num and
    Scroll Lock whether it was pressed an odd number of times, and whether an
    0xE0 prefix is pending; every call returns a byte. *)
Theorem kbd_tracks_modifiers m codes :
  Forall (λ d, 0 ≤ d < 256) codes →
  (kbd_run (enc_mods m) codes).1 = enc_mods (mods_after m codes) ∧
  length (kbd_run (enc_mods m) codes).2 = length codes ∧
  Forall (λ c, 0 ≤ c < 256) (kbd_run (enc_mods m) codes).2.
Proof.
  revert m. induction codes as [|d codes IH]; intros m Hc.
  - destruct m as [[] [] [] [] [] [] []]; by vm_compute.
  - apply Forall_cons in Hc as [Hd Hc]. destruct (kbdgetc_step m d Hd) as (c & E & Hr).
    cbn [kbd_run]. rewrite E. cbv beta iota. destruct (IH (mods_after m [d]) Hc) as (H1 & H2 & H3).
    rewrite (mods_after_cons m d codes). destruct (kbd_run _ codes) as [s cs]. cbn [fst snd length] in *.
    split_and!; [done|lia|by constructor].
Qed.

(** Shift down, a, Shift up, a: "A" then "a". *)
Lemma kbd_tracks_modifiers_witness :
  (kbd_run (enc_mods mods0) [0x2A; 0x1E; 0xAA; 0x1E]).1 = 0 ∧
  (kbd_run (enc_mods mods0) [0x2A; 0x1E; 0xAA; 0x1E]).2 = [0; 65; 0; 97].
Proof.
  destruct (kbd_tracks_modifiers mods0 [0x2A; 0x1E; 0xAA; 0x1E]) as (H & _ & _).
  - apply (bool_decide_unpack _). by vm_compute.
  - split; [rewrite H; by vm_compute|by vm_compute].
Defined.

(** The letter keys: without Ctrl a letter key produces its upper-case
    letter exactly when one of Shift and Caps Lock is on, and with Ctrl it
    produces the control character of the letter whatever the other
    modifiers are. *)
Theorem kbd_letters m code letter :
  (code, letter) ∈ letters → m_e0 m = false →
  kbdgetc (enc_mods m) KBS_DIB code =
    (enc_mods m,
     if m_ctl m then letter - 96
     else if xorb (m_shift m) (m_caps m) then letter - 32 else letter).
Proof.
  intros Hl He.
  assert (H : forallb (λ m, m_e0 m || forallb (λ '(code, letter),
    bool_decide (kbdgetc (enc_mods m) KBS_DIB code =
      (enc_mods m, if m_ctl m then letter - 96
       else if xorb (m_shift m) (m_caps m) then letter - 32 else letter))) letters) all_mods = true)
    by by vm_compute.
  rewrite forallb_forall in H.
  specialize (H m (proj1 (list_elem_of_In _ _) (all_mods_in m))).
  cbv beta in H. rewrite He, orb_false_l in H.
  rewrite forallb_forall in H. specialize (H (code, letter)).
  by apply (bool_decide_eq_true _), H, list_elem_of_In.
Qed.

(** Shift and Caps Lock together give a lower-case q. *)
Lemma kbd_letters_witness :
  kbdgetc (enc_mods (Mods true false false true false false false)) KBS_DIB 0x10 = (9, 113).
Proof.
  apply (kbd_letters (Mods true false false true false false false) 0x10 113).
  - by left.
  - reflexivity.
Defined.
