(* ===== verification/Ring.v ===== *)
(** * Ring buffers with free-running 32-bit counters

    The pipe and the console keep bytes in an array that is indexed with
    [counter % SIZE], where the counters are [uint]s that are never reset.
    The lemmas here relate such an array to the list of bytes between two
    counters.  They need the size to divide 2^32, so that a counter that wraps
    around continues at the next slot. *)

From Stdlib Require Import ZArith Lia.
From stdpp Require Import base numbers list.
From S2P Require Import Prelude.

Section ring.
Context (N : Z) (HN : 0 < N) (HD : (N | 4294967296)).

(** The [n] bytes from counter [r] on. *)
Definition ring_get (buf : list Z) (r : Z) : Z := default 0 (buf !! Z.to_nat (r mod N)).
Definition ring_set (buf : list Z) (r : Z) (c : Z) : list Z := <[Z.to_nat (r mod N) := c]> buf.
Definition ring (buf : list Z) (r : Z) (n : nat) : list Z :=
  (λ i, ring_get buf (r + Z.of_nat i)) <$> seq 0 n.

Lemma length_ring buf r n : length (ring buf r n) = n.
Proof. unfold ring. by rewrite length_fmap, length_seq. Qed.

Lemma mod_u32 r : u32 r mod N = r mod N.
Proof.
  unfold u32. destruct HD as [q Hq]. rewrite (Z.mod_eq r 4294967296) by lia. rewrite Hq at 1.
  replace (r - q * N * (r / 4294967296)) with (r + (- (q * (r / 4294967296))) * N) by lia.
  by rewrite Z.mod_add by lia.
Qed.
Lemma ring_get_u32 buf r : ring_get buf (u32 r) = ring_get buf r.
Proof. unfold ring_get. by rewrite mod_u32. Qed.
Lemma ring_set_u32 buf r c : ring_set buf (u32 r) c = ring_set buf r c.
Proof. unfold ring_set. by rewrite mod_u32. Qed.
Lemma ring_u32 buf r n : ring buf (u32 r) n = ring buf r n.
Proof.
  unfold ring. apply list_fmap_ext. intros i x _.
  unfold ring_get. rewrite <-(Z.add_mod_idemp_l (u32 r)), mod_u32 by lia.
  by rewrite Z.add_mod_idemp_l by lia.
Qed.

Lemma ring_app buf r n m : ring buf r (n + m) = ring buf r n ++ ring buf (r + Z.of_nat n) m.
Proof.
  unfold ring. rewrite seq_app, fmap_app. f_equal. simpl.
  rewrite <-(Nat.add_0_r n) at 1. rewrite <-fmap_add_seq, <-list_fmap_compose.
  apply list_fmap_ext. intros i x _. simpl. f_equal. lia.
Qed.
Lemma ring_S buf r n : ring buf r (S n) = ring_get buf r :: ring buf (r + 1) n.
Proof.
  change (S n) with (1 + n)%nat. rewrite ring_app. unfold ring at 1. simpl.
  by rewrite Z.add_0_r.
Qed.
Lemma ring_last buf r n : ring buf r (S n) = ring buf r n ++ [ring_get buf (r + Z.of_nat n)].
Proof.
  rewrite <-Nat.add_1_r, ring_app. f_equal. unfold ring. simpl. by rewrite Z.add_0_r.
Qed.

Lemma mod_inj a b : a ≤ b < a + N → a mod N = b mod N → a = b.
Proof.
  intros H E. rewrite (Z.mod_eq a), (Z.mod_eq b) in E by lia.
  assert (b / N = a / N ∨ b / N = a / N + 1 ∨ b / N < a / N ∨ a / N + 1 < b / N) as Hc by lia.
  pose proof (Z.mod_pos_bound a N HN). pose proof (Z.mod_pos_bound b N HN).
  rewrite (Z.mod_eq a) in * by lia. rewrite (Z.mod_eq b) in * by lia. nia.
Qed.

Lemma ring_get_set_ne buf r r' c :
  r < r' < r + N → ring_get (ring_set buf r' c) r = ring_get buf r.
Proof.
  intros H. unfold ring_get, ring_set. rewrite list_lookup_insert_ne; [done|].
  pose proof (Z.mod_pos_bound r N HN). pose proof (Z.mod_pos_bound r' N HN).
  intros E. apply Z2Nat.inj in E; [|lia..]. symmetry in E. apply (mod_inj r r') in E; lia.
Qed.
Lemma ring_get_set_eq buf r c :
  Z.of_nat (length buf) = N → ring_get (ring_set buf r c) r = c.
Proof.
  intros H. unfold ring_get, ring_set. pose proof (Z.mod_pos_bound r N HN).
  by rewrite list_lookup_insert_eq by lia.
Qed.
Lemma length_ring_set buf r c : length (ring_set buf r c) = length buf.
Proof. apply length_insert. Qed.

(** Storing outside the bytes in use keeps them. *)
Lemma ring_set_out buf r n c r' :
  (∀ i, 0 ≤ i < Z.of_nat n → r + i < r' < r + i + N) → ring (ring_set buf r' c) r n = ring buf r n.
Proof.
  intros H. unfold ring. apply list_fmap_ext. intros i x Hi. apply lookup_seq in Hi as [-> Hi].
  apply ring_get_set_ne. apply H. lia.
Qed.

Lemma ring_push buf r n c :
  Z.of_nat (length buf) = N → Z.of_nat n < N →
  ring (ring_set buf (r + Z.of_nat n) c) r (S n) = ring buf r n ++ [c].
Proof.
  intros Hl Hn. rewrite ring_last, ring_get_set_eq by done. f_equal.
  apply ring_set_out. lia.
Qed.
End ring.
