(* ===== verification/Console.v ===== *)
(** * The console (console.c, uart.c)

    Output goes to the serial port and to the CGA screen, input from the
    keyboard or the serial port goes through the editing buffer [input].  The
    screen code is shown never to leave the screen; the input code to refine a
    line discipline that knows of typed lines and not of ring indices. *)

From Stdlib Require Import ZArith Lia.
From stdpp Require Import base numbers strings sets list.
From S2P Require Import Prelude Locks Bytes Ring.

Definition BACKSPACE : Z := 0x100.
Definition INPUT_BUF : Z := 128.
(** [C(x)], control-x *)
Definition C_ (x : Z) : Z := x - 64.
Definition CP : Z := C_ 80.
Definition CU : Z := C_ 85.
Definition CH : Z := C_ 72.
Definition CD : Z := C_ 68.
Definition DELCH : Z := 0x7f.
Definition NL : Z := 10.
Definition CR : Z := 13.

(** [cons], [panicked], [uart] with what was sent to it, the CGA memory and
    the cursor register, and [input]. *)
Record console := Console {
  cons_lock : spinlock;
  cons_locking : bool;
  panicked : bool;
  uart : bool;
  uart_out : list Z;
  crt : list Z;
  crt_pos : Z;
  in_buf : list Z;
  in_r : Z;
  in_w : Z;
  in_e : Z;
  in_woken : Z;     (* calls of wakeup(&input.r) *)
}.

Definition l_cons_lock : lens console spinlock := Lens cons_lock
  (λ l s, Console l (cons_locking s) (panicked s) (uart s) (uart_out s) (crt s) (crt_pos s)
    (in_buf s) (in_r s) (in_w s) (in_e s) (in_woken s)).
Definition set_locking (b : bool) (s : console) : console :=
  Console (cons_lock s) b (panicked s) (uart s) (uart_out s) (crt s) (crt_pos s)
    (in_buf s) (in_r s) (in_w s) (in_e s) (in_woken s).
Definition set_panicked (b : bool) (s : console) : console :=
  Console (cons_lock s) (cons_locking s) b (uart s) (uart_out s) (crt s) (crt_pos s)
    (in_buf s) (in_r s) (in_w s) (in_e s) (in_woken s).
Definition set_uart_out (o : list Z) (s : console) : console :=
  Console (cons_lock s) (cons_locking s) (panicked s) (uart s) o (crt s) (crt_pos s)
    (in_buf s) (in_r s) (in_w s) (in_e s) (in_woken s).
Definition set_screen (c : list Z) (pos : Z) (s : console) : console :=
  Console (cons_lock s) (cons_locking s) (panicked s) (uart s) (uart_out s) c pos
    (in_buf s) (in_r s) (in_w s) (in_e s) (in_woken s).
Definition set_input (b : list Z) (r w e : Z) (s : console) : console :=
  Console (cons_lock s) (cons_locking s) (panicked s) (uart s) (uart_out s) (crt s) (crt_pos s)
    b r w e (in_woken s).

Definition wake_reader (s : console) : console :=
  Console (cons_lock s) (cons_locking s) (panicked s) (uart s) (uart_out s) (crt s) (crt_pos s)
    (in_buf s) (in_r s) (in_w s) (in_e s) (in_woken s + 1).

(** ** Output *)

(** [uartputc]: after waiting for the transmitter, the byte is sent. *)
Definition uartputc (c : Z) : M console unit :=
  u ← gets uart; 
  if negb u then mret tt else modify (λ s, set_uart_out (uart_out s ++ [u8 c]) s).

(** [uartgetc], given the line status and the data register. *)
Definition uartgetc (u : bool) (status data : Z) : Z :=
  if negb u then -1 else if Z.land status 0x01 =? 0 then -1 else data.

(** A store into the 25 by 80 cells of the CGA memory. *)
Definition crt_store (pos c : Z) : M console unit := λ s,
  if (0 <=? pos) && (pos <? 2000) then
    Ok tt (set_screen (<[Z.to_nat pos := c]> (crt s)) (crt_pos s) s)
  else Undef "crt".

(** From the new cursor position on: scrolling, and moving the cursor. *)
Definition cga_update (pos : Z) : M console unit :=
  if (pos <? 0) || (pos >? 25 * 80) then panic "pos under/overflow"
  else
    pos ← (if pos `quot` 80 >=? 24 then
             (* Scroll up. *)
             modify (λ s, set_screen (splice 0 (slice 80 (23 * 80) (crt s)) (crt s)) (crt_pos s) s);;
             let pos := pos - 80 in
             if 24 * 80 - pos <? 0 then undef "crt"
             else
               modify (λ s, set_screen (splice (Z.to_nat pos) (replicate (Z.to_nat (24 * 80 - pos)) 0) (crt s))
                              (crt_pos s) s);;
               mret pos
           else mret pos);
    modify (λ s, set_screen (crt s) (u16 pos) s);;
    crt_store pos (Z.lor 32 0x0700).

Definition cgaputc (c : Z) : M console unit :=
  pos ← gets crt_pos;
  pos ← (if c =? NL then mret (pos + (80 - Z.rem pos 80))
         else if c =? BACKSPACE then mret (if pos >? 0 then pos - 1 else pos)
         else crt_store pos (Z.lor (Z.land c 0xff) 0x0700);; mret (pos + 1));
  cga_update pos.

Definition consputc (c : Z) : M console unit :=
  p ← gets panicked;
  if p : bool then panic "panicked"   (* the CPU is frozen *)
  else
    (if c =? BACKSPACE then uartputc 8;; uartputc 32;; uartputc 8 else uartputc c);;
    cgaputc c.

Fixpoint consputs (l : list Z) : M console unit :=
  match l with [] => mret tt | c :: l => consputc c;; consputs l end.

(** [printint]: the digits into [buf] (16 bytes), lowest first, then printed
    backwards. *)
Definition digits : list Z :=
  [48; 49; 50; 51; 52; 53; 54; 55; 56; 57; 97; 98; 99; 100; 101; 102].
Fixpoint int_digits (room : nat) (x base : Z) : option (list Z) :=
  match room with
  | O => None   (* buf overflows *)
  | S room =>
      let d := default 0 (digits !! Z.to_nat (x mod base)) in
      if x / base =? 0 then Some [d] else cons d <$> int_digits room (x / base) base
  end.
Definition int_chars (xx base : Z) (sign : bool) : option (list Z) :=
  let sign := sign && (xx <? 0) in
  let x := if sign then u32 (- xx) else u32 xx in
  buf ← int_digits 16 x base;
  if sign then if (length buf <? 16)%nat then Some (reverse (buf ++ [45])) else None
  else Some (reverse buf).
Definition printint (xx base : Z) (sign : bool) : M console unit :=
  match int_chars xx base sign with
  | Some l => consputs l
  | None => undef "buf"
  end.

(** [cprintf]: [argp i] is the [i]-th word after [fmt] on the stack, [str a]
    the C string at address [a]. *)
Section cprintf.
Context (argp : nat → Z) (str : Z → list Z).

Fixpoint cprintf_loop (fmt : list Z) (ap : nat) : M console unit :=
  match fmt with
  | [] => mret tt
  | c :: fmt =>
      if negb (c =? 37) then consputc c;; cprintf_loop fmt ap
      else
        match fmt with
        | [] => mret tt
        | c :: fmt =>
            if c =? 100 then printint (s32 (argp ap)) 10 true;; cprintf_loop fmt (S ap)
            else if (c =? 120) || (c =? 112) then
              printint (s32 (argp ap)) 16 false;; cprintf_loop fmt (S ap)
            else if c =? 115 then
              consputs (if argp ap =? 0 then [40; 110; 117; 108; 108; 41] else str (argp ap));;
              cprintf_loop fmt (S ap)
            else if c =? 37 then consputc 37;; cprintf_loop fmt ap
            else consputc 37;; consputc c;; cprintf_loop fmt ap
        end
  end.

Definition cprintf (fmt : option (list Z)) : M console unit :=
  locking ← gets cons_locking;
  (if locking : bool then acquire l_cons_lock else mret tt);;
  match fmt with
  | None => panic "null fmt"
  | Some fmt =>
      cprintf_loop fmt 0;;
      (if locking : bool then release l_cons_lock else mret tt)
  end.
End cprintf.

(** ** Input *)

(** [while(input.e != input.w && input.buf[(input.e-1) % INPUT_BUF] != '\n')] *)
Fixpoint kill_line (fuel : nat) : M console unit :=
  match fuel with
  | O => nofuel
  | S fuel =>
      s ← gets id;
      if negb (in_e s =? in_w s) && negb (ring_get INPUT_BUF (in_buf s) (u32 (in_e s - 1)) =? NL) then
        modify (λ s, set_input (in_buf s) (in_r s) (in_w s) (u32 (in_e s - 1)) s);;
        consputc BACKSPACE;;
        kill_line fuel
      else mret tt
  end.

(** One character of [consoleintr]'s loop; returns whether a process listing
    was asked for. *)
Definition console_char (c : Z) : M console bool :=
  if c =? CP then mret true
  else if c =? CU then kill_line 129;; mret false
  else if (c =? CH) || (c =? DELCH) then
    s ← gets id;
    (if negb (in_e s =? in_w s) then
       modify (λ s, set_input (in_buf s) (in_r s) (in_w s) (u32 (in_e s - 1)) s);;
       consputc BACKSPACE
     else mret tt);;
    mret false
  else
    s ← gets id;
    (if nz c && (u32 (in_e s - in_r s) <? INPUT_BUF) then
       let c := if c =? CR then NL else c in
       modify (λ s, set_input (ring_set INPUT_BUF (in_buf s) (in_e s) (s8 c)) (in_r s) (in_w s)
                      (u32 (in_e s + 1)) s);;
       consputc c;;
       s ← gets id;
       (if (c =? NL) || (c =? CD) || (in_e s =? u32 (in_r s + INPUT_BUF)) then
          modify (λ s, set_input (in_buf s) (in_r s) (in_e s) (in_e s) s);;
          modify wake_reader
        else mret tt)
     else mret tt);;
    mret false.

(** [getc] delivers the characters of [cs] and then -1. *)
Fixpoint console_chars (cs : list Z) : M console bool :=
  match cs with
  | [] => mret false
  | c :: cs => if c <? 0 then mret false else d ← console_char c; d' ← console_chars cs; mret (d || d')
  end.
Definition consoleintr (procdump : M console unit) (cs : list Z) : M console unit :=
  acquire l_cons_lock;;
  doprocdump ← console_chars cs;
  release l_cons_lock;;
  if doprocdump : bool then procdump else mret tt.

(** [consoleread]: its loop either finishes, or sleeps with [n] bytes still
    wanted and [dst] already stored, or sees that the process was killed. *)
Inductive cread := ReadDone (n : Z) (dst : list Z) | ReadSleeps (n : Z) (dst : list Z) | ReadKilled.

Fixpoint consoleread_loop (fuel : nat) (killed : bool) (target n : Z) (dst : list Z) : M console cread :=
  match fuel with
  | O => nofuel
  | S fuel =>
      if n <=? 0 then release l_cons_lock;; mret (ReadDone n dst)
      else
        s ← gets id;
        if in_r s =? in_w s then
          if killed then release l_cons_lock;; mret ReadKilled
          else release l_cons_lock;; mret (ReadSleeps n dst)
        else
          let c := ring_get INPUT_BUF (in_buf s) (in_r s) in
          modify (λ s, set_input (in_buf s) (u32 (in_r s + 1)) (in_w s) (in_e s) s);;
          if c =? CD then
            (if u32 n <? target then
               (* Save ^D for next time *)
               modify (λ s, set_input (in_buf s) (u32 (in_r s - 1)) (in_w s) (in_e s) s)
             else mret tt);;
            release l_cons_lock;; mret (ReadDone n dst)
          else
            let dst := dst ++ [c] in
            let n := n - 1 in
            if c =? NL then release l_cons_lock;; mret (ReadDone n dst)
            else consoleread_loop fuel killed target n dst
  end.

(** From the call, or from the wake-up after a sleep, to the next sleep or the
    return. *)
Definition cons_read (killed : bool) (target n : Z) (dst : list Z) : M console cread :=
  acquire l_cons_lock;;
  consoleread_loop (Z.to_nat n + 1) killed target n dst.

Definition cons_write (buf : list Z) : M console Z :=
  acquire l_cons_lock;;
  consputs ((λ c, Z.land c 0xff) <$> buf);;
  release l_cons_lock;;
  mret (Z.of_nat (length buf)).

(** The device operations, with the inode unlocked meanwhile: [iunlock] and
    [ilock] are those of fs.c on [ip], acting on the whole kernel state [T].
    [None] means that the reader sleeps; [cons_read] continues it. *)
Section device.
Context {T : Type} (L : lens T console) (iunlock ilock : M T unit).

Definition consoleread (killed : bool) (n : Z) : M T (option (Z * list Z)) :=
  iunlock;;
  r ← zoom L (cons_read killed (u32 n) n []);
  match r with
  | ReadKilled => ilock;; mret (Some (-1, []))
  | ReadSleeps _ _ => mret None
  | ReadDone n' dst => ilock;; mret (Some (s32 (u32 n - n'), dst))
  end.
Definition consolewrite (buf : list Z) : M T Z :=
  iunlock;;
  n ← zoom L (cons_write buf);
  ilock;;
  mret n.
End device.

Definition consoleinit : M console unit :=
  modify (λ s, lset l_cons_lock unlocked s);;
  modify (set_locking true).

(** ** The screen *)

Record screen_ok (s : console) : Prop := {
  so_len : length (crt s) = 2000%nat;
  so_pos : 0 ≤ crt_pos s < 2000;
  so_run : panicked s = false;
}.

(** Only the output side changed, and it is still in order; the cursor does not
    get to the last row by itself. *)
Definition output_only (s s' : console) : Prop :=
  (s' = set_screen (crt s') (crt_pos s') (set_uart_out (uart_out s') s) ∧
   (crt_pos s < 1920 → crt_pos s' < 1920)) ∧ screen_ok s'.

Lemma set_screen_id s : set_screen (crt s) (crt_pos s) s = s.
Proof. by destruct s. Qed.
Lemma set_uart_id s : set_uart_out (uart_out s) s = s.
Proof. by destruct s. Qed.
Lemma output_only_refl s : screen_ok s → output_only s s.
Proof. intros H. split; [|done]. split; [|done]. by rewrite set_uart_id, set_screen_id. Qed.
Lemma output_only_trans s1 s2 s3 : output_only s1 s2 → output_only s2 s3 → output_only s1 s3.
Proof. intros [[E1 L1] H1] [[E2 L2] H2]. split; [|done]. split; [|auto]. rewrite E2, E1. done. Qed.

Lemma crt_store_ok pos c s :
  0 ≤ pos < 2000 →
  crt_store pos c s = Ok tt (set_screen (<[Z.to_nat pos := c]> (crt s)) (crt_pos s) s).
Proof. intros H. unfold crt_store. by rewrite (proj2 (Z.leb_le _ _)), (proj2 (Z.ltb_lt _ _)) by lia. Qed.

Lemma cga_update_ok pos s :
  length (crt s) = 2000%nat → 0 ≤ pos ≤ 2000 → panicked s = false →
  ∃ s', cga_update pos s = Ok tt s' ∧ s' = set_screen (crt s') (crt_pos s') s ∧
    (pos ≤ 1920 → crt_pos s' < 1920) ∧ screen_ok s'.
Proof.
  intros Hl Hp Hr. unfold cga_update.
  destruct (Z.ltb_spec pos 0); [lia|]. rewrite Z.gtb_ltb. destruct (Z.ltb_spec (25 * 80) pos); [lia|].
  cbn [orb]. rewrite Z.quot_div_nonneg by lia. rewrite Z.geb_leb.
  destruct (Z.leb_spec 24 (pos / 80)) as [H24|H24].
  - assert (1920 ≤ pos ≤ 2000) as Hp' by zlia. clear Hp H24.
    destruct (Z.ltb_spec (24 * 80 - (pos - 80)) 0); [lia|]. cbv iota zeta.
    mrun. unfold modify, mret, M_ret. mrun.
    unfold mbind, M_bind. cbn [crt crt_pos set_screen].
    rewrite crt_store_ok by lia. eexists. split; [done|].
    cbn [crt crt_pos set_screen panicked]. split; [done|]. unfold u16. rewrite (Z.mod_small (pos - 80)) by lia.
    split; [lia|]. constructor; cbn [crt crt_pos set_screen panicked]; [|lia|done].
    set (n := Z.to_nat (pos - 80)). replace (Z.to_nat (24 * 80 - (pos - 80))) with (1920 - n)%nat by lia.
    assert (Hn : (n ≤ 1920)%nat) by lia. clearbody n.
    assert (Hs : length (splice 0 (slice 80 (23 * 80) (crt s)) (crt s)) = 2000%nat).
    { rewrite length_splice; [done|]. rewrite length_slice by (rewrite Hl; simpl; lia). rewrite Hl. simpl. lia. }
    rewrite length_insert, length_splice; [done|]. rewrite length_replicate, Hs. lia.
  - mrun. unfold mbind, M_bind, modify, mret, M_ret. rewrite crt_store_ok by zlia.
    eexists. split; [done|]. cbn [crt crt_pos set_screen panicked]. split; [done|].
    unfold u16. rewrite Z.mod_small by zlia. split; [zlia|].
    constructor; cbn [crt crt_pos set_screen panicked].
    + by rewrite length_insert.
    + zlia.
    + done.
Qed.

Lemma cgaputc_ok c s :
  screen_ok s → ∃ s', cgaputc c s = Ok tt s' ∧ output_only s s'.
Proof.
  intros [Hl Hp Hr]. unfold cgaputc. mrun.
  assert (Hfin : ∀ pos s1 (m : M console Z), m s = Ok pos s1 →
    length (crt s1) = 2000%nat → 0 ≤ pos ≤ 2000 → (crt_pos s < 1920 → pos ≤ 1920) →
    s1 = set_screen (crt s1) (crt_pos s1) s →
    ∃ s', (pos ← m; cga_update pos) s = Ok tt s' ∧ output_only s s').
  { intros pos s1 m E Hl1 Hp1 Hrow E1. mstep E.
    destruct (cga_update_ok pos s1 Hl1 Hp1) as (s' & E' & E2 & Hrow' & Hs').
    { rewrite E1. done. }
    exists s'. split; [exact E'|]. split; [|done]. split; [|auto]. rewrite E2, E1. by destruct s. }
  destruct (c =? NL); [|destruct (c =? BACKSPACE)].
  - eapply Hfin; [reflexivity|done| | |by rewrite set_screen_id]; rewrite Z.rem_mod_nonneg by lia; zlia.
  - eapply Hfin; [reflexivity|done| | |by rewrite set_screen_id];
      rewrite Z.gtb_ltb; destruct (Z.ltb_spec 0 (crt_pos s)); lia.
  - eapply Hfin; [erewrite bind_ok; [reflexivity|apply crt_store_ok; lia]|..].
    + cbn [crt set_screen]. by rewrite length_insert.
    + lia.
    + lia.
    + done.
Qed.

Lemma uartputc_ok c s :
  screen_ok s →
  ∃ s', uartputc c s = Ok tt s' ∧ output_only s s' ∧
    uart_out s' = uart_out s ++ (if uart s then [u8 c] else []).
Proof.
  intros Hs. unfold uartputc. mrun. destruct (uart s); cbn [negb].
  - eexists. split_and!; [done| |done]. split; [by destruct s|]. by destruct Hs; constructor.
  - exists s. split_and!; [done|by apply output_only_refl|by rewrite app_nil_r].
Qed.

(** What [consputc] sends to the serial port. *)
Definition serial (c : Z) : list Z := if c =? BACKSPACE then [8; 32; 8] else [u8 c].

Lemma output_only_uart s s' : output_only s s' → uart s' = uart s.
Proof. intros [[E _] _]. rewrite E. done. Qed.

Lemma cgaputc_uart c s s' : cgaputc c s = Ok tt s' → uart_out s' = uart_out s.
Proof.
  unfold cgaputc. intros H. minv H as (p & s0 & E0 & H). injection E0 as <- <-.
  minv H as (pos & s1 & E1 & H).
  assert (Hst : ∀ p c s0 s1, crt_store p c s0 = Ok tt s1 → uart_out s1 = uart_out s0).
  { intros p c' s2 s3. unfold crt_store. destruct (_ && _); [|done]. intros [= <-]. done. }
  assert (E : uart_out s1 = uart_out s).
  { destruct (c =? NL); [by injection E1 as _ <-|]. destruct (c =? BACKSPACE); [by injection E1 as _ <-|].
    minv E1 as ([] & s2 & E2 & E3). injection E3 as _ <-. eauto. }
  rewrite <-E. clear E1 E. unfold cga_update in H. destruct (_ || _); [done|].
  minv H as (pos' & s2 & E2 & H). minv H as ([] & s3 & E3 & H). apply modify_inv in E3 as ->.
  rewrite (Hst _ _ _ _ H). cbn. destruct (_ >=? 24); [|by injection E2 as _ <-].
  minv E2 as ([] & s3 & E3 & E2). apply modify_inv in E3 as ->. destruct (_ <? 0); [done|].
  minv E2 as ([] & s3 & E3 & E2). apply modify_inv in E3 as ->. apply mret_inv in E2 as [_ ->]. done.
Qed.

Lemma consputc_ok c s :
  screen_ok s →
  ∃ s', consputc c s = Ok tt s' ∧ output_only s s' ∧
    uart_out s' = uart_out s ++ (if uart s then serial c else []).
Proof.
  intros Hs. unfold consputc. mrun. rewrite (so_run s Hs).
  assert (H : ∃ s1, (if c =? BACKSPACE then uartputc 8;; uartputc 32;; uartputc 8 else uartputc c) s = Ok tt s1 ∧
    output_only s s1 ∧ uart_out s1 = uart_out s ++ (if uart s then serial c else [])).
  { unfold serial. destruct (c =? BACKSPACE); [|by apply uartputc_ok].
    destruct (uartputc_ok 8 s Hs) as (s1 & E1 & O1 & U1). mstep E1.
    destruct (uartputc_ok 32 s1 (proj2 O1)) as (s2 & E2 & O2 & U2). mstep E2.
    destruct (uartputc_ok 8 s2 (proj2 O2)) as (s3 & E3 & O3 & U3). exists s3.
    split_and!; [done|by eauto using output_only_trans|].
    rewrite U3, U2, U1, (output_only_uart _ _ O2), (output_only_uart _ _ O1).
    destruct (uart s); rewrite <-!app_assoc; done. }
  destruct H as (s1 & E1 & O1 & U1). mstep E1.
  destruct (cgaputc_ok c s1 (proj2 O1)) as (s2 & E2 & O2). exists s2.
  split_and!; [done|by eapply output_only_trans|]. by rewrite (cgaputc_uart _ _ _ E2).
Qed.

Lemma consputs_ok l s :
  screen_ok s →
  ∃ s', consputs l s = Ok tt s' ∧ output_only s s' ∧
    uart_out s' = uart_out s ++ (if uart s then concat (serial <$> l) else []).
Proof.
  revert s. induction l as [|c l IH]; intros s Hs.
  - exists s. split_and!; [done|by apply output_only_refl|]. destruct (uart s); by rewrite app_nil_r.
  - simpl. destruct (consputc_ok c s Hs) as (s1 & E1 & O1 & U1). mstep E1.
    destruct (IH s1 (proj2 O1)) as (s2 & E2 & O2 & U2). exists s2.
    split_and!; [done|by eapply output_only_trans|].
    rewrite U2, U1, (output_only_uart _ _ O1). destruct (uart s); by rewrite <-app_assoc.
Qed.

(** ** The line discipline

    What the user of the console relies on: the bytes of the lines that are
    ready to be read, and the line that is being edited. *)

Record tty := Tty { ready : list Z; edit : list Z }.

Definition tty_char (t : tty) (c : Z) : tty :=
  if c =? CP then t
  else if c =? CU then Tty (ready t) []
  else if (c =? CH) || (c =? DELCH) then Tty (ready t) (take (length (edit t) - 1) (edit t))
  else if (c =? 0) || (128 <=? length (ready t) + length (edit t))%nat then t
  else
    let c := if c =? CR then NL else c in
    let line := edit t ++ [s8 c] in
    if (c =? NL) || (c =? CD) || (length (ready t) + length line =? 128)%nat
    then Tty (ready t ++ line) [] else Tty (ready t) line.

(** Whether the character completes a line, or fills the buffer. *)
Definition tty_wakes (t : tty) (c : Z) : bool :=
  if (c =? CP) || (c =? CU) || (c =? CH) || (c =? DELCH) then false
  else if (c =? 0) || (128 <=? length (ready t) + length (edit t))%nat then false
  else (c =? CR) || (c =? NL) || (c =? CD) || (length (ready t) + length (edit t) =? 127)%nat.
Fixpoint tty_wakeups (t : tty) (cs : list Z) : Z :=
  match cs with
  | [] => 0
  | c :: cs => Z.b2z (tty_wakes t c) + tty_wakeups (tty_char t c) cs
  end.

(** Reading up to [n] bytes: the bytes, what stays ready, and whether the
    reader has to wait for more.  A ^D ends the read; it is consumed only when
    it is the first byte. *)
Fixpoint tty_read (n : nat) (first : bool) (q : list Z) : list Z * list Z * bool :=
  match n with
  | O => ([], q, false)
  | S n =>
      match q with
      | [] => ([], [], true)
      | c :: q' =>
          if c =? CD then ([], if first then q' else q, false)
          else if c =? NL then ([c], q', false)
          else let '(b, r, w) := tty_read n false q' in (c :: b, r, w)
      end
  end.

(** The ring buffer and its three counters represent the two lists. *)
Record tty_rep0 (s : console) (t : tty) : Prop := {
  tr_screen : screen_ok s;
  tr_len : length (in_buf s) = 128%nat;
  tr_rng : 0 ≤ in_r s < 4294967296;
  tr_w : in_w s = u32 (in_r s + Z.of_nat (length (ready t)));
  tr_e : in_e s = u32 (in_w s + Z.of_nat (length (edit t)));
  tr_fit : (length (ready t) + length (edit t) ≤ 128)%nat;
  tr_ready : ready t = ring 128 (in_buf s) (in_r s) (length (ready t));
  tr_edit : edit t = ring 128 (in_buf s) (in_w s) (length (edit t));
}.
(** A line that is being edited contains no newline. *)
Definition tty_rep (s : console) (t : tty) : Prop := tty_rep0 s t ∧ NL ∉ edit t.

Lemma div128 : (128 | 4294967296).
Proof. by exists 33554432. Qed.
#[local] Hint Resolve div128 : core.

(** Output does not touch the input buffer. *)
Lemma tty_rep_output s s' t : output_only s s' → tty_rep0 s t → tty_rep0 s' t.
Proof. intros [[E _] Hs] H. rewrite E in *. destruct H. constructor; done. Qed.
Lemma lock_output s s' : output_only s s' → cons_lock s' = cons_lock s.
Proof. intros [[E _] _]. by rewrite E. Qed.
Lemma woken_output s s' : output_only s s' → in_woken s' = in_woken s.
Proof. intros [[E _] _]. by rewrite E. Qed.
Lemma input_output s s' : output_only s s' →
  in_buf s' = in_buf s ∧ in_r s' = in_r s ∧ in_w s' = in_w s ∧ in_e s' = in_e s.
Proof. intros [[E _] _]. by rewrite E. Qed.

(** Backing up over the last byte of the edited line. *)
Lemma tty_rep_back s t c l :
  tty_rep0 s t → edit t = l ++ [c] →
  tty_rep0 (set_input (in_buf s) (in_r s) (in_w s) (u32 (in_e s - 1)) s) (Tty (ready t) l) ∧
  ring_get 128 (in_buf s) (u32 (in_e s - 1)) = c ∧ in_e s ≠ in_w s.
Proof.
  intros [Hsc Hlen Hr Hw He Hfit Hrd Hed] E. rewrite E in *.
  rewrite length_app in *. simpl in *. rewrite Nat.add_1_r in *.
  assert (E1 : u32 (in_e s - 1) = u32 (in_w s + Z.of_nat (length l))).
  { rewrite He. unfold u32. rewrite Zminus_mod_idemp_l. f_equal. lia. }
  rewrite ring_last in Hed by (done || lia). apply app_inj_tail in Hed as [Hl Hc].
  rewrite E1. split_and!.
  - constructor; simpl; try done.
    + by destruct Hsc; constructor.
    + lia.
  - by rewrite ring_get_u32.
  - rewrite He. rewrite Hw. ulia.
Qed.

Lemma tty_rep_edit s t : tty_rep0 s t → in_e s = in_w s ↔ edit t = [].
Proof.
  intros H. split.
  - destruct (edit t) as [|c l _] eqn:E using rev_ind; [done|]. intros Hn.
    by destruct (tty_rep_back s t c l H E) as (_ & _ & ?).
  - intros E. rewrite (tr_e s t H), E. simpl. rewrite (tr_w s t H). ulia.
Qed.

Lemma kill_line_ok fuel s t :
  tty_rep s t → (length (edit t) < fuel)%nat →
  ∃ s', kill_line fuel s = Ok tt s' ∧ tty_rep s' (Tty (ready t) []) ∧ cons_lock s' = cons_lock s ∧
    in_woken s' = in_woken s.
Proof.
  revert s t. induction fuel as [|fuel IH]; intros s t [Hrep Hnl] Hf; [lia|].
  cbn [kill_line]. mrun. unfold id. destruct t as [rd ed]. cbn [edit ready] in *.
  destruct ed as [|c l _] using rev_ind.
  - rewrite (proj2 (tty_rep_edit s _ Hrep)) by done. rewrite Z.eqb_refl. simpl.
    exists s. split_and!; [done|by split|done|done].
  - destruct (tty_rep_back s _ c l Hrep eq_refl) as (Hb & Hc & Hne).
    rewrite (proj2 (Z.eqb_neq _ _) Hne). change INPUT_BUF with 128. rewrite Hc.
    assert (c ≠ NL) as Hcn by set_solver.
    rewrite (proj2 (Z.eqb_neq _ _) Hcn). cbn [negb andb]. mrun.
    destruct (consputc_ok BACKSPACE _ (tr_screen _ _ Hb)) as (s1 & E1 & O1 & _). mstep E1.
    rewrite length_app in Hf. simpl in Hf.
    destruct (IH s1 (Tty rd l)) as (s2 & E2 & H2 & L2 & W2).
    { split; [by eapply tty_rep_output|set_solver]. }
    { simpl. lia. }
    exists s2. split_and!; [done|done|by rewrite L2, (lock_output _ _ O1)|by rewrite W2, (woken_output _ _ O1)].
Qed.

(** Storing a byte at the edit index, and making the line ready. *)
Lemma tty_rep_push s t c :
  tty_rep0 s t → (length (ready t) + length (edit t) < 128)%nat →
  tty_rep0 (set_input (ring_set 128 (in_buf s) (in_e s) c) (in_r s) (in_w s) (u32 (in_e s + 1)) s)
    (Tty (ready t) (edit t ++ [c])).
Proof.
  intros [Hsc Hlen Hr Hw He Hfit Hrd Hed] Hlt.
  assert (Hset : ∀ b, ring_set 128 b (in_e s) c =
    ring_set 128 b (in_r s + Z.of_nat (length (ready t) + length (edit t))) c).
  { intros b. rewrite He, ring_set_u32 by done. rewrite Hw. unfold ring_set.
    rewrite <-Z.add_mod_idemp_l, mod_u32, Z.add_mod_idemp_l by (done || lia). do 3 f_equal. lia. }
  constructor; simpl; try done.
  - by destruct Hsc; constructor.
  - by rewrite length_ring_set.
  - rewrite He, length_app. simpl. unfold u32. rewrite Zplus_mod_idemp_l. f_equal. lia.
  - rewrite length_app. simpl. lia.
  - rewrite Hset, ring_set_out by (done || lia). done.
  - rewrite length_app, Nat.add_1_r. rewrite He, ring_set_u32 by done.
    rewrite ring_push by (done || lia). by rewrite <-Hed.
Qed.

Lemma tty_rep_commit s t :
  tty_rep0 s t →
  tty_rep (set_input (in_buf s) (in_r s) (in_e s) (in_e s) s) (Tty (ready t ++ edit t) []).
Proof.
  intros [Hsc Hlen Hr Hw He Hfit Hrd Hed]. split; [|apply not_elem_of_nil].
  assert (E : u32 (in_w s + Z.of_nat (length (edit t))) =
    u32 (in_r s + Z.of_nat (length (ready t ++ edit t)))).
  { rewrite Hw, length_app. unfold u32. rewrite Zplus_mod_idemp_l. f_equal. lia. }
  constructor; simpl; try done.
  - by destruct Hsc; constructor.
  - by rewrite He, E.
  - rewrite He. ulia.
  - rewrite length_app. lia.
  - rewrite length_app, ring_app, <-Hrd by (done || lia). f_equal.
    rewrite Hed at 1. by rewrite Hw, ring_u32 by done.
Qed.

Lemma tty_rep_wake s t : tty_rep s t → tty_rep (wake_reader s) t.
Proof. intros [[[]] ?]. split; [|done]. constructor; done. Qed.

Lemma in_e_full s t :
  tty_rep0 s t →
  u32 (in_e s - in_r s) = Z.of_nat (length (ready t) + length (edit t)) ∧
  (in_e s =? u32 (in_r s + 128)) = (length (ready t) + length (edit t) =? 128)%nat.
Proof.
  intros [Hsc Hlen Hr Hw He Hfit Hrd Hed].
  assert (E : in_e s = u32 (in_r s + Z.of_nat (length (ready t) + length (edit t)))).
  { rewrite He, Hw. unfold u32. rewrite Zplus_mod_idemp_l. f_equal. lia. }
  rewrite E. split; [ulia|]. destruct (Nat.eqb_spec (length (ready t) + length (edit t)) 128) as [->|Hn].
  - by rewrite Z.eqb_refl.
  - apply Z.eqb_neq. ulia.
Qed.

Lemma console_char_ok c s t :
  0 ≤ c < 256 → tty_rep s t →
  ∃ s', console_char c s = Ok (c =? CP) s' ∧ tty_rep s' (tty_char t c) ∧ cons_lock s' = cons_lock s ∧
    in_woken s' = in_woken s + Z.b2z (tty_wakes t c).
Proof.
  intros Hc Hrep. unfold console_char, tty_char, tty_wakes. destruct (c =? CP) eqn:Ep.
  { exists s. split_and!; [done..|simpl; lia]. }
  destruct (c =? CU) eqn:Eu.
  { destruct (kill_line_ok 129 s t Hrep) as (s' & E & H & L & W).
    { pose proof (tr_fit _ _ (proj1 Hrep)). lia. }
    mstep E. exists s'. split_and!; [done..|simpl; lia]. }
  destruct Hrep as [Hrep Hnl]. cbn [orb]. destruct ((c =? CH) || (c =? DELCH)) eqn:Eh.
  { mrun. unfold id. destruct t as [rd ed]. cbn [edit ready] in *.
    destruct ed as [|d l _] using rev_ind.
    - rewrite (proj2 (tty_rep_edit s _ Hrep)) by done. rewrite Z.eqb_refl. simpl. mrun.
      exists s. split_and!; [done|by split|done|simpl; lia].
    - destruct (tty_rep_back s _ d l Hrep eq_refl) as (Hb & _ & Hne).
      rewrite (proj2 (Z.eqb_neq _ _) Hne). cbn [negb]. mrun.
      destruct (consputc_ok BACKSPACE _ (tr_screen _ _ Hb)) as (s1 & E1 & O1 & _).
      mstep by (mrun; exact E1).
      exists s1. split_and!; [done| |by rewrite (lock_output _ _ O1)|rewrite (woken_output _ _ O1); simpl; lia].
      rewrite length_app. simpl. replace (length l + 1 - 1)%nat with (length l) by lia.
      rewrite take_app_length. split; [by eapply tty_rep_output|set_solver]. }
  mrun. unfold id. destruct (in_e_full s t Hrep) as [Hfull _].
  rewrite Hfull. unfold nz, INPUT_BUF.
  replace (Z.of_nat (length (ready t) + length (edit t)) <? 128) with
    (negb (128 <=? length (ready t) + length (edit t))%nat).
  2:{ destruct (Nat.leb_spec 128 (length (ready t) + length (edit t))); symmetry; simpl;
        [apply Z.ltb_ge|apply Z.ltb_lt]; lia. }
  rewrite <-negb_orb. destruct ((c =? 0) || _) eqn:E0; cbn [negb].
  { mrun. exists s. split_and!; [done|by split|done|simpl; lia]. }
  apply orb_false_iff in E0 as [_ E0]. apply Nat.leb_gt in E0.
  set (c' := if c =? CR then NL else c).
  pose proof (tty_rep_push s t (s8 c') Hrep E0) as Hp.
  destruct (consputc_ok c' _ (tr_screen _ _ Hp)) as (s1 & E1 & O1 & _).
  pose proof (tty_rep_output _ _ _ O1 Hp) as H1. destruct (in_e_full _ _ H1) as [_ Hf]. cbn [ready edit] in Hf.
  assert (Hs8 : s8 c' = NL → c' = NL).
  { subst c'. unfold NL. destruct (c =? CR); [done|ulia]. }
  rewrite bind_assoc. mrun. rewrite bind_assoc. mstep E1. rewrite bind_assoc. mrun. unfold id.
  assert (Ew : ((c =? CR) || (c =? NL) || (c =? CD) || (length (ready t) + length (edit t) =? 127)%nat) =
    (c' =? NL) || (c' =? CD) || (length (ready t) + length (edit t ++ [s8 c']) =? 128)%nat).
  { rewrite length_app. cbn [length]. subst c'. destruct (Z.eqb_spec c CR) as [->|]; [done|]. cbn [orb]. f_equal.
    destruct (Nat.eqb_spec (length (ready t) + length (edit t)) 127), (Nat.eqb_spec (length (ready t) + (length (edit t) + 1)) 128);
      done || lia. }
  rewrite Hf, Ew. pose proof (woken_output _ _ O1) as Hwo. clear Ew.
  destruct ((c' =? NL) || (c' =? CD) || (length (ready t) + length (edit t ++ [s8 c']) =? 128)%nat) eqn:Ec.
  - rewrite bind_assoc. mrun. eexists. split_and!; [done| |exact (lock_output _ _ O1)|cbn [in_woken wake_reader set_input Z.b2z]; by rewrite Hwo].
    by apply tty_rep_wake, (tty_rep_commit _ _ H1).
  - mrun. exists s1. split_and!; [done| |exact (lock_output _ _ O1)|rewrite Hwo; simpl; lia].
    split; [done|]. simpl. apply not_elem_of_app. split; [done|].
    intros Hin. apply list_elem_of_singleton in Hin. symmetry in Hin. apply Hs8 in Hin.
    rewrite Hin in Ec. done.
Qed.

Lemma console_chars_ok cs s t :
  Forall (λ c, 0 ≤ c < 256) cs → tty_rep s t →
  ∃ s', console_chars cs s = Ok (bool_decide (CP ∈ cs)) s' ∧ tty_rep s' (foldl tty_char t cs) ∧
    cons_lock s' = cons_lock s ∧ in_woken s' = in_woken s + tty_wakeups t cs.
Proof.
  revert s t. induction cs as [|c cs IH]; intros s t Hcs Hrep.
  { exists s. rewrite bool_decide_eq_false_2 by apply not_elem_of_nil. split_and!; [done..|simpl; lia]. }
  apply Forall_cons in Hcs as [Hc Hcs]. cbn [console_chars foldl].
  destruct (Z.ltb_spec c 0); [lia|].
  destruct (console_char_ok c s t Hc Hrep) as (s1 & E1 & H1 & L1 & W1). mstep E1.
  destruct (IH s1 _ Hcs H1) as (s2 & E2 & H2 & L2 & W2). mstep E2. mrun.
  exists s2. split_and!; [|done|congruence|cbn [tty_wakeups]; lia]. unfold mret, M_ret. f_equal.
  destruct (Z.eqb_spec c CP) as [->|Hn]; cbn [orb].
  - by rewrite bool_decide_eq_true_2 by (left).
  - apply bool_decide_ext. rewrite elem_of_cons. naive_solver.
Qed.

Lemma tty_rep_lock l s t : tty_rep s t → tty_rep (lset l_cons_lock l s) t.
Proof. intros [[[]] ?]. split; [|done]. constructor; done. Qed.

(** Taking the oldest ready byte. *)
Lemma tty_rep_take s c q ed :
  tty_rep s (Tty (c :: q) ed) →
  ring_get 128 (in_buf s) (in_r s) = c ∧ in_r s ≠ in_w s ∧
  tty_rep (set_input (in_buf s) (u32 (in_r s + 1)) (in_w s) (in_e s) s) (Tty q ed) ∧
  set_input (in_buf s) (u32 (u32 (in_r s + 1) - 1)) (in_w s) (in_e s) s = s.
Proof.
  intros [[Hsc Hlen Hr Hw He Hfit Hrd Hed] Hnl]. cbn [ready edit length] in *.
  rewrite ring_S in Hrd by (done || lia). injection Hrd as Hc Hq. split_and!.
  - done.
  - rewrite Hw. ulia.
  - split; [|done]. constructor; cbn [ready edit length in_buf in_r in_w in_e set_input]; try done.
    + by destruct Hsc; constructor.
    + ulia.
    + rewrite Hw. ulia.
    + lia.
    + by rewrite ring_u32 by done.
  - assert (u32 (u32 (in_r s + 1) - 1) = in_r s) as -> by ulia. by destruct s.
Qed.

Lemma tty_rep_empty s ed : tty_rep s (Tty [] ed) → in_r s = in_w s.
Proof. intros [[] _]. simpl in *. rewrite tr_w0. ulia. Qed.

Lemma consoleread_loop_ok fuel killed target n dst s q ed :
  tty_rep s (Tty q ed) → cons_lock s = Spinlock true → 0 ≤ n ≤ target → target < 2147483648 →
  (Z.to_nat n < fuel)%nat →
  let '(b, q', waits) := tty_read (Z.to_nat n) (n =? target) q in
  let n' := n - Z.of_nat (length b) in
  ∃ s', consoleread_loop fuel killed target n dst s =
      Ok (if waits : bool then if killed then ReadKilled else ReadSleeps n' (dst ++ b)
          else ReadDone n' (dst ++ b)) s' ∧
    tty_rep s' (Tty q' ed) ∧ cons_lock s' = unlocked.
Proof.
  revert n dst s q. induction fuel as [|fuel IH]; intros n dst s q Hrep Hl Hn Ht Hf; [lia|].
  assert (Hrel : ∀ s0 t0, tty_rep s0 t0 → cons_lock s0 = Spinlock true → ∀ (r : cread),
    ∃ s', (release l_cons_lock;; mret r) s0 = Ok r s' ∧ tty_rep s' t0 ∧ cons_lock s' = unlocked).
  { intros s0 t0 H0 L0 r. exists (lset l_cons_lock unlocked s0).
    mstep by (apply release_held; simpl; by rewrite L0).
    split_and!; [done|by apply tty_rep_lock|done]. }
  cbn [consoleread_loop]. destruct (Z.leb_spec n 0) as [H0|H0].
  { replace (Z.to_nat n) with O by lia. cbn. rewrite Z.sub_0_r, app_nil_r. eauto. }
  destruct (Z.to_nat n) as [|k] eqn:Ek; [lia|]. mrun. unfold id. destruct q as [|c q].
  { cbn. rewrite Z.sub_0_r, app_nil_r. rewrite (tty_rep_empty _ _ Hrep), Z.eqb_refl.
    destruct killed; eauto. }
  destruct (tty_rep_take _ _ _ _ Hrep) as (Hc & Hne & Htake & Hback).
  rewrite (proj2 (Z.eqb_neq _ _) Hne). change INPUT_BUF with 128. rewrite Hc. cbv zeta. mrun.
  cbn [tty_read]. destruct (c =? CD) eqn:Ed.
  - cbn. rewrite Z.sub_0_r, app_nil_r. rewrite (u32_small n) by lia.
    destruct (Z.eqb_spec n target) as [->|Hnt].
    + rewrite Z.ltb_irrefl. mrun. eauto.
    + rewrite (proj2 (Z.ltb_lt _ _)) by lia. mrun. cbn [in_buf in_r in_w in_e set_input].
      unfold set_input in Hback |- *. cbn [cons_lock cons_locking panicked uart uart_out crt crt_pos in_woken].
      rewrite Hback. eauto.
  - destruct (c =? NL) eqn:En.
    + cbn [length]. eauto.
    + specialize (IH (n - 1) (dst ++ [c]) _ q Htake Hl). rewrite (proj2 (Z.eqb_neq (n - 1) target)) in IH by lia.
      replace (Z.to_nat (n - 1)) with k in IH by lia.
      destruct (tty_read k false q) as [[b q'] w]. destruct IH as (s' & E & H & L); [lia..|].
      exists s'. split_and!; [|done|done]. rewrite E. rewrite <-app_assoc. cbn [length app].
      replace (n - 1 - Z.of_nat (length b)) with (n - Z.of_nat (S (length b))) by lia. done.
Qed.

(** ** Claims *)

(** C30. Console input refines the line discipline: whatever characters arrive
    in an interrupt, [consoleintr] changes the ring buffer and its three
    free-running counters as the line discipline changes the ready lines and
    the line being edited (kill line, backspace, carriage return, end of file,
    full buffer), also when the counters wrap around; it wakes the readers once
    for every line (or full buffer) that becomes ready, and it lists processes
    afterwards exactly when control-P was typed. *)
Theorem consoleintr_refines procdump cs s t :
  tty_rep s t → cons_lock s = unlocked → Forall (λ c, 0 ≤ c < 256) cs →
  ∃ s', consoleintr procdump cs s = (if bool_decide (CP ∈ cs) then procdump s' else Ok tt s') ∧
    tty_rep s' (foldl tty_char t cs) ∧ cons_lock s' = unlocked ∧
    in_woken s' = in_woken s + tty_wakeups t cs.
Proof.
  intros Hrep Hl Hcs. unfold consoleintr.
  mstep by (apply acquire_free; simpl; by rewrite Hl).
  destruct (console_chars_ok cs _ t Hcs (tty_rep_lock (Spinlock true) s t Hrep)) as (s1 & E1 & H1 & L1 & W1).
  mstep E1. mstep by (apply release_held; simpl; by rewrite L1).
  exists (lset l_cons_lock unlocked s1). split_and!; [|by apply tty_rep_lock|done|done].
  by destruct (bool_decide _).
Qed.

(** C32. The read loop of [consoleread] refines reading from the line discipline: it stores the
    bytes up to and including a newline, or up to a control-D (consumed only
    at the beginning, so that the next read sees the end of the file), at most
    [n] of them, and it sleeps exactly when it needs more; a killed process
    does not sleep. *)
Theorem consoleread_refines killed n s q ed :
  tty_rep s (Tty q ed) → cons_lock s = unlocked → 0 ≤ n < 2147483648 →
  let '(b, q', waits) := tty_read (Z.to_nat n) true q in
  let n' := n - Z.of_nat (length b) in
  ∃ s', cons_read killed n n [] s =
      Ok (if waits : bool then if killed then ReadKilled else ReadSleeps n' b
          else ReadDone n' b) s' ∧
    tty_rep s' (Tty q' ed) ∧ cons_lock s' = unlocked.
Proof.
  intros Hrep Hl Hn. unfold cons_read.
  pose proof (consoleread_loop_ok (Z.to_nat n + 1) killed n n [] _ q ed
    (tty_rep_lock (Spinlock true) s _ Hrep) eq_refl) as H.
  rewrite Z.eqb_refl in H. destruct (tty_read _ _ _) as [[b q'] w].
  mstep by (apply acquire_free; simpl; by rewrite Hl). apply H; lia.
Qed.

(** C31. Console output never leaves the screen: from a state with the cursor
    on the screen, the loop of [consolewrite] over any bytes neither panics nor stores
    outside the CGA memory, keeps the cursor on the screen (above the last row if it
    was, scrolling when it would reach it), sends every byte to the serial port in order, and
    returns the number of bytes. *)
Theorem consolewrite_safe buf s :
  screen_ok s → cons_lock s = unlocked → Forall (λ c, 0 ≤ c < 256) buf →
  ∃ s', cons_write buf s = Ok (Z.of_nat (length buf)) s' ∧ output_only s s' ∧
    uart_out s' = uart_out s ++ (if uart s then buf else []).
Proof.
  intros Hs Hl Hb. unfold cons_write. mstep by (apply acquire_free; simpl; by rewrite Hl).
  assert (Hs1 : screen_ok (lset l_cons_lock (Spinlock true) s)) by (by destruct Hs).
  destruct (consputs_ok ((λ c, Z.land c 0xff) <$> buf) _ Hs1) as (s1 & E1 & O1 & U1).
  mstep E1. mstep by (apply release_held; simpl; by rewrite (lock_output _ _ O1)).
  exists (lset l_cons_lock unlocked s1). split_and!.
  - done.
  - destruct O1 as [[E Hrow] [? ? ?]]. split; [|by constructor]. split; [|done]. rewrite E. destruct s; simpl in *. by rewrite Hl.
  - simpl in *. rewrite U1. f_equal. destruct (uart s); [|done]. clear -Hb.
    induction Hb as [|c buf Hc Hb IH]; [done|]. rewrite !fmap_cons. cbn [concat]. rewrite IH.
    change 0xff with (Z.ones 8). rewrite land_low, Z.mod_small by (simpl; lia). unfold serial, BACKSPACE.
    rewrite (proj2 (Z.eqb_neq _ _)) by lia. by rewrite u8_small by lia.
Qed.

(** *** Witnesses *)

(** The console after boot: an empty screen and nothing typed. *)
Definition console0 : console :=
  Console unlocked true false true [] (replicate 2000 0) 0 (replicate 128 0) 4294967295 4294967295 4294967295 0.
Lemma console0_rep : tty_rep console0 (Tty [] []).
Proof.
  split; [|apply not_elem_of_nil]. constructor; simpl; try done; try lia.
Qed.

(** "ab", backspace, "c", enter, typed when the counters are about to wrap. *)
Lemma consoleintr_refines_witness :
  ∃ s', consoleintr (mret tt) [97; 98; 127; 99; 13] console0 = Ok tt s' ∧
    tty_rep s' (Tty [97; 99; 10] []) ∧ in_woken s' = 1.
Proof.
  destruct (consoleintr_refines (mret tt) [97; 98; 127; 99; 13] console0 (Tty [] [])) as (s' & E & H & _ & Hw).
  - exact console0_rep.
  - reflexivity.
  - apply (bool_decide_unpack _). vm_compute. exact I.
  - exists s'. split; [exact E|]. split; [exact H|exact Hw].
Defined.

Definition console_line : console :=
  set_input ([97; 10] ++ replicate 126 0) 0 2 2 console0.
Lemma consoleread_refines_witness :
  ∃ s', cons_read false 100 100 [] console_line = Ok (ReadDone 98 [97; 10]) s' ∧
    tty_rep s' (Tty [] []).
Proof.
  destruct (consoleread_refines false 100 console_line [97; 10] []) as (s' & E & H & _).
  - split; [|apply not_elem_of_nil]. constructor; try reflexivity.
    + constructor; [reflexivity|split; discriminate || reflexivity|reflexivity].
    + split; [discriminate|reflexivity].
    + repeat constructor.
  - reflexivity.
  - split; [discriminate|reflexivity].
  - exists s'. split; [exact E|exact H].
Defined.

Lemma consolewrite_safe_witness :
  ∃ s', cons_write [104; 105; 10] console0 = Ok 3 s' ∧ uart_out s' = [104; 105; 10].
Proof.
  destruct (consolewrite_safe [104; 105; 10] console0) as (s' & E & _ & H).
  - exact (tr_screen _ _ (proj1 console0_rep)).
  - reflexivity.
  - apply (bool_decide_unpack _). vm_compute. exact I.
  - exists s'. split; [exact E|exact H].
Defined.
