(* ===== verification/Pipe.v ===== *)
(** * Pipes (pipe.c)

    A pipe is a ring of [PIPESIZE] bytes between two free-running counters.
    [pipewrite] and [piperead] may sleep in the middle of their work; they are
    modelled from a call or a wake-up to the next sleep or the return, and the
    [wakeup] calls they make are recorded.  A transition system of a writer and
    a reader process then shows that bytes arrive in order and that no wake-up
    is lost. *)

From Stdlib Require Import ZArith Lia.
From stdpp Require Import base numbers strings sets list relations.
From S2P Require Import Prelude Locks Ring.

Definition PIPESIZE : Z := 512.

(** The channels [&p->nread] and [&p->nwrite]. *)
Inductive chan := NREAD | NWRITE.
#[global] Instance chan_eq_dec : EqDecision chan.
Proof. solve_decision. Defined.

(** [struct pipe], and the [wakeup] calls made so far by the running
    operation. *)
Record pipe := Pipe {
  p_lock : spinlock;
  p_data : list Z;
  p_nread : Z;
  p_nwrite : Z;
  p_readopen : bool;
  p_writeopen : bool;
  p_woken : list chan;
}.

Definition l_plock : lens pipe spinlock := Lens p_lock
  (λ l p, Pipe l (p_data p) (p_nread p) (p_nwrite p) (p_readopen p) (p_writeopen p) (p_woken p)).
Definition p_put (data : list Z) (nwrite : Z) (p : pipe) : pipe :=
  Pipe (p_lock p) data (p_nread p) nwrite (p_readopen p) (p_writeopen p) (p_woken p).
Definition p_get (nread : Z) (p : pipe) : pipe :=
  Pipe (p_lock p) (p_data p) nread (p_nwrite p) (p_readopen p) (p_writeopen p) (p_woken p).
Definition p_open (r w : bool) (p : pipe) : pipe :=
  Pipe (p_lock p) (p_data p) (p_nread p) (p_nwrite p) r w (p_woken p).
Definition wakeup (c : chan) : M pipe unit := modify (λ p,
  Pipe (p_lock p) (p_data p) (p_nread p) (p_nwrite p) (p_readopen p) (p_writeopen p) (p_woken p ++ [c])).

(** The initialisation of a new pipe in [pipealloc]; the page [data] lives in
    holds arbitrary bytes. *)
Definition pipe_init (data : list Z) : pipe := Pipe unlocked data 0 0 true true [].

(** Returns whether the pipe's page is freed. *)
Definition pipeclose (writable : bool) : M pipe bool :=
  acquire l_plock;;
  (if writable then modify (λ p, p_open (p_readopen p) false p);; wakeup NREAD
   else modify (λ p, p_open false (p_writeopen p) p);; wakeup NWRITE);;
  p ← gets id;
  release l_plock;;
  mret (negb (p_readopen p) && negb (p_writeopen p)).

(** A call returns, or sleeps with work left to do; a call that fails has not
    written [rest]. *)
Inductive wresult := WroteAll | WriteSleeps (rest : list Z) | WriteFails (rest : list Z).

Fixpoint pipewrite_loop (killed : bool) (addr : list Z) : M pipe wresult :=
  match addr with
  | [] => wakeup NREAD;; release l_plock;; mret WroteAll
  | c :: addr' =>
      p ← gets id;
      if p_nwrite p =? u32 (p_nread p + PIPESIZE) then
        if negb (p_readopen p) || killed then release l_plock;; mret (WriteFails addr)
        else wakeup NREAD;; release l_plock;; mret (WriteSleeps addr)
      else
        modify (λ p, p_put (ring_set PIPESIZE (p_data p) (p_nwrite p) c) (u32 (p_nwrite p + 1)) p);;
        pipewrite_loop killed addr'
  end.
Definition pipewrite (killed : bool) (addr : list Z) : M pipe wresult :=
  acquire l_plock;;
  pipewrite_loop killed addr.

Inductive rresult := ReadBytes (bs : list Z) | ReadSleeps | ReadFails.

Fixpoint piperead_copy (n : nat) : M pipe (list Z) :=
  match n with
  | O => mret []
  | S n =>
      p ← gets id;
      if p_nread p =? p_nwrite p then mret []
      else
        modify (λ p, p_get (u32 (p_nread p + 1)) p);;
        bs ← piperead_copy n;
        mret (ring_get PIPESIZE (p_data p) (p_nread p) :: bs)
  end.
Definition piperead (killed : bool) (n : nat) : M pipe rresult :=
  acquire l_plock;;
  p ← gets id;
  if (p_nread p =? p_nwrite p) && p_writeopen p then
    if killed then release l_plock;; mret ReadFails
    else release l_plock;; mret ReadSleeps
  else
    bs ← piperead_copy n;
    wakeup NWRITE;;
    release l_plock;;
    mret (ReadBytes bs).

(** ** The bytes in the pipe *)

Record pipe_rep (p : pipe) (q : list Z) : Prop := {
  pr_lock : p_lock p = unlocked;
  pr_len : length (p_data p) = 512%nat;
  pr_rng : 0 ≤ p_nread p < 4294967296;
  pr_cnt : p_nwrite p = u32 (p_nread p + Z.of_nat (length q));
  pr_fit : (length q ≤ 512)%nat;
  pr_bytes : q = ring 512 (p_data p) (p_nread p) (length q);
}.

Lemma div512 : (512 | 4294967296).
Proof. by exists 8388608. Qed.
#[local] Hint Resolve div512 : core.

(** The same while the lock is held. *)
Definition pipe_locked (p : pipe) (q : list Z) : Prop :=
  p_lock p = Spinlock true ∧ pipe_rep (lset l_plock unlocked p) q.

Lemma pipe_rep_lock p q : pipe_rep p q → pipe_locked (lset l_plock (Spinlock true) p) q.
Proof. intros []. split; [done|]. by constructor. Qed.
Lemma pipe_acquire p q :
  pipe_rep p q → acquire l_plock p = Ok tt (lset l_plock (Spinlock true) p).
Proof. intros H. apply acquire_free. simpl. by rewrite (pr_lock p q H). Qed.
Lemma pipe_release p q :
  pipe_locked p q → release l_plock p = Ok tt (lset l_plock unlocked p).
Proof. intros [H _]. apply release_held. simpl. by rewrite H. Qed.

Lemma pipe_full p q :
  pipe_locked p q → (p_nwrite p =? u32 (p_nread p + PIPESIZE)) = (length q =? 512)%nat.
Proof.
  intros [_ [Hl Hlen Hr Hc Hf Hb]]. simpl in *. unfold PIPESIZE. rewrite Hc.
  destruct (Nat.eqb_spec (length q) 512) as [->|Hn]; [by rewrite Z.eqb_refl|].
  apply Z.eqb_neq. ulia.
Qed.
Lemma pipe_empty p q :
  pipe_locked p q → (p_nread p =? p_nwrite p) = bool_decide (q = []).
Proof.
  intros [_ [Hl Hlen Hr Hc Hf Hb]]. simpl in *. rewrite Hc. destruct q as [|c q].
  - rewrite bool_decide_eq_true_2 by done. apply Z.eqb_eq. simpl. ulia.
  - rewrite bool_decide_eq_false_2 by done. apply Z.eqb_neq. simpl length in *. ulia.
Qed.

Lemma pipe_push p q c :
  pipe_locked p q → (length q < 512)%nat →
  pipe_locked (p_put (ring_set 512 (p_data p) (p_nwrite p) c) (u32 (p_nwrite p + 1)) p) (q ++ [c]).
Proof.
  intros [HL [Hl Hlen Hr Hc Hf Hb]] Hq. simpl in *. split; [done|]. constructor; simpl; try done.
  - by rewrite length_ring_set.
  - rewrite Hc, length_app. simpl. unfold u32. rewrite Zplus_mod_idemp_l. f_equal. lia.
  - rewrite length_app. simpl. lia.
  - rewrite length_app, Nat.add_1_r, Hc, ring_set_u32 by done.
    rewrite ring_push by (done || lia). by rewrite <-Hb.
Qed.
Lemma pipe_pop p c q :
  pipe_locked p (c :: q) →
  ring_get 512 (p_data p) (p_nread p) = c ∧ pipe_locked (p_get (u32 (p_nread p + 1)) p) q.
Proof.
  intros [HL [Hl Hlen Hr Hc Hf Hb]]. cbn [lset l_plock p_lock p_data p_nread p_nwrite length] in *.
  rewrite ring_S in Hb by (done || lia). injection Hb as Hc' Hq. split; [done|]. split; [done|].
  constructor; cbn [lset l_plock p_lock p_data p_nread p_nwrite p_get]; try done.
  - ulia.
  - rewrite Hc. ulia.
  - lia.
  - by rewrite ring_u32 by done.
Qed.

(** How an operation may change the rest of the pipe. *)
Definition pipe_step (p p' : pipe) (ws : list chan) : Prop :=
  p_readopen p' = p_readopen p ∧ p_writeopen p' = p_writeopen p ∧ p_woken p' = p_woken p ++ ws.

Lemma pipewrite_loop_ok killed addr p q :
  pipe_locked p q →
  ∃ k p', let done := take k addr in let rest := drop k addr in
    pipewrite_loop killed addr p =
      Ok (match rest with
          | [] => WroteAll
          | _ => if negb (p_readopen p) || killed then WriteFails rest else WriteSleeps rest
          end) p' ∧
    pipe_rep p' (q ++ done) ∧
    pipe_step p p' (match rest with
                    | [] => [NREAD]
                    | _ => if negb (p_readopen p) || killed then [] else [NREAD]
                    end) ∧
    (rest ≠ [] → length (q ++ done) = 512%nat).
Proof.
  revert p q. induction addr as [|c addr IH]; intros p q H.
  - exists 0%nat. simpl. mrun. eexists. split_and!.
    + mstep by (eapply (pipe_release _ q); by destruct H as [? []]). reflexivity.
    + rewrite app_nil_r. by destruct H as [? []].
    + by split_and!.
    + done.
  - cbn [pipewrite_loop]. mrun. unfold id. rewrite (pipe_full p q H).
    destruct (Nat.eqb_spec (length q) 512) as [Hf|Hf].
    + exists 0%nat. cbn [take drop]. rewrite app_nil_r.
      destruct (negb (p_readopen p) || killed) eqn:Eo.
      * eexists. split_and!; [by mstep (pipe_release _ _ H)|by destruct H as [? []]| |done].
        split_and!; [done..|]. by rewrite app_nil_r.
      * mrun. eexists. split_and!.
        -- mstep by (eapply (pipe_release _ q); by destruct H as [? []]). reflexivity.
        -- by destruct H as [? []].
        -- by split_and!.
        -- done.
    + mrun. change PIPESIZE with 512.
      assert (Hlt : (length q < 512)%nat).
      { destruct H as [_ H]. pose proof (pr_fit _ _ H). lia. }
      destruct (IH _ _ (pipe_push p q c H Hlt)) as (k & p' & E & Hr & Hs & Hx).
      exists (S k), p'. cbn [take drop]. rewrite <-app_assoc in Hr, Hx. simpl in Hr, Hx.
      split_and!; done.
Qed.

Lemma piperead_copy_ok n p q :
  pipe_locked p q →
  ∃ p', piperead_copy n p = Ok (take n q) p' ∧ pipe_locked p' (drop n q) ∧ pipe_step p p' [].
Proof.
  revert p q. induction n as [|n IH]; intros p q H.
  { exists p. split_and!; [done|done|]. split_and!; [done..|]. by rewrite app_nil_r. }
  cbn [piperead_copy]. mrun. unfold id. rewrite (pipe_empty p q H). destruct q as [|c q].
  - rewrite bool_decide_eq_true_2 by done. exists p.
    split_and!; [done|done|]. split_and!; [done..|]. by rewrite app_nil_r.
  - rewrite bool_decide_eq_false_2 by done. mrun.
    destruct (pipe_pop p c q H) as [Hc Hp]. destruct (IH _ _ Hp) as (p' & E & Hl & Hs).
    mstep E. exists p'. change PIPESIZE with 512. rewrite Hc. done.
Qed.

Lemma pipewrite_ok killed addr p q :
  pipe_rep p q →
  ∃ k p', let done := take k addr in let rest := drop k addr in
    pipewrite killed addr p =
      Ok (match rest with
          | [] => WroteAll
          | _ => if negb (p_readopen p) || killed then WriteFails rest else WriteSleeps rest
          end) p' ∧
    pipe_rep p' (q ++ done) ∧
    pipe_step p p' (match rest with
                    | [] => [NREAD]
                    | _ => if negb (p_readopen p) || killed then [] else [NREAD]
                    end) ∧
    (rest ≠ [] → length (q ++ done) = 512%nat).
Proof.
  intros H. unfold pipewrite. setoid_rewrite (bind_ok _ _ _ _ _ (pipe_acquire p q H)).
  exact (pipewrite_loop_ok killed addr _ q (pipe_rep_lock p q H)).
Qed.

Lemma piperead_ok killed n p q :
  pipe_rep p q →
  ∃ p', piperead killed n p =
      Ok (if bool_decide (q = []) && p_writeopen p then if killed then ReadFails else ReadSleeps
          else ReadBytes (take n q)) p' ∧
    pipe_rep p' (if bool_decide (q = []) && p_writeopen p then q else drop n q) ∧
    pipe_step p p' (if bool_decide (q = []) && p_writeopen p then [] else [NWRITE]).
Proof.
  intros H. unfold piperead. mstep (pipe_acquire p q H). mrun. unfold id.
  pose proof (pipe_rep_lock p q H) as HL. rewrite (pipe_empty _ _ HL). cbn [p_writeopen lset l_plock].
  destruct (bool_decide (q = []) && p_writeopen p) eqn:E.
  - exists (lset l_plock unlocked p). assert (pipe_rep (lset l_plock unlocked p) q) by by destruct H.
    destruct killed; (split_and!; [by mstep (pipe_release _ _ HL)|done|]);
      (split_and!; [done..|by rewrite app_nil_r]).
  - destruct (piperead_copy_ok n _ _ HL) as (p1 & E1 & H1 & Hs). mstep E1. mrun.
    eexists. split_and!.
    + mstep by (eapply (pipe_release _ (drop n q)); by destruct H1 as [? []]). reflexivity.
    + by destruct H1 as [? []].
    + destruct Hs as (Hr & Hw & Hk). split_and!; [done..|]. simpl. rewrite Hk. simpl. by rewrite app_nil_r.
Qed.

(** ** A writer and a reader

    The writer and the reader process alternate in any order between starting
    a call, running until they sleep or return, and closing their end; a
    [wakeup] makes a sleeper runnable.  The ghost lists record all bytes given
    to and taken from the pipe. *)

Inductive wproc := WIdle | WAsleep (rest : list Z) | WRunnable (rest : list Z) | WKilled.
Inductive rproc := RIdle | RAsleep (n : nat) | RRunnable (n : nat) | RKilled.

Record system := System {
  sy_pipe : pipe;
  sy_w : wproc;
  sy_r : rproc;
  sy_written : list Z;
  sy_received : list Z;
}.

Definition wake_w (ws : list chan) (w : wproc) : wproc :=
  match w with WAsleep rest => if decide (NWRITE ∈ ws) then WRunnable rest else w | _ => w end.
Definition wake_r (ws : list chan) (r : rproc) : rproc :=
  match r with RAsleep n => if decide (NREAD ∈ ws) then RRunnable n else r | _ => r end.
Definition clear_woken (p : pipe) : pipe :=
  Pipe (p_lock p) (p_data p) (p_nread p) (p_nwrite p) (p_readopen p) (p_writeopen p) [].

(** The state after an operation: sleepers it woke become runnable. *)
Definition settle (p : pipe) (w : wproc) (r : rproc) (wr rc : list Z) : system :=
  System (clear_woken p) (wake_w (p_woken p) w) (wake_r (p_woken p) r) wr rc.

(** The bytes of a call that went into the pipe, and the writer afterwards: a
    process that was killed makes no further call and closes its end. *)
Definition unwritten (res : wresult) : list Z :=
  match res with WroteAll => [] | WriteSleeps rest | WriteFails rest => rest end.
Definition consumed (bytes : list Z) (res : wresult) : list Z :=
  take (length bytes - length (unwritten res)) bytes.
Definition w_after (killed : bool) (res : wresult) : wproc :=
  match res with
  | WroteAll => WIdle
  | WriteSleeps rest => WAsleep rest
  | WriteFails _ => if killed then WKilled else WIdle
  end.

Inductive step : system → system → Prop :=
| step_write_call p r wr rc bytes :
    p_writeopen p = true →
    step (System p WIdle r wr rc) (System p (WRunnable bytes) r wr rc)
| step_write_run p r wr rc bytes killed res p' :
    pipewrite killed bytes p = Ok res p' →
    step (System p (WRunnable bytes) r wr rc)
      (settle p' (w_after killed res) r (wr ++ consumed bytes res) rc)
| step_write_close p w r wr rc b p' :
    p_writeopen p = true → w = WIdle ∨ w = WKilled → pipeclose true p = Ok b p' →
    step (System p w r wr rc) (settle p' WIdle r wr rc)
| step_read_call p w wr rc n :
    p_readopen p = true →
    step (System p w RIdle wr rc) (System p w (RRunnable n) wr rc)
| step_read_run p w wr rc n killed res p' :
    piperead killed n p = Ok res p' →
    step (System p w (RRunnable n) wr rc)
      (settle p' w (match res with ReadBytes _ => RIdle | ReadSleeps => RAsleep n | ReadFails => RKilled end) wr
         (match res with ReadBytes bs => rc ++ bs | _ => rc end))
| step_read_close p w r wr rc b p' :
    p_readopen p = true → r = RIdle ∨ r = RKilled → pipeclose false p = Ok b p' →
    step (System p w r wr rc) (settle p' w RIdle wr rc).

Definition initial (s : system) : Prop :=
  ∃ data, length data = 512%nat ∧ s = System (pipe_init data) WIdle RIdle [] [].
Definition reachable (s : system) : Prop := ∃ s0, initial s0 ∧ rtc step s0 s.

Definition w_busy (w : wproc) : Prop := w ≠ WIdle.
Definition r_busy (r : rproc) : Prop := r ≠ RIdle.

(** The invariant, with the bytes [q] in the pipe. *)
Record sys_inv (s : system) (q : list Z) : Prop := {
  si_rep : pipe_rep (sy_pipe s) q;
  si_woken : p_woken (sy_pipe s) = [];
  si_fifo : sy_written s = sy_received s ++ q;
  si_wopen : w_busy (sy_w s) → p_writeopen (sy_pipe s) = true;
  si_ropen : r_busy (sy_r s) → p_readopen (sy_pipe s) = true;
  si_wsleep : ∀ rest, sy_w s = WAsleep rest → length q = 512%nat ∧ p_readopen (sy_pipe s) = true;
  si_rsleep : ∀ n, sy_r s = RAsleep n →
    (q = [] ∨ sy_w s = WKilled) ∧ p_writeopen (sy_pipe s) = true;
}.

Lemma clear_rep p q : pipe_rep p q → pipe_rep (clear_woken p) q.
Proof. by intros []. Qed.

Lemma pipeclose_ok writable p q :
  pipe_rep p q →
  ∃ b p', pipeclose writable p = Ok b p' ∧ pipe_rep p' q ∧
    p_readopen p' = (if writable then p_readopen p else false) ∧
    p_writeopen p' = (if writable then false else p_writeopen p) ∧
    p_woken p' = p_woken p ++ [if writable then NREAD else NWRITE] ∧
    b = negb (p_readopen p') && negb (p_writeopen p').
Proof.
  intros H. unfold pipeclose. mstep (pipe_acquire p q H).
  destruct writable; mrun; unfold id; do 2 eexists; (split_and!; [done|by destruct H|done..]).
Qed.

Lemma initial_inv s : initial s → sys_inv s [].
Proof.
  intros (data & Hl & ->). constructor; simpl; try done. constructor; simpl; try done; lia.
Qed.

Lemma wake_w_asleep ws w rest : wake_w ws w = WAsleep rest → w = WAsleep rest ∧ NWRITE ∉ ws.
Proof. destruct w; simpl; try done. case_decide; [done|]. by intros [= ->]. Qed.
Lemma wake_r_asleep ws r n : wake_r ws r = RAsleep n → r = RAsleep n ∧ NREAD ∉ ws.
Proof. destruct r; simpl; try done. case_decide; [done|]. by intros [= ->]. Qed.
Lemma wake_w_busy ws w : w_busy (wake_w ws w) → w_busy w.
Proof. unfold w_busy. destruct w; simpl; try done. Qed.
Lemma wake_r_busy ws r : r_busy (wake_r ws r) → r_busy r.
Proof. unfold r_busy. destruct r; simpl; try done. Qed.

Lemma step_inv s s' q : sys_inv s q → step s s' → ∃ q', sys_inv s' q'.
Proof.
  intros Hi Hs. destruct Hs as
    [p r wr rc bytes Ho|p r wr rc bytes killed res p' E|p w r wr rc b p' Ho Hw E
    |p w wr rc n Ho|p w wr rc n killed res p' E|p w r wr rc b p' Ho Hr E];
    destruct Hi as [Hrep Hwk Hff Hwo Hro Hws Hrs]; simpl in *.
  - exists q. constructor; simpl; try done. intros n Hn. destruct (Hrs n Hn) as [[]]; [by auto|done].
  - destruct (pipewrite_ok killed bytes p q Hrep) as (k & p1 & E1 & H1 & (Sr & Sw & Sk) & Hfull).
    rewrite E1 in E. injection E as <- <-. rewrite Hwk, app_nil_l in Sk.
    set (rest := drop k bytes) in *.
    assert (Hun : unwritten (match rest with [] => WroteAll
      | _ => if negb (p_readopen p) || killed then WriteFails rest else WriteSleeps rest end) = rest).
    { destruct rest; [done|]. by destruct (_ || _). }
    assert (Hcons : consumed bytes (match rest with [] => WroteAll
      | _ => if negb (p_readopen p) || killed then WriteFails rest else WriteSleeps rest end) = take k bytes).
    { unfold consumed. rewrite Hun. subst rest. rewrite length_drop.
      destruct (decide (k ≤ length bytes)%nat); [f_equal; lia|]. rewrite !take_ge by lia. done. }
    exists (q ++ take k bytes). rewrite Hcons. constructor; simpl; try done.
    + by apply clear_rep.
    + by rewrite Hff, app_assoc.
    + intros _. rewrite Sw. apply Hwo. done.
    + intros Hb. rewrite Sr. by eapply Hro, wake_r_busy.
    + intros rest' Hsl. apply wake_w_asleep in Hsl as [Hsl _]. rewrite Sr.
      destruct rest as [|c rest0]; [done|]. split; [by apply Hfull|].
      destruct (p_readopen p); [done|]. simpl in Hsl. by destruct killed.
    + intros n Hsl. apply wake_r_asleep in Hsl as [Hsl Hnw]. rewrite Sw.
      split; [|by apply (Hrs n Hsl)]. right. rewrite Sk in Hnw.
      assert (p_readopen p = true) as Hro' by (apply Hro; by rewrite Hsl).
      rewrite Hro' in *. destruct rest; [set_solver|]. destruct killed; simpl in *; [done|set_solver].
  - destruct (pipeclose_ok true p q Hrep) as (b' & p1 & E1 & H1 & Sr & Sw & Sk & _).
    rewrite E1 in E. injection E as <- <-. rewrite Hwk in Sk. exists q.
    constructor; simpl; try done.
    + by apply clear_rep.
    + intros Hb. rewrite Sr. by eapply Hro, wake_r_busy.
    + intros n Hsl. apply wake_r_asleep in Hsl as [_ Hnw]. rewrite Sk in Hnw. set_solver.
  - exists q. constructor; simpl; try done.
  - destruct (piperead_ok killed n p q Hrep) as (p1 & E1 & H1 & (Sr & Sw & Sk)).
    rewrite E1 in E. injection E as <- <-. rewrite Hwk, app_nil_l in Sk.
    destruct (bool_decide (q = []) && p_writeopen p) eqn:Eb.
    + apply andb_true_iff in Eb as [Hq How]. apply bool_decide_eq_true in Hq as ->.
      exists []. constructor; simpl; try done.
      * by apply clear_rep.
      * by destruct killed.
      * intros Hb. rewrite Sw. done.
      * intros Hb. rewrite Sr. by apply Hro.
      * intros rest Hsl. apply wake_w_asleep in Hsl as [Hsl _]. by destruct (Hws rest Hsl).
      * intros n' Hsl. rewrite Sw. by split; [left|].
    + exists (drop n q). constructor; simpl; try done.
      * by apply clear_rep.
      * rewrite Hff, <-app_assoc. f_equal. by rewrite take_drop.
      * intros Hb. rewrite Sw. by eapply Hwo, wake_w_busy.
      * intros rest Hsl. apply wake_w_asleep in Hsl as [_ Hnw]. rewrite Sk in Hnw. set_solver.
  - destruct (pipeclose_ok false p q Hrep) as (b' & p1 & E1 & H1 & Sr & Sw & Sk & _).
    rewrite E1 in E. injection E as <- <-. rewrite Hwk in Sk. exists q.
    constructor; simpl; try done.
    + by apply clear_rep.
    + intros Hb. rewrite Sw. by eapply Hwo, wake_w_busy.
    + intros rest Hsl. apply wake_w_asleep in Hsl as [_ Hnw]. rewrite Sk in Hnw. set_solver.
Qed.

Lemma reachable_inv s : reachable s → ∃ q, sys_inv s q.
Proof.
  intros (s0 & H0 & Hr). assert (H : ∃ q, sys_inv s0 q) by (exists []; by apply initial_inv).
  clear H0. induction Hr as [|x y z Hxy _ IH]; [done|]. destruct H as [q H].
  apply IH. by eapply step_inv.
Qed.

(** ** Claims *)

(** C28. A pipe is a first-in first-out channel: in every state that a writer
    and a reader can reach, with any sizes of writes and reads, any
    interleaving, sleeps, wake-ups and kills, the bytes written so far are the
    bytes received so far followed by those between the two counters of the
    ring, which are at most [PIPESIZE]. *)
Theorem pipe_fifo s :
  reachable s →
  ∃ q, sy_written s = sy_received s ++ q ∧ (length q ≤ 512)%nat ∧
    q = ring PIPESIZE (p_data (sy_pipe s)) (p_nread (sy_pipe s))
          (Z.to_nat (u32 (p_nwrite (sy_pipe s) - p_nread (sy_pipe s)))).
Proof.
  intros H. apply reachable_inv in H as [q [[Hl Hlen Hr Hc Hf Hb] _ Hff _ _ _ _]].
  exists q. split_and!; [done..|]. rewrite Hc.
  replace (Z.to_nat (u32 (u32 (p_nread (sy_pipe s) + Z.of_nat (length q)) - p_nread (sy_pipe s))))
    with (length q) by ulia. done.
Qed.

(** C29. No wake-up of a pipe is lost: in every reachable state the writer
    sleeps only while the pipe is full and its read end is open, the reader
    sleeps only while the write end is open and the pipe is empty or the
    writer was killed and is about to close its end, and the two never sleep
    at the same time. *)
Theorem pipe_no_lost_wakeup s :
  reachable s →
  (∀ rest, sy_w s = WAsleep rest →
     u32 (p_nwrite (sy_pipe s) - p_nread (sy_pipe s)) = PIPESIZE ∧ p_readopen (sy_pipe s) = true) ∧
  (∀ n, sy_r s = RAsleep n →
     (p_nwrite (sy_pipe s) = p_nread (sy_pipe s) ∨ sy_w s = WKilled) ∧ p_writeopen (sy_pipe s) = true) ∧
  ¬ ((∃ rest, sy_w s = WAsleep rest) ∧ ∃ n, sy_r s = RAsleep n).
Proof.
  intros H. apply reachable_inv in H as [q [[Hl Hlen Hr Hc Hf Hb] _ Hff _ _ Hw Hrs]]. split_and!.
  - intros rest E. destruct (Hw rest E) as [Hq Ho]. split; [|done]. rewrite Hc, Hq. unfold PIPESIZE. ulia.
  - intros n E. destruct (Hrs n E) as [[->|Hk] Ho]; (split; [|done]); [left|by right].
    rewrite Hc. simpl. ulia.
  - intros ((rest & E1) & n & E2). destruct (Hw rest E1) as [Hq _].
    destruct (Hrs n E2) as [[->|Hk] _]; [done|congruence].
Qed.

(** A writer that is killed while it fills the pipe returns without waking
    the reader, which stays asleep although the pipe is full, until the write
    end is closed. *)
Theorem pipewrite_killed_keeps_reader_asleep :
  let p := pipe_init (replicate 512 0) in
  ∃ s, rtc step (System p (WRunnable (replicate 513 1)) (RAsleep 1) [] []) s ∧
    sy_w s = WKilled ∧ sy_r s = RAsleep 1 ∧ sy_written s = replicate 512 1.
Proof.
  intros p.
  destruct (pipewrite true (replicate 513 1) p) as [res p' | | | |] eqn:E; try by vm_compute in E.
  eexists. split.
  - eapply rtc_l; [eapply step_write_run; exact E|apply rtc_refl].
  - vm_compute in E. injection E as <- <-. by vm_compute.
Qed.

(** *** Witnesses *)

Definition run1 : pipe :=
  match pipewrite false [7; 8; 9] (pipe_init (replicate 512 0)) with Ok _ p => clear_woken p | _ => pipe_init [] end.
Lemma run1_reachable : reachable (System run1 WIdle RIdle [7; 8; 9] []).
Proof.
  exists (System (pipe_init (replicate 512 0)) WIdle RIdle [] []). split; [by exists (replicate 512 0)|].
  eapply rtc_l; [by apply (step_write_call _ _ _ _ [7; 8; 9])|].
  eapply rtc_l; [|apply rtc_refl].
  assert (E : pipewrite false [7; 8; 9] (pipe_init (replicate 512 0)) =
    Ok WroteAll (match pipewrite false [7; 8; 9] (pipe_init (replicate 512 0)) with Ok _ p => p | _ => pipe_init [] end))
    by by vm_compute.
  exact (step_write_run _ RIdle [] [] _ false _ _ E).
Qed.

Lemma pipe_fifo_witness :
  ∃ q, [7; 8; 9] = [] ++ q ∧ (length q ≤ 512)%nat.
Proof.
  destruct (pipe_fifo _ run1_reachable) as (q & H & Hl & _). exists q. split; [exact H|exact Hl].
Defined.

(** A reader that found the pipe empty. *)
Definition run2 : pipe :=
  match piperead false 5 (pipe_init (replicate 512 0)) with Ok _ p => p | _ => pipe_init [] end.
Lemma run2_reachable : reachable (System (clear_woken run2) WIdle (RAsleep 5) [] []).
Proof.
  exists (System (pipe_init (replicate 512 0)) WIdle RIdle [] []). split; [by exists (replicate 512 0)|].
  eapply rtc_l; [by apply (step_read_call _ _ _ _ 5)|].
  eapply rtc_l; [|apply rtc_refl].
  assert (E : piperead false 5 (pipe_init (replicate 512 0)) = Ok ReadSleeps run2) by by vm_compute.
  exact (step_read_run _ WIdle [] [] 5 false _ _ E).
Qed.

Lemma pipe_no_lost_wakeup_witness :
  (p_nwrite run2 = p_nread run2 ∨ WIdle = WKilled) ∧ p_writeopen run2 = true.
Proof. exact (proj1 (proj2 (pipe_no_lost_wakeup _ run2_reachable)) 5%nat eq_refl). Defined.
