(* ===== verification/Spinlock.v ===== *)
(** * Spin locks on several CPUs (spinlock.c)

    The other components see a lock as in [Locks.v].  Here the lock is the
    word the CPUs exchange and the CPU it was taken by, and each CPU has its
    interrupt flag, [ncli] and [intena].  A transition system interleaves the
    instructions of [acquire] and [release] of all CPUs; it gives mutual
    exclusion, and the abstract operations of [Locks.v] are what one CPU
    sees. *)

From Stdlib Require Import ZArith Lia.
From stdpp Require Import base numbers strings list relations.
From S2P Require Import Prelude Mmu Memory Locks.

(** The part of [struct cpu] the locks use, and FL_IF of its eflags. *)
Record cpu := Cpu { c_if : bool; c_ncli : Z; c_intena : bool }.

(** [locked] and [cpu] of [struct spinlock]; a null [cpu] is [None]. *)
Record lockw := Lockw { lw_locked : Z; lw_cpu : option nat }.

Record lstate := LState { ls_cpu : cpu; ls_lock : lockw }.
Definition upd_cpu (f : cpu → cpu) : M lstate unit := modify (λ s, LState (f (ls_cpu s)) (ls_lock s)).
Definition upd_lock (f : lockw → lockw) : M lstate unit := modify (λ s, LState (ls_cpu s) (f (ls_lock s))).

Definition initlock : M lstate unit := upd_lock (λ _, Lockw 0 None).

Definition pushcli : M lstate unit :=
  eflags ← gets (λ s, c_if (ls_cpu s));
  upd_cpu (λ c, Cpu false (c_ncli c) (c_intena c));;                      (* cli *)
  n ← gets (λ s, c_ncli (ls_cpu s));
  (if n =? 0 then upd_cpu (λ c, Cpu (c_if c) (c_ncli c) eflags) else mret tt);;
  upd_cpu (λ c, Cpu (c_if c) (s32 (c_ncli c + 1)) (c_intena c)).

Definition popcli : M lstate unit :=
  i ← gets (λ s, c_if (ls_cpu s));
  if i : bool then panic "popcli - interruptible"
  else
    upd_cpu (λ c, Cpu (c_if c) (s32 (c_ncli c - 1)) (c_intena c));;
    n ← gets (λ s, c_ncli (ls_cpu s));
    if n <? 0 then panic "popcli"
    else
      ie ← gets (λ s, c_intena (ls_cpu s));
      if (n =? 0) && ie then upd_cpu (λ c, Cpu true (c_ncli c) (c_intena c))   (* sti *)
      else mret tt.

(** [me] is the number of the running CPU. *)
Definition holding (me : nat) : M lstate bool :=
  pushcli;;
  r ← gets (λ s, nz (lw_locked (ls_lock s)) && bool_decide (lw_cpu (ls_lock s) = Some me));
  popcli;;
  mret r.

(** [holding] up to its read of [locked], which gives [b], and the rest: [cpu] is
    read only if the lock is taken. *)
Definition holding_locked : M lstate bool :=
  pushcli;;
  gets (λ s, nz (lw_locked (ls_lock s))).
Definition holding_cpu (me : nat) (b : bool) : M lstate bool :=
  r ← (if b then gets (λ s, bool_decide (lw_cpu (ls_lock s) = Some me)) else mret false);
  popcli;;
  mret r.

(** [acquire] up to the exchange loop, one round of the loop, and the rest. *)
Definition acquire_begin (me : nat) : M lstate unit :=
  pushcli;;
  h ← holding me;
  if h : bool then panic "acquire" else mret tt.
(** [acquire_begin] up to the read of [locked], and from there. *)
Definition acquire_test : M lstate bool := pushcli;; holding_locked.
Definition acquire_tested (me : nat) (b : bool) : M lstate unit :=
  h ← holding_cpu me b;
  if h : bool then panic "acquire" else mret tt.
(** Returns the old value. *)
Definition xchg : M lstate Z :=
  old ← gets (λ s, lw_locked (ls_lock s));
  upd_lock (λ l, Lockw 1 (lw_cpu l));;
  mret old.
Definition acquire_end (me : nat) : M lstate unit := upd_lock (λ l, Lockw (lw_locked l) (Some me)).
Fixpoint acquire_spin (fuel : nat) : M lstate unit :=
  match fuel with
  | O => nofuel
  | S fuel => old ← xchg; if nz old then acquire_spin fuel else mret tt
  end.
Definition acquire_lk (fuel : nat) (me : nat) : M lstate unit :=
  acquire_begin me;; acquire_spin fuel;; acquire_end me.

(** [release] up to the memory barrier, and the rest. *)
Definition release_begin (me : nat) : M lstate unit :=
  h ← holding me;
  if negb h then panic "release" else upd_lock (λ l, Lockw (lw_locked l) None).
(** [release_begin] after the read of [locked]. *)
Definition release_tested (me : nat) (b : bool) : M lstate unit :=
  h ← holding_cpu me b;
  if negb h then panic "release" else upd_lock (λ l, Lockw (lw_locked l) None).
Definition release_end : M lstate unit :=
  upd_lock (λ l, Lockw 0 (lw_cpu l));;
  popcli.
Definition release_lk (me : nat) : M lstate unit := release_begin me;; release_end.

(** The saved program counters of the callers, following the %ebp chain. *)
Fixpoint callerpcs (n : nat) (m : memory) (ebp : Z) : list Z :=
  match n with
  | O => []
  | S n =>
      if (ebp =? 0) || (ebp <? KERNBASE) || (ebp =? 0xffffffff) then replicate (S n) 0
      else load32 m (ebp + 4) :: callerpcs n m (load32 m ebp)
  end.
Definition getcallerpcs (m : memory) (v : Z) : list Z := callerpcs 10 m (u32 (v - 8)).

(** ** The CPUs *)

(** Where a CPU is: outside; in the test of [acquire], having read [locked];
    spinning; between the exchange and recording itself; in its critical section;
    in the test of [release], having read [locked]; between clearing [lk->cpu]
    and the final store. *)
Inductive pc := Outside | Testing (b : bool) | Spinning | Got | Inside | Checking (b : bool) | Leaving.
Record machine := Machine { m_lock : lockw; m_cpus : list (cpu * pc) }.

(** CPU [i] runs an operation [op] from [a] to [b]. *)
Definition runs {A} (i : nat) (a b : pc) (op : M lstate A) (res : A) (m m' : machine) : Prop :=
  ∃ c c', m_cpus m !! i = Some (c, a) ∧
    op (LState c (m_lock m)) = Ok res (LState c' (m_lock m')) ∧
    m_cpus m' = <[i := (c', b)]> (m_cpus m).

Inductive step : machine → machine → Prop :=
| step_test i b m m' : runs i Outside (Testing b) acquire_test b m m' → step m m'
| step_begin i b m m' : runs i (Testing b) Spinning (acquire_tested i b) tt m m' → step m m'
| step_spin i old m m' : old ≠ 0 → runs i Spinning Spinning xchg old m m' → step m m'
| step_got i m m' : runs i Spinning Got xchg 0 m m' → step m m'
| step_in i m m' : runs i Got Inside (acquire_end i) tt m m' → step m m'
| step_check i b m m' : runs i Inside (Checking b) holding_locked b m m' → step m m'
| step_leave i b m m' : runs i (Checking b) Leaving (release_tested i b) tt m m' → step m m'
| step_out i m m' : runs i Leaving Outside release_end tt m m' → step m m'.

(** The lock is free and every CPU outside, with interrupts in any state. *)
Definition boot_cpu (c : cpu * pc) : Prop := c.2 = Outside ∧ c_ncli c.1 = 0.
Definition initial (m : machine) : Prop :=
  m_lock m = Lockw 0 None ∧ Forall boot_cpu (m_cpus m).

(** Past the exchange and not yet through the final store; in between, recorded
    as the holder. *)
Definition owning (p : pc) : bool := match p with Got | Inside | Checking _ | Leaving => true | _ => false end.
Definition recorded (p : pc) : bool := match p with Inside | Checking _ => true | _ => false end.
Definition owns (p : pc) : Prop := owning p = true.
#[global] Instance owns_dec p : Decision (owns p) := decide (owning p = true).

(** What holds of a CPU: outside, its interrupt nesting is back to zero; while
    it runs the lock code interrupts are off. *)
Definition cpu_ok (c : cpu) (p : pc) : Prop :=
  match p with
  | Outside => c_ncli c = 0
  | Testing _ => c_ncli c = 2 ∧ c_if c = false
  | Checking b => c_ncli c = 2 ∧ c_if c = false ∧ b = true
  | _ => c_ncli c = 1 ∧ c_if c = false
  end.

Record inv (m : machine) : Prop := {
  inv_cpus : ∀ i c p, m_cpus m !! i = Some (c, p) → cpu_ok c p;
  inv_one : ∀ i j c d p q, m_cpus m !! i = Some (c, p) → m_cpus m !! j = Some (d, q) →
    owns p → owns q → i = j;
  inv_word : lw_locked (m_lock m) = 0 ↔ ∀ i c p, m_cpus m !! i = Some (c, p) → ¬ owns p;
  inv_inside : ∀ i c p, m_cpus m !! i = Some (c, p) → recorded p = true → lw_cpu (m_lock m) = Some i;
  inv_cpu : ∀ i, lw_cpu (m_lock m) = Some i → ∃ c p, m_cpus m !! i = Some (c, p) ∧ recorded p = true;
}.

(** ** One CPU *)

Definition cpu_wf (c : cpu) : Prop :=
  0 ≤ c_ncli c < 2147483640 ∧ (0 < c_ncli c → c_if c = false).
(** Whether the lock word says that CPU [me] holds the lock. *)
Definition holds (me : nat) (l : lockw) : bool := nz (lw_locked l) && bool_decide (lw_cpu l = Some me).
(** The CPU after [pushcli] and [popcli]. *)
Definition pushed (c : cpu) : cpu :=
  Cpu false (c_ncli c + 1) (if c_ncli c =? 0 then c_if c else c_intena c).
Definition popped (c : cpu) : cpu :=
  Cpu ((c_ncli c =? 1) && c_intena c) (c_ncli c - 1) (c_intena c).

Lemma pushcli_ok c l : cpu_wf c → pushcli (LState c l) = Ok tt (LState (pushed c) l).
Proof.
  intros [Hn Hi]. unfold pushcli. mrun. unfold pushed. cbn [ls_cpu c_ncli].
  destruct (c_ncli c =? 0); mrun; unfold upd_cpu, modify; cbn [ls_cpu ls_lock c_if c_ncli c_intena];
    rewrite s32_small by lia; done.
Qed.
Lemma popcli_ok c l :
  c_if c = false → 1 ≤ c_ncli c < 2147483648 → popcli (LState c l) = Ok tt (LState (popped c) l).
Proof.
  intros Hi Hn. unfold popcli. mrun. cbn [ls_cpu c_if]. rewrite Hi. mrun.
  cbn [ls_cpu ls_lock c_if c_ncli c_intena]. rewrite s32_small by lia.
  destruct (Z.ltb_spec (c_ncli c - 1) 0); [lia|]. mrun. cbn [ls_cpu c_intena]. unfold popped.
  replace (c_ncli c - 1 =? 0) with (c_ncli c =? 1).
  2:{ destruct (Z.eqb_spec (c_ncli c) 1), (Z.eqb_spec (c_ncli c - 1) 0); lia || done. }
  destruct (_ && _); unfold upd_cpu, modify, mret, M_ret; cbn [ls_cpu ls_lock c_if c_ncli c_intena]; congruence.
Qed.
Lemma pushed_wf c : cpu_wf c → c_ncli c < 2147483630 → cpu_wf (pushed c) ∧ 1 ≤ c_ncli (pushed c).
Proof. intros [Hn _] Hx. unfold cpu_wf, pushed. simpl. split; [split; [lia|done]|lia]. Qed.
Lemma popped_pushed c : cpu_wf c → c_if (popped (pushed c)) = c_if c ∧ c_ncli (popped (pushed c)) = c_ncli c.
Proof.
  intros [Hn Hi]. unfold popped, pushed. simpl. split; [|lia].
  destruct (Z.eqb_spec (c_ncli c + 1) 1), (Z.eqb_spec (c_ncli c) 0); simpl; try lia; [done|].
  rewrite Hi by lia. done.
Qed.
(** With interrupts already off, nothing changes. *)
Lemma popped_pushed_off c : cpu_wf c → 0 < c_ncli c → popped (pushed c) = c.
Proof.
  intros Hw Hp. destruct (popped_pushed c Hw) as [Hi Hn]. destruct c as [i n e]. simpl in *.
  unfold popped, pushed in *. simpl in *. rewrite (proj2 (Z.eqb_neq n 0)) in * by lia.
  by rewrite Hi, Hn.
Qed.

Lemma holding_any me c l : cpu_wf c → holding me (LState c l) = Ok (holds me l) (LState (popped (pushed c)) l).
Proof.
  intros Hw. unfold holding. mstep (pushcli_ok c l Hw). mrun. cbn.
  mstep by (apply popcli_ok; [done|destruct Hw; simpl; lia]). done.
Qed.
Lemma holding_ok me c l :
  cpu_wf c → 0 < c_ncli c → holding me (LState c l) = Ok (holds me l) (LState c l).
Proof. intros Hw Hp. by rewrite holding_any, popped_pushed_off. Qed.

(** Reading the two words one after the other is [holding] when nobody else
    writes in between. *)
Lemma holding_split me s : holding me s = (holding_locked ≫= holding_cpu me) s.
Proof.
  unfold holding, holding_locked, holding_cpu. rewrite bind_assoc. unfold mbind, M_bind. destruct (pushcli s) as [[] s1| | | |]; try done.
  unfold gets. cbn. by destruct (nz (lw_locked (ls_lock s1))).
Qed.
Lemma acquire_begin_split me s : acquire_begin me s = (acquire_test ≫= acquire_tested me) s.
Proof.
  unfold acquire_begin, acquire_test, acquire_tested. rewrite bind_assoc. unfold mbind at 1 3, M_bind at 1 3.
  destruct (pushcli s) as [[] s1| | | |]; try done. unfold mbind at 1, M_bind at 1. rewrite holding_split.
  unfold mbind, M_bind. by destruct (holding_locked s1).
Qed.
Lemma release_begin_split me s : release_begin me s = (holding_locked ≫= release_tested me) s.
Proof.
  unfold release_begin, release_tested. unfold mbind at 1, M_bind at 1. rewrite holding_split.
  unfold mbind, M_bind. by destruct (holding_locked s).
Qed.

Lemma holding_locked_ok c l : cpu_wf c → holding_locked (LState c l) = Ok (nz (lw_locked l)) (LState (pushed c) l).
Proof. intros Hw. unfold holding_locked. by mstep (pushcli_ok c l Hw). Qed.
Lemma acquire_test_ok c l : cpu_wf c → c_ncli c < 2147483630 →
  acquire_test (LState c l) = Ok (nz (lw_locked l)) (LState (pushed (pushed c)) l).
Proof.
  intros Hw Hx. unfold acquire_test. mstep (pushcli_ok c l Hw). by apply holding_locked_ok, pushed_wf.
Qed.
Lemma holding_cpu_ok me b c l : c_if c = false → 1 ≤ c_ncli c < 2147483648 →
  holding_cpu me b (LState c l) = Ok (b && bool_decide (lw_cpu l = Some me)) (LState (popped c) l).
Proof.
  intros Hi Hn. unfold holding_cpu. 
  rewrite (bind_ok _ _ (LState c l) (b && bool_decide (lw_cpu l = Some me)) (LState c l)) by (by destruct b).
  mstep (popcli_ok c l Hi Hn). done.
Qed.
Lemma acquire_tested_ok me b c l : c_if c = false → 1 ≤ c_ncli c < 2147483648 →
  acquire_tested me b (LState c l) =
    if b && bool_decide (lw_cpu l = Some me) then Panic "acquire" else Ok tt (LState (popped c) l).
Proof. intros Hi Hn. unfold acquire_tested. mstep (holding_cpu_ok me b c l Hi Hn). by destruct (_ && _). Qed.
Lemma release_tested_ok me b c l : c_if c = false → 1 ≤ c_ncli c < 2147483648 →
  release_tested me b (LState c l) =
    if b && bool_decide (lw_cpu l = Some me) then Ok tt (LState (popped c) (Lockw (lw_locked l) None)) else Panic "release".
Proof. intros Hi Hn. unfold release_tested. mstep (holding_cpu_ok me b c l Hi Hn). by destruct (_ && _). Qed.

Lemma acquire_begin_ok me c l :
  cpu_wf c → c_ncli c < 2147483630 →
  acquire_begin me (LState c l) = if holds me l then Panic "acquire" else Ok tt (LState (pushed c) l).
Proof.
  intros Hw Hx. unfold acquire_begin. mstep (pushcli_ok c l Hw).
  destruct (pushed_wf c Hw Hx) as [Hpw Hp]. mstep by (apply holding_ok; [done|lia]).
  by destruct (holds me l).
Qed.
Lemma release_begin_ok me c l :
  cpu_wf c → 0 < c_ncli c →
  release_begin me (LState c l) =
    if holds me l then Ok tt (LState c (Lockw (lw_locked l) None)) else Panic "release".
Proof.
  intros Hw Hp. unfold release_begin. mstep (holding_ok me c l Hw Hp). by destruct (holds me l).
Qed.
Lemma release_unheld me c l : cpu_wf c → holds me l = false → release_lk me (LState c l) = Panic "release".
Proof.
  intros Hw Hh. unfold release_lk. apply bind_panic. unfold release_begin. mstep (holding_any me c l Hw). by rewrite Hh.
Qed.
Lemma release_end_ok c l :
  c_if c = false → 1 ≤ c_ncli c < 2147483648 →
  release_end (LState c l) = Ok tt (LState (popped c) (Lockw 0 (lw_cpu l))).
Proof. intros Hi Hn. unfold release_end. mrun. cbn. by apply popcli_ok. Qed.

(** ** All CPUs *)

Lemma cpu_ok_wf c p : cpu_ok c p → cpu_wf c.
Proof. unfold cpu_ok, cpu_wf. destruct p; [intros ->; split; lia|intros (-> & ?); split; [lia|naive_solver]..]. Qed.

Lemma initial_lock_inv m : initial m → inv m.
Proof.
  intros [Hl Hc].
  assert (Ho : ∀ i c p, m_cpus m !! i = Some (c, p) → p = Outside ∧ c_ncli c = 0).
  { intros i c p Hi. rewrite Forall_lookup in Hc. apply (Hc i (c, p) Hi). }
  constructor.
  - intros i c p Hi. destruct (Ho i c p Hi) as [-> ?]. done.
  - intros i j c d p q Hi _ Hp. by destruct (Ho _ _ _ Hi) as [-> _].
  - rewrite Hl. simpl. split; [|done]. intros _ i c p Hi Hp. by destruct (Ho _ _ _ Hi) as [-> _].
  - intros i c p Hi Hp. by destruct (Ho _ _ _ Hi) as [-> _].
  - rewrite Hl. done.
Qed.

(** A step that leaves the ownership of every CPU and the lock word as they
    are. *)
Lemma update_cpus m l i c p c' p' :
  m_cpus m !! i = Some (c, p) →
  ∀ j d q, m_cpus (Machine l (<[i := (c', p')]> (m_cpus m))) !! j = Some (d, q) →
    (j = i ∧ d = c' ∧ q = p') ∨ (j ≠ i ∧ m_cpus m !! j = Some (d, q)).
Proof.
  intros Hi j d q. simpl. destruct (decide (i = j)) as [<-|Hn].
  - rewrite list_lookup_insert_eq by (by eapply lookup_lt_Some). intros [= <- <-]. by left.
  - rewrite list_lookup_insert_ne by done. intros. by right.
Qed.

Lemma recorded_owns p : recorded p = true → owns p.
Proof. by destruct p. Qed.

(** The invariant after CPU [i] moved from [p] to [p'], from what changed. *)
Lemma inv_move m l i c p c' p' :
  inv m → m_cpus m !! i = Some (c, p) → cpu_ok c' p' →
  (owns p' → owns p ∨ lw_locked (m_lock m) = 0) →
  (lw_locked l = 0 ↔ (¬ owns p' ∧ (owns p ∨ lw_locked (m_lock m) = 0))) →
  (recorded p' = true ∧ lw_cpu l = Some i ∨
   recorded p' = false ∧ recorded p = false ∧ lw_cpu l = lw_cpu (m_lock m) ∨
   recorded p' = false ∧ owns p ∧ lw_cpu l = None) →
  (recorded p' = true → owns p) →
  inv (Machine l (<[i := (c', p')]> (m_cpus m))).
Proof.
  intros [Hcpus Hone Hword Hins Hcpu] Hi Hok Hown Hw Hc Hinp.
  assert (Hlk : (i < length (m_cpus m))%nat) by (by eapply lookup_lt_Some).
  assert (Hself : m_cpus (Machine l (<[i := (c', p')]> (m_cpus m))) !! i = Some (c', p')).
  { simpl. by rewrite list_lookup_insert_eq. }
  assert (Hoth : ∀ j d q, j ≠ i → m_cpus m !! j = Some (d, q) →
    m_cpus (Machine l (<[i := (c', p')]> (m_cpus m))) !! j = Some (d, q)).
  { intros j d q Hn Hj. simpl. by rewrite list_lookup_insert_ne. }
  (* no other CPU owns the lock when this one does or did *)
  assert (Hexc : ∀ j d q, j ≠ i → m_cpus m !! j = Some (d, q) → owns q →
    ¬ owns p ∧ lw_locked (m_lock m) ≠ 0).
  { intros j d q Hn Hj Hq. split.
    - intros Hp. by apply Hn, (Hone j i d c q p).
    - intros H0. by apply (proj1 Hword H0 j d q). }
  constructor.
  - intros j d q Hj. destruct (update_cpus m l i c p c' p' Hi j d q Hj) as [(-> & -> & ->)|[_ H]]; eauto.
  - intros j k d e q r Hj Hk Hq Hr.
    destruct (update_cpus m l i c p c' p' Hi j d q Hj) as [(-> & -> & ->)|[Hjn Hj']];
      destruct (update_cpus m l i c p c' p' Hi k e r Hk) as [(-> & -> & ->)|[Hkn Hk']]; [done| | |eauto].
    + destruct (Hexc _ _ _ Hkn Hk' Hr) as [H1 H2]. exfalso. destruct (Hown Hq); done.
    + destruct (Hexc _ _ _ Hjn Hj' Hq) as [H1 H2]. exfalso. destruct (Hown Hr); done.
  - rewrite Hw. split.
    + intros [Hnp Hp] j d q Hj Hq.
      destruct (update_cpus m l i c p c' p' Hi j d q Hj) as [(-> & -> & ->)|[Hjn Hj']]; [done|].
      destruct (Hexc _ _ _ Hjn Hj' Hq). destruct Hp; done.
    + intros Hnone. split; [by eapply Hnone|].
      destruct (decide (owns p)); [by left|right]. apply Hword. intros j d q Hj Hq.
      destruct (decide (j = i)) as [->|Hn].
      * rewrite Hi in Hj. by injection Hj as -> ->.
      * by eapply (Hnone j d q); [apply Hoth|].
  - intros j d q Hj Hq. simpl. destruct (update_cpus m l i c p c' p' Hi j d q Hj) as [(-> & -> & ->)|[Hjn Hj']].
    + destruct Hc as [[_ ?]|[[? _]|[? _]]]; congruence.
    + destruct (Hexc _ _ _ Hjn Hj') as [H1 H2]; [by apply recorded_owns|].
      destruct Hc as [[Ep ?]|[(_ & _ & ->)|(_ & Hp & _)]]; [|by eapply Hins|done].
      by destruct (H1 (Hinp Ep)).
  - intros j Hj. simpl in Hj. destruct Hc as [[Hp' Hl]|[(Hp' & Hp & Hl)|(_ & _ & Hl)]].
    + rewrite Hl in Hj. injection Hj as <-. eauto.
    + rewrite Hl in Hj. destruct (Hcpu j Hj) as (d & q & Hd & Hq). exists d, q. split; [|done]. apply Hoth; [|done].
      intros ->. rewrite Hi in Hd. injection Hd as -> ->. congruence.
    + congruence.
Qed.

(** An owner finds the lock taken. *)
Lemma owner_word m i c p : inv m → m_cpus m !! i = Some (c, p) → owns p → lw_locked (m_lock m) ≠ 0.
Proof. intros Hi Hc Hp H0. by apply (proj1 (inv_word m Hi) H0 i c p Hc). Qed.

(** The two tests, as the CPUs find them. *)
Lemma test_passes m i c b : inv m → m_cpus m !! i = Some (c, Testing b) →
  acquire_tested i b (LState c (m_lock m)) = Ok tt (LState (popped c) (m_lock m)).
Proof.
  intros Hi Hc. destruct (inv_cpus m Hi i _ _ Hc) as [Hn Hif]. rewrite acquire_tested_ok by (done || lia).
  rewrite bool_decide_eq_false_2; [by rewrite andb_false_r|]. intros E. destruct (inv_cpu m Hi i E) as (d & q & Hd & Hq).
  rewrite Hc in Hd. by injection Hd as _ <-.
Qed.
Lemma check_passes m i c b : inv m → m_cpus m !! i = Some (c, Checking b) →
  release_tested i b (LState c (m_lock m)) = Ok tt (LState (popped c) (Lockw (lw_locked (m_lock m)) None)).
Proof.
  intros Hi Hc. destruct (inv_cpus m Hi i _ _ Hc) as (Hn & Hif & ->). rewrite release_tested_ok by (done || lia).
  by rewrite bool_decide_eq_true_2 by (by eapply (inv_inside m Hi)).
Qed.

Lemma lock_step_inv m m' : inv m → step m m' → inv m'.
Proof.
  intros Hi Hs. destruct Hs as [i b m m' (c & c' & Hlk & E & Ec)|i b m m' (c & c' & Hlk & E & Ec)
    |i old m m' Hold (c & c' & Hlk & E & Ec)|i m m' (c & c' & Hlk & E & Ec)|i m m' (c & c' & Hlk & E & Ec)
    |i b m m' (c & c' & Hlk & E & Ec)|i b m m' (c & c' & Hlk & E & Ec)|i m m' (c & c' & Hlk & E & Ec)];
    pose proof (inv_cpus m Hi i _ _ Hlk) as Hok; pose proof (cpu_ok_wf _ _ Hok) as Hwf; pose proof (owner_word m i c _ Hi Hlk) as Hown;
    destruct m' as [l' cs']; simpl in E, Ec, Hok; subst cs'.
  - rewrite acquire_test_ok in E by (done || lia). injection E as _ <- <-.
    apply (inv_move _ _ _ _ _ _ _ Hi Hlk); unfold owns in *; simpl; naive_solver lia.
  - rewrite (test_passes m i c b Hi Hlk) in E. injection E as <- <-.
    apply (inv_move _ _ _ _ _ _ _ Hi Hlk); unfold owns in *; simpl; naive_solver lia.
  - injection E as E0 <- <-. apply (inv_move _ _ _ _ _ _ _ Hi Hlk); unfold owns in *; simpl; naive_solver lia.
  - injection E as E0 <- <-. apply (inv_move _ _ _ _ _ _ _ Hi Hlk); unfold owns in *; simpl; naive_solver lia.
  - injection E as <- <-. apply (inv_move _ _ _ _ _ _ _ Hi Hlk); unfold owns in *; simpl; naive_solver lia.
  - rewrite holding_locked_ok in E by done. injection E as E0 <- <-.
    assert (Hc : lw_cpu (m_lock m) = Some i) by (by eapply (inv_inside m Hi)). specialize (Hown eq_refl).
    assert (b = true) as -> by (rewrite <-E0; unfold nz; by destruct (Z.eqb_spec (lw_locked (m_lock m)) 0)).
    apply (inv_move _ _ _ _ _ _ _ Hi Hlk); unfold owns in *; simpl; naive_solver lia.
  - rewrite (check_passes m i c b Hi Hlk) in E. injection E as <- <-.
    apply (inv_move _ _ _ _ _ _ _ Hi Hlk); unfold owns in *; simpl; naive_solver lia.
  - destruct Hok as [Hn Hif]. rewrite release_end_ok in E by (done || lia). injection E as <- <-.
    apply (inv_move _ _ _ _ _ _ _ Hi Hlk); unfold owns in *; simpl; naive_solver lia.
Qed.

Lemma reachable_lock_inv m0 m : initial m0 → rtc step m0 m → inv m.
Proof.
  intros H0 Hr. apply initial_lock_inv in H0. induction Hr as [|x y z Hxy _ IH]; [done|].
  apply IH. by eapply lock_step_inv.
Qed.

(** The exchange loop gets nowhere while the word stays taken. *)
Lemma spin_taken fuel c l : lw_locked l ≠ 0 → acquire_spin fuel (LState c l) = NoFuel.
Proof.
  revert l. induction fuel as [|fuel IH]; intros l Hl; [done|]. cbn [acquire_spin]. mstep by reflexivity. cbn.
  unfold nz. destruct (Z.eqb_spec (lw_locked l) 0); [done|]. by apply IH.
Qed.

(** ** Claims *)

(** C24. Spin locks give mutual exclusion: however the reads, exchanges, stores
    and interrupt-flag updates of [acquire] and [release] interleave on any number
    of CPUs, at most one CPU is past the exchange loop and not yet through the
    final store; a CPU in its critical section runs with interrupts off, holds
    the lock by its own test [holding], and so its [release] does not panic,
    while the [acquire] of a CPU outside does not panic; nor does either of them
    when other CPUs write the lock between the two reads of the test. *)
Theorem spinlock_mutual_exclusion m0 m i c p :
  initial m0 → rtc step m0 m → m_cpus m !! i = Some (c, p) →
  (owns p → c_if c = false ∧ ∀ j d q, m_cpus m !! j = Some (d, q) → owns q → i = j) ∧
  (p = Inside → ∃ s, release_lk i (LState c (m_lock m)) = Ok tt s) ∧
  (p = Outside → ∃ s, acquire_begin i (LState c (m_lock m)) = Ok tt s) ∧
  (∀ b, p = Testing b → ∃ s, acquire_tested i b (LState c (m_lock m)) = Ok tt s) ∧
  (∀ b, p = Checking b → ∃ s, release_tested i b (LState c (m_lock m)) = Ok tt s).
Proof.
  intros H0 Hr Hi. pose proof (reachable_lock_inv m0 m H0 Hr) as Hinv.
  pose proof (inv_cpus m Hinv i c p Hi) as Hok. pose proof (cpu_ok_wf c p Hok) as Hwf. split_and!.
  - intros Hp. split; [|intros j d q Hj Hq; by eapply (inv_one m Hinv)]. destruct p; try done; simpl in Hok; tauto.
  - intros ->. destruct Hok as [Hn Hif]. unfold release_lk.
    assert (Hh : holds i (m_lock m) = true).
    { unfold holds. rewrite (inv_inside m Hinv i c Inside Hi), bool_decide_eq_true_2 by done. rewrite andb_true_r.
      unfold nz. pose proof (owner_word m i c Inside Hinv Hi eq_refl). by destruct (Z.eqb_spec (lw_locked (m_lock m)) 0). }
    mstep by (rewrite release_begin_ok by (done || lia); rewrite Hh; reflexivity).
    rewrite release_end_ok by (done || lia). eauto.
  - intros ->. simpl in Hok. rewrite acquire_begin_ok by (done || lia).
    assert (Hh : holds i (m_lock m) = false).
    { unfold holds. rewrite bool_decide_eq_false_2; [apply andb_false_r|].
      intros E. destruct (inv_cpu m Hinv i E) as (d & q & Hd & Hq). rewrite Hi in Hd. by injection Hd as _ <-. }
    rewrite Hh. eauto.
  - intros b ->. rewrite (test_passes m i c b Hinv Hi). eauto.
  - intros b ->. rewrite (check_passes m i c b Hinv Hi). eauto.
Qed.

(** C25. On one CPU the lock code is what the rest of the kernel assumes of a
    lock.  Read as the lock that this CPU holds or not, and from any state of the
    lock word: [acquire] panics exactly when the abstract operation does; else,
    if the word is free, it takes the lock, with interrupts off and one more
    level of nesting, and if it is not it spins for as long as the other CPU
    keeps it.  [release] panics exactly when the abstract operation does, for a
    lock that is free as for one of another CPU; else (the holder has pushed an
    interrupt level) it frees the lock and pops that level.  So a pair of them
    leaves the interrupt flag and the nesting depth as they were. *)
Theorem spinlock_refines_lock me c l :
  cpu_wf c → c_ncli c < 2147483630 →
  let id_lens := Lens (λ s : spinlock, s) (λ s _, s) in
  match acquire id_lens (Spinlock (holds me l)) with
  | Panic e => ∀ fuel, acquire_lk fuel me (LState c l) = Panic e
  | Ok _ a =>
      if lw_locked l =? 0
      then ∀ fuel, acquire_lk (S fuel) me (LState c l) = Ok tt (LState (pushed c) (Lockw 1 (Some me))) ∧
        a = Spinlock (holds me (Lockw 1 (Some me)))
      else ∀ fuel, acquire_lk fuel me (LState c l) = NoFuel
  | _ => False
  end ∧
  match release id_lens (Spinlock (holds me l)) with
  | Panic e => release_lk me (LState c l) = Panic e
  | Ok _ a => 0 < c_ncli c → release_lk me (LState c l) = Ok tt (LState (popped c) (Lockw 0 None)) ∧
      a = Spinlock (holds me (Lockw 0 None))
  | _ => False
  end ∧
  c_if (pushed c) = false ∧ c_ncli (pushed c) = c_ncli c + 1 ∧
  c_if (popped (pushed c)) = c_if c ∧ c_ncli (popped (pushed c)) = c_ncli c.
Proof.
  intros Hw Hx. cbn zeta. destruct (popped_pushed c Hw) as [Hif Hn]. split; [|split; [|done]].
  - unfold acquire. simpl. destruct (holds me l) eqn:Eh.
    + intros fuel. unfold acquire_lk. erewrite bind_panic; [done|]. by rewrite acquire_begin_ok, Eh by done.
    + destruct (Z.eqb_spec (lw_locked l) 0) as [Hl|Hl]; intros fuel.
      * split; [|unfold holds; cbn; by rewrite bool_decide_eq_true_2].
        unfold acquire_lk. mstep by (rewrite acquire_begin_ok, Eh by done; reflexivity).
        cbn [acquire_spin]. rewrite !bind_assoc. mstep by reflexivity. cbn. rewrite Hl. cbn. done.
      * unfold acquire_lk. mstep by (rewrite acquire_begin_ok, Eh by done; reflexivity).
        by rewrite (bind_nofuel _ _ _ (spin_taken fuel _ _ Hl)).
  - unfold release. simpl. destruct (holds me l) eqn:Eh; [|by apply release_unheld].
    intros Hp. split; [|done]. unfold release_lk.
    mstep by (rewrite release_begin_ok, Eh by (done || lia); reflexivity).
    destruct Hw as [Hb Hi]. rewrite release_end_ok by (by apply Hi || lia). done.
Qed.

(** *** Witnesses *)

Definition two_cpus : machine :=
  Machine (Lockw 0 None) [(Cpu true 0 false, Outside); (Cpu false 0 false, Outside)].

(** CPU 0 is in its critical section; CPU 1 is in the test of [acquire], having
    found the lock taken. *)
Definition contended : machine :=
  Machine (Lockw 1 (Some 0%nat)) [(Cpu false 1 true, Inside); (Cpu false 2 false, Testing true)].

Lemma spinlock_mutual_exclusion_witness :
  (∃ s, release_lk 0 (LState (Cpu false 1 true) (Lockw 1 (Some 0%nat))) = Ok tt s) ∧
  (∃ s, acquire_tested 1 true (LState (Cpu false 2 false) (Lockw 1 (Some 0%nat))) = Ok tt s).
Proof.
  assert (H0 : initial two_cpus).
  { split; [reflexivity|]. constructor; [split; reflexivity|]. constructor; [split; reflexivity|]. constructor. }
  assert (Hr : rtc step two_cpus contended).
  { eapply rtc_l.
    { apply (step_test 0 false two_cpus
        (Machine (Lockw 0 None) [(Cpu false 2 true, Testing false); (Cpu false 0 false, Outside)])).
      eexists _, _. split; [reflexivity|]. split; reflexivity. }
    eapply rtc_l.
    { apply (step_begin 0 false _ (Machine (Lockw 0 None) [(Cpu false 1 true, Spinning); (Cpu false 0 false, Outside)])).
      eexists _, _. split; [reflexivity|]. split; reflexivity. }
    eapply rtc_l.
    { apply (step_got 0 _ (Machine (Lockw 1 None) [(Cpu false 1 true, Got); (Cpu false 0 false, Outside)])).
      eexists _, _. split; [reflexivity|]. split; reflexivity. }
    eapply rtc_l.
    { apply (step_test 1 true _ (Machine (Lockw 1 None) [(Cpu false 1 true, Got); (Cpu false 2 false, Testing true)])).
      eexists _, _. split; [reflexivity|]. split; reflexivity. }
    eapply rtc_l.
    { apply (step_in 0 _ contended). eexists _, _. split; [reflexivity|]. split; reflexivity. }
    apply rtc_refl. }
  split.
  - refine (proj1 (proj2 (spinlock_mutual_exclusion two_cpus contended 0 (Cpu false 1 true) Inside H0 Hr _)) _); reflexivity.
  - refine (proj1 (proj2 (proj2 (proj2 (spinlock_mutual_exclusion two_cpus contended 1 (Cpu false 2 false) (Testing true) H0 Hr _)))) true _); reflexivity.
Defined.

Lemma spinlock_refines_lock_witness :
  acquire_lk 1 0 (LState (Cpu true 0 false) (Lockw 0 None)) = Ok tt (LState (Cpu false 1 true) (Lockw 1 (Some 0%nat))) ∧
  release_lk 0 (LState (Cpu true 0 false) (Lockw 0 None)) = Panic "release".
Proof.
  destruct (spinlock_refines_lock 0 (Cpu true 0 false) (Lockw 0 None)) as (Ha & Hr & _).
  - split; [split; [discriminate|reflexivity]|]. intros H. discriminate H.
  - reflexivity.
  - split; [exact (proj1 (Ha 0%nat))|exact Hr].
Defined.
