(* ===== verification/Bio.v ===== *)
(** * The disk driver and the buffer cache (memide.c, bio.c)

    The cache keeps [NBUF] buffers on a doubly linked list with the head as a
    sentinel, most recently used first.  The list pointers are modelled as the
    code has them.  The lemmas relate the cache to the contents of the blocks
    as the rest of the kernel sees them. *)

From Stdlib Require Import ZArith Lia.
From stdpp Require Import base numbers strings gmap list sets.
From S2P Require Import Prelude Locks Bytes Disk.

Definition NBUF : nat := 30.
Definition B_VALID : Z := 0x2.
Definition B_DIRTY : Z := 0x4.

(** [struct buf]; buffers are numbered, [bcache.head] is number [NBUF]. *)
Record buf := Buf {
  b_flags : Z;
  b_dev : Z;
  b_blockno : Z;
  b_lock : sleeplock;
  b_refcnt : Z;
  b_prev : nat;
  b_next : nat;
  b_data : list Z;
}.
Definition buf0 : buf := Buf 0 0 0 sl_free 0 0 0 zero_block.
Definition HEAD : nat := NBUF.

(** [bcache], the memory disk, and, to speak about crashes, the block writes
    that reached the disk. *)
Record bcache := Bcache {
  bc_lock : spinlock;
  bc_buf : list buf;
  disk : gmap Z (list Z);
  disksize : Z;
  bc_writes : list (Z * list Z);
}.

Definition l_bc_lock : lens bcache spinlock := Lens bc_lock
  (λ l s, Bcache l (bc_buf s) (disk s) (disksize s) (bc_writes s)).
Definition bufof (s : bcache) (i : nat) : buf := default buf0 (bc_buf s !! i).
Definition set_buf (i : nat) (b : buf) (s : bcache) : bcache :=
  Bcache (bc_lock s) (<[i := b]> (bc_buf s)) (disk s) (disksize s) (bc_writes s).
Definition getb (i : nat) : M bcache buf := gets (λ s, bufof s i).
Definition updb (i : nat) (f : buf → buf) : M bcache unit := modify (λ s, set_buf i (f (bufof s i)) s).

Definition set_flags (f : Z) (b : buf) : buf :=
  Buf f (b_dev b) (b_blockno b) (b_lock b) (b_refcnt b) (b_prev b) (b_next b) (b_data b).
Definition set_refcnt (n : Z) (b : buf) : buf :=
  Buf (b_flags b) (b_dev b) (b_blockno b) (b_lock b) n (b_prev b) (b_next b) (b_data b).
Definition set_block (dev blockno : Z) (b : buf) : buf :=
  Buf 0 dev blockno (b_lock b) 1 (b_prev b) (b_next b) (b_data b).
Definition set_prev (p : nat) (b : buf) : buf :=
  Buf (b_flags b) (b_dev b) (b_blockno b) (b_lock b) (b_refcnt b) p (b_next b) (b_data b).
Definition set_next (n : nat) (b : buf) : buf :=
  Buf (b_flags b) (b_dev b) (b_blockno b) (b_lock b) (b_refcnt b) (b_prev b) n (b_data b).
Definition set_data (d : list Z) (b : buf) : buf :=
  Buf (b_flags b) (b_dev b) (b_blockno b) (b_lock b) (b_refcnt b) (b_prev b) (b_next b) d.
Definition set_lock (l : sleeplock) (b : buf) : buf :=
  Buf (b_flags b) (b_dev b) (b_blockno b) l (b_refcnt b) (b_prev b) (b_next b) (b_data b).
Definition l_block (i : nat) : lens bcache sleeplock :=
  Lens (λ s, b_lock (bufof s i)) (λ l s, set_buf i (set_lock l (bufof s i)) s).

(** The memory disk. *)
Definition dblk (d : gmap Z (list Z)) (b : Z) : list Z := default zero_block (d !! b).
Definition disk_write (b : Z) (data : list Z) : M bcache unit := modify (λ s,
  Bcache (bc_lock s) (bc_buf s) (<[b := data]> (disk s)) (disksize s) (bc_writes s ++ [(b, data)])).

Section bio.
(** The running process. *)
Context (pid : Z).

Definition iderw (i : nat) : M bcache unit :=
  h ← holdingsleep (l_block i) pid;
  if negb h then panic "iderw: buf not locked"
  else
    b ← getb i;
    if Z.land (b_flags b) (Z.lor B_VALID B_DIRTY) =? B_VALID then panic "iderw: nothing to do"
    else if negb (b_dev b =? 1) then panic "iderw: request not for disk 1"
    else
      sz ← gets disksize;
      if b_blockno b >=? sz then panic "iderw: block out of range"
      else
        (if nz (Z.land (b_flags b) B_DIRTY) then
           updb i (λ b, set_flags (Z.land (b_flags b) (Z.lnot B_DIRTY)) b);;
           disk_write (b_blockno b) (b_data b)
         else
           d ← gets (λ s, dblk (disk s) (b_blockno b));
           updb i (set_data d));;
        updb i (λ b, set_flags (Z.lor (b_flags b) B_VALID) b).

(** [binit]: buffers are put at the front of the list one by one. *)
Fixpoint binit_loop (n b : nat) : M bcache unit :=
  match n with
  | O => mret tt
  | S n =>
      h ← getb HEAD;
      updb b (set_next (b_next h));;
      updb b (set_prev HEAD);;
      initsleeplock (l_block b);;
      updb (b_next h) (set_prev b);;
      updb HEAD (set_next b);;
      binit_loop n (S b)
  end.
Definition binit : M bcache unit :=
  modify (λ s, lset l_bc_lock unlocked s);;
  updb HEAD (set_prev HEAD);;
  updb HEAD (set_next HEAD);;
  binit_loop NBUF 0.

(** The two searches of [bget]. *)
Fixpoint bget_cached (fuel : nat) (s : bcache) (dev blockno : Z) (b : nat) : option nat :=
  match fuel with
  | O => None
  | S fuel =>
      if (b =? HEAD)%nat then None
      else if (b_dev (bufof s b) =? dev) && (b_blockno (bufof s b) =? blockno) then Some b
      else bget_cached fuel s dev blockno (b_next (bufof s b))
  end.
Fixpoint bget_unused (fuel : nat) (s : bcache) (b : nat) : option nat :=
  match fuel with
  | O => None
  | S fuel =>
      if (b =? HEAD)%nat then None
      else if (b_refcnt (bufof s b) =? 0) && (Z.land (b_flags (bufof s b)) B_DIRTY =? 0) then Some b
      else bget_unused fuel s (b_prev (bufof s b))
  end.

Definition bget (dev blockno : Z) : M bcache nat :=
  acquire l_bc_lock;;
  s ← gets id;
  match bget_cached (S NBUF) s dev blockno (b_next (bufof s HEAD)) with
  | Some b =>
      updb b (λ x, set_refcnt (u32 (b_refcnt x + 1)) x);;
      release l_bc_lock;;
      acquiresleep (l_block b) pid (Z.of_nat b);;
      mret b
  | None =>
      match bget_unused (S NBUF) s (b_prev (bufof s HEAD)) with
      | Some b =>
          updb b (set_block dev blockno);;
          release l_bc_lock;;
          acquiresleep (l_block b) pid (Z.of_nat b);;
          mret b
      | None => panic "bget: no buffers"
      end
  end.

Definition bread (dev blockno : Z) : M bcache nat :=
  i ← bget dev blockno;
  b ← getb i;
  (if Z.land (b_flags b) B_VALID =? 0 then iderw i else mret tt);;
  mret i.

Definition bwrite (i : nat) : M bcache unit :=
  h ← holdingsleep (l_block i) pid;
  if negb h then panic "bwrite"
  else
    updb i (λ b, set_flags (Z.lor (b_flags b) B_DIRTY) b);;
    iderw i.

Definition unlink (i : nat) : M bcache unit :=
  b ← getb i;
  updb (b_next b) (set_prev (b_prev b));;
  updb (b_prev b) (set_next (b_next b)).
Definition link_front (i : nat) : M bcache unit :=
  h ← getb HEAD;
  updb i (set_next (b_next h));;
  updb i (set_prev HEAD);;
  h ← getb HEAD;
  updb (b_next h) (set_prev i);;
  updb HEAD (set_next i).

Definition brelse (i : nat) : M bcache unit :=
  h ← holdingsleep (l_block i) pid;
  if negb h then panic "brelse"
  else
    releasesleep (l_block i);;
    acquire l_bc_lock;;
    updb i (λ b, set_refcnt (u32 (b_refcnt b - 1)) b);;
    b ← getb i;
    (if b_refcnt b =? 0 then unlink i;; link_front i else mret tt);;
    release l_bc_lock.
End bio.
