(* ===== verification/BioSpec.v ===== *)
(** * Correctness of the buffer cache

    The doubly linked list is always a permutation of the buffers; the cache
    never changes the contents of a block as the kernel sees it, whatever it
    evicts. *)

From Stdlib Require Import ZArith Lia.
From stdpp Require Import base numbers strings gmap list sets.
From S2P Require Import Prelude Locks Bytes Disk Bio.

(** ** Singly linked chains

    [fwd f a l e]: following [f] from [a] visits the nodes [l] and arrives
    at [e]. *)

Definition fupd {A} (f : nat → A) (i : nat) (v : A) : nat → A := λ j, if decide (j = i) then v else f j.
Lemma fupd_eq {A} (f : nat → A) i v : fupd f i v i = v.
Proof. unfold fupd. by rewrite decide_True. Qed.
Lemma fupd_ne {A} (f : nat → A) i j v : j ≠ i → fupd f i v j = f j.
Proof. intros. unfold fupd. by rewrite decide_False. Qed.

Fixpoint fwd (f : nat → nat) (a : nat) (l : list nat) (e : nat) : Prop :=
  match l with
  | [] => f a = e
  | c :: l => f a = c ∧ fwd f c l e
  end.
Definition last_of (a : nat) (l : list nat) : nat := List.last l a.
Arguments last_of : simpl never.

Lemma last_of_cons a c l : last_of a (c :: l) = last_of c l.
Proof. unfold last_of. revert a c. induction l as [|d l IH]; intros a c; [done|]. simpl in *. by destruct l. Qed.
Lemma last_of_snoc a l c : last_of a (l ++ [c]) = c.
Proof. unfold last_of. apply List.last_last. Qed.
Lemma last_of_in a l : last_of a l ∈ a :: l.
Proof.
  revert a. induction l as [|c l IH]; intros a; [by left|]. rewrite last_of_cons. right. apply IH.
Qed.

Lemma fwd_ext f g a l e : (∀ x, x ∈ a :: l → f x = g x) → fwd f a l e → fwd g a l e.
Proof.
  revert a. induction l as [|c l IH]; intros a Hx H; simpl in *.
  - rewrite <-Hx by (by left). done.
  - destruct H as [H1 H2]. split; [rewrite <-Hx by (by left); done|].
    apply IH; [|done]. intros x Hin. apply Hx. by right.
Qed.
Lemma fwd_last f a l e : fwd f a l e → f (last_of a l) = e.
Proof.
  revert a. induction l as [|c l IH]; intros a H; [done|]. rewrite last_of_cons. apply IH. by destruct H.
Qed.
Lemma fwd_app f a l1 i l2 e : fwd f a (l1 ++ i :: l2) e ↔ fwd f a l1 i ∧ fwd f i l2 e.
Proof.
  revert a. induction l1 as [|c l1 IH]; intros a; simpl; [done|]. rewrite IH. naive_solver.
Qed.
Lemma fwd_head f a l e : fwd f a l e → f a = last_of e (reverse l).
Proof. destruct l as [|c l]; [done|]. intros [H _]. by rewrite reverse_cons, last_of_snoc. Qed.

(** Taking a node out, and putting one in at the front or at the back. *)
Lemma fwd_remove f a l1 i l2 e :
  NoDup (a :: l1 ++ i :: l2) → fwd f a (l1 ++ i :: l2) e →
  fwd (fupd f (last_of a l1) (f i)) a (l1 ++ l2) e.
Proof.
  revert a. induction l1 as [|c l1 IH]; intros a Hn H; simpl in *.
  - destruct H as [Ha H]. rewrite !NoDup_cons in Hn. destruct Hn as (Ha' & Hi & Hn).
    destruct l2 as [|c l2]; simpl in *; rewrite fupd_eq; [done|]. destruct H as [Hc H].
    split; [done|]. eapply fwd_ext; [|exact H]. intros x Hx. rewrite fupd_ne; [done|]. set_solver.
  - destruct H as [Ha H]. rewrite last_of_cons. apply NoDup_cons in Hn as [Ha' Hn]. split.
    + rewrite fupd_ne; [done|]. intros E. apply Ha'. rewrite E. pose proof (last_of_in c l1). set_solver.
    + by apply IH.
Qed.
Lemma fwd_front f a l e i :
  i ≠ a → i ∉ l → a ∉ l → fwd f a l e → fwd (fupd (fupd f i (f a)) a i) a (i :: l) e.
Proof.
  intros Hia Hi Ha H. simpl. split; [by rewrite fupd_eq|]. destruct l as [|c l]; simpl in *.
  - by rewrite fupd_ne, fupd_eq by done.
  - destruct H as [Hc H]. split; [by rewrite fupd_ne, fupd_eq by done|].
    eapply fwd_ext; [|exact H]. intros x Hx. rewrite !fupd_ne; set_solver.
Qed.
Lemma fwd_back f a l e i :
  i ≠ a → i ∉ l → NoDup (a :: l) → fwd f a l e →
  fwd (fupd (fupd f i e) (last_of a l) i) a (l ++ [i]) e.
Proof.
  revert a. induction l as [|c l IH]; intros a Hia Hi Hn H; simpl in *.
  - split; [by rewrite fupd_eq|]. by rewrite fupd_ne, fupd_eq by done.
  - destruct H as [Hc H]. rewrite last_of_cons. apply NoDup_cons in Hn as [Ha Hn]. split.
    + rewrite !fupd_ne; [done|done|]. intros E. apply Ha. rewrite E. apply last_of_in.
    + apply IH; [set_solver|set_solver|done|done].
Qed.

(** ** The list of buffers *)

Definition nx (s : bcache) (i : nat) : nat := b_next (bufof s i).
Definition pv (s : bcache) (i : nat) : nat := b_prev (bufof s i).

Record lru (nxt prv : nat → nat) (ns : list nat) : Prop := {
  lru_perm : ns ≡ₚ seq 0 30;
  lru_next : fwd nxt HEAD ns HEAD;
  lru_prev : fwd prv HEAD (reverse ns) HEAD;
}.

Lemma lru_nodup nxt prv ns : lru nxt prv ns → NoDup (HEAD :: ns).
Proof.
  intros [Hp _ _]. apply NoDup_cons. split.
  - rewrite Hp. intros H. apply elem_of_seq in H. unfold HEAD, NBUF in H. lia.
  - rewrite Hp. apply NoDup_seq.
Qed.
Lemma lru_in nxt prv ns i : lru nxt prv ns → i ∈ ns ↔ (i < 30)%nat.
Proof. intros [Hp _ _]. rewrite Hp, elem_of_seq. lia. Qed.

(** What [unlink] and [link_front] do to the two pointer fields. *)
Definition moved_next (nxt prv : nat → nat) (i : nat) : nat → nat :=
  let n1 := fupd nxt (prv i) (nxt i) in fupd (fupd n1 i (n1 HEAD)) HEAD i.
Definition moved_prev (nxt prv : nat → nat) (i : nat) : nat → nat :=
  let n1 := fupd nxt (prv i) (nxt i) in
  let p1 := fupd prv (nxt i) (prv i) in
  fupd (fupd p1 i HEAD) (n1 HEAD) i.

Lemma lru_move nxt prv ns i :
  lru nxt prv ns → (i < 30)%nat →
  ∃ ns', lru (moved_next nxt prv i) (moved_prev nxt prv i) ns' ∧
    nxt i ≠ i ∧ prv i ≠ i ∧ (nxt i ≤ 30)%nat ∧ (prv i ≤ 30)%nat ∧
    fupd nxt (prv i) (nxt i) HEAD ≠ i ∧ (fupd nxt (prv i) (nxt i) HEAD ≤ 30)%nat.
Proof.
  intros Hl Hi. pose proof (lru_nodup _ _ _ Hl) as Hnd. pose proof Hl as [Hp Hn Hv].
  pose proof (proj2 (lru_in _ _ _ i Hl) Hi) as Hin.
  apply list_elem_of_split in Hin as (l1 & l2 & ->).
  rewrite reverse_app, reverse_cons, <-app_assoc in Hv. simpl in Hv.
  pose proof Hn as Hn'. rewrite fwd_app in Hn'. destruct Hn' as [Hn1 Hn2].
  pose proof Hv as Hv'. rewrite fwd_app in Hv'. destruct Hv' as [Hv1 Hv2].
  assert (Epv : prv i = last_of HEAD l1).
  { rewrite (fwd_head _ _ _ _ Hv2), reverse_involutive. done. }
  assert (Enx : nxt i = last_of HEAD (reverse l2)).
  { by rewrite (fwd_head _ _ _ _ Hn2). }
  assert (Hih : i ≠ HEAD) by (unfold HEAD, NBUF; lia).
  assert (Hnd2 : NoDup (HEAD :: reverse l2 ++ i :: reverse l1)).
  { apply NoDup_cons in Hnd as [H1 H2]. apply NoDup_cons. split; [set_solver|].
    assert (reverse l2 ++ i :: reverse l1 ≡ₚ l1 ++ i :: l2) as ->; [|done].
    rewrite !reverse_Permutation, <-!Permutation_middle. f_equiv. apply Permutation_app_comm. }
  assert (Hbnd : ∀ x, x ∈ HEAD :: l1 ++ i :: l2 → (x ≤ 30)%nat).
  { intros x Hx. apply elem_of_cons in Hx as [->|Hx]; [done|].
    apply (lru_in _ _ _ x Hl) in Hx. lia. }
  assert (Hlast1 : last_of HEAD l1 ∈ HEAD :: l1) by apply last_of_in.
  assert (Hlast2 : last_of HEAD (reverse l2) ∈ HEAD :: reverse l2) by apply last_of_in.
  apply NoDup_cons in Hnd as Hnd'. destruct Hnd' as [Hhd Hnd'].
  assert (Hi1 : i ∉ l1 ++ l2).
  { intros Hx. rewrite <-Permutation_middle in Hnd'. by apply NoDup_cons in Hnd' as [? _]. }
  (* after unlinking *)
  pose proof (fwd_remove _ _ _ _ _ _ Hnd Hn) as Hn3. rewrite <-Epv in Hn3.
  pose proof (fwd_remove _ _ _ _ _ _ Hnd2 Hv) as Hv3. rewrite <-Enx in Hv3.
  assert (Hfirst : fupd nxt (prv i) (nxt i) HEAD = last_of HEAD (reverse l2 ++ reverse l1)).
  { rewrite (fwd_head _ _ _ _ Hn3). by rewrite reverse_app. }
  assert (Hfin : last_of HEAD (reverse l2 ++ reverse l1) ∈ HEAD :: reverse l2 ++ reverse l1) by apply last_of_in.
  exists (i :: l1 ++ l2). split_and!.
  - constructor.
    + rewrite <-Hp. by rewrite Permutation_middle.
    + unfold moved_next. apply fwd_front; [done|done|set_solver|done].
    + unfold moved_prev. rewrite reverse_cons, reverse_app, Hfirst. apply fwd_back.
      * done.
      * set_solver.
      * apply NoDup_cons in Hnd2 as [H1 H2]. apply NoDup_cons. split; [set_solver|].
        rewrite <-Permutation_middle in H2. by apply NoDup_cons in H2 as [_ ?].
      * done.
  - rewrite Enx. set_solver.
  - rewrite Epv. set_solver.
  - apply Hbnd. rewrite Enx. set_solver.
  - apply Hbnd. rewrite Epv. set_solver.
  - rewrite Hfirst. set_solver.
  - apply Hbnd. rewrite Hfirst. set_solver.
Qed.

(** The searches along the two chains. *)
Lemma bget_cached_spec s dev b fuel a l :
  fwd (nx s) a l HEAD → (HEAD ∉ l) → (length l < fuel)%nat →
  bget_cached fuel s dev b (nx s a) =
    snd <$> list_find (λ i, b_dev (bufof s i) = dev ∧ b_blockno (bufof s i) = b) l.
Proof.
  revert fuel a. induction l as [|c l IH]; intros fuel a H Hh Hf; (destruct fuel as [|fuel]; [simpl in *; lia|]); simpl in *.
  - by rewrite H.
  - destruct H as [-> H]. apply not_elem_of_cons in Hh as [Hc Hh].
    rewrite (proj2 (Nat.eqb_neq c HEAD)) by done. case_decide as Hd.
    + destruct Hd as [<- <-]. by rewrite !Z.eqb_refl.
    + replace ((b_dev (bufof s c) =? dev) && (b_blockno (bufof s c) =? b)) with false.
      2:{ symmetry. apply andb_false_iff. rewrite !Z.eqb_neq. destruct (decide (b_dev (bufof s c) = dev)); [right|left]; naive_solver. }
      change (b_next (bufof s c)) with (nx s c). rewrite (IH fuel c) by (done || lia).
      by destruct (list_find _ l) as [[]|].
Qed.
Lemma bget_unused_spec s fuel a l :
  fwd (pv s) a l HEAD → (HEAD ∉ l) → (length l < fuel)%nat →
  bget_unused fuel s (pv s a) =
    snd <$> list_find (λ i, b_refcnt (bufof s i) = 0 ∧ Z.land (b_flags (bufof s i)) B_DIRTY = 0) l.
Proof.
  revert fuel a. induction l as [|c l IH]; intros fuel a H Hh Hf; (destruct fuel as [|fuel]; [simpl in *; lia|]); simpl in *.
  - by rewrite H.
  - destruct H as [-> H]. apply not_elem_of_cons in Hh as [Hc Hh].
    rewrite (proj2 (Nat.eqb_neq c HEAD)) by done. case_decide as Hd.
    + destruct Hd as [-> ->]. done.
    + replace ((b_refcnt (bufof s c) =? 0) && (Z.land (b_flags (bufof s c)) B_DIRTY =? 0)) with false.
      2:{ symmetry. apply andb_false_iff. rewrite !Z.eqb_neq. destruct (decide (b_refcnt (bufof s c) = 0)); [right|left]; naive_solver. }
      change (b_prev (bufof s c)) with (pv s c). rewrite (IH fuel c) by (done || lia).
      by destruct (list_find _ l) as [[]|].
Qed.

(** ** Updating buffers *)

Lemma bufof_set s i b j :
  (i < length (bc_buf s))%nat → bufof (set_buf i b s) j = fupd (bufof s) i b j.
Proof.
  intros Hi. unfold bufof, set_buf, fupd. simpl. case_decide as Hd.
  - subst. by rewrite list_lookup_insert_eq.
  - by rewrite list_lookup_insert_ne by done.
Qed.
Lemma bufof_set_eq s i b : (i < length (bc_buf s))%nat → bufof (set_buf i b s) i = b.
Proof. intros. rewrite bufof_set by done. apply fupd_eq. Qed.
Lemma bufof_set_ne s i b j : j ≠ i → bufof (set_buf i b s) j = bufof s j.
Proof. intros. unfold bufof, set_buf. simpl. by rewrite list_lookup_insert_ne. Qed.
Lemma set_buf_twice i b c s : set_buf i b (set_buf i c s) = set_buf i b s.
Proof. unfold set_buf. simpl. by rewrite list_insert_insert_eq. Qed.
Lemma length_set_buf i b s : length (bc_buf (set_buf i b s)) = length (bc_buf s).
Proof. simpl. by rewrite length_insert. Qed.

(** A buffer without its list pointers. *)
Definition vw (b : buf) : buf := set_prev 0 (set_next 0 b).
Definition vbuf (s : bcache) (i : nat) : buf := vw (bufof s i).

(** Everything but the buffers is the same. *)
Definition same_rest (s s' : bcache) : Prop :=
  bc_lock s' = bc_lock s ∧ length (bc_buf s') = length (bc_buf s) ∧ disk s' = disk s ∧
  disksize s' = disksize s ∧ bc_writes s' = bc_writes s.

Lemma ptr_set_next s i n x :
  (i < length (bc_buf s))%nat →
  let s' := set_buf i (set_next n (bufof s i)) s in
  nx s' x = fupd (nx s) i n x ∧ pv s' x = pv s x ∧ vbuf s' x = vbuf s x.
Proof.
  intros Hi. unfold nx, pv, vbuf. simpl. rewrite bufof_set by done. unfold fupd.
  by case_decide; subst.
Qed.
Lemma ptr_set_prev s i n x :
  (i < length (bc_buf s))%nat →
  let s' := set_buf i (set_prev n (bufof s i)) s in
  nx s' x = nx s x ∧ pv s' x = fupd (pv s) i n x ∧ vbuf s' x = vbuf s x.
Proof.
  intros Hi. unfold nx, pv, vbuf. simpl. rewrite bufof_set by done. unfold fupd.
  by case_decide; subst.
Qed.

Lemma lru_ext nxt prv nxt' prv' ns :
  (∀ x, nxt' x = nxt x) → (∀ x, prv' x = prv x) → lru nxt prv ns → lru nxt' prv' ns.
Proof.
  intros Hn Hp [H1 H2 H3]. constructor; [done|..];
    (eapply fwd_ext; [|eassumption]); intros; done.
Qed.

Lemma fupd_ext {A} (f g : nat → A) i v x : f x = g x → fupd f i v x = fupd g i v x.
Proof. intros. unfold fupd. by case_decide. Qed.

Lemma move_front_ok s i ns :
  length (bc_buf s) = 31%nat → lru (nx s) (pv s) ns → (i < 30)%nat →
  ∃ s' ns', (unlink i;; link_front i) s = Ok tt s' ∧ same_rest s s' ∧
    lru (nx s') (pv s') ns' ∧ ∀ j, vbuf s' j = vbuf s j.
Proof.
  intros Hlen Hl Hi. destruct (lru_move _ _ _ i Hl Hi) as (ns' & Hl' & Hni & Hpi & Hnb & Hpb & Hfi & Hfb).
  set (s1 := set_buf (nx s i) (set_prev (pv s i) (bufof s (nx s i))) s).
  set (s2 := set_buf (pv s i) (set_next (nx s i) (bufof s1 (pv s i))) s1).
  set (s3 := set_buf i (set_next (nx s2 HEAD) (bufof s2 i)) s2).
  set (s4 := set_buf i (set_prev HEAD (bufof s3 i)) s3).
  set (s5 := set_buf (nx s4 HEAD) (set_prev i (bufof s4 (nx s4 HEAD))) s4).
  set (s6 := set_buf HEAD (set_next i (bufof s5 HEAD)) s5).
  assert (L : length (bc_buf s1) = 31%nat ∧ length (bc_buf s2) = 31%nat ∧ length (bc_buf s3) = 31%nat ∧
    length (bc_buf s4) = 31%nat ∧ length (bc_buf s5) = 31%nat ∧ length (bc_buf s6) = 31%nat).
  { subst s1 s2 s3 s4 s5 s6. rewrite !length_set_buf. done. }
  destruct L as (L1 & L2 & L3 & L4 & L5 & L6).
  pose proof (λ x, ptr_set_prev s (nx s i) (pv s i) x ltac:(lia)) as P1.
  pose proof (λ x, ptr_set_next s1 (pv s i) (nx s i) x ltac:(lia)) as P2.
  pose proof (λ x, ptr_set_next s2 i (nx s2 HEAD) x ltac:(lia)) as P3.
  pose proof (λ x, ptr_set_prev s3 i HEAD x ltac:(lia)) as P4. fold s1 in P1. fold s2 in P2. fold s3 in P3. fold s4 in P4.
  cbv zeta in P1, P2, P3, P4.
  assert (Hih : HEAD ≠ i) by (unfold HEAD, NBUF; lia).
  assert (N2 : ∀ x, nx s2 x = fupd (nx s) (pv s i) (nx s i) x).
  { intros x. rewrite (proj1 (P2 x)). apply fupd_ext. apply P1. }
  assert (N4 : nx s4 HEAD = nx s2 HEAD).
  { rewrite (proj1 (P4 HEAD)), (proj1 (P3 HEAD)). by rewrite fupd_ne. }
  assert (Hb4 : (nx s4 HEAD < length (bc_buf s4))%nat) by (rewrite N4, N2; lia).
  pose proof (λ x, ptr_set_prev s4 (nx s4 HEAD) i x Hb4) as P5. fold s5 in P5. cbv zeta in P5.
  assert (Hb5 : (HEAD < length (bc_buf s5))%nat) by (unfold HEAD, NBUF; lia).
  pose proof (λ x, ptr_set_next s5 HEAD i x Hb5) as P6. fold s6 in P6. cbv zeta in P6.
  exists s6, ns'. split_and!.
  - reflexivity.
  - split_and!; [done| |done..]. by rewrite L6, Hlen.
  - eapply lru_ext; [..|exact Hl'].
    + intros x. rewrite (proj1 (P6 x)). unfold moved_next. apply fupd_ext.
      rewrite (proj1 (P5 x)), (proj1 (P4 x)), (proj1 (P3 x)). rewrite N2. apply fupd_ext, N2.
    + intros x. rewrite (proj1 (proj2 (P6 x))), (proj1 (proj2 (P5 x))). unfold moved_prev.
      rewrite N4, N2. apply fupd_ext. rewrite (proj1 (proj2 (P4 x))). apply fupd_ext.
      rewrite (proj1 (proj2 (P3 x))), (proj1 (proj2 (P2 x))), (proj1 (proj2 (P1 x))). done.
  - intros j. by rewrite (proj2 (proj2 (P6 j))), (proj2 (proj2 (P5 j))), (proj2 (proj2 (P4 j))),
      (proj2 (proj2 (P3 j))), (proj2 (proj2 (P2 j))), (proj2 (proj2 (P1 j))).
Qed.

(** An update of a buffer that keeps its pointers. *)
Definition keeps_ptrs (f : buf → buf) : Prop := ∀ b, b_next (f b) = b_next b ∧ b_prev (f b) = b_prev b.
Lemma set_keeps s i f x :
  keeps_ptrs f → (i < length (bc_buf s))%nat →
  let s' := set_buf i (f (bufof s i)) s in
  nx s' x = nx s x ∧ pv s' x = pv s x ∧ vbuf s' x = fupd (vbuf s) i (vw (f (bufof s i))) x.
Proof.
  intros Hk Hi. unfold nx, pv, vbuf. simpl. rewrite bufof_set by done. unfold fupd.
  case_decide; subst; [|done]. destruct (Hk (bufof s i)). done.
Qed.

(** *** Sleep locks of buffers *)

Arguments bufof : simpl never.
Arguments set_buf : simpl never.

Lemma acquiresleep_buf pid i c s :
  (i < length (bc_buf s))%nat → b_lock (bufof s i) = sl_free →
  acquiresleep (l_block i) pid c s = Ok tt (set_buf i (set_lock (sl_held pid) (bufof s i)) s).
Proof.
  intros Hi Hl. unfold acquiresleep, mbind, M_bind, acquire, release, gets, modify. cbn.
  rewrite Hl. cbn. rewrite !bufof_set_eq by (rewrite ?length_set_buf; done). cbn.
  rewrite !bufof_set_eq by (rewrite ?length_set_buf; done). cbn.
  by rewrite !set_buf_twice.
Qed.
Lemma set_buf_id i s : (i < length (bc_buf s))%nat → set_buf i (bufof s i) s = s.
Proof.
  intros Hi. unfold set_buf, bufof. apply lookup_lt_is_Some in Hi as [b Hb]. rewrite Hb. simpl.
  rewrite list_insert_id by done. by destruct s.
Qed.
Lemma holdingsleep_buf pid i s :
  (i < length (bc_buf s))%nat → b_lock (bufof s i) = sl_held pid →
  holdingsleep (l_block i) pid s = Ok true s.
Proof.
  intros Hi Hl. unfold holdingsleep, mbind, M_bind, acquire, release, gets, modify, mret, M_ret. cbn.
  rewrite Hl. cbn. rewrite !bufof_set_eq by (rewrite ?length_set_buf; done). cbn.
  rewrite Z.eqb_refl. rewrite set_buf_twice. f_equal.
  replace (set_lock _ _) with (bufof s i); [by apply set_buf_id|].
  unfold set_lock. cbn. destruct (bufof s i); cbn in *. by rewrite Hl.
Qed.
Lemma releasesleep_buf i s pid :
  (i < length (bc_buf s))%nat → b_lock (bufof s i) = sl_held pid →
  releasesleep (l_block i) s = Ok tt (set_buf i (set_lock sl_free (bufof s i)) s).
Proof.
  intros Hi Hl. unfold releasesleep, mbind, M_bind, acquire, release, gets, modify. cbn.
  rewrite Hl. cbn. rewrite !bufof_set_eq by (rewrite ?length_set_buf; done). cbn.
  by rewrite !set_buf_twice.
Qed.

(** ** The invariant of the cache *)

Section cache.
Context (pid : Z).
Implicit Types (V : nat → buf) (d : gmap Z (list Z)) (H : gset nat).

(** [H] are the buffers the running process holds. *)
Record vinv V d (sz : Z) H : Prop := {
  vi_bound : ∀ i, i ∈ H → (i < 30)%nat;
  vi_held : ∀ i, i ∈ H → b_lock (V i) = sl_held pid ∧ b_refcnt (V i) = 1 ∧ b_dev (V i) = 1;
  vi_free : ∀ i, (i < 30)%nat → i ∉ H → b_lock (V i) = sl_free ∧ b_refcnt (V i) = 0;
  vi_flags : ∀ i, (i < 30)%nat →
    b_dev (V i) = 1 ∧ (b_flags (V i) = 2 ∨ b_flags (V i) = 6) ∧ 0 ≤ b_blockno (V i) < sz ∨
    b_dev (V i) = 0 ∧ b_flags (V i) = 0;
  vi_uniq : ∀ i j, (i < 30)%nat → (j < 30)%nat → b_dev (V i) = 1 → b_dev (V j) = 1 →
    b_blockno (V i) = b_blockno (V j) → i = j;
  vi_clean : ∀ i, (i < 30)%nat → i ∉ H → b_dev (V i) = 1 → b_flags (V i) = 2 →
    b_data (V i) = dblk d (b_blockno (V i));
}.

(** Block [b] is in buffer [i]. *)
Definition caches V (i : nat) (b : Z) : Prop := (i < 30)%nat ∧ b_dev (V i) = 1 ∧ b_blockno (V i) = b.
#[global] Instance caches_dec V i b : Decision (caches V i b).
Proof. unfold caches. apply _. Defined.

(** The contents of a block as the kernel sees it, and whether the cache holds
    a version that is not on disk. *)
Definition content V d (b : Z) : list Z :=
  match list_find (λ i, caches V i b) (seq 0 30) with
  | Some (_, i) => b_data (V i)
  | None => dblk d b
  end.
Definition dirty V (b : Z) : Prop := ∃ i, caches V i b ∧ b_flags (V i) = 6.

Lemma content_cached V d sz H i b : vinv V d sz H → caches V i b → content V d b = b_data (V i).
Proof.
  intros Hv Hc. unfold content. destruct (list_find _ _) as [[k j]|] eqn:E.
  - apply list_find_Some in E as (_ & Hj & _).
    replace j with i; [done|]. destruct Hc as (? & ? & <-), Hj as (? & ? & Hj).
    by apply (vi_uniq _ _ _ _ Hv).
  - exfalso. apply list_find_None in E. rewrite Forall_forall in E.
    apply (E i); [|done]. apply elem_of_seq. destruct Hc. lia.
Qed.
Lemma content_uncached V d b : (∀ i, ¬ caches V i b) → content V d b = dblk d b.
Proof.
  intros Hn. unfold content. destruct (list_find _ _) as [[k j]|] eqn:E; [|done].
  apply list_find_Some in E as (_ & Hj & _). by apply Hn in Hj.
Qed.
Lemma cached_or_not V b : (∃ i, caches V i b) ∨ ∀ i, ¬ caches V i b.
Proof.
  destruct (list_find (λ i, caches V i b) (seq 0 30)) as [[k i]|] eqn:E.
  - apply list_find_Some in E as (_ & Hi & _). eauto.
  - right. intros i Hi. apply list_find_None in E. rewrite Forall_forall in E.
    apply (E i); [|done]. apply elem_of_seq. destruct Hi. lia.
Qed.
Lemma caches_uniq V d sz H i j b : vinv V d sz H → caches V i b → caches V j b → i = j.
Proof. intros Hv (? & ? & <-) (? & ? & Hj). by apply (vi_uniq _ _ _ _ Hv). Qed.

Record cinv (s : bcache) H : Prop := {
  cv_lock : bc_lock s = unlocked;
  cv_len : length (bc_buf s) = 31%nat;
  cv_lru : ∃ ns, lru (nx s) (pv s) ns;
  cv_view : vinv (vbuf s) (disk s) (disksize s) H;
}.

(** Buffer [i] with its block locked by the process. *)
Definition took (b : buf) : buf := set_lock (sl_held pid) (set_refcnt 1 b).

(** Locking a cached block. *)
Lemma vinv_take V d sz H i :
  vinv V d sz H → (i < 30)%nat → i ∉ H → b_dev (V i) = 1 →
  vinv (fupd V i (took (V i))) d sz ({[i]} ∪ H).
Proof.
  intros Hv Hi Hn Hd. destruct Hv as [Hb Hh Hf Hfl Hu Hc]. constructor; unfold fupd.
  - intros j Hj. apply elem_of_union in Hj as [Hj%elem_of_singleton|Hj]; [lia|eauto].
  - intros j Hj. case_decide; [subst; done|]. apply Hh. set_solver.
  - intros j Hj Hjn. case_decide; [subst; set_solver|]. apply Hf; [done|]. set_solver.
  - intros j Hj. case_decide; [subst; exact (Hfl i Hi)|]. by apply Hfl.
  - intros j k Hj Hk. repeat case_decide; subst; simpl; eauto.
  - intros j Hj Hjn. case_decide; [subst; set_solver|]. apply Hc; [done|]. set_solver.
Qed.

(** Taking over an unused buffer for block [b]. *)
Definition reused (b : Z) (data : list Z) : buf := Buf 2 1 b (sl_held pid) 1 0 0 data.
Lemma vinv_reuse V d sz H i b :
  vinv V d sz H → (i < 30)%nat → i ∉ H → 0 ≤ b < sz → (∀ j, ¬ caches V j b) →
  vinv (fupd V i (reused b (dblk d b))) d sz ({[i]} ∪ H).
Proof.
  intros Hv Hi Hn Hb Hnc. destruct Hv as [Hbd Hh Hf Hfl Hu Hc]. constructor; unfold fupd.
  - intros j Hj. apply elem_of_union in Hj as [Hj%elem_of_singleton|Hj]; [lia|eauto].
  - intros j Hj. case_decide; [subst; done|]. apply Hh. set_solver.
  - intros j Hj Hjn. case_decide; [subst; set_solver|]. apply Hf; [done|]. set_solver.
  - intros j Hj. case_decide; [subst; left; simpl; split_and!; [done|by left|lia..]|]. by apply Hfl.
  - intros j k Hj Hk. repeat case_decide; subst; simpl; [done|..|by eauto].
    + intros _ Hd E. exfalso. by apply (Hnc k).
    + intros Hd _ E. exfalso. by apply (Hnc j).
  - intros j Hj Hjn. case_decide; [subst; set_solver|]. apply Hc; [done|]. set_solver.
Qed.

(** Neither changes what the kernel sees. *)
Lemma take_content V d sz H i b' :
  vinv V d sz H → (i < 30)%nat → i ∉ H → b_dev (V i) = 1 →
  content (fupd V i (took (V i))) d b' = content V d b' ∧
  (dirty (fupd V i (took (V i))) b' ↔ dirty V b').
Proof.
  intros Hv Hi Hn Hd. pose proof (vinv_take V d sz H i Hv Hi Hn Hd) as Hv'.
  assert (Hcc : ∀ j, caches (fupd V i (took (V i))) j b' ↔ caches V j b').
  { intros j. unfold caches, fupd. case_decide; subst; done. }
  assert (Hfd : ∀ j, b_data (fupd V i (took (V i)) j) = b_data (V j) ∧
    b_flags (fupd V i (took (V i)) j) = b_flags (V j)).
  { intros j. unfold fupd. case_decide; subst; done. }
  split.
  - destruct (cached_or_not V b') as [[j Hj]|Hno].
    + rewrite (content_cached _ _ _ _ j b' Hv Hj).
      rewrite (content_cached _ _ _ _ j b' Hv') by (by apply Hcc). apply Hfd.
    + rewrite !content_uncached; [done|done|]. intros j. by rewrite Hcc.
  - unfold dirty. split; intros (j & Hj & Hfl); exists j; destruct (Hfd j) as [_ E];
      rewrite ?Hcc in *; rewrite ?E in *; done.
Qed.

Lemma reuse_content V d sz H i b b' :
  vinv V d sz H → (i < 30)%nat → i ∉ H → b_flags (V i) ≠ 6 → 0 ≤ b < sz → (∀ j, ¬ caches V j b) →
  content (fupd V i (reused b (dblk d b))) d b' = content V d b' ∧
  (dirty (fupd V i (reused b (dblk d b))) b' ↔ dirty V b').
Proof.
  intros Hv Hi Hn Hfl Hb Hnc. pose proof (vinv_reuse V d sz H i b Hv Hi Hn Hb Hnc) as Hv'.
  assert (Hoth : ∀ j, j ≠ i → caches (fupd V i (reused b (dblk d b))) j b' ↔ caches V j b').
  { intros j Hj. unfold caches. by rewrite fupd_ne. }
  assert (Hself : caches (fupd V i (reused b (dblk d b))) i b' ↔ b' = b).
  { unfold caches. rewrite fupd_eq. simpl. split; [by intros (_ & _ & ->)|by intros ->]. }
  destruct (decide (b' = b)) as [->|Hbb].
  - rewrite (content_cached _ _ _ _ i b Hv') by (by apply Hself). rewrite fupd_eq. simpl.
    rewrite content_uncached by done. split; [done|]. split.
    + intros (j & Hj & Hf). destruct (decide (j = i)) as [->|Hji].
      * rewrite fupd_eq in Hf. done.
      * by apply Hoth, Hnc in Hj.
    + intros (j & Hj & _). by apply Hnc in Hj.
  - split.
    + destruct (cached_or_not (fupd V i (reused b (dblk d b))) b') as [[j Hj]|Hno].
      * destruct (decide (j = i)) as [->|Hji]; [by apply Hself in Hj|].
        rewrite (content_cached _ _ _ _ j b' Hv' Hj), fupd_ne by done.
        apply Hoth in Hj; [|done]. by rewrite (content_cached _ _ _ _ j b' Hv Hj).
      * rewrite (content_uncached _ _ _ Hno). destruct (cached_or_not V b') as [[j Hj]|Hno'].
        -- destruct (decide (j = i)) as [->|Hji]; [|by destruct (Hno j); apply Hoth].
           (* the evicted block was clean *)
           rewrite (content_cached _ _ _ _ i b' Hv Hj). destruct Hj as (_ & Hd & <-).
           rewrite (vi_clean _ _ _ _ Hv i Hi Hn Hd); [done|].
           destruct (vi_flags _ _ _ _ Hv i Hi) as [(_ & [?|?] & _)|[? _]]; [done|done|lia].
        -- by rewrite content_uncached.
    + split; intros (j & Hj & Hf).
      * destruct (decide (j = i)) as [->|Hji]; [by apply Hself in Hj|].
        rewrite fupd_ne in Hf by done. exists j. by rewrite <-Hoth.
      * destruct (decide (j = i)) as [->|Hji]; [done|]. exists j. rewrite Hoth, fupd_ne by done. done.
Qed.
End cache.

(** ** The operations *)

Section ops.
Context (pid : Z).
#[local] Abbreviation vinv := (vinv pid).
#[local] Abbreviation cinv := (cinv pid).
Implicit Types (V : nat → buf) (d : gmap Z (list Z)) (H : gset nat).

Lemma vinv_ext V V' d sz H : (∀ x, V' x = V x) → vinv V d sz H → vinv V' d sz H.
Proof. intros E []. constructor; intros *; rewrite ?E; eauto. Qed.
Lemma caches_ext V V' i b : (∀ x, V' x = V x) → caches V' i b ↔ caches V i b.
Proof. intros E. unfold caches. by rewrite !E. Qed.
Lemma content_ext V V' d b : (∀ x, V' x = V x) → content V' d b = content V d b.
Proof.
  intros E. unfold content.
  rewrite (list_find_ext (λ i, caches V' i b) (λ i, caches V i b)) by (intros; by apply caches_ext).
  destruct (list_find _ _) as [[]|]; by rewrite ?E.
Qed.
Lemma dirty_ext V V' b : (∀ x, V' x = V x) → dirty V' b ↔ dirty V b.
Proof.
  intros E. unfold dirty. f_equiv. intros i. by rewrite (caches_ext V V') , E by done.
Qed.

(** A held buffer may be changed at will. *)
Lemma vinv_held_upd V d sz H i x :
  vinv V d sz H → i ∈ H → b_lock x = b_lock (V i) → b_refcnt x = b_refcnt (V i) →
  b_dev x = b_dev (V i) → b_blockno x = b_blockno (V i) → (b_flags x = 2 ∨ b_flags x = 6) →
  vinv (fupd V i x) d sz H.
Proof.
  intros Hv Hi El Er Ed Eb Ef. pose proof (vi_bound _ _ _ _ _ Hv i Hi) as Hi30.
  destruct Hv as [Hb Hh Hf Hfl Hu Hc]. constructor; unfold fupd.
  - done.
  - intros j Hj. case_decide; [subst; rewrite El, Er, Ed|]; by apply Hh.
  - intros j Hj Hn. case_decide; [subst; done|]. by apply Hf.
  - intros j Hj. case_decide; [|by apply Hfl]. subst. left. rewrite Ed, Eb.
    destruct (Hh i Hi) as (_ & _ & Hd). destruct (Hfl i Hi30) as [(_ & _ & ?)|[? _]]; [done|lia].
  - intros j k Hj Hk. repeat case_decide; subst; rewrite ?Ed, ?Eb; eauto.
  - intros j Hj Hn. case_decide; [subst; done|]. by apply Hc.
Qed.
Lemma held_caches V d sz H i : vinv V d sz H → i ∈ H → caches V i (b_blockno (V i)).
Proof.
  intros Hv Hi. split_and!; [by eapply vi_bound| |done]. by destruct (vi_held _ _ _ _ _ Hv i Hi) as (_ & _ & ?).
Qed.
Lemma content_upd V d d' sz H i x b' :
  vinv V d sz H → vinv (fupd V i x) d' sz H → i ∈ H →
  b_dev x = b_dev (V i) → b_blockno x = b_blockno (V i) →
  (∀ b, b ≠ b_blockno (V i) → dblk d' b = dblk d b) →
  content (fupd V i x) d' b' = (if decide (b' = b_blockno (V i)) then b_data x else content V d b') ∧
  (b' ≠ b_blockno (V i) → dirty (fupd V i x) b' ↔ dirty V b') ∧
  (dirty (fupd V i x) (b_blockno (V i)) ↔ b_flags x = 6).
Proof.
  intros Hv Hv' Hi Ed Eb Hdd. pose proof (held_caches V d sz H i Hv Hi) as Hci.
  assert (Hcc : ∀ j b, caches (fupd V i x) j b ↔ caches V j b).
  { intros j b. unfold caches, fupd. case_decide; subst; by rewrite ?Ed, ?Eb. }
  split_and!.
  - case_decide as Hb.
    + subst b'. rewrite (content_cached _ _ _ _ _ i _ Hv') by (by apply Hcc). by rewrite fupd_eq.
    + destruct (cached_or_not V b') as [[j Hj]|Hno].
      * assert (j ≠ i) by (intros ->; destruct Hj as (_ & _ & ?); congruence).
        rewrite (content_cached _ _ _ _ _ j _ Hv Hj).
        rewrite (content_cached _ _ _ _ _ j _ Hv') by (by apply Hcc). by rewrite fupd_ne.
      * rewrite !content_uncached; [by apply Hdd|done|]. intros j. by rewrite Hcc.
  - intros Hb. unfold dirty. f_equiv. intros j. rewrite Hcc. unfold fupd. case_decide; [|done].
    subst. split; intros [(_ & _ & ?) _]; congruence.
  - split.
    + intros (j & Hj & Hf). apply Hcc in Hj. rewrite (caches_uniq _ _ _ _ _ j i _ Hv Hj Hci) in Hf.
      by rewrite fupd_eq in Hf.
    + intros Hf. exists i. rewrite Hcc, fupd_eq. done.
Qed.

(** What an operation that only moves blocks around leaves alone. *)
Definition sees_same (s s' : bcache) : Prop :=
  disk s' = disk s ∧ disksize s' = disksize s ∧ bc_writes s' = bc_writes s ∧
  ∀ b, content (vbuf s') (disk s') b = content (vbuf s) (disk s) b ∧ (dirty (vbuf s') b ↔ dirty (vbuf s) b).

Lemma iderw_read s i :
  (i < length (bc_buf s))%nat → b_lock (bufof s i) = sl_held pid → b_flags (bufof s i) = 0 →
  b_dev (bufof s i) = 1 → b_blockno (bufof s i) < disksize s →
  iderw pid i s = Ok tt (set_buf i (set_flags 2 (set_data (dblk (disk s) (b_blockno (bufof s i))) (bufof s i))) s).
Proof.
  intros Hi Hl Hf Hd Hb. unfold iderw. mstep (holdingsleep_buf pid i s Hi Hl). cbn [negb]. mrun.
  rewrite Hf, Hd. cbn [Z.eqb]. change (Z.land 0 (Z.lor B_VALID B_DIRTY) =? B_VALID) with false. cbn [negb Z.eqb Pos.eqb].
  mrun. rewrite Z.geb_leb. destruct (Z.leb_spec (disksize s) (b_blockno (bufof s i))); [lia|].
  change (nz (Z.land 0 B_DIRTY)) with false. cbv iota. rewrite bind_assoc. mrun.
  unfold updb, modify. rewrite bufof_set_eq by done. rewrite set_buf_twice. cbn. by rewrite Hf.
Qed.
Lemma iderw_write s i :
  (i < length (bc_buf s))%nat → b_lock (bufof s i) = sl_held pid → b_flags (bufof s i) = 6 →
  b_dev (bufof s i) = 1 → b_blockno (bufof s i) < disksize s →
  ∃ s', iderw pid i s = Ok tt s' ∧
    s' = Bcache (bc_lock s) (<[i := set_flags 2 (bufof s i)]> (bc_buf s))
           (<[b_blockno (bufof s i) := b_data (bufof s i)]> (disk s)) (disksize s)
           (bc_writes s ++ [(b_blockno (bufof s i), b_data (bufof s i))]).
Proof.
  intros Hi Hl Hf Hd Hb. unfold iderw. mstep (holdingsleep_buf pid i s Hi Hl). cbn [negb]. mrun.
  rewrite Hf, Hd. change (Z.land 6 (Z.lor B_VALID B_DIRTY) =? B_VALID) with false. cbn [negb Z.eqb Pos.eqb].
  mrun. rewrite Z.geb_leb. destruct (Z.leb_spec (disksize s) (b_blockno (bufof s i))); [lia|].
  change (nz (Z.land 6 B_DIRTY)) with true. cbv iota. rewrite bind_assoc. mrun.
  eexists. split; [reflexivity|]. unfold set_buf. cbn. f_equal.
  unfold bufof at 1. cbn. rewrite list_lookup_insert_eq by done. cbn.
  rewrite list_insert_insert_eq, Hf. f_equal. unfold bufof at 1. cbn. by rewrite list_lookup_insert_eq by done.
Qed.

Lemma bread_ok s H b :
  cinv s H → 0 ≤ b < disksize s → (∀ i, i ∈ H → b_blockno (vbuf s i) ≠ b) →
  ((∃ i, caches (vbuf s) i b) ∨ ∃ i, (i < 30)%nat ∧ (i ∉ H) ∧ b_flags (vbuf s i) ≠ 6) →
  ∃ i s', bread pid 1 b s = Ok i s' ∧ (i ∉ H) ∧ (i < 30)%nat ∧ cinv s' ({[i]} ∪ H) ∧
    b_blockno (vbuf s' i) = b ∧ b_data (vbuf s' i) = content (vbuf s) (disk s) b ∧
    sees_same s s' ∧ ∀ j, j ≠ i → vbuf s' j = vbuf s j.
Proof.
  intros [Hlk Hlen [ns Hlru] Hv] Hb Hnh Havail. unfold bread, bget.
  set (s0 := lset l_bc_lock (Spinlock true) s).
  assert (Hns : (HEAD ∉ ns) ∧ length ns = 30%nat).
  { pose proof (lru_nodup _ _ _ Hlru) as Hnd. apply NoDup_cons in Hnd as [Hnd _]. split; [done|]. by rewrite (lru_perm _ _ _ Hlru), length_seq. }
  destruct Hns as [Hhd Hln].
  assert (Efind : bget_cached (S NBUF) s0 1 b (b_next (bufof s0 HEAD)) =
    snd <$> list_find (λ i, b_dev (bufof s i) = 1 ∧ b_blockno (bufof s i) = b) ns).
  { apply (bget_cached_spec s0 1 b (S NBUF) HEAD ns (lru_next _ _ _ Hlru) Hhd). rewrite Hln. unfold NBUF. lia. }
  assert (Eun : bget_unused (S NBUF) s0 (b_prev (bufof s0 HEAD)) =
    snd <$> list_find (λ i, b_refcnt (bufof s i) = 0 ∧ Z.land (b_flags (bufof s i)) B_DIRTY = 0) (reverse ns)).
  { apply (bget_unused_spec s0 (S NBUF) HEAD (reverse ns) (lru_prev _ _ _ Hlru)).
    - by rewrite elem_of_reverse.
    - rewrite length_reverse, Hln. unfold NBUF. lia. }
  rewrite bind_assoc. mstep by (apply acquire_free; simpl; by rewrite Hlk). fold s0.
  rewrite bind_assoc. mstep by reflexivity. unfold id. rewrite Efind.
  destruct (list_find _ ns) as [[k i]|] eqn:El; cbn [fmap option_fmap option_map snd].
  - (* cached *)
    apply list_find_Some in El as (Hk & (Hd & Hbn) & _).
    assert (Hi : (i < 30)%nat) by (apply (lru_in _ _ _ i Hlru); by eapply list_elem_of_lookup_2).
    assert (Hnot : i ∉ H) by (intros Hx; by apply (Hnh i Hx)).
    destruct (vi_free _ _ _ _ _ Hv i Hi Hnot) as [Hfl Hrc]. simpl in Hfl, Hrc.
    assert (Hflag : b_flags (bufof s i) = 2 ∨ b_flags (bufof s i) = 6).
    { destruct (vi_flags _ _ _ _ _ Hv i Hi) as [(_ & ? & _)|[E _]]; [done|]. simpl in E. lia. }
    rewrite bind_assoc. mstep by reflexivity.
    rewrite bind_assoc. mstep by reflexivity.
    rewrite bind_assoc.
    set (s1 := lset l_bc_lock _ _).
    assert (Hb1 : bufof s1 i = set_refcnt (u32 (b_refcnt (bufof s i) + 1)) (bufof s i)).
    { exact (bufof_set_eq s0 i _ ltac:(simpl; lia)). }
    mstep by (apply acquiresleep_buf; [subst s1; simpl; rewrite length_insert; lia|by rewrite Hb1]).
    mstep by reflexivity. unfold getb, gets at 1. mstep by reflexivity.
    rewrite bufof_set_eq by (subst s1; simpl; rewrite length_insert; lia).
    rewrite Hb1. cbn [b_flags set_lock set_refcnt].
    replace (Z.land (b_flags (bufof s i)) B_VALID =? 0) with false by (by destruct Hflag as [-> | ->]).
    mstep by reflexivity.
    set (f := λ x, set_lock (sl_held pid) (set_refcnt 1 x)).
    assert (Es : set_buf i (set_lock (sl_held pid) (set_refcnt (u32 (b_refcnt (bufof s i) + 1)) (bufof s i))) s1
      = set_buf i (f (bufof s i)) s).
    { subst s1 f. rewrite Hrc. unfold set_buf. simpl. rewrite list_insert_insert_eq, Hlk. done. }
    rewrite Es. exists i, (set_buf i (f (bufof s i)) s).
    assert (Hset : ∀ x, nx (set_buf i (f (bufof s i)) s) x = nx s x ∧ pv (set_buf i (f (bufof s i)) s) x = pv s x ∧
      vbuf (set_buf i (f (bufof s i)) s) x = fupd (vbuf s) i (took pid (vbuf s i)) x).
    { intros x. apply (set_keeps s i f x); [done|lia]. }
    destruct (vi_flags _ _ _ _ _ Hv i Hi) as [(Hdev & _ & _)|[E _]]; [|simpl in E; lia].
    pose proof (proj2 (proj2 (Hset i))) as Hvi. rewrite fupd_eq in Hvi.
    split; [done|]. split; [done|]. split; [done|]. split.
    { constructor; [done|simpl; by rewrite length_insert| |].
      - exists ns. eapply lru_ext; [apply Hset|apply Hset|done].
      - eapply vinv_ext; [apply Hset|]. by apply vinv_take. }
    rewrite Hvi. split; [done|]. split.
    { rewrite (content_cached _ _ _ _ _ i b Hv); [done|]. done. }
    split.
    + split_and!; [done..|]. intros b'. rewrite (content_ext _ _ _ _ (λ x, proj2 (proj2 (Hset x)))), (dirty_ext _ _ _ (λ x, proj2 (proj2 (Hset x)))).
      by eapply take_content.
    + intros j Hj. by rewrite (proj2 (proj2 (Hset j))), fupd_ne.
  - (* not cached *)
    assert (Hnc : ∀ i, ¬ caches (vbuf s) i b).
    { intros i (Hi & Hd & Hbn). apply list_find_None in El. rewrite Forall_forall in El.
      apply (El i); [by apply (lru_in _ _ _ i Hlru)|done]. }
    destruct Havail as [[i Hi]|(i0 & Hi0 & Hn0 & Hf0)]; [by apply Hnc in Hi|].
    rewrite Eun. destruct (list_find _ (reverse ns)) as [[k i]|] eqn:Eu.
    2:{ exfalso. apply list_find_None in Eu. rewrite Forall_forall in Eu.
      apply (Eu i0); [apply elem_of_reverse; by apply (lru_in _ _ _ i0 Hlru)|].
      destruct (vi_free _ _ _ _ _ Hv i0 Hi0 Hn0) as [_ Hr]. split; [done|].
      destruct (vi_flags _ _ _ _ _ Hv i0 Hi0) as [(_ & [Hf|Hf] & _)|[_ Hf]]; [|done|];
        change (b_flags (vbuf s i0)) with (b_flags (bufof s i0)) in Hf; by rewrite Hf. }
    apply list_find_Some in Eu as (Hk & (Hrc & Hfl) & _). cbn [fmap option_fmap option_map snd].
    assert (Hi : (i < 30)%nat).
    { apply (lru_in _ _ _ i Hlru). apply elem_of_reverse. by eapply list_elem_of_lookup_2. }
    assert (Hnot : i ∉ H).
    { intros Hx. destruct (vi_held _ _ _ _ _ Hv i Hx) as (_ & E & _). simpl in E. lia. }
    assert (Hn6 : b_flags (vbuf s i) ≠ 6).
    { intros E. simpl in E. by rewrite E in Hfl. }
    destruct (vi_free _ _ _ _ _ Hv i Hi Hnot) as [Hlock _]. simpl in Hlock.
    rewrite bind_assoc. mstep by reflexivity.
    rewrite bind_assoc. mstep by reflexivity.
    rewrite bind_assoc.
    set (s1 := lset l_bc_lock _ _).
    assert (L1 : length (bc_buf s1) = 31%nat) by (subst s1; simpl; by rewrite length_insert).
    assert (Hb1 : bufof s1 i = set_block 1 b (bufof s i)).
    { exact (bufof_set_eq s0 i _ ltac:(simpl; lia)). }
    mstep by (apply acquiresleep_buf; [lia|by rewrite Hb1]).
    mstep by reflexivity. unfold getb, gets at 1. mstep by reflexivity.
    set (s2 := set_buf i _ s1).
    assert (L2 : length (bc_buf s2) = 31%nat) by (subst s2; by rewrite length_set_buf).
    assert (Hb2 : bufof s2 i = set_lock (sl_held pid) (set_block 1 b (bufof s i))).
    { subst s2. rewrite bufof_set_eq by lia. by rewrite Hb1. }
    rewrite Hb2. cbn [b_flags set_lock set_block]. change (Z.land 0 B_VALID =? 0) with true. cbv iota.
    mstep by (apply iderw_read; rewrite ?Hb2; [lia|done|done|done|simpl; lia]).
    rewrite Hb2. cbn [b_blockno set_lock set_block].
    set (f := λ x, set_flags 2 (set_data (dblk (disk s) b) (set_lock (sl_held pid) (set_block 1 b x)))).
    assert (Es : set_buf i (set_flags 2 (set_data (dblk (disk s2) b) (set_lock (sl_held pid) (set_block 1 b (bufof s i))))) s2
      = set_buf i (f (bufof s i)) s).
    { subst s2 s1 f. rewrite set_buf_twice. unfold set_buf. simpl. rewrite list_insert_insert_eq, Hlk. done. }
    rewrite Es. exists i, (set_buf i (f (bufof s i)) s).
    assert (Hset : ∀ x, nx (set_buf i (f (bufof s i)) s) x = nx s x ∧ pv (set_buf i (f (bufof s i)) s) x = pv s x ∧
      vbuf (set_buf i (f (bufof s i)) s) x = fupd (vbuf s) i (reused pid b (dblk (disk s) b)) x).
    { intros x. apply (set_keeps s i f x); [done|lia]. }
    pose proof (proj2 (proj2 (Hset i))) as Hvi. rewrite fupd_eq in Hvi.
    split; [done|]. split; [done|]. split; [done|]. split.
    { constructor; [done|simpl; by rewrite length_insert| |].
      - exists ns. eapply lru_ext; [apply Hset|apply Hset|done].
      - eapply vinv_ext; [apply Hset|]. by apply vinv_reuse. }
    rewrite Hvi. split; [done|]. split.
    { by rewrite content_uncached. }
    split.
    + split_and!; [done..|]. intros b'. rewrite (content_ext _ _ _ _ (λ x, proj2 (proj2 (Hset x)))), (dirty_ext _ _ _ (λ x, proj2 (proj2 (Hset x)))).
      by eapply reuse_content.
    + intros j Hj. by rewrite (proj2 (proj2 (Hset j))), fupd_ne.
Qed.

(** Changing a held buffer. *)
Lemma upd_held_ok s H i f :
  cinv s H → i ∈ H → keeps_ptrs f →
  (∀ b, b_lock (f b) = b_lock b ∧ b_refcnt (f b) = b_refcnt b ∧ b_dev (f b) = b_dev b ∧ b_blockno (f b) = b_blockno b) →
  (b_flags (f (bufof s i)) = 2 ∨ b_flags (f (bufof s i)) = 6) →
  let s' := set_buf i (f (bufof s i)) s in
  updb i f s = Ok tt s' ∧ cinv s' H ∧ same_rest s s' ∧
  ∀ x, vbuf s' x = fupd (vbuf s) i (vw (f (bufof s i))) x.
Proof.
  intros [Hlk Hlen [ns Hlru] Hv] Hi Hk Hf Hfl s'. pose proof (vi_bound _ _ _ _ _ Hv i Hi) as Hi30.
  assert (Hset : ∀ x, nx s' x = nx s x ∧ pv s' x = pv s x ∧ vbuf s' x = fupd (vbuf s) i (vw (f (bufof s i))) x).
  { intros x. apply (set_keeps s i f x); [done|lia]. }
  assert (Hrest : same_rest s s') by (split_and!; [done|by apply length_set_buf|done..]).
  split_and!; [done| |done|apply Hset].
  constructor; [done| | |].
  - destruct Hrest as (_ & -> & _). done.
  - exists ns. eapply lru_ext; [apply Hset|apply Hset|done].
  - eapply vinv_ext; [apply Hset|]. destruct (Hf (bufof s i)) as (? & ? & ? & ?).
    by apply vinv_held_upd.
Qed.

Lemma bwrite_ok s H i :
  cinv s H → i ∈ H →
  let b := b_blockno (vbuf s i) in
  let data := b_data (vbuf s i) in
  ∃ s', bwrite pid i s = Ok tt s' ∧ cinv s' H ∧ disk s' = <[b := data]> (disk s) ∧
    disksize s' = disksize s ∧ bc_writes s' = bc_writes s ++ [(b, data)] ∧
    (∀ x, vbuf s' x = fupd (vbuf s) i (set_flags 2 (vbuf s i)) x) ∧
    ∀ b', content (vbuf s') (disk s') b' = content (vbuf s) (disk s) b' ∧
      (dirty (vbuf s') b' ↔ dirty (vbuf s) b' ∧ b' ≠ b).
Proof.
  intros Hci Hi b data. pose proof Hci as [Hlk Hlen [ns Hlru] Hv].
  pose proof (vi_bound _ _ _ _ _ Hv i Hi) as Hi30.
  destruct (vi_held _ _ _ _ _ Hv i Hi) as (Hl & Hr & Hd).
  destruct (vi_flags _ _ _ _ _ Hv i Hi30) as [(_ & Hfl & Hbn)|[E _]]; [|congruence].
  change (b_lock (vbuf s i)) with (b_lock (bufof s i)) in Hl.
  change (b_dev (vbuf s i)) with (b_dev (bufof s i)) in Hd.
  change (b_flags (vbuf s i)) with (b_flags (bufof s i)) in Hfl.
  unfold bwrite. mstep (holdingsleep_buf pid i s ltac:(lia) Hl). cbn [negb]. mrun.
  set (s1 := set_buf i _ s).
  assert (L1 : length (bc_buf s1) = 31%nat) by (subst s1; by rewrite length_set_buf).
  assert (E1 : bufof s1 i = set_flags 6 (bufof s i)).
  { subst s1. rewrite bufof_set_eq by lia. by destruct Hfl as [-> | ->]. }
  destruct (iderw_write s1 i) as (s2 & E2 & Es2); rewrite ?E1; [lia|done|done|done|exact (proj2 Hbn)|].
  rewrite E1 in Es2. cbn [b_blockno b_data set_flags] in Es2.
  set (f := set_flags 2).
  assert (Eb : bc_buf s2 = bc_buf (set_buf i (f (bufof s i)) s)).
  { rewrite Es2. subst s1 f. unfold set_buf. simpl. by rewrite list_insert_insert_eq. }
  assert (Hset : ∀ x, nx s2 x = nx s x ∧ pv s2 x = pv s x ∧ vbuf s2 x = fupd (vbuf s) i (set_flags 2 (vbuf s i)) x).
  { intros x. unfold nx, pv, vbuf, bufof. rewrite Eb.
    exact (set_keeps s i f x ltac:(done) ltac:(lia)). }
  assert (Hv1 : vinv (fupd (vbuf s) i (set_flags 2 (vbuf s i))) (disk s) (disksize s) H).
  { apply vinv_held_upd; try done. by left. }
  assert (Hdd : ∀ b', b' ≠ b → dblk (<[b := data]> (disk s)) b' = dblk (disk s) b').
  { intros b' Hb. unfold dblk. by rewrite lookup_insert_ne. }
  assert (Hv2 : vinv (fupd (vbuf s) i (set_flags 2 (vbuf s i))) (<[b := data]> (disk s)) (disksize s) H).
  { destruct Hv1 as [A1 A2 A3 A4 A5 A6]. constructor; try done. intros j Hj Hn Hdj Hfj.
    rewrite Hdd; [by apply A6|]. intros Hbj. apply Hn. rewrite (A5 j i); try done.
    - by rewrite fupd_eq.
    - by rewrite fupd_eq. }
  exists s2. split_and!.
  - exact E2.
  - constructor.
    + by rewrite Es2.
    + by rewrite Eb, length_set_buf.
    + exists ns. eapply lru_ext; [apply Hset|apply Hset|done].
    + eapply vinv_ext; [apply Hset|]. by rewrite Es2.
  - by rewrite Es2.
  - by rewrite Es2.
  - by rewrite Es2.
  - apply Hset.
  - intros b'. rewrite (content_ext _ _ _ _ (λ x, proj2 (proj2 (Hset x)))), (dirty_ext _ _ _ (λ x, proj2 (proj2 (Hset x)))).
    replace (disk s2) with (<[b := data]> (disk s)) by (by rewrite Es2).
    destruct (content_upd _ _ _ _ _ i (set_flags 2 (vbuf s i)) b' Hv Hv2 Hi eq_refl eq_refl Hdd) as (C1 & C2 & C3).
    fold b in C1, C2, C3.
    rewrite C1. split.
    + case_decide as Hbb; [|done]. rewrite Hbb.
      symmetry. exact (content_cached _ _ _ _ _ i _ Hv (held_caches _ _ _ _ _ Hv Hi)).
    + destruct (decide (b' = b)) as [->|Hb]; [rewrite C3; split; [done|by intros []]|].
      rewrite C2 by done. naive_solver.
Qed.

Lemma brelse_ok s H i :
  cinv s H → i ∈ H →
  (b_flags (vbuf s i) = 6 ∨ b_data (vbuf s i) = dblk (disk s) (b_blockno (vbuf s i))) →
  ∃ s', brelse pid i s = Ok tt s' ∧ cinv s' (H ∖ {[i]}) ∧ sees_same s s' ∧
    ∀ j, j ≠ i → vbuf s' j = vbuf s j.
Proof.
  intros [Hlk Hlen [ns Hlru] Hv] Hi Hcl. pose proof (vi_bound _ _ _ _ _ Hv i Hi) as Hi30.
  destruct (vi_held _ _ _ _ _ Hv i Hi) as (Hl & Hr & Hd).
  change (b_lock (vbuf s i)) with (b_lock (bufof s i)) in Hl.
  change (b_refcnt (vbuf s i)) with (b_refcnt (bufof s i)) in Hr.
  unfold brelse. mstep (holdingsleep_buf pid i s ltac:(lia) Hl). cbn [negb].
  mstep (releasesleep_buf i s pid ltac:(lia) Hl).
  mstep by (apply acquire_free; simpl; by rewrite Hlk). mrun.
  set (f := λ x, set_refcnt 0 (set_lock sl_free x)).
  set (s1 := set_buf i (f (bufof s i)) (lset l_bc_lock (Spinlock true) s)).
  match goal with |- context [b_refcnt (bufof ?x i) =? 0] => set (s1' := x) end.
  assert (Es1 : s1' = s1).
  { subst s1' s1.
    assert (Eb : bufof (lset l_bc_lock (Spinlock true) (set_buf i (set_lock sl_free (bufof s i)) s)) i
      = set_lock sl_free (bufof s i)) by exact (bufof_set_eq s i _ ltac:(lia)).
    rewrite Eb. cbn [b_refcnt set_lock]. rewrite Hr. unfold set_buf, lset, l_bc_lock.
    cbn [bc_buf bc_lock disk disksize bc_writes]. by rewrite list_insert_insert_eq. }
  clearbody s1'. subst s1'.
  assert (L1 : length (bc_buf s1) = 31%nat) by (subst s1; rewrite length_set_buf; done).
  assert (Hset : ∀ x, nx s1 x = nx s x ∧ pv s1 x = pv s x ∧ vbuf s1 x = fupd (vbuf s) i (f (vbuf s i)) x).
  { intros x. exact (set_keeps (lset l_bc_lock (Spinlock true) s) i f x ltac:(done) ltac:(simpl; lia)). }
  assert (E0 : b_refcnt (bufof s1 i) = 0).
  { pose proof (proj2 (proj2 (Hset i))) as E. rewrite fupd_eq in E.
    change (b_refcnt (bufof s1 i)) with (b_refcnt (vbuf s1 i)). by rewrite E. }
  rewrite E0. cbn [Z.eqb].
  destruct (move_front_ok s1 i ns L1) as (s2 & ns2 & E2 & (R1 & R2 & R3 & R4 & R5) & Hl2 & Hv2).
  { eapply lru_ext; [apply Hset|apply Hset|done]. }
  { done. }
  mstep E2. exists (lset l_bc_lock unlocked s2).
  assert (HV : ∀ x, vbuf (lset l_bc_lock unlocked s2) x = fupd (vbuf s) i (f (vbuf s i)) x).
  { intros x. change (vbuf (lset l_bc_lock unlocked s2) x) with (vbuf s2 x). rewrite Hv2. apply Hset. }
  assert (Hvv : vinv (fupd (vbuf s) i (f (vbuf s i))) (disk s) (disksize s) (H ∖ {[i]})).
  { destruct Hv as [A1 A2 A3 A4 A5 A6]. constructor; unfold fupd.
    - intros j Hj. apply A1. set_solver.
    - intros j Hj. case_decide; [set_solver|]. apply A2. set_solver.
    - intros j Hj Hn. case_decide; [done|]. apply A3; [done|set_solver].
    - intros j Hj. case_decide; [subst; exact (A4 i Hi30)|]. by apply A4.
    - intros j k Hj Hk. repeat case_decide; subst; simpl; eauto.
    - intros j Hj Hn. case_decide; [|apply A6; [done|set_solver]]. subst. intros _ Hf. simpl in Hf.
      destruct Hcl as [Hcl|Hcl]; [|done]. simpl in Hcl. congruence. }
  split_and!.
  - apply release_held. simpl. by rewrite R1.
  - constructor; [done|simpl; lia|by exists ns2|]. eapply vinv_ext; [apply HV|]. simpl. rewrite R3, R4. done.
  - split_and!; [exact R3|exact R4|exact R5|]. intros b'.
    rewrite (content_ext _ _ _ _ HV), (dirty_ext _ _ _ HV).
    replace (disk (lset l_bc_lock unlocked s2)) with (disk s) by (simpl; by rewrite R3).
    assert (Hcc : ∀ j, caches (fupd (vbuf s) i (f (vbuf s i))) j b' ↔ caches (vbuf s) j b').
    { intros j. unfold caches, fupd. case_decide; subst; done. }
    assert (Hfd : ∀ j, b_data (fupd (vbuf s) i (f (vbuf s i)) j) = b_data (vbuf s j) ∧
      b_flags (fupd (vbuf s) i (f (vbuf s i)) j) = b_flags (vbuf s j)).
    { intros j. unfold fupd. case_decide; subst; done. }
    split.
    + destruct (cached_or_not (vbuf s) b') as [[j Hj]|Hno].
      * rewrite (content_cached _ _ _ _ _ j b' Hv Hj), (content_cached _ _ _ _ _ j b' Hvv) by (by apply Hcc).
        apply Hfd.
      * rewrite !content_uncached; [done|done|]. intros j. by rewrite Hcc.
    + unfold dirty. f_equiv. intros j. rewrite Hcc. by destruct (Hfd j) as [_ ->].
  - intros j Hj. by rewrite HV, fupd_ne.
Qed.
End ops.
