(* ===== verification/Log.v ===== *)
(** * The log (log.c)

    System calls that write to the file system run between [begin_op] and
    [end_op]; the last one to end commits all their writes: it copies the
    modified blocks to the log area, writes the log header, copies the blocks
    home and clears the header.  After a crash [recover_from_log] redoes a
    committed transaction. *)

From Stdlib Require Import ZArith Lia.
From stdpp Require Import base numbers strings gmap list.
From S2P Require Import Prelude Memory Locks Bytes Disk Bio Fs.

(** [log], with the buffer cache below it. *)
Record logst := LogSt {
  lg_lock : spinlock;
  lg_start : Z;
  lg_size : Z;
  lg_outstanding : Z;
  lg_committing : bool;
  lg_dev : Z;
  lh_n : Z;
  lh_block : list Z;
  lg_bio : bcache;
  lg_woken : Z;     (* calls of wakeup(&log) *)
}.

Definition l_lg_lock : lens logst spinlock := Lens lg_lock (λ l s,
  LogSt l (lg_start s) (lg_size s) (lg_outstanding s) (lg_committing s) (lg_dev s) (lh_n s) (lh_block s) (lg_bio s) (lg_woken s)).
Definition l_bio : lens logst bcache := Lens lg_bio (λ b s,
  LogSt (lg_lock s) (lg_start s) (lg_size s) (lg_outstanding s) (lg_committing s) (lg_dev s) (lh_n s) (lh_block s) b (lg_woken s)).
Definition set_layout (start size dev : Z) (s : logst) : logst :=
  LogSt (lg_lock s) start size (lg_outstanding s) (lg_committing s) dev (lh_n s) (lh_block s) (lg_bio s) (lg_woken s).
Definition set_ops (outstanding : Z) (committing : bool) (s : logst) : logst :=
  LogSt (lg_lock s) (lg_start s) (lg_size s) outstanding committing (lg_dev s) (lh_n s) (lh_block s) (lg_bio s) (lg_woken s).
Definition set_lh (n : Z) (block : list Z) (s : logst) : logst :=
  LogSt (lg_lock s) (lg_start s) (lg_size s) (lg_outstanding s) (lg_committing s) (lg_dev s) n block (lg_bio s) (lg_woken s).
(** [wakeup(&log)] *)
Definition wake_log (s : logst) : logst :=
  LogSt (lg_lock s) (lg_start s) (lg_size s) (lg_outstanding s) (lg_committing s) (lg_dev s) (lh_n s) (lh_block s) (lg_bio s)
    (lg_woken s + 1).

(** [lh.block[i]] *)
Definition lh_get (i : Z) : M logst Z := λ s,
  if (0 <=? i) && (i <? LOGSIZE) then Ok (default 0 (lh_block s !! Z.to_nat i)) s else Undef "lh.block".
Definition lh_set (i b : Z) : M logst unit := λ s,
  if (0 <=? i) && (i <? LOGSIZE) then Ok tt (set_lh (lh_n s) (<[Z.to_nat i := b]> (lh_block s)) s)
  else Undef "lh.block".

Section log.
Context (pid : Z).

Definition lbread (b : Z) : M logst nat :=
  dev ← gets lg_dev; zoom l_bio (bread pid (u32 dev) (u32 b)).
Definition lbwrite (i : nat) : M logst unit := zoom l_bio (bwrite pid i).
Definition lbrelse (i : nat) : M logst unit := zoom l_bio (brelse pid i).
Definition lbdata (i : nat) : M logst (list Z) := gets (λ s, b_data (bufof (lg_bio s) i)).
Definition lbstore (i : nat) (d : list Z) : M logst unit := zoom l_bio (updb i (set_data d)).

(** Copy committed blocks from log to their home location *)
Fixpoint install_loop (fuel : nat) (tail : Z) : M logst unit :=
  match fuel with
  | O => nofuel
  | S fuel =>
      s ← gets id;
      if tail <? lh_n s then
        lbuf ← lbread (lg_start s + tail + 1);
        blockno ← lh_get tail;
        dbuf ← lbread blockno;
        d ← lbdata lbuf;
        lbstore dbuf d;;
        lbwrite dbuf;;
        lbrelse lbuf;;
        lbrelse dbuf;;
        install_loop fuel (tail + 1)
      else mret tt
  end.
Definition install_trans : M logst unit :=
  s ← gets id; install_loop (S (Z.to_nat (lh_n s))) 0.

(** Read the log header from disk into the in-memory log header *)
Fixpoint read_head_loop (fuel : nat) (data : list Z) (i : Z) : M logst unit :=
  match fuel with
  | O => nofuel
  | S fuel =>
      s ← gets id;
      if i <? lh_n s then
        lh_set i (s32 (get32 data (Z.to_nat (4 + 4 * i))));;
        read_head_loop fuel data (i + 1)
      else mret tt
  end.
Definition read_head : M logst unit :=
  s ← gets id;
  b ← lbread (lg_start s);
  data ← lbdata b;
  modify (λ s, set_lh (s32 (get32 data 0)) (lh_block s) s);;
  s ← gets id;
  read_head_loop (S (Z.to_nat (lh_n s))) data 0;;
  lbrelse b.

(** Write in-memory log header to disk. *)
Fixpoint write_head_loop (fuel : nat) (b : nat) (i : Z) : M logst unit :=
  match fuel with
  | O => nofuel
  | S fuel =>
      s ← gets id;
      if i <? lh_n s then
        blockno ← lh_get i;
        data ← lbdata b;
        lbstore b (splice (Z.to_nat (4 + 4 * i)) (le32 blockno) data);;
        write_head_loop fuel b (i + 1)
      else mret tt
  end.
Definition write_head : M logst unit :=
  s ← gets id;
  b ← lbread (lg_start s);
  data ← lbdata b;
  lbstore b (splice 0 (le32 (lh_n s)) data);;
  write_head_loop (S (Z.to_nat (lh_n s))) b 0;;
  lbwrite b;;
  lbrelse b.

Definition recover_from_log : M logst unit :=
  read_head;;
  install_trans;;
  modify (λ s, set_lh 0 (lh_block s) s);;
  write_head.

(** [readsb] of fs.c on this state, and [initlog]. *)
Definition lreadsb (dev : Z) : M logst superblock :=
  b ← zoom l_bio (bread pid (u32 dev) 1);
  data ← lbdata b;
  lbrelse b;;
  mret (dec_sb data).
Definition initlog (dev : Z) : M logst unit :=
  if 4 + 4 * LOGSIZE >=? BSIZE then panic "initlog: too big logheader"
  else
    modify (λ s, lset l_lg_lock unlocked s);;
    sb ← lreadsb dev;
    modify (set_layout (s32 (sb_logstart sb)) (s32 (sb_nlog sb)) dev);;
    recover_from_log.

(** [&log] as a sleep channel *)
Definition LOGCHAN : Z := 0.

(** called at the start of each FS system call. *)
Definition begin_op : M logst unit :=
  acquire l_lg_lock;;
  s ← gets id;
  if lg_committing s then release l_lg_lock;; sleep_on LOGCHAN
  else if lh_n s + (lg_outstanding s + 1) * MAXOPBLOCKS >? LOGSIZE then
    (* this op might exhaust log space; wait for commit. *)
    release l_lg_lock;; sleep_on LOGCHAN
  else
    modify (λ s, set_ops (lg_outstanding s + 1) (lg_committing s) s);;
    release l_lg_lock.

(** Copy modified blocks from cache to log. *)
Fixpoint write_log_loop (fuel : nat) (tail : Z) : M logst unit :=
  match fuel with
  | O => nofuel
  | S fuel =>
      s ← gets id;
      if tail <? lh_n s then
        to ← lbread (lg_start s + tail + 1);
        blockno ← lh_get tail;
        from ← lbread blockno;
        d ← lbdata from;
        lbstore to d;;
        lbwrite to;;
        lbrelse from;;
        lbrelse to;;
        write_log_loop fuel (tail + 1)
      else mret tt
  end.
Definition write_log : M logst unit :=
  s ← gets id; write_log_loop (S (Z.to_nat (lh_n s))) 0.

Definition commit : M logst unit :=
  s ← gets id;
  if lh_n s >? 0 then
    write_log;;
    write_head;;
    install_trans;;
    modify (λ s, set_lh 0 (lh_block s) s);;
    write_head
  else mret tt.

(** called at the end of each FS system call. *)
Definition end_op : M logst unit :=
  acquire l_lg_lock;;
  modify (λ s, set_ops (lg_outstanding s - 1) (lg_committing s) s);;
  s ← gets id;
  if lg_committing s then panic "log.committing"
  else
    let do_commit := lg_outstanding s =? 0 in
    (if do_commit then modify (λ s, set_ops (lg_outstanding s) true s) else modify wake_log);;
    release l_lg_lock;;
    if do_commit then
      commit;;
      acquire l_lg_lock;;
      modify (λ s, set_ops (lg_outstanding s) false s);;
      modify wake_log;;
      release l_lg_lock
    else mret tt.

(** Record the block number and pin in the cache with B_DIRTY. *)
Fixpoint absorb (n : nat) (block : list Z) (i : nat) (b : Z) : nat :=
  match n with
  | O => i
  | S n => if default 0 (block !! i) =? b then i else absorb n block (S i) b
  end.
Definition log_write (i : nat) : M logst unit :=
  s ← gets id;
  if (lh_n s >=? LOGSIZE) || (lh_n s >=? lg_size s - 1) then panic "too big a transaction"
  else if lg_outstanding s <? 1 then panic "log_write outside of trans"
  else
    acquire l_lg_lock;;
    b ← gets (λ s, s32 (b_blockno (bufof (lg_bio s) i)));
    let k := absorb (Z.to_nat (lh_n s)) (lh_block s) 0 b in
    lh_set (Z.of_nat k) b;;
    (if Z.of_nat k =? lh_n s then modify (λ s, set_lh (lh_n s + 1) (lh_block s) s) else mret tt);;
    zoom l_bio (updb i (λ b, set_flags (Z.lor (b_flags b) B_DIRTY) b));;
    release l_lg_lock.
End log.
