(* ===== verification/LogSpec.v ===== *)
(** * Correctness of the log

    A commit makes the blocks of a transaction durable all at once: whatever
    prefix of its disk writes a crash lets through, recovery finds either none
    or all of them.  Between commits the log and the cache implement the
    logical disk that fs.c runs on. *)

From Stdlib Require Import ZArith Lia.
From stdpp Require Import base numbers strings gmap list sets.
From S2P Require Import Prelude Memory Locks Bytes Disk Bio BioSpec Fs Log.

Section logspec.
Context (pid : Z).
#[local] Abbreviation vinv := (vinv pid).
#[local] Abbreviation cinv := (cinv pid).
Implicit Types (V : nat → buf) (d : gmap Z (list Z)) (H : gset nat) (s : bcache) (l : logst).

(** ** Buffers that can be taken *)

(** The dirty blocks are those of [L]. *)
Definition dirty_is s (L : list Z) : Prop := ∀ b, dirty (vbuf s) b ↔ b ∈ L.

Lemma unused_exists s H L :
  cinv s H → dirty_is s L → (length L + size H < 30)%nat →
  ∃ i, (i < 30)%nat ∧ (i ∉ H) ∧ b_flags (vbuf s i) ≠ 6.
Proof.
  intros [_ _ _ Hv] Hd Hlen.
  destruct (list_find (λ i, (i ∉ H) ∧ b_flags (vbuf s i) ≠ 6) (seq 0 30)) as [[k i]|] eqn:E.
  { apply list_find_Some in E as (Hk & ? & _). exists i. split; [|done].
    apply lookup_seq in Hk as [-> ?]. lia. }
  exfalso. apply list_find_None in E. rewrite Forall_forall in E.
  assert (Hall : ∀ i, (i < 30)%nat → i ∉ H → b_flags (vbuf s i) = 6).
  { intros i Hi Hn. destruct (decide (b_flags (vbuf s i) = 6)) as [|Hne]; [done|].
    exfalso. apply (E i); [apply elem_of_seq; lia|done]. }
  set (C := set_seq 0 30 : gset nat).
  set (F := elements (C ∖ H)).
  assert (Hin : ∀ i, i ∈ F → (i < 30)%nat ∧ b_flags (vbuf s i) = 6 ∧ b_dev (vbuf s i) = 1).
  { intros i Hi. apply elem_of_elements, elem_of_difference in Hi as [Hi%elem_of_set_seq Hn].
    assert (i < 30)%nat as Hi30 by lia. split_and!; [done|by apply Hall|].
    destruct (vi_flags _ _ _ _ _ Hv i Hi30) as [(? & _)|[_ E0]]; [done|].
    rewrite Hall in E0 by done. lia. }
  assert (HF : NoDup F) by apply NoDup_elements.
  assert (Hmap : NoDup ((λ i, b_blockno (vbuf s i)) <$> F)).
  { apply NoDup_fmap_2_strong; [|done]. intros i j Hi Hj Eb.
    destruct (Hin i Hi) as (? & _ & ?), (Hin j Hj) as (? & _ & ?). by apply (vi_uniq _ _ _ _ _ Hv). }
  assert (Hsub : (λ i, b_blockno (vbuf s i)) <$> F ⊆ L).
  { intros b Hb. apply list_elem_of_fmap in Hb as (i & -> & Hi). apply Hd.
    destruct (Hin i Hi) as (? & ? & ?). by exists i. }
  pose proof (submseteq_length _ _ (NoDup_submseteq _ _ Hmap Hsub)) as Hle. rewrite length_fmap in Hle.
  assert (Hsz : length F = (30 - size H)%nat).
  { change (length F) with (size (C ∖ H)). rewrite size_difference.
    - unfold C. by rewrite size_set_seq.
    - intros i Hi. apply elem_of_set_seq. pose proof (vi_bound _ _ _ _ _ Hv i Hi). lia. }
  lia.
Qed.

(** ** Reading and copying blocks *)

Lemma clean_content V d sz H b :
  vinv V d sz H → (∀ i, i ∈ H → b_blockno (V i) ≠ b) → ¬ dirty V b → content V d b = dblk d b.
Proof.
  intros Hv Hn Hd. destruct (cached_or_not V b) as [[i Hi]|Hno]; [|by apply content_uncached].
  rewrite (content_cached _ _ _ _ _ i b Hv Hi). destruct Hi as (Hi & Hdev & Hb).
  rewrite <-Hb. apply (vi_clean _ _ _ _ _ Hv); [done| |done|].
  - intros Hx. by apply (Hn i Hx).
  - destruct (vi_flags _ _ _ _ _ Hv i Hi) as [(_ & [?|Hf] & _)|[? _]]; [done| |lia].
    exfalso. apply Hd. by exists i.
Qed.

(** A held buffer that was not modified: dirty, or as on disk. *)
Definition settled s (i : nat) : Prop :=
  b_flags (vbuf s i) = 6 ∨ b_data (vbuf s i) = dblk (disk s) (b_blockno (vbuf s i)).

Lemma bread_log s H L b :
  cinv s H → dirty_is s L → 0 ≤ b < disksize s → (∀ i, i ∈ H → b_blockno (vbuf s i) ≠ b) →
  (b ∈ L ∨ (length L + size H < 30)%nat) →
  ∃ i s', bread pid 1 b s = Ok i s' ∧ (i ∉ H) ∧ cinv s' ({[i]} ∪ H) ∧ dirty_is s' L ∧
    b_blockno (vbuf s' i) = b ∧ b_data (vbuf s' i) = content (vbuf s) (disk s) b ∧
    settled s' i ∧ sees_same s s' ∧ ∀ j, j ≠ i → vbuf s' j = vbuf s j.
Proof.
  intros Hc Hd Hb Hn Hav.
  destruct (bread_ok pid s H b Hc Hb Hn) as (i & s' & E & Hi & _ & Hc' & Hbn & Hdat & Hsee & Hoth).
  { destruct Hav as [HL|Hlen]; [left|right; by eapply unused_exists].
    apply Hd in HL as (i & Hi & _). eauto. }
  exists i, s'. destruct Hsee as (S1 & S2 & S3 & S4). split_and!; try done.
  - intros b'. rewrite <-(Hd b'). apply S4.
  - unfold settled. rewrite Hdat, Hbn, S1. destruct (decide (b ∈ L)) as [HL|HL].
    + left. apply Hd in HL. apply S4 in HL as (j & Hj & Hf).
      rewrite <-(caches_uniq _ _ _ _ _ j i b (cv_view _ _ _ Hc') Hj); [done|].
      rewrite <-Hbn. eapply held_caches; [apply (cv_view _ _ _ Hc')|set_solver].
    + right. eapply clean_content; [apply (cv_view _ _ _ Hc)|done|]. by rewrite (Hd b).
Qed.

Lemma brelse_log s H L i :
  cinv s H → dirty_is s L → i ∈ H → settled s i →
  ∃ s', brelse pid i s = Ok tt s' ∧ cinv s' (H ∖ {[i]}) ∧ dirty_is s' L ∧ sees_same s s' ∧
    ∀ j, j ≠ i → vbuf s' j = vbuf s j.
Proof.
  intros Hc Hd Hi Hs. destruct (brelse_ok pid s H i Hc Hi Hs) as (s' & E & Hc' & Hsee & Hoth).
  exists s'. split_and!; try done. intros b. rewrite <-(Hd b). apply Hsee.
Qed.

(** The second half of a copy: both buffers held, [i] the source, [j] the
    destination. *)
Definition copied s s' (L : list Z) (src dst : Z) : Prop :=
  let data := content (vbuf s) (disk s) src in
  disk s' = <[dst := data]> (disk s) ∧ disksize s' = disksize s ∧
  bc_writes s' = bc_writes s ++ [(dst, data)] ∧
  dirty_is s' (filter (λ b, b ≠ dst) L) ∧
  ∀ b, content (vbuf s') (disk s') b = if decide (b = dst) then data else content (vbuf s) (disk s) b.

Lemma copy_ok s L src dst i j s2 :
  (* [s2] is the state after both reads *)
  cinv s2 ({[i]} ∪ {[j]}) → i ≠ j → src ≠ dst → dirty_is s2 L →
  b_blockno (vbuf s2 i) = src → b_blockno (vbuf s2 j) = dst → settled s2 i → sees_same s s2 →
  b_data (vbuf s2 i) = content (vbuf s) (disk s) src →
  ∃ s3 s4 s5 s',
    updb j (set_data (b_data (bufof s2 i))) s2 = Ok tt s3 ∧ bwrite pid j s3 = Ok tt s4 ∧
    brelse pid i s4 = Ok tt s5 ∧ brelse pid j s5 = Ok tt s' ∧
    cinv s' ∅ ∧ copied s s' L src dst.
Proof.
  intros Hc Hij Hsd Hd Hbi Hbj Hset (S1 & S2 & S3 & S4) Hdat.
  assert (Hj : j ∈ ({[i]} ∪ {[j]} : gset nat)) by set_solver.
  assert (Hi : i ∈ ({[i]} ∪ {[j]} : gset nat)) by set_solver.
  pose proof (cv_view _ _ _ Hc) as Hv.
  assert (Hflj : b_flags (bufof s2 j) = 2 ∨ b_flags (bufof s2 j) = 6).
  { destruct (vi_flags _ _ _ _ _ Hv j (vi_bound _ _ _ _ _ Hv j Hj)) as [(_ & ? & _)|[E _]]; [done|].
    destruct (vi_held _ _ _ _ _ Hv j Hj) as (_ & _ & E'). congruence. }
  set (data := b_data (bufof s2 i)) in *.
  (* store *)
  destruct (upd_held_ok pid s2 _ j (set_data data) Hc Hj) as (E3 & Hc3 & (R1 & R2 & R3 & R4 & R5) & V3);
    [done|done|done|]. set (s3 := set_buf j _ s2) in *.
  assert (Hv3 : vinv (fupd (vbuf s2) j (vw (set_data data (bufof s2 j)))) (disk s2) (disksize s2) ({[i]} ∪ {[j]})).
  { eapply vinv_ext; [intros; symmetry; apply V3|]. pose proof (cv_view _ _ _ Hc3) as H3. by rewrite R3, R4 in H3. }
  assert (C3 : ∀ b, content (vbuf s3) (disk s3) b = (if decide (b = dst) then data else content (vbuf s2) (disk s2) b) ∧
    (b ≠ dst → dirty (vbuf s3) b ↔ dirty (vbuf s2) b)).
  { intros b. rewrite (content_ext _ _ _ _ V3), (dirty_ext _ _ _ V3), R3.
    destruct (content_upd pid _ _ (disk s2) _ _ j _ b Hv Hv3 Hj eq_refl eq_refl) as (C & D & _); [done|].
    rewrite Hbj in C, D. done. }
  (* write *)
  destruct (bwrite_ok pid s3 _ j Hc3 Hj) as (s4 & E4 & Hc4 & D4 & Z4 & W4 & V4 & C4).
  assert (Vj3 : vbuf s3 j = vw (set_data data (bufof s2 j))) by (by rewrite V3, fupd_eq).
  assert (Bj3 : b_blockno (vbuf s3 j) = dst) by (by rewrite Vj3, <-Hbj).
  assert (Dj3 : b_data (vbuf s3 j) = data) by (by rewrite Vj3).
  rewrite Bj3, Dj3 in *.
  assert (Vi4 : vbuf s4 i = vbuf s2 i) by (by rewrite V4, fupd_ne, V3, fupd_ne).
  (* release the source *)
  destruct (brelse_ok pid s4 _ i Hc4 Hi) as (s5 & E5 & Hc5 & (Q1 & Q2 & Q3 & Q4) & V5).
  { rewrite Vi4. destruct Hset as [?|Hset]; [by left|right]. rewrite Hset, D4, R3, Hbi.
    unfold dblk. by rewrite lookup_insert_ne. }
  assert (Vj5 : vbuf s5 j = set_flags 2 (vbuf s3 j)) by (by rewrite V5, V4, fupd_eq).
  (* release the destination *)
  destruct (brelse_ok pid s5 _ j Hc5) as (s6 & E6 & Hc6 & (P1 & P2 & P3 & P4) & V6).
  { set_solver. }
  { right. rewrite Vj5. cbn [b_data b_blockno set_flags]. rewrite Bj3, Dj3, Q1, D4.
    unfold dblk. by rewrite lookup_insert_eq. }
  exists s3, s4, s5, s6. split_and!; try done.
  - by replace (({[i]} ∪ {[j]}) ∖ {[i]} ∖ {[j]} : gset nat) with (∅ : gset nat) in Hc6 by set_solver.
  - unfold copied. cbv zeta. rewrite <-Hdat. change (b_data (vbuf s2 i)) with data. split_and!.
    + by rewrite P1, Q1, D4, R3, S1.
    + by rewrite P2, Q2, Z4, R4, S2.
    + by rewrite P3, Q3, W4, R5, S3.
    + intros b. rewrite list_elem_of_filter, <-(Hd b). rewrite (proj2 (P4 b)), (proj2 (Q4 b)), (proj2 (C4 b)).
      split; [intros [H1 H2]; split; [done|by apply C3]|intros [H1 H2]; split; [by apply C3|done]].
    + intros b. rewrite (proj1 (P4 b)), (proj1 (Q4 b)), (proj1 (C4 b)), (proj1 (C3 b)).
      case_decide; [done|]. apply S4.
Qed.

(** ** The log state *)

(** A block outside the log area. *)
Definition home l (b : Z) : Prop :=
  0 ≤ b < disksize (lg_bio l) ∧ ¬ (lg_start l ≤ b < lg_start l + lg_size l).

(** The log with no system call running inside its code; [L] are the blocks of
    the in-memory header. *)
Record log_ok l (L : list Z) : Prop := {
  lo_lock : lg_lock l = unlocked;
  lo_dev : lg_dev l = 1;
  lo_start : 0 ≤ lg_start l;
  lo_size : 1 ≤ lg_size l ∧ lg_start l + lg_size l ≤ disksize (lg_bio l);
  lo_disk : disksize (lg_bio l) < 2147483648;
  lo_block : length (lh_block l) = 30%nat;
  lo_n : lh_n l = Z.of_nat (length L);
  lo_lh : take (length L) (lh_block l) = L;
  lo_fit : (length L ≤ 29)%nat ∧ Z.of_nat (length L) ≤ lg_size l - 1;
  lo_nodup : NoDup L;
  lo_home : Forall (home l) L;
}.

Definition with_bio (s : bcache) l : logst := lset l_bio s l.

Lemma log_ok_bio s l L :
  log_ok l L → disksize s = disksize (lg_bio l) → log_ok (with_bio s l) L.
Proof.
  intros [] E. constructor; simpl; rewrite ?E; try done.
  eapply Forall_impl; [done|]. intros b. unfold home. simpl. by rewrite E.
Qed.

Lemma lbread_run l b i s' :
  lg_dev l = 1 → 0 ≤ b < 2147483648 → bread pid 1 b (lg_bio l) = Ok i s' →
  lbread pid b l = Ok i (with_bio s' l).
Proof.
  intros Hd Hb E. unfold lbread. mrun. rewrite Hd. change (u32 1) with 1. rewrite u32_small by lia.
  by apply zoom_ok.
Qed.
Lemma lh_get_run l L k b :
  log_ok l L → L !! k = Some b → lh_get (Z.of_nat k) l = Ok b l.
Proof.
  intros Hl Hk. unfold lh_get. pose proof (lookup_lt_Some _ _ _ Hk) as Hlt.
  destruct (lo_fit _ _ Hl) as [Hf _].
  rewrite (proj2 (Z.leb_le _ _)), (proj2 (Z.ltb_lt _ _)) by (unfold LOGSIZE, MAXOPBLOCKS; lia). simpl.
  rewrite Nat2Z.id. f_equal. rewrite <-(lo_lh _ _ Hl) in Hk. apply lookup_take_Some in Hk as [-> _]. done.
Qed.

(** *** Sequences of block writes *)

Definition apply_writes (d : gmap Z (list Z)) (W : list (Z * list Z)) : gmap Z (list Z) :=
  foldl (λ d '(b, x), <[b := x]> d) d W.
Lemma apply_writes_app d W1 W2 : apply_writes d (W1 ++ W2) = apply_writes (apply_writes d W1) W2.
Proof. apply foldl_app. Qed.
Lemma apply_writes_other d W b : b ∉ W.*1 → dblk (apply_writes d W) b = dblk d b.
Proof.
  revert d. induction W as [|[c x] W IH]; intros d Hb; [done|].
  rewrite fmap_cons in Hb. apply not_elem_of_cons in Hb as [Hc Hb]. simpl. rewrite IH by done.
  unfold dblk. by rewrite lookup_insert_ne.
Qed.
Lemma apply_writes_lookup d W b x :
  NoDup W.*1 → (b, x) ∈ W → dblk (apply_writes d W) b = x.
Proof.
  revert d. induction W as [|[c y] W IH]; intros d Hn Hin; [by apply not_elem_of_nil in Hin|].
  rewrite fmap_cons in Hn. apply NoDup_cons in Hn as [Hc Hn]. simpl in *.
  apply elem_of_cons in Hin as [[= -> ->]|Hin]; [|by apply IH].
  rewrite apply_writes_other by done. unfold dblk. by rewrite lookup_insert_eq.
Qed.

(** Copying the blocks [L] to the log slots from [k] on, and home. *)
Fixpoint log_writes (start k : Z) (c : Z → list Z) (L : list Z) : list (Z * list Z) :=
  match L with
  | [] => []
  | b :: L => (start + k + 1, c b) :: log_writes start (k + 1) c L
  end.
Fixpoint home_writes (start k : Z) (c : Z → list Z) (L : list Z) : list (Z * list Z) :=
  match L with
  | [] => []
  | b :: L => (b, c (start + k + 1)) :: home_writes start (k + 1) c L
  end.
Lemma log_writes_ext start k c c' L :
  (∀ b, b ∈ L → c b = c' b) → log_writes start k c L = log_writes start k c' L.
Proof.
  revert k. induction L as [|b L IH]; intros k Hc; [done|]. simpl. rewrite Hc by (by left).
  f_equal. apply IH. intros b' Hb'. apply Hc. by right.
Qed.
Lemma home_writes_ext start k c c' L :
  (∀ j, k ≤ j < k + Z.of_nat (length L) → c (start + j + 1) = c' (start + j + 1)) →
  home_writes start k c L = home_writes start k c' L.
Proof.
  revert k. induction L as [|b L IH]; intros k Hc; [done|]. simpl in *. rewrite Hc by lia.
  f_equal. apply IH. intros j Hj. apply Hc. lia.
Qed.

(** ** Writing the log *)

Lemma write_log_loop_ok fuel l L k :
  log_ok l L → cinv (lg_bio l) ∅ → dirty_is (lg_bio l) L → (k ≤ length L)%nat →
  (length L - k < fuel)%nat →
  let W := log_writes (lg_start l) (Z.of_nat k) (content (vbuf (lg_bio l)) (disk (lg_bio l))) (drop k L) in
  ∃ s', write_log_loop pid fuel (Z.of_nat k) l = Ok tt (with_bio s' l) ∧ cinv s' ∅ ∧ dirty_is s' L ∧
    disk s' = apply_writes (disk (lg_bio l)) W ∧ disksize s' = disksize (lg_bio l) ∧
    bc_writes s' = bc_writes (lg_bio l) ++ W ∧
    ∀ b, ¬ (lg_start l ≤ b < lg_start l + lg_size l) →
      content (vbuf s') (disk s') b = content (vbuf (lg_bio l)) (disk (lg_bio l)) b.
Proof.
  revert l k. induction fuel as [|fuel IH]; intros l k Hl Hc Hd Hk Hf W; [lia|].
  cbn [write_log_loop]. mrun. unfold id. rewrite (lo_n _ _ Hl).
  destruct (Z.ltb_spec (Z.of_nat k) (Z.of_nat (length L))) as [Hlt|Hge].
  2:{ subst W. rewrite drop_ge by lia. exists (lg_bio l). simpl. rewrite app_nil_r.
      split_and!; try done. by destruct l. }
  destruct (lookup_lt_is_Some_2 L k) as [b Hb]; [lia|].
  pose proof (lo_start _ _ Hl). destruct (lo_size _ _ Hl) as [_ Hsz]. pose proof (lo_disk _ _ Hl).
  destruct (lo_fit _ _ Hl) as [Hf29 Hfit].
  assert (Hhome : home l b) by (by eapply Forall_lookup_1; [apply (lo_home _ _ Hl)|]).
  destruct Hhome as [Hbr Hbo]. set (dst := lg_start l + Z.of_nat k + 1).
  assert (HbL : b ∈ L) by (by eapply list_elem_of_lookup_2).
  (* bread the log block *)
  destruct (bread_log (lg_bio l) ∅ L dst Hc Hd) as (j & s1 & E1 & _ & Hc1 & Hd1 & Bj1 & _ & _ & Hs1 & _);
    [lia|set_solver|right; rewrite size_empty; lia|].
  assert (Hs1' := Hs1). destruct Hs1' as (Q1 & Q2 & Q3 & Q4).
  (* bread the home block *)
  destruct (bread_log s1 ({[j]} ∪ ∅) L b Hc1 Hd1) as (i & s2 & E2 & Hij & Hc2 & Hd2 & Bi2 & Di2 & Set2 & Hs2 & V2).
  { by rewrite Q2. }
  { intros i Hi. assert (i = j) as -> by set_solver. rewrite Bj1. subst dst. intros <-. apply Hbo. lia. }
  { by left. }
  assert (Hne : i ≠ j) by set_solver.
  destruct (copy_ok (lg_bio l) L b dst i j s2) as (s3 & s4 & s5 & s6 & E3 & E4 & E5 & E6 & Hc6 & D6 & Z6 & W6 & L6 & C6).
  { by replace ({[i]} ∪ ({[j]} ∪ ∅) : gset nat) with ({[i]} ∪ {[j]} : gset nat) in Hc2 by set_solver. }
  { done. }
  { subst dst. intros ->. apply Hbo. lia. }
  { done. } { done. } { by rewrite V2. } { done. }
  { destruct Hs2 as (P1 & P2 & P3 & P4). split_and!; [congruence..|]. intros b'.
    destruct (P4 b') as [-> ->]. apply Q4. }
  { rewrite Di2. apply Q4. }
  mstep by (apply lbread_run; [apply (lo_dev _ _ Hl)|lia|exact E1]).
  mstep by (apply (lh_get_run _ L); [by apply log_ok_bio|done]).
  mstep by (apply lbread_run; [apply (lo_dev _ _ Hl)|lia|exact E2]).
  mstep by reflexivity.
  mstep by (apply zoom_ok; exact E3). mstep by (apply zoom_ok; exact E4).
  mstep by (apply zoom_ok; exact E5). mstep by (apply zoom_ok; exact E6).
  replace (Z.of_nat k + 1) with (Z.of_nat (S k)) by lia.
  assert (HdL : dirty_is s6 L).
  { intros b'. rewrite (L6 b'), list_elem_of_filter. split; [naive_solver|]. intros Hb'. split; [|done].
    intros ->. destruct (proj1 (Forall_forall _ _) (lo_home _ _ Hl) dst Hb') as [_ Hx]. subst dst. lia. }
  destruct (IH (with_bio s6 l) (S k)) as (s' & E & Hc' & Hd' & D' & Z' & W' & C').
  { by apply log_ok_bio. } { done. } { done. } { lia. } { lia. }
  assert (EW : W = (dst, content (vbuf (lg_bio l)) (disk (lg_bio l)) b) ::
    log_writes (lg_start l) (Z.of_nat (S k)) (content (vbuf s6) (disk s6)) (drop (S k) L)).
  { subst W. rewrite (drop_S _ _ _ Hb). cbn [log_writes]. f_equal.
    replace (Z.of_nat k + 1) with (Z.of_nat (S k)) by lia. apply log_writes_ext. intros b' Hb'.
    rewrite C6. rewrite decide_False; [done|]. intros ->.
    assert (HL : dst ∈ L) by (rewrite <-(take_drop (S k) L); apply elem_of_app; by right).
    destruct (proj1 (Forall_forall _ _) (lo_home _ _ Hl) dst HL) as [_ Hx]. subst dst. lia. }
  exists s'. split_and!.
  - exact E.
  - done.
  - done.
  - rewrite D', EW. simpl. by rewrite D6.
  - by rewrite Z'.
  - rewrite W', EW. simpl. rewrite W6, <-app_assoc. done.
  - intros b' Hb'. rewrite C' by done. simpl. rewrite C6. rewrite decide_False; [done|]. subst dst. lia.
Qed.

(** ** Installing the log *)

Lemma filter_head (b : Z) L : b ∉ L → filter (λ x, x ≠ b) (b :: L) = L.
Proof.
  intros Hn. rewrite filter_cons_False by naive_solver. induction L as [|x L IH]; [done|].
  apply not_elem_of_cons in Hn as [Hx Hn]. rewrite filter_cons_True by done. by rewrite IH.
Qed.

Lemma install_loop_ok fuel l L D k :
  log_ok l L → cinv (lg_bio l) ∅ → dirty_is (lg_bio l) D → (D = drop k L ∨ D = []) →
  (k ≤ length L)%nat → (length L - k < fuel)%nat →
  let W := home_writes (lg_start l) (Z.of_nat k) (content (vbuf (lg_bio l)) (disk (lg_bio l))) (drop k L) in
  ∃ s', install_loop pid fuel (Z.of_nat k) l = Ok tt (with_bio s' l) ∧ cinv s' ∅ ∧ dirty_is s' [] ∧
    disk s' = apply_writes (disk (lg_bio l)) W ∧ disksize s' = disksize (lg_bio l) ∧
    bc_writes s' = bc_writes (lg_bio l) ++ W ∧
    ∀ b, b ∉ drop k L → content (vbuf s') (disk s') b = content (vbuf (lg_bio l)) (disk (lg_bio l)) b.
Proof.
  revert l D k. induction fuel as [|fuel IH]; intros l D k Hl Hc Hd HD Hk Hf W; [lia|].
  cbn [install_loop]. mrun. unfold id. rewrite (lo_n _ _ Hl).
  destruct (Z.ltb_spec (Z.of_nat k) (Z.of_nat (length L))) as [Hlt|Hge].
  2:{ subst W. rewrite drop_ge in * by lia. exists (lg_bio l). simpl. rewrite app_nil_r.
      assert (D = []) as -> by naive_solver. split_and!; try done. by destruct l. }
  destruct (lookup_lt_is_Some_2 L k) as [b Hb]; [lia|].
  pose proof (lo_start _ _ Hl). destruct (lo_size _ _ Hl) as [_ Hsz]. pose proof (lo_disk _ _ Hl).
  destruct (lo_fit _ _ Hl) as [Hf29 Hfit].
  assert (Hhome : home l b) by (by eapply Forall_lookup_1; [apply (lo_home _ _ Hl)|]).
  destruct Hhome as [Hbr Hbo]. set (src := lg_start l + Z.of_nat k + 1).
  assert (Hdrop : drop k L = b :: drop (S k) L) by (by apply drop_S).
  assert (Hbn : b ∉ drop (S k) L).
  { pose proof (lo_nodup _ _ Hl) as Hn. rewrite <-(take_drop k L), Hdrop in Hn.
    apply NoDup_app in Hn as (_ & _ & Hn). by apply NoDup_cons in Hn as [? _]. }
  assert (HDl : (length D ≤ 29)%nat).
  { destruct HD as [->| ->]; [rewrite length_drop; lia|simpl; lia]. }
  destruct (bread_log (lg_bio l) ∅ D src Hc Hd) as (i & s1 & E1 & _ & Hc1 & Hd1 & Bi1 & Di1 & Set1 & Hs1 & _);
    [lia|set_solver|right; rewrite size_empty; lia|].
  assert (Hs1' := Hs1). destruct Hs1' as (Q1 & Q2 & Q3 & Q4).
  destruct (bread_log s1 ({[i]} ∪ ∅) D b Hc1 Hd1) as (j & s2 & E2 & Hij & Hc2 & Hd2 & Bj2 & _ & _ & Hs2 & V2).
  { by rewrite Q2. }
  { intros j Hj. assert (j = i) as -> by set_solver. rewrite Bi1. subst src. intros <-. apply Hbo. lia. }
  { destruct HD as [->| ->]; [left; rewrite Hdrop; by left|right].
    rewrite union_empty_r_L, size_singleton. simpl. lia. }
  assert (Hne : i ≠ j) by set_solver. assert (Hs2' := Hs2). destruct Hs2' as (P1 & P2 & P3 & P4).
  assert (Vi2 : vbuf s2 i = vbuf s1 i) by (by apply V2).
  destruct (copy_ok (lg_bio l) D src b i j s2) as (s3 & s4 & s5 & s6 & E3 & E4 & E5 & E6 & Hc6 & D6 & Z6 & W6 & L6 & C6).
  { by replace ({[j]} ∪ ({[i]} ∪ ∅) : gset nat) with ({[i]} ∪ {[j]} : gset nat) in Hc2 by set_solver. }
  { done. }
  { subst src. intros <-. apply Hbo. lia. }
  { done. } { by rewrite Vi2. } { done. }
  { unfold settled in *. by rewrite Vi2, P1. }
  { split_and!; [congruence..|]. intros b'. destruct (P4 b') as [-> ->]. apply Q4. }
  { by rewrite Vi2. }
  mstep by (apply lbread_run; [apply (lo_dev _ _ Hl)|lia|exact E1]).
  mstep by (apply (lh_get_run _ L); [by apply log_ok_bio|done]).
  mstep by (apply lbread_run; [apply (lo_dev _ _ Hl)|lia|exact E2]).
  mstep by reflexivity.
  mstep by (apply zoom_ok; exact E3). mstep by (apply zoom_ok; exact E4).
  mstep by (apply zoom_ok; exact E5). mstep by (apply zoom_ok; exact E6).
  replace (Z.of_nat k + 1) with (Z.of_nat (S k)) by lia.
  destruct (IH (with_bio s6 l) (filter (λ x, x ≠ b) D) (S k)) as (s' & E & Hc' & Hd' & D' & Z' & W' & C').
  { by apply log_ok_bio. } { done. } { done. }
  { destruct HD as [->| ->]; [left; rewrite Hdrop; by apply filter_head|by right]. }
  { lia. } { lia. }
  assert (EW : W = (b, content (vbuf (lg_bio l)) (disk (lg_bio l)) src) ::
    home_writes (lg_start l) (Z.of_nat (S k)) (content (vbuf s6) (disk s6)) (drop (S k) L)).
  { subst W. rewrite Hdrop. cbn [home_writes]. f_equal.
    replace (Z.of_nat k + 1) with (Z.of_nat (S k)) by lia. apply home_writes_ext. intros q Hq.
    rewrite length_drop in Hq. rewrite C6, decide_False; [done|]. intros <-. apply Hbo. lia. }
  exists s'. split_and!.
  - exact E.
  - done.
  - done.
  - rewrite D', EW. simpl. by rewrite D6.
  - by rewrite Z'.
  - rewrite W', EW. simpl. rewrite W6, <-app_assoc. done.
  - intros b' Hb'. rewrite Hdrop in Hb'. apply not_elem_of_cons in Hb' as [Hb1 Hb2].
    rewrite C' by done. simpl. rewrite C6. by rewrite decide_False.
Qed.

(** ** The header block *)

Fixpoint put_blocks (i : Z) (L : list Z) (data : list Z) : list Z :=
  match L with
  | [] => data
  | b :: L => put_blocks (i + 1) L (splice (Z.to_nat (4 + 4 * i)) (le32 b) data)
  end.
(** The header block for the blocks [L], in the place of [old]. *)
Definition header (L old : list Z) : list Z :=
  put_blocks 0 L (splice 0 (le32 (Z.of_nat (length L))) old).

Lemma length_put_blocks i L data :
  0 ≤ i → length data = 512%nat → i + Z.of_nat (length L) ≤ 30 → length (put_blocks i L data) = 512%nat.
Proof.
  revert i data. induction L as [|b L IH]; intros i data Hi Hd Hl; [done|]. simpl in *.
  apply IH; [lia| |lia]. rewrite length_splice; [done|]. simpl. lia.
Qed.
Lemma put_blocks_below i L data p :
  0 ≤ i → length data = 512%nat → i + Z.of_nat (length L) ≤ 30 → (Z.of_nat p + 4 ≤ 4 + 4 * i) →
  get32 (put_blocks i L data) p = get32 data p.
Proof.
  revert i data. induction L as [|b L IH]; intros i data Hi Hd Hl Hp; [done|]. simpl in *.
  rewrite IH; [|lia| |lia|lia].
  - apply get32_splice_ne; simpl; lia.
  - rewrite length_splice; [done|]. simpl. lia.
Qed.
Lemma put_blocks_get i L data k b :
  0 ≤ i → length data = 512%nat → i + Z.of_nat (length L) ≤ 30 → L !! k = Some b →
  get32 (put_blocks i L data) (Z.to_nat (4 + 4 * (i + Z.of_nat k))) = u32 b.
Proof.
  revert i data k. induction L as [|c L IH]; intros i data k Hi Hd Hl Hk; [done|]. simpl in *.
  assert (Hd' : length (splice (Z.to_nat (4 + 4 * i)) (le32 c) data) = 512%nat).
  { rewrite length_splice; [done|]. simpl. lia. }
  destruct k as [|k]; simpl in Hk.
  - injection Hk as ->. rewrite put_blocks_below by (done || lia). rewrite Z.add_0_r.
    apply get32_splice_eq. lia.
  - replace (i + Z.of_nat (S k)) with (i + 1 + Z.of_nat k) by lia. apply IH; done || lia.
Qed.

(** What a header block says. *)
Definition head_n (h : list Z) : Z := s32 (get32 h 0).
Definition head_block (h : list Z) (i : Z) : Z := s32 (get32 h (Z.to_nat (4 + 4 * i))).

Lemma header_n L old :
  length old = 512%nat → (length L ≤ 30)%nat → head_n (header L old) = Z.of_nat (length L).
Proof.
  intros Ho Hl. unfold head_n, header.
  rewrite put_blocks_below; [|lia|rewrite length_splice; [done|simpl; lia]|lia|lia].
  rewrite get32_splice_eq by lia. rewrite u32_small by lia. by apply s32_small; lia.
Qed.
Lemma header_block L old k b :
  length old = 512%nat → (length L ≤ 30)%nat → L !! k = Some b → 0 ≤ b < 2147483648 →
  head_block (header L old) (Z.of_nat k) = b.
Proof.
  intros Ho Hl Hk Hb. unfold head_block, header.
  rewrite <-(Z.add_0_l (Z.of_nat k)).
  rewrite (put_blocks_get 0 L _ k b); [|lia|rewrite length_splice; [done|simpl; lia]|lia|done].
  rewrite u32_small by lia. apply s32_small. lia.
Qed.
Lemma length_header L old : length old = 512%nat → (length L ≤ 30)%nat → length (header L old) = 512%nat.
Proof.
  intros Ho Hl. apply length_put_blocks; [lia| |lia]. rewrite length_splice; [done|]. simpl. lia.
Qed.

Lemma write_head_loop_ok fuel l L b k :
  log_ok l L → cinv (lg_bio l) {[b]} → (k ≤ length L)%nat → (length L - k < fuel)%nat →
  let data := put_blocks (Z.of_nat k) (drop k L) (b_data (vbuf (lg_bio l) b)) in
  ∃ s', write_head_loop fuel b (Z.of_nat k) l = Ok tt (with_bio s' l) ∧ cinv s' {[b]} ∧
    same_rest (lg_bio l) s' ∧ ∀ x, vbuf s' x = fupd (vbuf (lg_bio l)) b (set_data data (vbuf (lg_bio l) b)) x.
Proof.
  revert l k. induction fuel as [|fuel IH]; intros l k Hl Hc Hk Hf data; [lia|].
  cbn [write_head_loop]. mrun. unfold id. rewrite (lo_n _ _ Hl).
  destruct (Z.ltb_spec (Z.of_nat k) (Z.of_nat (length L))) as [Hlt|Hge].
  2:{ subst data. rewrite drop_ge by lia. exists (lg_bio l). split_and!; [by destruct l|done|done|].
      intros x. unfold fupd. case_decide; [|done]. subst. by destruct (bufof (lg_bio l) b) eqn:E; unfold vbuf; rewrite E. }
  destruct (lookup_lt_is_Some_2 L k) as [c Hb]; [lia|].
  mstep by (by apply (lh_get_run _ L)). mstep by reflexivity.
  set (d1 := splice _ _ _).
  pose proof (cv_view _ _ _ Hc) as Hv. assert (Hbin : b ∈ ({[b]} : gset nat)) by set_solver.
  destruct (upd_held_ok pid (lg_bio l) {[b]} b (set_data d1) Hc Hbin) as (E1 & Hc1 & R1 & V1); [done|done| |].
  { destruct (vi_flags _ _ _ _ _ Hv b (vi_bound _ _ _ _ _ Hv b Hbin)) as [(_ & ? & _)|[E _]]; [done|].
    destruct (vi_held _ _ _ _ _ Hv b Hbin) as (_ & _ & E'). congruence. }
  set (s1 := set_buf b _ _) in *.
  mstep by (apply zoom_ok; exact E1). replace (Z.of_nat k + 1) with (Z.of_nat (S k)) by lia.
  destruct (IH (with_bio s1 l) (S k)) as (s' & E & Hc' & R' & V').
  { apply log_ok_bio; [done|]. by destruct R1 as (_ & _ & _ & ? & _). } { done. } { lia. } { lia. }
  exists s'. split_and!; [exact E|done| |].
  - destruct R1 as (? & ? & ? & ? & ?), R' as (? & ? & ? & ? & ?). cbn in *. split_and!; congruence.
  - intros x. rewrite V'. unfold fupd. case_decide; [|rewrite V1; by rewrite fupd_ne].
    change (lg_bio (with_bio s1 l)) with s1. rewrite V1, fupd_eq. subst data. rewrite (drop_S _ _ _ Hb).
    cbn [put_blocks]. replace (Z.of_nat k + 1) with (Z.of_nat (S k)) by lia. done.
Qed.

Lemma write_head_ok l L D :
  log_ok l L → cinv (lg_bio l) ∅ → dirty_is (lg_bio l) D → (length D ≤ 29)%nat → lg_start l ∉ D →
  let start := lg_start l in
  let h := header L (content (vbuf (lg_bio l)) (disk (lg_bio l)) start) in
  ∃ s', write_head pid l = Ok tt (with_bio s' l) ∧ cinv s' ∅ ∧ dirty_is s' D ∧
    disk s' = <[start := h]> (disk (lg_bio l)) ∧ disksize s' = disksize (lg_bio l) ∧
    bc_writes s' = bc_writes (lg_bio l) ++ [(start, h)] ∧
    ∀ b, content (vbuf s') (disk s') b =
      if decide (b = start) then h else content (vbuf (lg_bio l)) (disk (lg_bio l)) b.
Proof.
  intros Hl Hc Hd HD Hst start h. unfold write_head. mrun. unfold id.
  pose proof (lo_start _ _ Hl). destruct (lo_size _ _ Hl) as [Hs1 Hsz]. pose proof (lo_disk _ _ Hl).
  destruct (bread_log (lg_bio l) ∅ D start Hc Hd) as (i & s1 & E1 & _ & Hc1 & Hd1 & Bi1 & Di1 & Set1 & (Q1 & Q2 & Q3 & Q4) & V1);
    [subst start; lia|set_solver|right; rewrite size_empty; lia|].
  rewrite union_empty_r_L in Hc1. assert (Hi : i ∈ ({[i]} : gset nat)) by set_solver.
  mstep by (apply lbread_run; [apply (lo_dev _ _ Hl)|subst start; lia|exact E1]).
  mstep by reflexivity.
  set (d1 := splice _ _ _). pose proof (cv_view _ _ _ Hc1) as Hv1.
  destruct (upd_held_ok pid s1 {[i]} i (set_data d1) Hc1 Hi) as (E2 & Hc2 & (R1 & R2 & R3 & R4 & R5) & V2); [done|done| |].
  { destruct (vi_flags _ _ _ _ _ Hv1 i (vi_bound _ _ _ _ _ Hv1 i Hi)) as [(_ & ? & _)|[E _]]; [done|].
    destruct (vi_held _ _ _ _ _ Hv1 i Hi) as (_ & _ & E'). congruence. }
  set (s2 := set_buf i _ _) in *.
  mstep by (apply zoom_ok; exact E2). rewrite (lo_n _ _ Hl).
  destruct (write_head_loop_ok (S (Z.to_nat (Z.of_nat (length L)))) (with_bio s2 l) L i 0)
    as (s3 & E3 & Hc3 & (T1 & T2 & T3 & T4 & T5) & V3).
  { apply log_ok_bio; [done|]. by rewrite R4. } { done. } { lia. } { lia. }
  change (lg_bio (with_bio s2 l)) with s2 in *. rewrite drop_0 in V3. change (Z.of_nat 0) with 0 in E3, V3. mstep E3.
  assert (Vi3 : ∀ x, vbuf s3 x = fupd (vbuf s1) i (set_data h (vbuf s1 i)) x).
  { intros x. rewrite V3. unfold fupd. case_decide; [|rewrite V2; by rewrite fupd_ne].
    rewrite V2, fupd_eq. subst h d1. unfold header. rewrite <-Di1, (lo_n _ _ Hl). done. }
  assert (Hv3 : vinv (fupd (vbuf s1) i (set_data h (vbuf s1 i))) (disk s1) (disksize s1) {[i]}).
  { eapply vinv_ext; [intros; symmetry; apply Vi3|]. pose proof (cv_view _ _ _ Hc3) as H3.
    by rewrite T3, T4, R3, R4 in H3. }
  assert (C3 : ∀ b, content (vbuf s3) (disk s3) b = (if decide (b = start) then h else content (vbuf s1) (disk s1) b) ∧
    (b ≠ start → dirty (vbuf s3) b ↔ dirty (vbuf s1) b)).
  { intros b. rewrite (content_ext _ _ _ _ Vi3), (dirty_ext _ _ _ Vi3), T3, R3.
    destruct (content_upd pid _ _ (disk s1) _ _ i _ b Hv1 Hv3 Hi eq_refl eq_refl) as (C & Dd & _); [done|].
    rewrite Bi1 in C, Dd. done. }
  destruct (bwrite_ok pid s3 _ i Hc3 Hi) as (s4 & E4 & Hc4 & D4 & Z4 & W4 & V4 & C4).
  assert (Bi3 : b_blockno (vbuf s3 i) = start) by (by rewrite Vi3, fupd_eq).
  assert (Di3 : b_data (vbuf s3 i) = h) by (by rewrite Vi3, fupd_eq).
  rewrite Bi3, Di3 in *.
  mstep by (apply zoom_ok; exact E4).
  destruct (brelse_ok pid s4 _ i Hc4 Hi) as (s5 & E5 & Hc5 & (P1 & P2 & P3 & P4) & V5).
  { right. rewrite V4, fupd_eq. cbn [b_data b_blockno set_flags]. rewrite Bi3, Di3, D4. unfold dblk.
    by rewrite lookup_insert_eq. }
  exists s5. split_and!.
  - exact (zoom_ok l_bio (brelse pid i) (with_bio s4 l) tt s5 E5).
  - by replace ({[i]} ∖ {[i]} : gset nat) with (∅ : gset nat) in Hc5 by set_solver.
  - intros b. rewrite (proj2 (P4 b)), (proj2 (C4 b)). split.
    + intros [H1 H2]. apply C3 in H1; [|done]. by apply Hd1.
    + intros Hb. assert (b ≠ start) by (by intros ->). split; [|done]. apply C3; [done|]. by apply Hd1.
  - rewrite P1, D4, T3, R3, Q1. done.
  - by rewrite P2, Z4, T4, R4, Q2.
  - by rewrite P3, W4, T5, R5, Q3.
  - intros b. rewrite (proj1 (P4 b)), (proj1 (C4 b)), (proj1 (C3 b)). case_decide; [done|]. apply Q4.
Qed.

(** ** Commit *)

Lemma log_writes_fst start k c L b :
  b ∈ (log_writes start k c L).*1 → start + k < b ≤ start + k + Z.of_nat (length L).
Proof.
  revert k. induction L as [|x L IH]; intros k Hb; [by apply not_elem_of_nil in Hb|].
  cbn [log_writes] in Hb. rewrite fmap_cons in Hb. cbn [length].
  apply elem_of_cons in Hb as [->|Hb]; [simpl; lia|]. apply IH in Hb. lia.
Qed.
Lemma log_writes_nodup start k c L : NoDup (log_writes start k c L).*1.
Proof.
  revert k. induction L as [|x L IH]; intros k; [apply NoDup_nil_2|]. cbn [log_writes]. rewrite fmap_cons.
  apply NoDup_cons. split; [|apply IH]. intros Hb. apply log_writes_fst in Hb. simpl in Hb. lia.
Qed.
Lemma log_writes_in start k c L q b :
  L !! q = Some b → (start + k + Z.of_nat q + 1, c b) ∈ log_writes start k c L.
Proof.
  revert k q. induction L as [|x L IH]; intros k q Hq; [done|]. cbn [log_writes].
  destruct q as [|q]; simpl in Hq.
  - injection Hq as ->. apply elem_of_cons. left. f_equal. lia.
  - right. specialize (IH (k + 1) q Hq). by replace (start + (k + 1) + Z.of_nat q + 1) with (start + k + Z.of_nat (S q) + 1) in IH by lia.
Qed.
Lemma length_log_writes start k c L : length (log_writes start k c L) = length L.
Proof. revert k. induction L as [|x L IH]; intros k; [done|]. simpl. by rewrite IH. Qed.
Lemma home_writes_eq start k c c' L :
  (∀ q b, L !! q = Some b → c (start + k + Z.of_nat q + 1) = c' b) →
  home_writes start k c L = (λ b, (b, c' b)) <$> L.
Proof.
  revert k. induction L as [|x L IH]; intros k Hc; [done|]. rewrite fmap_cons. cbn [home_writes]. f_equal.
  - f_equal. rewrite <-(Hc 0%nat x) by done. f_equal. lia.
  - apply IH. intros q b Hq. rewrite <-(Hc (S q) b) by done. f_equal. lia.
Qed.
Lemma homes_fst (c : Z → list Z) L : ((λ b, (b, c b)) <$> L).*1 = L.
Proof. induction L as [|x L IH]; [done|]. rewrite !fmap_cons. by f_equal. Qed.

(** The log between transactions: the header on disk is clear. *)
Record log_idle l (L : list Z) : Prop := {
  li_ok : log_ok l L;
  li_cache : cinv (lg_bio l) ∅;
  li_dirty : dirty_is (lg_bio l) L;
  li_len : length (dblk (disk (lg_bio l)) (lg_start l)) = 512%nat;
  li_clear : head_n (dblk (disk (lg_bio l)) (lg_start l)) = 0;
}.

Lemma home_not_log l L b : log_ok l L → b ∈ L → home l b.
Proof. intros Hl Hb. exact (proj1 (Forall_forall _ _) (lo_home _ _ Hl) b Hb). Qed.
Lemma start_not_in l L : log_ok l L → lg_start l ∉ L.
Proof.
  intros Hl Hb. destruct (home_not_log l L _ Hl Hb) as [_ Hx]. destruct (lo_size _ _ Hl). lia.
Qed.

(** The contents of the blocks, as the kernel sees them. *)
Definition view l (b : Z) : list Z := content (vbuf (lg_bio l)) (disk (lg_bio l)) b.

Lemma view_clean s L b : cinv s ∅ → dirty_is s L → b ∉ L → content (vbuf s) (disk s) b = dblk (disk s) b.
Proof.
  intros Hc Hd Hb. eapply clean_content; [apply (cv_view _ _ _ Hc)|set_solver|]. by rewrite (Hd b).
Qed.

(** The disk writes of a commit. *)
Definition commit_writes l (L : list Z) : list (Z * list Z) :=
  let start := lg_start l in
  let h := header L (dblk (disk (lg_bio l)) start) in
  log_writes start 0 (view l) L ++ (start, h) :: ((λ b, (b, view l b)) <$> L) ++ [(start, header [] h)].

Lemma log_ok_clear l L s :
  log_ok l L → disksize s = disksize (lg_bio l) → log_ok (with_bio s (set_lh 0 (lh_block l) l)) [].
Proof.
  intros [] E. constructor; simpl; rewrite ?E; try done; try (split; lia). by apply NoDup_nil_2.
Qed.

Lemma commit_ok l L :
  log_idle l L → L ≠ [] →
  ∃ s', commit pid l = Ok tt (with_bio s' (set_lh 0 (lh_block l) l)) ∧
    cinv s' ∅ ∧ dirty_is s' [] ∧ disksize s' = disksize (lg_bio l) ∧
    disk s' = apply_writes (disk (lg_bio l)) (commit_writes l L) ∧
    bc_writes s' = bc_writes (lg_bio l) ++ commit_writes l L.
Proof.
  intros [Hl Hc Hd Hlen Hclr] HL. unfold commit. mrun. unfold id.
  assert (Hn : (0 < length L)%nat) by (destruct L; [done|simpl; lia]).
  rewrite Z.gtb_ltb, (proj2 (Z.ltb_lt _ _)) by (rewrite (lo_n _ _ Hl); lia).
  pose proof (start_not_in _ _ Hl) as Hst. destruct (lo_fit _ _ Hl) as [Hf29 Hfit].
  set (start := lg_start l) in *. set (d := disk (lg_bio l)) in *.
  (* the log blocks *)
  destruct (write_log_loop_ok (S (Z.to_nat (lh_n l))) l L 0 Hl Hc Hd)
    as (s1 & E1 & Hc1 & Hd1 & D1 & Z1 & W1 & C1); [lia|rewrite (lo_n _ _ Hl); lia|].
  rewrite drop_0 in D1, W1. change (Z.of_nat 0) with 0 in *. fold d start in D1. fold start in W1.
  change (content (vbuf (lg_bio l)) (disk (lg_bio l))) with (view l) in D1, W1.
  set (WL := log_writes start 0 (view l) L) in *.
  mstep by exact E1.
  assert (Hlogw : ∀ b, b ∈ WL.*1 → start < b ≤ start + Z.of_nat (length L)).
  { intros b Hb. apply log_writes_fst in Hb. lia. }
  assert (Est : content (vbuf s1) (disk s1) start = dblk d start).
  { rewrite (view_clean s1 L) by done. rewrite D1. apply apply_writes_other. intros Hb. apply Hlogw in Hb. lia. }
  (* the header *)
  destruct (write_head_ok (with_bio s1 l) L L) as (s2 & E2 & Hc2 & Hd2 & D2 & Z2 & W2 & C2);
    [by apply log_ok_bio|done|done|done|done|].
  change (lg_bio (with_bio s1 l)) with s1 in *. change (lg_start (with_bio s1 l)) with start in *.
  rewrite Est in D2, W2, C2. set (h := header L (dblk d start)) in *. mstep by exact E2.
  (* home *)
  destruct (install_loop_ok (S (Z.to_nat (lh_n l))) (with_bio s2 l) L L 0)
    as (s3 & E3 & Hc3 & Hd3 & D3 & Z3 & W3 & C3);
    [apply log_ok_bio; [done|congruence]|done|done|by left|lia|rewrite (lo_n _ _ Hl); lia|].
  rewrite drop_0 in *. change (Z.of_nat 0) with 0 in *.
  change (lg_bio (with_bio s2 l)) with s2 in *. change (lg_start (with_bio s2 l)) with start in *.
  assert (Ehw : home_writes start 0 (content (vbuf s2) (disk s2)) L = (λ b, (b, view l b)) <$> L).
  { apply home_writes_eq. intros q b Hq. rewrite C2, decide_False by lia.
    assert (Hqb : start + 0 + Z.of_nat q + 1 ∉ L).
    { intros Hb. destruct (home_not_log l L _ Hl Hb) as [_ Hx]. apply Hx. apply lookup_lt_Some in Hq.
      fold start. lia. }
    rewrite (view_clean s1 L) by done. rewrite D1. apply apply_writes_lookup; [apply log_writes_nodup|].
    by apply log_writes_in. }
  rewrite Ehw in D3, W3. set (WH := (λ b, (b, view l b)) <$> L) in *. mstep by exact E3.
  mrun.
  (* clear the header *)
  set (l3 := with_bio s3 (set_lh 0 (lh_block l) l)).
  destruct (write_head_ok l3 [] []) as (s4 & E4 & Hc4 & Hd4 & D4 & Z4 & W4 & C4).
  { eapply log_ok_clear; [done|congruence]. }
  { done. } { done. } { simpl; lia. } { apply not_elem_of_nil. }
  change (lg_bio l3) with s3 in *. change (lg_start l3) with start in *.
  assert (Est3 : content (vbuf s3) (disk s3) start = h).
  { rewrite C3 by done. by rewrite C2, decide_True. }
  rewrite Est3 in D4, W4.
  exists s4. split_and!.
  - exact E4.
  - done.
  - done.
  - congruence.
  - rewrite D4, D3, D2, D1. unfold commit_writes. fold start d h WL WH.
    rewrite apply_writes_app. simpl. by rewrite apply_writes_app.
  - rewrite W4, W3, W2, W1. unfold commit_writes. fold start d h WL WH.
    rewrite <-!app_assoc. done.
Qed.

(** ** Recovery *)

Lemma take_insert_next (bl L : list Z) k b :
  take k bl = take k L → L !! k = Some b → (k < length bl)%nat → take (S k) (<[k := b]> bl) = take (S k) L.
Proof.
  intros E Hb Hk. rewrite (take_S_r _ _ _ Hb), (take_S_r _ _ b).
  - by rewrite take_insert_ge, E by lia.
  - by apply list_lookup_insert_eq.
Qed.

Lemma read_head_loop_ok fuel l h L k :
  lh_n l = Z.of_nat (length L) → (length L ≤ 29)%nat → length (lh_block l) = 30%nat →
  (k ≤ length L)%nat → take k (lh_block l) = take k L →
  (∀ q b, L !! q = Some b → head_block h (Z.of_nat q) = b) → (length L - k < fuel)%nat →
  ∃ bl, read_head_loop fuel h (Z.of_nat k) l = Ok tt (set_lh (lh_n l) bl l) ∧ length bl = 30%nat ∧
    take (length L) bl = L.
Proof.
  revert l k. induction fuel as [|fuel IH]; intros l k Hn Hl Hb Hk Ht Hh Hf; [lia|].
  cbn [read_head_loop]. mrun. unfold id. rewrite Hn.
  destruct (Z.ltb_spec (Z.of_nat k) (Z.of_nat (length L))) as [Hlt|Hge].
  - destruct (lookup_lt_is_Some_2 L k) as [b Hkb]; [lia|].
    assert (Eset : lh_set (Z.of_nat k) (s32 (get32 h (Z.to_nat (4 + 4 * Z.of_nat k)))) l =
      Ok tt (set_lh (lh_n l) (<[k := b]> (lh_block l)) l)).
    { unfold lh_set. rewrite (proj2 (Z.leb_le _ _)), (proj2 (Z.ltb_lt _ _)) by (unfold LOGSIZE, MAXOPBLOCKS; lia).
      simpl. rewrite Nat2Z.id. by rewrite <-(Hh k b Hkb). }
    mstep Eset. replace (Z.of_nat k + 1) with (Z.of_nat (S k)) by lia.
    destruct (IH (set_lh (lh_n l) (<[k := b]> (lh_block l)) l) (S k)) as (bl & E & E1 & E2).
    + done.
    + done.
    + simpl. by rewrite length_insert.
    + lia.
    + simpl. apply take_insert_next; [done|done|lia].
    + done.
    + lia.
    + exists bl. split_and!; [|done|done]. rewrite Hn. rewrite Hn in E. exact E.
  - exists (lh_block l). split_and!; [by rewrite <-Hn; destruct l|done|].
    replace k with (length L) in Ht by lia. by rewrite Ht, take_ge.
Qed.

(** A log just after booting from disk [d]. *)
Record booted l0 (d : gmap Z (list Z)) l : Prop := {
  bt_ok : log_ok l [];
  bt_cache : cinv (lg_bio l) ∅;
  bt_clean : dirty_is (lg_bio l) [];
  bt_disk : disk (lg_bio l) = d;
  bt_start : lg_start l = lg_start l0;
  bt_size : lg_size l = lg_size l0;
  bt_dsize : disksize (lg_bio l) = disksize (lg_bio l0);
}.

Lemma read_head_ok l0 d l L :
  booted l0 d l → head_n (dblk d (lg_start l0)) = Z.of_nat (length L) →
  (∀ q b, L !! q = Some b → head_block (dblk d (lg_start l0)) (Z.of_nat q) = b) →
  (length L ≤ 29)%nat → Z.of_nat (length L) ≤ lg_size l0 - 1 → NoDup L → Forall (home l0) L →
  ∃ s' bl, read_head pid l = Ok tt (with_bio s' (set_lh (Z.of_nat (length L)) bl l)) ∧
    cinv s' ∅ ∧ dirty_is s' [] ∧ disk s' = d ∧ disksize s' = disksize (lg_bio l) ∧
    log_ok (with_bio s' (set_lh (Z.of_nat (length L)) bl l)) L.
Proof.
  intros [Hl Hc Hd Hdk Hst Hsz Hds] Hn Hb H29 Hfit Hnd Hhome. unfold read_head. mrun. unfold id.
  pose proof (lo_start _ _ Hl). destruct (lo_size _ _ Hl) as [Hs1 Hsz1]. pose proof (lo_disk _ _ Hl).
  destruct (bread_log (lg_bio l) ∅ [] (lg_start l) Hc Hd) as (i & s1 & E1 & _ & Hc1 & Hd1 & Bi1 & Di1 & Set1 & (Q1 & Q2 & Q3 & Q4) & V1);
    [lia|set_solver|right; rewrite size_empty; simpl; lia|].
  rewrite union_empty_r_L in Hc1. rewrite (view_clean _ [] _ Hc Hd) in Di1 by apply not_elem_of_nil.
  rewrite Hdk, Hst in Di1. change (b_data (vbuf s1 i)) with (b_data (bufof s1 i)) in Di1.
  mstep by (apply lbread_run; [apply (lo_dev _ _ Hl)|lia|exact E1]).
  mstep by reflexivity. change (lg_bio (with_bio s1 l)) with s1. rewrite Di1.
  mrun. unfold id. fold (head_n (dblk d (lg_start l0))). rewrite Hn. cbn [lh_n set_lh lh_block with_bio lset l_bio].
  set (l1 := set_lh (Z.of_nat (length L)) (lh_block l) (with_bio s1 l)).
  destruct (read_head_loop_ok (S (Z.to_nat (Z.of_nat (length L)))) l1 (dblk d (lg_start l0)) L 0)
    as (bl & E & Hbl & Htk); [done|done|apply (lo_block _ _ Hl)|lia|done|done|lia|].
  change (Z.of_nat 0) with 0 in E. mstep E.
  destruct (brelse_log s1 {[i]} [] i Hc1 Hd1) as (s2 & E2 & Hc2 & Hd2 & (P1 & P2 & P3 & P4) & _);
    [set_solver|done|].
  exists s2, bl. split_and!.
  - exact (zoom_ok l_bio (brelse pid i) (set_lh (Z.of_nat (length L)) bl (with_bio s1 l)) tt s2 E2).
  - by replace ({[i]} ∖ {[i]} : gset nat) with (∅ : gset nat) in Hc2 by set_solver.
  - done.
  - congruence.
  - congruence.
  - assert (disksize s2 = disksize (lg_bio l)) as Ez by congruence.
    destruct Hl. constructor; simpl; rewrite ?Ez; try done; [split; [done|lia]|].
    eapply Forall_impl; [done|]. intros b. unfold home. simpl. by rewrite Ez, Hst, Hsz, Hds.
Qed.

Lemma recover_ok l0 d l L :
  booted l0 d l → head_n (dblk d (lg_start l0)) = Z.of_nat (length L) →
  (∀ q b, L !! q = Some b → head_block (dblk d (lg_start l0)) (Z.of_nat q) = b) →
  (length L ≤ 29)%nat → Z.of_nat (length L) ≤ lg_size l0 - 1 → NoDup L → Forall (home l0) L →
  ∃ l' h, recover_from_log pid l = Ok tt l' ∧
    disk (lg_bio l') = <[lg_start l0 := h]> (apply_writes d (home_writes (lg_start l0) 0 (dblk d) L)) ∧
    log_ok l' [] ∧ cinv (lg_bio l') ∅ ∧ dirty_is (lg_bio l') [].
Proof.
  intros Hbt Hn Hb H29 Hfit Hnd Hhome. pose proof Hbt as [Hl Hc Hd Hdk Hst Hsz Hds].
  destruct (read_head_ok l0 d l L Hbt Hn Hb H29 Hfit Hnd Hhome) as (s1 & bl & E1 & Hc1 & Hd1 & D1 & Z1 & Hl1).
  unfold recover_from_log. mstep E1. set (l1 := with_bio s1 _) in *.
  unfold install_trans. rewrite bind_assoc. mrun. unfold id.
  destruct (install_loop_ok (S (Z.to_nat (lh_n l1))) l1 L [] 0) as (s2 & E2 & Hc2 & Hd2 & D2 & Z2 & _ & _);
    [done|done|done|by right|lia|simpl; lia|].
  change (Z.of_nat 0) with 0 in *. mstep E2. mrun. rewrite drop_0 in D2.
  change (lg_bio l1) with s1 in *.
  set (l3 := set_lh 0 (lh_block l1) (with_bio s2 l1)).
  destruct (write_head_ok l3 [] []) as (s4 & E4 & Hc4 & Hd4 & D4 & Z4 & _ & _).
  { exact (log_ok_clear l1 L s2 Hl1 Z2). }
  { done. } { done. } { simpl; lia. } { apply not_elem_of_nil. }
  eexists _, _. split_and!.
  - exact E4.
  - change (disk (lg_bio (with_bio s4 l3))) with (disk s4). rewrite D4.
    change (lg_start l3) with (lg_start l). rewrite Hst. change (disk (lg_bio l3)) with (disk s2).
    rewrite D2, D1. change (lg_start l1) with (lg_start l). rewrite Hst. f_equal. f_equal.
    apply home_writes_ext. intros q Hq. rewrite <-D1. apply (view_clean _ [] _ Hc1 Hd1), not_elem_of_nil.
  - apply (log_ok_bio s4 l3 []); [exact (log_ok_clear l1 L s2 Hl1 Z2)|by rewrite Z4].
  - done.
  - done.
Qed.

(** ** Crashes *)

Lemma dblk_insert_ne d b x b' : b ≠ b' → dblk (<[b := x]> d) b' = dblk d b'.
Proof. intros. unfold dblk. by rewrite lookup_insert_ne. Qed.
Lemma dblk_insert_eq d b x : dblk (<[b := x]> d) b = x.
Proof. unfold dblk. by rewrite lookup_insert_eq. Qed.

(** The blocks a home block can hold after some prefix of the home writes. *)
Lemma home_prefix l L d k b :
  NoDup L → dblk (apply_writes d (take k ((λ b, (b, view l b)) <$> L))) b =
    if decide (b ∈ take k L) then view l b else dblk d b.
Proof.
  intros Hn. rewrite <-fmap_take. case_decide as Hb.
  - apply apply_writes_lookup.
    + rewrite homes_fst. by eapply sublist_NoDup, sublist_take.
    + apply list_elem_of_fmap. by exists b.
  - apply apply_writes_other. by rewrite homes_fst.
Qed.

Lemma view_home_clean l L b : log_idle l L → b ∉ L → view l b = dblk (disk (lg_bio l)) b.
Proof. intros [_ Hc Hd _ _] Hb. by apply (view_clean _ L). Qed.

(** The disk while the header names the transaction. *)
Lemma crash_after_header l L k :
  log_idle l L →
  let start := lg_start l in
  let h := header L (dblk (disk (lg_bio l)) start) in
  let d := apply_writes (disk (lg_bio l))
             (log_writes start 0 (view l) L ++ (start, h) :: take k ((λ b, (b, view l b)) <$> L)) in
  dblk d start = h ∧
  (∀ q b, L !! q = Some b → dblk d (start + Z.of_nat q + 1) = view l b) ∧
  (∀ b, home l b → dblk d b = view l b ∨ dblk d b = dblk (disk (lg_bio l)) b) ∧
  (∀ b, home l b → b ∉ L → dblk d b = view l b).
Proof.
  intros Hi start h d. pose proof (li_ok _ _ Hi) as Hl. pose proof (lo_nodup _ _ Hl) as Hnd.
  pose proof (start_not_in _ _ Hl) as Hst. destruct (lo_fit _ _ Hl) as [_ Hfit]. destruct (lo_size _ _ Hl) as [Hs1 _].
  set (WL := log_writes start 0 (view l) L) in *.
  assert (Ed : d = apply_writes (<[start := h]> (apply_writes (disk (lg_bio l)) WL)) (take k ((λ b, (b, view l b)) <$> L))).
  { subst d. by rewrite apply_writes_app. }
  assert (Hw : ∀ b, b ∈ WL.*1 → start < b ≤ start + Z.of_nat (length L)).
  { intros b Hb. apply log_writes_fst in Hb. lia. }
  assert (Hlog : ∀ b, start ≤ b ≤ start + Z.of_nat (length L) → b ∉ take k L).
  { intros b Hb Hin. assert (HbL : b ∈ L) by (rewrite <-(take_drop k L); apply elem_of_app; by left).
    destruct (home_not_log l L b Hl HbL) as [_ Hx]. apply Hx. fold start. lia. }
  split_and!.
  - rewrite Ed, home_prefix by done. rewrite decide_False by (apply Hlog; lia). apply dblk_insert_eq.
  - intros q b Hq. pose proof (lookup_lt_Some _ _ _ Hq). rewrite Ed, home_prefix by done.
    rewrite decide_False by (apply Hlog; lia). rewrite dblk_insert_ne by lia.
    apply apply_writes_lookup; [apply log_writes_nodup|].
    pose proof (log_writes_in start 0 (view l) L q b Hq) as Hin. by rewrite Z.add_0_r in Hin.
  - intros b [Hb1 Hb2]. rewrite Ed, home_prefix by done. case_decide; [by left|right].
    rewrite dblk_insert_ne by (intros <-; apply Hb2; fold start; lia).
    apply apply_writes_other. intros Hin. apply Hw in Hin. apply Hb2. fold start. lia.
  - intros b [Hb1 Hb2] Hn. rewrite Ed, home_prefix by done. rewrite decide_False.
    2:{ intros Hin. apply Hn. rewrite <-(take_drop k L). apply elem_of_app. by left. }
    rewrite dblk_insert_ne by (intros <-; apply Hb2; fold start; lia).
    rewrite apply_writes_other; [symmetry; by apply (view_home_clean l L)|].
    intros Hin. apply Hw in Hin. apply Hb2. fold start. lia.
Qed.

Lemma take_writes_cases {A} (n k : nat) (a b : list A) (x y : A) :
  length a = n → length b = n →
  ((k ≤ n)%nat ∧ take k (a ++ x :: b ++ [y]) = take k a) ∨
  (∃ j, (n < k)%nat ∧ (k < length (a ++ x :: b ++ [y]))%nat ∧
     take k (a ++ x :: b ++ [y]) = a ++ x :: take j b) ∨
  take k (a ++ x :: b ++ [y]) = a ++ x :: b ++ [y].
Proof.
  intros Ha Hb. destruct (decide (k ≤ n)%nat) as [H1|H1].
  - left. split; [done|]. by rewrite take_app_le by lia.
  - right. destruct (decide (k < length (a ++ x :: b ++ [y]))%nat) as [H2|H2].
    + left. exists (k - n - 1)%nat. split_and!; [lia|done|]. rewrite take_app_ge by lia. f_equal.
      rewrite Ha. destruct (k - n)%nat as [|m] eqn:E; [lia|]. simpl. f_equal.
      rewrite length_app in H2. simpl in H2. rewrite length_app in H2. simpl in H2.
      rewrite take_app_le by lia. f_equal. lia.
    + right. apply take_ge. lia.
Qed.

Lemma recover_nothing l0 d l :
  booted l0 d l → head_n (dblk d (lg_start l0)) = 0 → (0 < lg_size l0) →
  ∃ l', recover_from_log pid l = Ok tt l' ∧ ∀ b, home l0 b → dblk (disk (lg_bio l')) b = dblk d b.
Proof.
  intros Hb Hn Hs. destruct (recover_ok l0 d l [] Hb) as (l' & h & E & D & _); try done.
  - simpl. lia.
  - simpl. lia.
  - apply NoDup_nil_2.
  - exists l'. split; [done|]. intros b [_ Hx]. rewrite D. apply dblk_insert_ne. intros <-. apply Hx. lia.
Qed.

Lemma crash_recovers l L k lr :
  log_idle l L →
  booted l (apply_writes (disk (lg_bio l)) (take k (commit_writes l L))) lr →
  ∃ lr', recover_from_log pid lr = Ok tt lr' ∧
    ((∀ b, home l b → dblk (disk (lg_bio lr')) b = dblk (disk (lg_bio l)) b) ∧ (k < length (commit_writes l L))%nat ∨
     (∀ b, home l b → dblk (disk (lg_bio lr')) b = view l b)).
Proof.
  intros Hi Hbt. pose proof (li_ok _ _ Hi) as Hl. pose proof (lo_nodup _ _ Hl) as Hnd.
  destruct (lo_fit _ _ Hl) as [H29 Hfit]. destruct (lo_size _ _ Hl) as [Hs1 _].
  unfold commit_writes in *. set (start := lg_start l) in *.
  set (h := header L (dblk (disk (lg_bio l)) start)) in *.
  set (WL := log_writes start 0 (view l) L) in *. set (WH := (λ b, (b, view l b)) <$> L) in *.
  assert (Hlen : length h = 512%nat) by (apply length_header; [apply (li_len _ _ Hi)|lia]).
  assert (LWL : length WL = length L) by apply length_log_writes.
  assert (LWH : length WH = length L) by (subst WH; by rewrite length_fmap).
  destruct (take_writes_cases (length L) k WL WH (start, h) (start, header [] h) LWL LWH)
    as [[Hk Et]|[(j & Hk & Hk2 & Et)|Et]]; rewrite Et in Hbt.
  - (* not committed *)
    assert (Hoth : ∀ b, ¬ (start < b ≤ start + Z.of_nat (length L)) →
      dblk (apply_writes (disk (lg_bio l)) (take k WL)) b = dblk (disk (lg_bio l)) b).
    { intros b Hb. apply apply_writes_other. intros Hin. apply Hb.
      assert (Hin' : b ∈ WL.*1).
      { apply list_elem_of_fmap in Hin as (w & -> & Hw). apply list_elem_of_fmap. exists w. split; [done|].
        rewrite <-(take_drop k WL). apply elem_of_app. by left. }
      apply log_writes_fst in Hin'. lia. }
    destruct (recover_nothing l _ lr Hbt) as (lr' & E & D).
    { rewrite Hoth by lia. apply (li_clear _ _ Hi). }
    { lia. }
    exists lr'. split; [done|]. left. split.
    + intros b Hb. rewrite D by done. apply Hoth. destruct Hb as [_ Hx]. intros Hy. apply Hx. fold start. lia.
    + rewrite length_app. simpl. lia.
  - (* committed, being installed *)
    destruct (crash_after_header l L j Hi) as (C1 & C2 & C3 & C4). fold start h WL WH in C1, C2, C3, C4.
    set (d := apply_writes _ _) in *.
    destruct (recover_ok l d lr L Hbt) as (lr' & h' & E & D & _).
    + fold start. rewrite C1. apply header_n; [apply (li_len _ _ Hi)|lia].
    + intros q b Hq. fold start. rewrite C1. apply header_block; [apply (li_len _ _ Hi)|lia|done|].
      destruct (home_not_log l L b Hl) as [? _]; [by eapply list_elem_of_lookup_2|].
      pose proof (lo_disk _ _ Hl). lia.
    + done.
    + done.
    + done.
    + apply (lo_home _ _ Hl).
    + exists lr'. split; [done|]. right. intros b Hb. rewrite D. fold start.
      rewrite dblk_insert_ne by (intros <-; destruct Hb as [_ Hx]; apply Hx; fold start; lia).
      rewrite (home_writes_eq _ _ _ (view l)).
      2:{ intros q b' Hq. rewrite Z.add_0_r. by apply C2. }
      rewrite <-(firstn_all ((λ b, (b, view l b)) <$> L)). rewrite home_prefix by done.
      rewrite length_fmap, take_ge by lia. case_decide; [done|]. by apply C4.
  - (* done *)
    assert (Ed : apply_writes (disk (lg_bio l)) (WL ++ (start, h) :: WH ++ [(start, header [] h)]) =
      <[start := header [] h]> (apply_writes (disk (lg_bio l)) (WL ++ (start, h) :: take (length L) WH))).
    { rewrite (take_ge WH) by lia. rewrite !apply_writes_app. simpl. by rewrite apply_writes_app. }
    destruct (crash_after_header l L (length L) Hi) as (C1 & C2 & C3 & C4). fold start h WL WH in C1, C2, C3, C4.
    rewrite Ed in Hbt. set (d := apply_writes _ _) in *.
    destruct (recover_nothing l _ lr Hbt) as (lr' & E & D).
    { fold start. rewrite dblk_insert_eq. by apply (header_n [] h Hlen); simpl; lia. }
    { lia. }
    exists lr'. split; [done|]. right. intros b Hb. rewrite D by done.
    rewrite dblk_insert_ne by (intros <-; destruct Hb as [_ Hx]; apply Hx; fold start; lia).
    destruct (decide (b ∈ L)) as [HbL|HbL]; [|by apply C4]. subst d WH.
    rewrite apply_writes_app. simpl. rewrite home_prefix by done. rewrite take_ge by lia.
    by rewrite decide_True.
Qed.

(** ** The logical disk *)

Ltac lsimpl := cbn [lg_bio with_bio lset l_bio lg_size lg_outstanding ld_log ld_held ld_logsize
  ld_outstanding ld_set_held ld_set_log ld_set_blk set_lh lg_start lg_lock lh_n lh_block lg_dev].

(** The log and the cache represent the logical disk [d]; [H] are the buffers
    of the locked blocks. *)
Record implements l (d : ldisk) (H : gset nat) : Prop := {
  im_ok : log_ok l (ld_log d);
  im_size : lg_size l = ld_logsize d ∧ lg_size l ≤ 30;
  im_ops : lg_outstanding l = ld_outstanding d;
  im_cache : cinv (lg_bio l) H;
  im_dirty : dirty_is (lg_bio l) (ld_log d);
  im_held : ∀ b, b ∈ ld_held d ↔ ∃ i, i ∈ H ∧ b_blockno (vbuf (lg_bio l) i) = b;
  im_view : ∀ b, home l b → view l b = blk d b;
}.

Lemma home_bio s l b : disksize s = disksize (lg_bio l) → home (with_bio s l) b ↔ home l b.
Proof. intros E. unfold home. simpl. by rewrite E. Qed.

Lemma implements_bread l (d : ldisk) H b (d' : ldisk) :
  implements l d H → home l b → (length (ld_log d) + size H < 30)%nat → ld_bread b d = Ok b d' →
  ∃ i l', lbread pid b l = Ok i l' ∧ implements l' d' ({[i]} ∪ H) ∧ (i ∉ H) ∧
    b_blockno (vbuf (lg_bio l') i) = b ∧ b_data (vbuf (lg_bio l') i) = blk d b.
Proof.
  intros [Hl Hs Ho Hc Hd Hh Hv] Hb Hroom. unfold ld_bread. case_bool_decide as Hbh; [done|]. intros [= <-].
  destruct (bread_log (lg_bio l) H (ld_log d) b Hc Hd) as (i & s' & E & Hi & Hc' & Hd' & Bi & Di & _ & (Q1 & Q2 & Q3 & Q4) & Vo).
  { apply Hb. } { intros i Hi Eb. apply Hbh, Hh. eauto. } { by right. }
  pose proof (lo_disk _ _ Hl). destruct Hb as [Hbr Hbo].
  exists i, (with_bio s' l). split_and!.
  - apply lbread_run; [apply (lo_dev _ _ Hl)|lia|done].
  - constructor; lsimpl; try done.
    + by apply log_ok_bio.
    + intros b'. rewrite elem_of_cons, Hh. split.
      * intros [->|(j & Hj & Ej)]; [exists i; split; [set_solver|done]|]. exists j. split; [set_solver|].
        rewrite Vo; [done|]. by intros ->.
      * intros (j & Hj & Ej). destruct (decide (j = i)) as [->|Hji]; [left; congruence|].
        right. exists j. rewrite Vo in Ej by done. split; [set_solver|done].
    + intros b' Hb'. apply (proj1 (home_bio s' l b' Q2)) in Hb'. unfold view. lsimpl. rewrite (proj1 (Q4 b')). by apply Hv.
  - done.
  - done.
  - change (lg_bio (with_bio s' l)) with s'. rewrite Di. by apply Hv.
Qed.

Lemma held_block l (d : ldisk) H i :
  implements l d H → i ∈ H →
  b_data (vbuf (lg_bio l) i) = view l (b_blockno (vbuf (lg_bio l) i)) ∧
  (b_flags (bufof (lg_bio l) i) = 2 ∨ b_flags (bufof (lg_bio l) i) = 6) ∧
  (b_flags (bufof (lg_bio l) i) = 6 ↔ b_blockno (vbuf (lg_bio l) i) ∈ ld_log d).
Proof.
  intros [Hl _ _ Hc Hd _ _] Hi. pose proof (cv_view _ _ _ Hc) as Hv.
  pose proof (held_caches pid _ _ _ _ i Hv Hi) as Hci. split_and!.
  - unfold view. by rewrite (content_cached _ _ _ _ _ i _ Hv Hci).
  - destruct (vi_flags _ _ _ _ _ Hv i (vi_bound _ _ _ _ _ Hv i Hi)) as [(_ & ? & _)|[E _]]; [done|].
    destruct (vi_held _ _ _ _ _ Hv i Hi) as (_ & _ & E'). congruence.
  - rewrite <-(Hd _). split.
    + intros Hf. by exists i.
    + intros (j & Hj & Hf). by rewrite (caches_uniq _ _ _ _ _ j i _ Hv Hj Hci) in Hf.
Qed.

Lemma implements_store l (d : ldisk) H i data :
  implements l d H → i ∈ H →
  ∃ l', lbstore i data l = Ok tt l' ∧
    implements l' (ld_set_blk (b_blockno (vbuf (lg_bio l) i)) data d) H.
Proof.
  intros Him Hi. destruct (held_block l d H i Him Hi) as (_ & Hfl & Hf6).
  destruct Him as [Hl Hs Ho Hc Hd Hh Hv]. pose proof (cv_view _ _ _ Hc) as Hvi.
  destruct (upd_held_ok pid _ H i (set_data data) Hc Hi) as (E & Hc' & (R1 & R2 & R3 & R4 & R5) & V');
    [done|done|done|].
  set (s' := set_buf i _ _) in *. set (b := b_blockno (vbuf (lg_bio l) i)) in *.
  assert (Hv' : vinv (fupd (vbuf (lg_bio l)) i (vw (set_data data (bufof (lg_bio l) i)))) (disk (lg_bio l)) (disksize (lg_bio l)) H).
  { eapply vinv_ext; [intros; symmetry; apply V'|]. pose proof (cv_view _ _ _ Hc') as H3. by rewrite R3, R4 in H3. }
  assert (C' : ∀ b', content (vbuf s') (disk s') b' = (if decide (b' = b) then data else view l b') ∧
    (dirty (vbuf s') b' ↔ dirty (vbuf (lg_bio l)) b')).
  { intros b'. rewrite (content_ext _ _ _ _ V'), (dirty_ext _ _ _ V'), R3.
    destruct (content_upd pid _ _ (disk (lg_bio l)) _ _ i _ b' Hvi Hv' Hi eq_refl eq_refl) as (C & Dd & Db); [done|].
    split; [exact C|]. destruct (decide (b' = b)) as [->|Hb]; [|by apply Dd].
    fold b in Db. rewrite Db. cbn [b_flags set_data vw set_prev set_next]. rewrite Hf6. symmetry. apply Hd. }
  exists (with_bio s' l). split; [by apply zoom_ok|]. constructor; lsimpl; try done.
  - by apply log_ok_bio.
  - intros b'. rewrite (proj2 (C' b')). apply Hd.
  - intros b'. rewrite Hh. f_equiv. intros j. rewrite V'. unfold fupd. case_decide; [subst|]; done.
  - intros b' Hb'. apply (proj1 (home_bio s' l b' R4)) in Hb'. unfold view. lsimpl. rewrite (proj1 (C' b')), blk_set.
    repeat case_decide; try done; by apply Hv.
Qed.

Lemma implements_brelse l (d : ldisk) H i :
  implements l d H → i ∈ H →
  let b := b_blockno (vbuf (lg_bio l) i) in
  (b ∈ ld_log d ∨ view l b = dblk (disk (lg_bio l)) b) →
  ∃ l' (d' : ldisk), lbrelse pid i l = Ok tt l' ∧ ld_brelse b d = Ok tt d' ∧ implements l' d' (H ∖ {[i]}).
Proof.
  intros Him Hi b Hset. destruct (held_block l d H i Him Hi) as (Hdat & Hfl & Hf6).
  destruct Him as [Hl Hs Ho Hc Hd Hh Hv]. pose proof (cv_view _ _ _ Hc) as Hvi. fold b in Hdat, Hf6.
  destruct (brelse_log (lg_bio l) H (ld_log d) i Hc Hd Hi) as (s' & E & Hc' & Hd' & (Q1 & Q2 & Q3 & Q4) & Vo).
  { unfold settled. fold b. rewrite Hdat. destruct Hset as [Hset|Hset]; [left; by apply Hf6|by right]. }
  exists (with_bio s' l), (ld_set_held (filter (λ c, c ≠ b) (ld_held d)) d). split_and!.
  - by apply zoom_ok.
  - unfold ld_brelse. rewrite bool_decide_eq_true_2; [done|]. apply Hh. eauto.
  - constructor; lsimpl; try done.
    + by apply log_ok_bio.
    + intros b'. rewrite list_elem_of_filter, Hh. split.
      * intros [Hn (j & Hj & Ej)]. assert (j ≠ i) by (intros ->; done).
        exists j. rewrite Vo by done. split; [set_solver|done].
      * intros (j & Hj & Ej). apply elem_of_difference in Hj as [Hj Hji]. rewrite Vo in Ej by set_solver.
        split; [|by exists j]. intros ->. apply Hji, elem_of_singleton.
        by apply (caches_uniq _ _ _ _ _ j i b Hvi); [rewrite <-Ej|]; apply (held_caches pid _ _ _ _ _ Hvi).
    + intros b' Hb'. apply (proj1 (home_bio s' l b' Q2)) in Hb'. unfold view. lsimpl. rewrite (proj1 (Q4 b')). by apply Hv.
Qed.

Lemma absorb_spec (n : nat) (bl L : list Z) (b : Z) k :
  (k + n = length L)%nat → take (length L) bl = L → b ∉ take k L →
  (b ∈ L ∧ ∃ j, absorb n bl k b = j ∧ L !! j = Some b) ∨ ((b ∉ L) ∧ absorb n bl k b = length L).
Proof.
  revert k. induction n as [|n IH]; intros k Hk Ht Hn; simpl.
  - right. split; [|lia]. by rewrite take_ge in Hn by lia.
  - destruct (lookup_lt_is_Some_2 L k) as [c Hc]; [lia|].
    assert (Hbl : bl !! k = Some c) by (rewrite <-Ht in Hc; by apply lookup_take_Some in Hc as [? _]).
    rewrite Hbl. simpl. destruct (Z.eqb_spec c b) as [->|Hcb].
    + left. split; [by eapply list_elem_of_lookup_2|eauto].
    + apply IH; [lia|done|]. rewrite (take_S_r _ _ _ Hc). rewrite not_elem_of_app. split; [done|].
      intros Hx. apply list_elem_of_singleton in Hx. congruence.
Qed.

Lemma implements_log_write l (d : ldisk) H i :
  implements l d H → i ∈ H → home l (b_blockno (vbuf (lg_bio l) i)) →
  match ld_log_write (b_blockno (vbuf (lg_bio l) i)) d with
  | Ok _ d' => ∃ l', log_write i l = Ok tt l' ∧ implements l' d' H
  | Panic e => log_write i l = Panic e
  | _ => False
  end.
Proof.
  intros Him Hi Hhome. destruct (held_block l d H i Him Hi) as (_ & Hfl & Hf6).
  destruct Him as [Hl Hs Ho Hc Hd Hh Hv]. pose proof (cv_view _ _ _ Hc) as Hvi.
  set (b := b_blockno (vbuf (lg_bio l) i)) in *. set (L := ld_log d) in *.
  unfold log_write, ld_log_write. mrun. unfold id. rewrite (lo_n _ _ Hl), (proj1 Hs), Ho. fold L.
  destruct (_ || _) eqn:Ebig; [done|]. destruct (ld_outstanding d <? 1) eqn:Eout; [done|].
  apply orb_false_iff in Ebig as [Eb1 Eb2]. rewrite Z.geb_leb in Eb1, Eb2. apply Z.leb_gt in Eb1, Eb2.
  pose proof (lo_disk _ _ Hl). assert (Hb31 : 0 ≤ b < 2147483648) by (destruct Hhome; lia).
  mstep by (apply acquire_free; simpl; by rewrite (lo_lock _ _ Hl)).
  set (l1 := lset l_lg_lock (Spinlock true) l). mstep by reflexivity.
  change (b_blockno (bufof (lg_bio l1) i)) with b. rewrite s32_small by lia.
  change (lh_n l1) with (lh_n l). change (lh_block l1) with (lh_block l). rewrite Nat2Z.id.
  set (k := absorb (length L) (lh_block l) 0 b).
  assert (Hk : (b ∈ L ∧ L !! k = Some b) ∨ ((b ∉ L) ∧ k = length L)).
  { destruct (absorb_spec (length L) (lh_block l) L b 0) as [[? (j & <- & ?)]|?]; [lia|apply (lo_lh _ _ Hl)|by apply not_elem_of_nil|by left|by right]. }
  assert (Hk29 : (k ≤ length L)%nat).
  { destruct Hk as [[_ Hk]|[_ ->]]; [apply lookup_lt_Some in Hk; lia|lia]. }
  unfold LOGSIZE, MAXOPBLOCKS in Eb1. destruct Hs as [Hs1 Hs30].
  set (bl := <[k := b]> (lh_block l)).
  assert (Elh : lh_set (Z.of_nat k) b l1 = Ok tt (set_lh (lh_n l1) bl l1)).
  { unfold lh_set. rewrite (proj2 (Z.leb_le _ _)), (proj2 (Z.ltb_lt _ _)) by (unfold LOGSIZE, MAXOPBLOCKS; lia).
    simpl. by rewrite Nat2Z.id. }
  mstep Elh.
  set (L' := if bool_decide (b ∈ L) then L else L ++ [b]).
  assert (Hcnt : ∃ l2, (if Z.of_nat k =? Z.of_nat (length L) then
      modify (λ x : logst, set_lh (lh_n x + 1) (lh_block x) x) else mret tt) (set_lh (lh_n l1) bl l1) = Ok tt l2 ∧
      l2 = set_lh (Z.of_nat (length L')) bl l1 ∧ take (length L') bl = L').
  { change (lh_n l1) with (lh_n l). rewrite (lo_n _ _ Hl). subst L'. destruct Hk as [[HL Hk]|[HL Hk]].
    - rewrite bool_decide_eq_true_2 by done. rewrite (proj2 (Z.eqb_neq _ _)) by (apply lookup_lt_Some in Hk; lia).
      eexists. split_and!; [reflexivity|done|]. subst bl.
      rewrite take_insert_lt by (by apply lookup_lt_Some in Hk). rewrite (lo_lh _ _ Hl). by apply list_insert_id.
    - rewrite bool_decide_eq_false_2 by done. rewrite Hk, Z.eqb_refl. eexists. split_and!; [reflexivity| |].
      + rewrite length_app. simpl. unfold set_lh. simpl. f_equal. lia.
      + rewrite length_app, Nat.add_1_r. subst bl. rewrite Hk, (take_S_r _ _ b).
        * by rewrite take_insert_ge, (lo_lh _ _ Hl) by lia.
        * rewrite list_lookup_insert_eq; [done|]. rewrite (lo_block _ _ Hl). destruct (lo_fit _ _ Hl). lia. }
  destruct Hcnt as (l2 & E2 & -> & Htk). mstep E2.
  destruct (upd_held_ok pid _ H i (λ b, set_flags (Z.lor (b_flags b) B_DIRTY) b) Hc Hi) as (E & Hc' & (R1 & R2 & R3 & R4 & R5) & V');
    [done|done|right; by destruct Hfl as [-> | ->]|].
  set (s' := set_buf i _ _) in *.
  mstep by (apply zoom_ok; exact E).
  assert (Hflg : b_flags (vw (set_flags (Z.lor (b_flags (bufof (lg_bio l) i)) B_DIRTY) (bufof (lg_bio l) i))) = 6).
  { simpl. by destruct Hfl as [-> | ->]. }
  assert (Hv' : vinv (fupd (vbuf (lg_bio l)) i (vw (set_flags (Z.lor (b_flags (bufof (lg_bio l) i)) B_DIRTY) (bufof (lg_bio l) i))))
     (disk (lg_bio l)) (disksize (lg_bio l)) H).
  { eapply vinv_ext; [intros; symmetry; apply V'|]. pose proof (cv_view _ _ _ Hc') as H3. by rewrite R3, R4 in H3. }
  assert (C' : ∀ b', content (vbuf s') (disk s') b' = view l b' ∧
    (dirty (vbuf s') b' ↔ b' = b ∨ dirty (vbuf (lg_bio l)) b')).
  { intros b'. rewrite (content_ext _ _ _ _ V'), (dirty_ext _ _ _ V'), R3.
    destruct (content_upd pid _ _ (disk (lg_bio l)) _ _ i _ b' Hvi Hv' Hi eq_refl eq_refl) as (C & Dd & Db); [done|].
    fold b in C, Dd, Db. split.
    - rewrite C. case_decide as Hbb; [|done]. rewrite Hbb. symmetry.
      exact (content_cached _ _ _ _ _ i _ Hvi (held_caches pid _ _ _ _ i Hvi Hi)).
    - destruct (decide (b' = b)) as [->|Hb]; [rewrite Db; naive_solver|]. rewrite Dd by done. naive_solver. }
  exists (with_bio s' (set_lh (Z.of_nat (length L')) bl l)). split.
  { rewrite (release_held l_lg_lock) by done. f_equal.
    unfold with_bio, set_lh, lset, l_lg_lock, l_bio. cbn. by rewrite (lo_lock _ _ Hl). }
  assert (EL : (if bool_decide (b ∈ L) then d else ld_set_log (L ++ [b]) d) = ld_set_log L' d).
  { subst L' L. case_bool_decide; [by destruct d|done]. }
  rewrite EL.
  assert (HL'len : Z.of_nat (length L') ≤ lg_size l - 1 ∧ (length L' ≤ 29)%nat).
  { subst L'. case_bool_decide; [destruct (lo_fit _ _ Hl); split; [done|done]|]. rewrite length_app. simpl. lia. }
  assert (HinL : ∀ x, x ∈ L' ↔ x = b ∨ x ∈ L).
  { intros x. subst L'. case_bool_decide; [naive_solver|]. rewrite elem_of_app, list_elem_of_singleton. naive_solver. }
  constructor; lsimpl; try done.
  - destruct Hl. constructor; simpl; rewrite ?R4; try done.
    + by subst bl; rewrite length_insert.
    + destruct HL'len. done.
    + subst L'. case_bool_decide; [done|]. apply NoDup_app. split_and!; [done|set_solver|apply NoDup_singleton].
    + apply Forall_forall. intros x Hx. apply HinL in Hx. unfold home. simpl. rewrite ?R4.
      destruct Hx as [->|Hx]; [done|]. exact (proj1 (Forall_forall _ _) lo_home0 x Hx).
  - intros b'. rewrite (proj2 (C' b')), HinL, (Hd b'). done.
  - intros b'. rewrite Hh. f_equiv. intros j. rewrite V'. unfold fupd. destruct (decide (j = i)) as [->|]; reflexivity.
  - intros b' Hb'. unfold view. lsimpl. rewrite (proj1 (C' b')). apply Hv. unfold home in *. simpl in Hb'. by rewrite ?R4 in Hb'.
Qed.

(** ** The start and the end of a system call *)

Lemma implements_begin_op l (d : ldisk) H :
  implements l d H → lg_committing l = false →
  match ld_begin_op d with
  | Ok _ d' => ∃ l', begin_op l = Ok tt l' ∧ implements l' d' H
  | _ => begin_op l = Sleep LOGCHAN l
  end.
Proof.
  intros [Hl Hs Ho Hc Hd Hh Hv] Hcm. unfold ld_begin_op, begin_op.
  pose proof (lo_lock _ _ Hl) as Hlk. rewrite (bind_ok _ _ _ _ _ (acquire_free l_lg_lock l ltac:(simpl; by rewrite Hlk))).
  mrun. unfold id. cbn [lset l_lg_lock lg_committing lg_outstanding lh_n]. rewrite Hcm, (lo_n _ _ Hl), Ho.
  destruct (_ >? LOGSIZE).
  - mrun. pose proof (lo_n _ _ Hl). unfold sleep_on. f_equal. destruct l; simpl in *; by subst.
  - mrun. exists (set_ops (ld_outstanding d + 1) (lg_committing l) l). split.
    + rewrite (release_held l_lg_lock) by done. f_equal. pose proof (lo_n _ _ Hl).
      destruct l; simpl in *; by subst.
    + constructor; lsimpl; try done. by destruct Hl.
Qed.


Lemma committed_home l L b :
  log_idle l L → home l b → dblk (apply_writes (disk (lg_bio l)) (commit_writes l L)) b = view l b.
Proof.
  intros Hi Hb. destruct (lo_size _ _ (li_ok _ _ Hi)) as [Hs1 _]. pose proof (lo_nodup _ _ (li_ok _ _ Hi)) as Hnd.
  destruct (crash_after_header l L (length L) Hi) as (_ & _ & _ & C4).
  unfold commit_writes. set (start := lg_start l) in *. set (h := header L _) in *.
  set (WL := log_writes start 0 (view l) L) in *.
  assert (Ed : apply_writes (disk (lg_bio l)) (WL ++ (start, h) :: ((λ b, (b, view l b)) <$> L) ++ [(start, header [] h)]) =
    <[start := header [] h]> (apply_writes (disk (lg_bio l)) (WL ++ (start, h) :: take (length L) ((λ b, (b, view l b)) <$> L)))).
  { rewrite (take_ge ((λ b, (b, view l b)) <$> L)) by (rewrite length_fmap; lia).
    rewrite !apply_writes_app. simpl. by rewrite apply_writes_app. }
  rewrite Ed, dblk_insert_ne by (intros <-; destruct Hb as [_ Hx]; apply Hx; fold start; lia).
  destruct (decide (b ∈ L)) as [HbL|HbL]; [|by apply C4].
  rewrite apply_writes_app. simpl. rewrite home_prefix by done. rewrite take_ge by lia. by rewrite decide_True.
Qed.

Lemma commit_lock_id l : lg_lock l = unlocked → lset l_lg_lock unlocked l = l.
Proof. intros E. destruct l. simpl in *. by rewrite E. Qed.

Lemma log_idle_ops l L n c : log_idle l L → log_idle (set_ops n c l) L.
Proof. intros [[] ? ? ? ?]. constructor; done. Qed.
End logspec.

(** ** Claims *)

(** C4. A commit is atomic with respect to crashes: if the machine stops after
    any number of the disk writes of [commit], running [recover_from_log] on
    what is on disk leaves every block outside the log either as it was
    before the transaction, or as the transaction left it in memory, for all
    blocks at once; and once all writes are done it is the latter. *)
Theorem commit_crash_atomic pid l L :
  log_idle pid l L → L ≠ [] →
  ∃ l', commit pid l = Ok tt l' ∧
    bc_writes (lg_bio l') = bc_writes (lg_bio l) ++ commit_writes l L ∧
    ∀ k lr, booted pid l (apply_writes (disk (lg_bio l)) (take k (commit_writes l L))) lr →
      ∃ lr', recover_from_log pid lr = Ok tt lr' ∧
        ((∀ b, home l b → dblk (disk (lg_bio lr')) b = dblk (disk (lg_bio l)) b) ∧ (k < length (commit_writes l L))%nat ∨
         (∀ b, home l b → dblk (disk (lg_bio lr')) b = view l b)).
Proof.
  intros Hi HL. destruct (commit_ok pid l L Hi HL) as (s' & E & _ & _ & _ & _ & W).
  eexists. split_and!; [exact E|exact W|]. intros k lr Hb. by eapply crash_recovers.
Qed.

(** C17. The end of the last system call makes its writes durable: [end_op]
    with one outstanding operation commits, after which the disk holds every
    block as the kernel sees it, nothing is dirty, the in-memory log is empty,
    those waiting for the log have been woken and the next transaction can
    begin. *)
Theorem end_op_durable pid l L :
  log_idle pid l L → L ≠ [] → lg_outstanding l = 1 → lg_committing l = false →
  ∃ l', end_op pid l = Ok tt l' ∧ lh_n l' = 0 ∧ lg_outstanding l' = 0 ∧ lg_committing l' = false ∧
    (∀ b, home l b → dblk (disk (lg_bio l')) b = view l b) ∧ dirty_is (lg_bio l') [] ∧
    lg_woken l' = lg_woken l + 1 ∧ ∃ l'', begin_op l' = Ok tt l''.
Proof.
  intros Hi HL Ho Hc. pose proof (lo_lock _ _ (li_ok _ _ _ Hi)) as Hlk.
  destruct l as [lk st sz out cm dev n bl bio wk]. cbn in Hlk, Ho, Hc. subst lk out cm.
  set (l := LogSt unlocked st sz 1 false dev n bl bio wk) in *.
  destruct (commit_ok pid (set_ops 0 true l) L) as (s' & E & Hc' & Hd' & Z' & D' & _).
  { by apply log_idle_ops. } { done. }
  unfold end_op. mrun. unfold id. cbn [lg_committing lset l_lg_lock set_ops lg_outstanding l].
  change (1 - 1 =? 0) with true. cbv iota. mrun.
  mstep by exact E. mrun. eexists. split_and!.
  - reflexivity.
  - done.
  - done.
  - done.
  - intros b Hb. simpl. rewrite D'. by apply (committed_home pid (set_ops 0 true l) L b (log_idle_ops pid l L 0 true Hi)).
  - done.
  - done.
  - eexists. reflexivity.
Qed.

(** C16. The log and the buffer cache implement the logical disk on which the
    file system is verified: reading a block yields its current contents,
    stores through a held buffer change that block only, [log_write] extends
    the transaction or panics exactly as the logical disk does, and releasing
    a buffer that is logged or unchanged releases the block; none of them
    changes what the kernel sees of another block, whatever is evicted. *)
Theorem log_implements_disk pid l (d : ldisk) (H : gset nat) :
  implements pid l d H →
  (* bread *)
  (∀ b d', home l b → (length (ld_log d) + size H < 30)%nat → ld_bread b d = Ok b d' →
     ∃ i l', lbread pid b l = Ok i l' ∧ implements pid l' d' ({[i]} ∪ H) ∧
       b_blockno (vbuf (lg_bio l') i) = b ∧ b_data (vbuf (lg_bio l') i) = blk d b) ∧
  (* store, log_write, brelse of a held buffer *)
  ∀ i, i ∈ H → home l (b_blockno (vbuf (lg_bio l) i)) →
    let b := b_blockno (vbuf (lg_bio l) i) in
    (∀ data, ∃ l', lbstore i data l = Ok tt l' ∧ implements pid l' (ld_set_blk b data d) H) ∧
    match ld_log_write b d with
    | Ok _ d' => ∃ l', log_write i l = Ok tt l' ∧ implements pid l' d' H
    | Panic e => log_write i l = Panic e
    | _ => False
    end ∧
    (b ∈ ld_log d ∨ view l b = dblk (disk (lg_bio l)) b →
     ∃ l' d', lbrelse pid i l = Ok tt l' ∧ ld_brelse b d = Ok tt d' ∧ implements pid l' d' (H ∖ {[i]})).
Proof.
  intros Him. split.
  - intros b d' Hb Hroom E. destruct (implements_bread pid l d H b d' Him Hb Hroom E) as (i & l' & E' & Hi' & _ & Eb & Ed).
    exists i, l'. done.
  - intros i Hi Hb b. split_and!.
    + intros data. by apply implements_store.
    + by apply implements_log_write.
    + by apply implements_brelse.
Qed.

(** A log no operation uses. *)
Definition unused_log (l : logst) : Prop :=
  lg_lock l = unlocked ∧ lg_committing l = false ∧ lh_n l = 0 ∧ lg_outstanding l = 0.

(** The space [begin_op] reserves is not enough: on an idle log of
    [LOGSIZE] blocks, the size mkfs gives it, [begin_op] admits three system
    calls of [MAXOPBLOCKS] blocks each, but [log_write] panics when they have
    logged 29 of their 30 blocks, because the header takes one block of the
    log. *)
Theorem log_reservation_too_large l i :
  unused_log l →
  (∃ l', (begin_op;; begin_op;; begin_op) l = Ok tt l' ∧ lg_outstanding l' = 3) ∧
  ∀ l', lg_size l' = LOGSIZE → lh_n l' = 3 * MAXOPBLOCKS - 1 → log_write i l' = Panic "too big a transaction".
Proof.
  intros (Hlk & Hc & Hn & Ho). destruct l as [lk st sz out cm dev n bl bio]. cbn in *. subst. split.
  - eexists. split; reflexivity.
  - intros l' Hs Hn. unfold log_write. mrun. unfold id. rewrite Hs, Hn. reflexivity.
Qed.

(** *** Witnesses

    A log of 30 blocks from block 2 on, with block 40 in the transaction and
    modified in buffer 0. *)

Definition demo_buf (i : nat) : buf :=
  Buf (if decide (i = 0%nat) then 6 else 0) (if decide (i = 0%nat) then 1 else 0) 40 sl_free 0
    (match i with O => 30 | S j => j end)%nat (if decide (i = 30%nat) then 0 else S i)%nat (replicate 512 7).
Definition demo_bio : bcache := Bcache unlocked (demo_buf <$> seq 0 31) ∅ 1000 [].
Definition demo_log : logst :=
  LogSt unlocked 2 30 1 false 1 1 (40 :: replicate 29 0) demo_bio 0.

Lemma demo_bufof i : (i ≤ 30)%nat → bufof demo_bio i = demo_buf i.
Proof.
  intros Hi. unfold bufof. change (bc_buf demo_bio) with (demo_buf <$> seq 0 31). rewrite list_lookup_fmap, lookup_seq_lt by lia. done.
Qed.
Lemma demo_dirty : dirty_is demo_bio [40].
Proof.
  intros b. split.
  - intros (i & (Hi & Hd & Hb) & Hf). unfold vbuf in *. rewrite demo_bufof in * by lia. simpl in *. subst. by left.
  - intros Hb. apply list_elem_of_singleton in Hb as ->. exists 0%nat. split; [|done]. split_and!; [lia|done|done].
Qed.
Lemma demo_cinv pid : cinv pid demo_bio ∅.
Proof.
  constructor; [done|done| |].
  - exists (seq 0 30). constructor; [done|by vm_compute; repeat split|by vm_compute; repeat split].
  - constructor; unfold vbuf; try done.
    + intros i Hi _. rewrite demo_bufof by lia. done.
    + intros i Hi. rewrite demo_bufof by lia. simpl. case_decide; [left; split_and!; [done|by right|done..]|by right].
    + intros i j Hi Hj. rewrite !demo_bufof by lia. simpl. repeat case_decide; congruence.
    + intros i Hi _. rewrite demo_bufof by lia. simpl. by case_decide.
Qed.
Lemma demo_log_ok : log_ok demo_log [40].
Proof.
  constructor; try done; try (simpl; lia).
  - apply NoDup_singleton.
  - constructor; [|constructor]. split; simpl; lia.
Qed.
Lemma demo_idle pid : log_idle pid demo_log [40].
Proof. constructor; [apply demo_log_ok|apply demo_cinv|apply demo_dirty|done|done]. Qed.

Lemma commit_crash_atomic_witness :
  ∃ l', commit 1 demo_log = Ok tt l' ∧ length (bc_writes (lg_bio l')) = 4%nat.
Proof.
  destruct (commit_crash_atomic 1 demo_log [40]) as (l' & E & W & _).
  - apply demo_idle.
  - discriminate.
  - exists l'. split; [exact E|]. rewrite W. reflexivity.
Defined.

Lemma end_op_durable_witness :
  ∃ l', end_op 1 demo_log = Ok tt l' ∧ dblk (disk (lg_bio l')) 40 = view demo_log 40.
Proof.
  destruct (end_op_durable 1 demo_log [40]) as (l' & E & _ & _ & _ & D & _).
  - apply demo_idle.
  - discriminate.
  - reflexivity.
  - reflexivity.
  - exists l'. split; [exact E|]. apply D. split; [split; [discriminate|reflexivity]|]. intros [_ Hx]. discriminate Hx.
Defined.

Lemma demo_view b : view demo_log b = if decide (b = 40) then replicate 512 7 else zero_block.
Proof.
  unfold view. case_decide as Hb.
  - subst. rewrite (content_cached 1 _ _ 1000 ∅ 0%nat); [done|exact (cv_view _ _ _ (demo_cinv 1))|]. split_and!; [lia|done|done].
  - rewrite content_uncached; [done|]. intros i (Hi & Hd & Hbn). unfold vbuf in *. rewrite demo_bufof in * by lia.
    simpl in *. congruence.
Qed.
Definition demo_ldisk : ldisk := LDisk {[40 := replicate 512 7]} [] [40] 30 1.
Lemma demo_implements : implements 1 demo_log demo_ldisk ∅.
Proof.
  constructor; try done.
  - apply demo_log_ok.
  - apply demo_cinv.
  - apply demo_dirty.
  - intros b. simpl. split; [by intros ?%not_elem_of_nil|set_solver].
  - intros b _. rewrite demo_view. unfold blk. simpl. case_decide as Hb; [subst; by rewrite lookup_singleton_eq|].
    by rewrite lookup_singleton_ne.
Qed.

Lemma log_implements_disk_witness :
  ∃ i l', lbread 1 40 demo_log = Ok i l' ∧ b_data (vbuf (lg_bio l') i) = replicate 512 7.
Proof.
  destruct (log_implements_disk 1 demo_log demo_ldisk ∅ demo_implements) as [Hr _].
  destruct (Hr 40 (LDisk {[40 := replicate 512 7]} [40] [40] 30 1)) as (i & l' & E & _ & _ & D).
  - split; [split; [discriminate|reflexivity]|]. intros [_ Hx]. discriminate Hx.
  - vm_compute. repeat constructor.
  - reflexivity.
  - exists i, l'. split; [exact E|exact D].
Defined.

Definition idle_log : logst := LogSt unlocked 2 30 0 false 1 0 (replicate 30 0) demo_bio 0.
Lemma log_reservation_too_large_witness :
  ∃ l', (begin_op;; begin_op;; begin_op) idle_log = Ok tt l' ∧ lg_outstanding l' = 3.
Proof. apply (log_reservation_too_large idle_log 0). repeat split. Defined.
