(* ===== verification/Pagecache.v ===== *)
(** * The page cache (pagecache.c)

    File-backed mappings read files through a cache of [NPAGECACHE] pages,
    replaced in turn.  A cached page is tagged with device, inode number and
    page-aligned offset, lives in a page of kernel memory and has a sleep lock
    of its own; the table is protected by a spin lock.  The cache is coherent
    when each tagged page holds the file's bytes, zeros past the end of the
    file. *)

From Stdlib Require Import ZArith Lia.
From stdpp Require Import base numbers strings gmap list.
From S2P Require Import Prelude Mmu Memory Locks Kalloc Bytes Disk Fs FsBlocks FsInode FsFile FsRw.

Definition NPAGECACHE : Z := 30.

Record cached_page := CachedPage {
  cp_dev : Z;
  cp_inum : Z;
  cp_refCount : Z;
  cp_offset : Z;
  cp_page : Z;
  cp_lock : sleeplock;
}.
Definition cpage0 : cached_page := CachedPage 0 0 0 0 0 sl_free.

(** The cache, with the memory its pages live in and the file system it
    reads. *)
Record pcst := PcSt {
  pc_vm : vmst;
  pc_fs : fsst;
  pages : list cached_page;
  totalCount : Z;
  pc_lock : spinlock;
}.

Definition l_pcvm : lens pcst vmst :=
  Lens pc_vm (λ v s, PcSt v (pc_fs s) (pages s) (totalCount s) (pc_lock s)).
Definition l_pcfs : lens pcst fsst :=
  Lens pc_fs (λ f s, PcSt (pc_vm s) f (pages s) (totalCount s) (pc_lock s)).
Definition l_pclock : lens pcst spinlock :=
  Lens pc_lock (λ l s, PcSt (pc_vm s) (pc_fs s) (pages s) (totalCount s) l).
Definition set_pages (l : list cached_page) (s : pcst) : pcst :=
  PcSt (pc_vm s) (pc_fs s) l (totalCount s) (pc_lock s).
Definition set_total (n : Z) (s : pcst) : pcst :=
  PcSt (pc_vm s) (pc_fs s) (pages s) n (pc_lock s).
Definition pcmem (s : pcst) : memory := vmem (pc_vm s).
Definition set_pcmem (m : memory) (s : pcst) : pcst :=
  PcSt (set_vmem m (pc_vm s)) (pc_fs s) (pages s) (totalCount s) (pc_lock s).

Definition cpage (s : pcst) (k : nat) : cached_page := default cpage0 (pages s !! k).
Definition upd_cpage (k : nat) (f : cached_page → cached_page) (s : pcst) : pcst :=
  set_pages (alter f k (pages s)) s.
Definition set_cplock (l : sleeplock) (c : cached_page) : cached_page :=
  CachedPage (cp_dev c) (cp_inum c) (cp_refCount c) (cp_offset c) (cp_page c) l.
Definition set_cppage (v : Z) (c : cached_page) : cached_page :=
  CachedPage (cp_dev c) (cp_inum c) (cp_refCount c) (cp_offset c) v (cp_lock c).
Definition set_tag (dev inum offset : Z) (c : cached_page) : cached_page :=
  CachedPage dev inum (cp_refCount c) offset (cp_page c) (cp_lock c).
Definition l_cplock (k : nat) : lens pcst sleeplock :=
  Lens (λ s, cp_lock (cpage s k)) (λ l s, upd_cpage k (set_cplock l) s).

(** ** Operations *)

Fixpoint pagecacheinit_loop {L : Linker} (n i : nat) : M pcst bool :=
  match n with
  | O => mret true
  | S n =>
      pg ← zoom l_pcvm kalloc;
      modify (upd_cpage i (set_cppage pg));;
      if pg =? 0 then mret false
      else
        initsleeplock (l_cplock i);;
        modify (λ s, set_pcmem (memset (pcmem s) pg 0 PGSIZE) s);;
        pagecacheinit_loop n (S i)
  end.
Definition pagecacheinit {L : Linker} : M pcst unit :=
  modify (lset l_pclock unlocked);;
  ok ← pagecacheinit_loop (Z.to_nat NPAGECACHE) 0;
  if ok : bool then modify (set_total 0) else mret tt.

Fixpoint find_page (l : list cached_page) (i : nat) (inum offset dev : Z) : option nat :=
  match l with
  | [] => None
  | c :: l =>
      if (u32 (cp_inum c) =? u32 inum) && (cp_offset c =? offset) && (cp_dev c =? dev)
      then Some i else find_page l (S i) inum offset dev
  end.
Definition findPage (inum offset dev : Z) : M pcst (option nat) :=
  l ← gets (lget l_pclock);
  if negb (locked l) then panic "Pagecache: find page"
  else gets (λ s, find_page (pages s) 0 inum offset dev).

(** A process that goes to sleep while it holds a spin lock panics in
    [sched]: [mycpu()->ncli] is not 1. *)
Definition holding_spin {S A} (m : M S A) : M S A := λ s,
  match m s with Sleep _ _ => Panic "sched locks" | r => r end.

Section pagecache.
(** The running process, and the device switch. *)
Context (pid : Z).
Context (dev_read : Z → option (nat → Z → M fsst (Z * list Z))).

(** [src] holds the [size] bytes at [addr]. *)
Definition updatePage (offset inum dev : Z) (src : list Z) : M pcst unit :=
  acquire l_pclock;;
  let alligned_offset := offset - Z.rem offset PGSIZE in
  let start_addr := Z.rem offset PGSIZE in
  res ← findPage inum alligned_offset dev;
  release l_pclock;;
  match res with
  | None => mret tt
  | Some k =>
      acquiresleep (l_cplock k) pid (Z.of_nat k);;
      modify (λ s, set_pcmem (wrbytes (pcmem s) (cp_page (cpage s k) + start_addr) src) s);;
      releasesleep (l_cplock k)
  end.

(** The last part of [getPage]: read from the disk into page [k] of the
    cache.  [None] stands for the pointer -1. *)
Definition fill_slot (k ip : nat) (offset inum dev : Z) : M pcst (option nat) :=
  modify (λ s, set_pcmem (memset (pcmem s) (cp_page (cpage s k)) 0 PGSIZE) s);;
  '(n, bytes) ← zoom l_pcfs (readi dev_read ip (u32 offset) PGSIZE);
  modify (λ s, set_pcmem (wrbytes (pcmem s) (cp_page (cpage s k)) bytes) s);;
  if n =? -1 then mret None
  else
    modify (upd_cpage k (set_tag dev inum offset));;
    mret (Some k).

Definition getPage (ip : nat) (offset inum dev : Z) : M pcst (option nat) :=
  let offset := offset - Z.rem offset PGSIZE in
  acquire l_pclock;;
  res ← findPage inum offset dev;
  match res with
  | Some k =>
      holding_spin (acquiresleep (l_cplock k) pid (Z.of_nat k));;
      release l_pclock;;
      mret (Some k)
  | None =>
      t ← gets totalCount;
      modify (set_total (t + 1));;
      release l_pclock;;
      if (0 <=? t) && (t <? NPAGECACHE) then
        let k := Z.to_nat t in
        acquiresleep (l_cplock k) pid (Z.of_nat k);;
        t ← gets totalCount;
        when (t =? NPAGECACHE) (modify (set_total 0));;
        fill_slot k ip offset inum dev
      else undef "pagecache.pages"
  end.

Definition copyPage (ip : nat) (offset inum dev dest size dest_offset : Z) : M pcst Z :=
  page ← getPage ip offset inum dev;
  match page with
  | None => mret 0
  | Some k =>
      h ← holdingsleep (l_cplock k) pid;
      if negb h then panic "pagecache copy page"
      else
        (* Copy the content from page cache to allocated page *)
        modify (λ s, set_pcmem
          (memmove (pcmem s) dest (cp_page (cpage s k) + dest_offset) size) s);;
        releasesleep (l_cplock k);;
        mret 0
  end.
End pagecache.

(** ** Lemmas about the table *)

Lemma cpage_upd s k f j :
  (k < length (pages s))%nat →
  cpage (upd_cpage k f s) j = if decide (k = j) then f (cpage s j) else cpage s j.
Proof.
  intros Hk. unfold cpage, upd_cpage. simpl. rewrite list_lookup_alter.
  case_decide as E; [subst j|done].
  destruct (lookup_lt_is_Some_2 _ _ Hk) as [c ->]. done.
Qed.

Lemma upd_cpage_upd s k f g :
  upd_cpage k f (upd_cpage k g s) = upd_cpage k (λ c, f (g c)) s.
Proof. unfold upd_cpage, set_pages. simpl. f_equal. apply list_eq. intros j.
  rewrite !list_lookup_alter. destruct (decide (k = j)); [|done].
  rewrite decide_True by done. by destruct (pages s !! k). Qed.

Lemma upd_cpage_ext s k f g :
  (∀ c, pages s !! k = Some c → f c = g c) → upd_cpage k f s = upd_cpage k g s.
Proof. intros H. unfold upd_cpage. f_equal. apply list_eq. intros j. rewrite !list_lookup_alter.
  case_decide; [subst|done]. destruct (pages s !! j) eqn:E; simpl; [|done]. by rewrite H. Qed.

Lemma upd_cpage_id s k f :
  (∀ c, pages s !! k = Some c → f c = c) → upd_cpage k f s = s.
Proof.
  intros H. unfold upd_cpage. destruct s. unfold set_pages. simpl in *. f_equal.
  apply list_eq. intros j. rewrite list_lookup_alter. case_decide; [subst|done].
  destruct (pages0 !! j) eqn:E; simpl; [|done]. by rewrite H.
Qed.

Lemma lookup_cpage s k c : pages s !! k = Some c → cpage s k = c.
Proof. intros H. unfold cpage. by rewrite H. Qed.

Lemma l_cplock_at s k : (k < length (pages s))%nat → lens_at (l_cplock k) s.
Proof.
  intros Hk. split.
  - intros l. simpl. rewrite cpage_upd by done. by rewrite decide_True.
  - intros l l'. simpl. rewrite upd_cpage_upd. done.
  - simpl. apply upd_cpage_id. intros c Hc. rewrite (lookup_cpage _ _ _ Hc). by destruct c.
Qed.

Section cplocks.
Context (pid ch : Z) (s : pcst) (k : nat).

Lemma cp_acquire :
  cp_lock (cpage s k) = sl_free → (k < length (pages s))%nat →
  acquiresleep (l_cplock k) pid ch s = Ok tt (upd_cpage k (set_cplock (sl_held pid)) s).
Proof.
  intros Hl Hk. apply (acquiresleep_free (l_cplock k) s (l_cplock_at s k Hk)); simpl; by rewrite Hl.
Qed.

Lemma cp_acquire_busy q :
  cp_lock (cpage s k) = sl_held q → (k < length (pages s))%nat →
  acquiresleep (l_cplock k) pid ch s = Sleep ch s.
Proof.
  intros Hl Hk. apply (acquiresleep_busy (l_cplock k) s (l_cplock_at s k Hk)); simpl; by rewrite Hl.
Qed.

Lemma cp_release q :
  cp_lock (cpage s k) = sl_held q → (k < length (pages s))%nat →
  releasesleep (l_cplock k) s = Ok tt (upd_cpage k (set_cplock sl_free) s).
Proof.
  intros Hl Hk. apply (releasesleep_ok (l_cplock k) s (l_cplock_at s k Hk)); simpl; by rewrite Hl.
Qed.

Lemma cp_holding :
  cp_lock (cpage s k) = sl_held pid → (k < length (pages s))%nat →
  holdingsleep (l_cplock k) pid s = Ok true s.
Proof.
  intros Hl Hk. rewrite (holdingsleep_ok (l_cplock k) s (l_cplock_at s k Hk)); simpl; rewrite Hl; simpl.
  - by rewrite Z.eqb_refl.
  - done.
Qed.
End cplocks.

Definition tag (c : cached_page) : Z * Z * Z := (cp_dev c, u32 (cp_inum c), cp_offset c).

Lemma find_page_spec l i inum offset dev :
  match find_page l i inum offset dev with
  | Some k => (i ≤ k)%nat ∧ ∃ c, l !! (k - i)%nat = Some c ∧ tag c = (dev, u32 inum, offset)
  | None => ∀ c, c ∈ l → tag c ≠ (dev, u32 inum, offset)
  end.
Proof.
  revert i. induction l as [|c l IH]; intros i; simpl; [by intros c ?%not_elem_of_nil|].
  destruct (Z.eqb_spec (u32 (cp_inum c)) (u32 inum)) as [E1|E1]; simpl;
    [destruct (Z.eqb_spec (cp_offset c) offset) as [E2|E2]; simpl;
      [destruct (Z.eqb_spec (cp_dev c) dev) as [E3|E3]|]|].
  1: { split; [lia|]. exists c. rewrite Nat.sub_diag. split; [done|]. unfold tag. by rewrite E1, E2, E3. }
  all: specialize (IH (S i)); destruct (find_page l (S i) inum offset dev) as [k|].
  all: try (destruct IH as (Hk & c' & Hl & Ht); split; [lia|]; exists c';
    replace (k - i)%nat with (S (k - S i)) by lia; done).
  all: intros c' [->|Hc]%elem_of_cons; [unfold tag; congruence|by apply IH].
Qed.

(** ** Invariant and coherence *)

Record pc_ok {L : Linker} (s : pcst) : Prop := {
  po_len : length (pages s) = 30%nat;
  po_lock : pc_lock s = unlocked;
  po_total : 0 ≤ totalCount s < 30;
  po_free : ∀ k, (k < 30)%nat → cp_lock (cpage s k) = sl_free;
  po_page : ∀ k, (k < 30)%nat → page (cp_page (cpage s k));
  po_inj : ∀ k k', (k < 30)%nat → (k' < 30)%nat →
    cp_page (cpage s k) = cp_page (cpage s k') → k = k';
  po_tag : ∀ k k', (k < 30)%nat → (k' < 30)%nat → u32 (cp_inum (cpage s k)) ≠ 0 →
    tag (cpage s k) = tag (cpage s k') → k = k';
}.

(** The bytes of a file, continued with zeros. *)
Definition file_at (f : fsst) (ip : nat) (o : Z) : Z :=
  if o <? i_size (ino f ip) then file_byte (fs_ld f) (ino f ip) o else 0.

Definition file_tag (f : fsst) (ip : nat) (o : Z) : Z * Z * Z :=
  (i_dev (ino f ip), u32 (i_inum (ino f ip)), o).

(** The cached pages of a file hold its bytes. *)
Definition coherent (s : pcst) (ip : nat) : Prop :=
  ∀ k o, (k < 30)%nat → tag (cpage s k) = file_tag (pc_fs s) ip o →
    0 ≤ o ∧ o mod 4096 = 0 ∧
    ∀ j, 0 ≤ j < 4096 → rd8 (pcmem s) (cp_page (cpage s k) + j) = file_at (pc_fs s) ip (o + j).

Definition cache_addr (s : pcst) (a : Z) : Prop :=
  ∃ k, (k < 30)%nat ∧ in_page (cp_page (cpage s k)) a.

(** What an operation that works on a page of file [ip] and writes to the
    addresses [D] may do to the rest of the state. *)
Record pc_step {L : Linker} (ip : nat) (D : Z → Prop) (s s' : pcst) : Prop := {
  ps_ok : pc_ok s';
  ps_fs : pc_fs s' = pc_fs s;
  ps_kmem : kmem (pc_vm s') = kmem (pc_vm s);
  ps_pages : ∀ k, cp_page (cpage s' k) = cp_page (cpage s k);
  ps_frame : ∀ a, ¬ cache_addr s a → ¬ D a → rd8 (pcmem s') a = rd8 (pcmem s) a;
  ps_coherent : ∀ jp, coherent s jp →
    (jp ≠ ip → ∀ o, file_tag (pc_fs s) jp o ≠ file_tag (pc_fs s) ip o) → coherent s' jp;
}.

Lemma pc_step_refl {L : Linker} ip D s : pc_ok s → pc_step ip D s s.
Proof. by split. Qed.

Lemma pc_step_trans {L : Linker} ip (D D1 D2 : Z → Prop) s s1 s2 :
  pc_step ip D1 s s1 → pc_step ip D2 s1 s2 → (∀ a, D1 a → D a) → (∀ a, D2 a → D a) →
  pc_step ip D s s2.
Proof.
  intros [A1 A2 A3 A4 A5 A6] [B1 B2 B3 B4 B5 B6] HD1 HD2. split; try congruence.
  - intros a Ha Hd. rewrite B5, A5; auto. intros (k & Hk & Hin). apply Ha. exists k.
    by rewrite <-A4.
  - intros jp Hc Hne. rewrite A2 in B6. auto.
Qed.

(** Memory outside the cached pages changes. *)
Lemma pc_step_mem {L : Linker} ip (D : Z → Prop) s m :
  pc_ok s → (∀ a, cache_addr s a → rd8 m a = rd8 (pcmem s) a) →
  (∀ a, ¬ D a → rd8 m a = rd8 (pcmem s) a) → pc_step ip D s (set_pcmem m s).
Proof.
  intros Hok Hc HD. split; try done.
  - by destruct Hok.
  - intros a _ Ha. by apply HD.
  - intros jp Hcoh _ k o Hk Ht. destruct (Hcoh k o Hk Ht) as (H1 & H2 & H3). split_and!; try done.
    intros j Hj. etrans; [|by apply H3]. apply Hc. exists k. split; [done|].
    unfold in_page. change (cpage (set_pcmem m s) k) with (cpage s k). lia.
Qed.

(** The inode's file is readable page by page. *)
Definition readable_file (f : fsst) (ip : nat) : Prop :=
  fstate ip f ∧ i_type (ino f ip) ≠ T_DEV ∧ 0 < i_inum (ino f ip) < 4294967296.

Lemma readable_byte f ip o :
  readable_file f ip → is_byte (file_byte (fs_ld f) (ino f ip) o).
Proof.
  intros ((_ & _ & Hb & _) & _). apply byte_at_range. apply (fb_bytes _ _ Hb).
Qed.

Section spec.
Context {L : Linker} (pid : Z).
Context (dev_read : Z → option (nat → Z → M fsst (Z * list Z))).

(** The contents of a page after [memset] and [readi]. *)
Lemma fill_page f ip m v o a :
  readable_file f ip → 0 ≤ o ≤ i_size (ino f ip) →
  let n := Z.min 4096 (i_size (ino f ip) - o) in
  rd8 (wrbytes (memset m v 0 4096) v (fbytes (fs_ld f) (ino f ip) o (Z.to_nat n))) a =
    if decide (in_page v a) then file_at f ip (o + (a - v)) else rd8 m a.
Proof.
  intros Hf Ho n. unfold in_page, file_at. rewrite rd8_wrbytes, length_fbytes, rd8_memset by lia.
  destruct (decide (v ≤ a < v + Z.of_nat (Z.to_nat n))) as [Hin|Hout].
  - rewrite decide_True by lia. rewrite lookup_fbytes by lia. simpl.
    destruct (Z.ltb_spec (o + (a - v)) (i_size (ino f ip))); [|lia].
    rewrite Z2Nat.id by lia. apply u8_small. by apply readable_byte.
  - destruct (decide (v ≤ a < v + 4096)) as [Hp|Hp]; [|done].
    destruct (Z.ltb_spec (o + (a - v)) (i_size (ino f ip))); [lia|done].
Qed.

Definition aligned_off (offset : Z) : Z := offset - Z.rem offset PGSIZE.

Lemma aligned_off_eq offset :
  0 ≤ offset → aligned_off offset = offset - offset mod 4096 ∧ 0 ≤ aligned_off offset ∧
    aligned_off offset mod 4096 = 0.
Proof.
  intros H. unfold aligned_off, PGSIZE. rewrite Z.rem_mod_nonneg by lia. split; [done|]. zlia.
Qed.

Definition filled (dev inum o t : Z) (k : nat) (m : memory) (s : pcst) : pcst :=
  PcSt (set_vmem m (pc_vm s)) (pc_fs s) (alter (set_tag dev inum o) k (pages s)) t unlocked.

Lemma cpage_filled dev inum o t k m s j :
  (k < length (pages s))%nat →
  cpage (filled dev inum o t k m s) j =
    if decide (k = j) then set_tag dev inum o (cpage s j) else cpage s j.
Proof. intros Hk. exact (cpage_upd s k (set_tag dev inum o) j Hk). Qed.

Lemma filled_step ip s k m o t :
  pc_ok s → (k < 30)%nat → 0 ≤ t < 30 → 0 < i_inum (ino (pc_fs s) ip) < 4294967296 →
  0 ≤ o → o mod 4096 = 0 →
  (∀ j, (j < 30)%nat → tag (cpage s j) ≠ file_tag (pc_fs s) ip o) →
  (∀ a, rd8 m a = if decide (in_page (cp_page (cpage s k)) a)
     then file_at (pc_fs s) ip (o + (a - cp_page (cpage s k))) else rd8 (pcmem s) a) →
  let s' := filled (i_dev (ino (pc_fs s) ip)) (i_inum (ino (pc_fs s) ip)) o t k m s in
  pc_step ip (λ _, False) s s' ∧ tag (cpage s' k) = file_tag (pc_fs s) ip o.
Proof.
  intros Hok Hk Ht Hi Ho Hoa Hnew Hm s'. destruct Hok as [H1 H2 H3 H4 H5 H6 H7].
  assert (Hc : ∀ j, cpage s' j = if decide (k = j) then
    set_tag (i_dev (ino (pc_fs s) ip)) (i_inum (ino (pc_fs s) ip)) o (cpage s j) else cpage s j).
  { intros j. apply cpage_filled. by rewrite H1. }
  assert (Hp : ∀ j, cp_page (cpage s' j) = cp_page (cpage s j)).
  { intros j. rewrite Hc. by case_decide. }
  assert (Htag : ∀ j, tag (cpage s' j) =
    if decide (k = j) then file_tag (pc_fs s) ip o else tag (cpage s j)).
  { intros j. rewrite Hc. by case_decide. }
  split; [|by rewrite Htag, decide_True]. split; try done.
  - split; try done.
    + simpl. by rewrite length_alter.
    + intros j Hj. rewrite Hc. case_decide; by apply H4.
    + intros j Hj. rewrite Hp. by apply H5.
    + intros j j' Hj Hj'. rewrite !Hp. by apply H6.
    + intros j j' Hj Hj' Hz. rewrite !Htag. rewrite Hc in Hz.
      repeat case_decide; subst; try done; intros E.
      * by destruct (Hnew j' Hj').
      * by destruct (Hnew j Hj).
      * by apply H7.
  - intros a Ha _. change (pcmem s') with m. rewrite Hm. rewrite decide_False; [done|].
    intros Hin. apply Ha. by exists k.
  - intros jp Hcoh Hne j o' Hj. rewrite Htag. change (pc_fs s') with (pc_fs s).
    change (pcmem s') with m. rewrite Hp. case_decide as Ekj.
    + subst j. intros E. assert (o' = o) by (unfold file_tag in E; congruence). subst o'.
      split_and!; [lia|done|]. intros i Hi'. rewrite Hm, decide_True by (unfold in_page; lia).
      replace (cp_page (cpage s k) + i - cp_page (cpage s k)) with i by lia.
      destruct (decide (jp = ip)) as [->|Hjp]; [done|]. by destruct (Hne Hjp o).
    + intros E. destruct (Hcoh j o' Hj E) as (Q1 & Q2 & Q3). split_and!; try done.
      intros i Hi'. rewrite Hm, decide_False; [by apply Q3|]. intros Hin. apply Ekj.
      apply H6; try done. apply (page_disjoint _ _ (cp_page (cpage s j) + i)); auto.
      unfold in_page. lia.
Qed.

Lemma find_tagged s inum o dev k :
  pc_ok s → (k < 30)%nat → u32 inum ≠ 0 → tag (cpage s k) = (dev, u32 inum, o) →
  find_page (pages s) 0 inum o dev = Some k.
Proof.
  intros [H1 _ _ _ _ _ H7] Hk Hz Ht. pose proof (find_page_spec (pages s) 0 inum o dev) as Hfind.
  destruct (find_page (pages s) 0 inum o dev) as [j|].
  - destruct Hfind as (_ & c & Hc & Htag). rewrite Nat.sub_0_r in Hc. f_equal.
    assert (j < 30)%nat by (rewrite <-H1; by eapply lookup_lt_Some). apply H7; try done.
    + rewrite (lookup_cpage _ _ _ Hc). by injection Htag as _ -> _.
    + by rewrite (lookup_cpage _ _ _ Hc), Ht.
  - destruct (lookup_lt_is_Some_2 (pages s) k) as [c Hc]; [by rewrite H1|].
    destruct (Hfind c); [by eapply list_elem_of_lookup_2|]. by rewrite <-(lookup_cpage _ _ _ Hc).
Qed.

Lemma tag_dec s t :
  (∃ k, (k < 30)%nat ∧ tag (cpage s k) = t) ∨ (∀ k, (k < 30)%nat → tag (cpage s k) ≠ t).
Proof.
  destruct (decide (Exists (λ k, tag (cpage s k) = t) (seq 0 30))) as [Hex|Hnex].
  - left. apply Exists_exists in Hex as (k & Hk%elem_of_seq & Ht). exists k. split; [lia|done].
  - right. intros k Hk Ht. apply Hnex, Exists_exists. exists k. split; [apply elem_of_seq; lia|done].
Qed.

Lemma readi_page f ip o :
  readable_file f ip → 0 ≤ o ≤ i_size (ino f ip) →
  let n := Z.min 4096 (i_size (ino f ip) - o) in
  readi dev_read ip o PGSIZE f = Ok (n, fbytes (fs_ld f) (ino f ip) o (Z.to_nat n)) f.
Proof.
  intros (Hst & Ht & _) Ho. pose proof (fo_size _ _ _ (proj2 (proj2 (proj2 Hst)))).
  rewrite (readi_spec ip) by (try done; unfold PGSIZE; lia). unfold PGSIZE.
  destruct (Z.gtb_spec o (i_size (ino f ip))); [lia|].
  destruct (Z.leb_spec 4294967296 (o + 4096)); [lia|]. done.
Qed.

(** The state in which a miss starts to read: the next slot is taken and
    locked. *)
Definition taken_slot (s : pcst) : pcst :=
  PcSt (pc_vm s) (pc_fs s)
    (alter (set_cplock (sl_held pid)) (Z.to_nat (totalCount s)) (pages s))
    (if totalCount s + 1 =? 30 then 0 else totalCount s + 1) unlocked.

Lemma cpage_taken s j :
  (Z.to_nat (totalCount s) < length (pages s))%nat →
  cpage (taken_slot s) j = if decide (Z.to_nat (totalCount s) = j)
    then set_cplock (sl_held pid) (cpage s j) else cpage s j.
Proof. intros Hk. exact (cpage_upd s _ (set_cplock (sl_held pid)) j Hk). Qed.

Lemma getPage_miss ip offset inum dev s :
  pc_ok s →
  (∀ k, (k < 30)%nat → tag (cpage s k) ≠ (dev, u32 inum, aligned_off offset)) →
  getPage pid dev_read ip offset inum dev s =
    fill_slot dev_read (Z.to_nat (totalCount s)) ip (aligned_off offset) inum dev (taken_slot s).
Proof.
  intros [H1 H2 H3 H4 _ _ _] Hn. unfold getPage. fold (aligned_off offset).
  set (o := aligned_off offset) in *.
  mstep by (apply acquire_free; simpl; by rewrite H2).
  unfold findPage. rewrite bind_assoc. mrun. cbn [lget l_pclock lset pc_lock locked negb].
  mrun. cbn [pages].
  pose proof (find_page_spec (pages s) 0 inum o dev) as Hfind.
  destruct (find_page (pages s) 0 inum o dev) as [j|].
  { exfalso. destruct Hfind as (_ & c & Hc & Htag). rewrite Nat.sub_0_r in Hc.
    apply (Hn j); [rewrite <-H1; by eapply lookup_lt_Some|]. by rewrite (lookup_cpage _ _ _ Hc). }
  mrun. cbn [totalCount set_total lset l_pclock pc_vm pc_fs pages pc_lock].
  destruct (Z.leb_spec 0 (totalCount s)); [|lia].
  destruct (Z.ltb_spec (totalCount s) NPAGECACHE) as [|]; [|unfold NPAGECACHE in *; lia].
  cbn [andb]. mstep by (apply cp_acquire; [apply H4; lia|simpl; rewrite H1; lia]). mrun.
  cbn [totalCount upd_cpage set_pages]. unfold NPAGECACHE.
  erewrite (bind_ok (when _ _) _ _ tt (taken_slot s)); [done|].
  unfold taken_slot. by destruct (totalCount s + 1 =? 30).
Qed.

Lemma getPage_hit ip offset inum dev s k :
  pc_ok s → (k < 30)%nat → u32 inum ≠ 0 →
  tag (cpage s k) = (dev, u32 inum, aligned_off offset) →
  getPage pid dev_read ip offset inum dev s =
    Ok (Some k) (upd_cpage k (set_cplock (sl_held pid)) s).
Proof.
  intros [H1 H2 H3 H4 H5 H6 H7] Hk Hz Ht. unfold getPage. fold (aligned_off offset).
  mstep by (apply acquire_free; simpl; by rewrite H2).
  unfold findPage. rewrite bind_assoc. mrun. cbn [lget l_pclock lset pc_lock locked negb].
  mrun. cbn [pages]. rewrite (find_tagged s _ _ _ k) by done.
  mstep by (unfold holding_spin; erewrite cp_acquire; [reflexivity|by apply H4|simpl; by rewrite H1]).
  mstep by (by apply release_held). mrun. destruct s; simpl in *; subst. done.
Qed.

(** The page at [offset] is in the cache, or not past the end of the file. *)
Definition is_cached (s : pcst) (ip : nat) (offset : Z) : Prop :=
  ∃ k, (k < 30)%nat ∧ tag (cpage s k) = file_tag (pc_fs s) ip (aligned_off offset).
Definition available (s : pcst) (ip : nat) (offset : Z) : Prop :=
  aligned_off offset ≤ i_size (ino (pc_fs s) ip) ∨ is_cached s ip offset.

Lemma getPage_spec ip offset s :
  pc_ok s → readable_file (pc_fs s) ip → coherent s ip →
  0 ≤ offset < 2147483648 → available s ip offset →
  let i := ino (pc_fs s) ip in
  ∃ k s', (k < 30)%nat ∧
    getPage pid dev_read ip offset (i_inum i) (i_dev i) s =
      Ok (Some k) (upd_cpage k (set_cplock (sl_held pid)) s') ∧
    pc_step ip (λ _, False) s s' ∧ tag (cpage s' k) = file_tag (pc_fs s) ip (aligned_off offset).
Proof.
  intros Hok Hf Hcoh Ho Hs i. destruct (aligned_off_eq offset) as (Ha & Ha0 & Ham); [lia|].
  assert (Hz : u32 (i_inum i) ≠ 0) by (destruct Hf as (_ & _ & Hi); unfold i; rewrite u32_small; lia).
  destruct (tag_dec s (file_tag (pc_fs s) ip (aligned_off offset))) as [(k & Hk & Ht)|Hn].
  { exists k, s. split_and!; [done|by apply getPage_hit|by apply pc_step_refl|done]. }
  destruct Hs as [Hs|(k & Hk & Ht)]; [|by destruct (Hn k Hk)].
  rewrite (getPage_miss ip offset (i_inum i) (i_dev i) s Hok Hn).
  pose proof Hok as [H1 H2 H3 H4 H5 H6 H7]. set (o := aligned_off offset) in *.
  set (k := Z.to_nat (totalCount s)). assert (Hk : (k < 30)%nat) by lia.
  assert (Hu : u32 o = o) by (apply u32_small; zlia).
  unfold fill_slot. mrun. rewrite Hu.
  mstep by (apply (zoom_ok l_pcfs); apply (readi_page (pc_fs s) ip o Hf); done). mrun.
  cbn [fst snd]. fold i. fold i in Hs.
  destruct (Z.eqb_spec (Z.min 4096 (i_size i - o)) (-1)); [lia|]. mrun.
  change (cpage (lset l_pcfs _ _) k) with (cpage (taken_slot s) k).
  rewrite (cpage_taken s k) by (rewrite H1; lia). rewrite decide_True by done. cbn [cp_page set_cplock].
  set (v := cp_page (cpage s k)). set (m := wrbytes _ v _).
  change (pcmem _) with (memset (pcmem s) v 0 4096) in m.
  set (t := if totalCount s + 1 =? 30 then 0 else totalCount s + 1).
  assert (Ht : 0 ≤ t < 30) by (unfold t; destruct (Z.eqb_spec (totalCount s + 1) 30); lia).
  exists k, (filled (i_dev i) (i_inum i) o t k m s). split; [done|]. split.
  - unfold mret, M_ret, upd_cpage, filled, set_pages, set_pcmem. simpl. do 2 f_equal.
    apply list_eq. intros j. fold k. rewrite !list_lookup_alter.
    destruct (decide (k = j)); [|done]. rewrite !decide_True by done. by destruct (pages s !! k).
  - apply (filled_step ip); try done; [by apply Hf|].
    intros a. by apply (fill_page (pc_fs s) ip).
Qed.

Definition between (a n : Z) (x : Z) : Prop := a ≤ x < a + n.

Lemma copyPage_spec ip offset dest size dest_offset s :
  pc_ok s → readable_file (pc_fs s) ip → coherent s ip →
  0 ≤ offset < 2147483648 → available s ip offset →
  0 ≤ size → 0 ≤ dest_offset → dest_offset + size ≤ 4096 →
  (∀ a, between dest size a → ¬ cache_addr s a) →
  let i := ino (pc_fs s) ip in
  ∃ s', copyPage pid dev_read ip offset (i_inum i) (i_dev i) dest size dest_offset s = Ok 0 s' ∧
    pc_step ip (between dest size) s s' ∧
    ∀ a, between dest size a →
      rd8 (pcmem s') a = file_at (pc_fs s) ip (aligned_off offset + dest_offset + (a - dest)).
Proof.
  intros Hok Hf Hcoh Ho Hs Hsz Hd Hds Hdisj i.
  destruct (getPage_spec ip offset s Hok Hf Hcoh Ho Hs) as (k & s1 & Hk & E & Hst & Htag).
  pose proof (ps_ok _ _ _ _ Hst) as Hok1. pose proof (po_len _ Hok1) as Hl1.
  assert (Hcoh1 : coherent s1 ip) by (by apply (ps_coherent _ _ _ _ Hst)).
  destruct (Hcoh1 k (aligned_off offset)) as (_ & _ & Hpg); [done|by rewrite (ps_fs _ _ _ _ Hst)|].
  unfold copyPage. mstep E. set (s2 := upd_cpage k (set_cplock (sl_held pid)) s1).
  assert (Hl2 : (k < length (pages s2))%nat) by (simpl; rewrite length_alter, Hl1; lia).
  assert (Hc2 : cpage s2 k = set_cplock (sl_held pid) (cpage s1 k)).
  { unfold s2. rewrite cpage_upd, decide_True by (done || by rewrite Hl1). done. }
  mstep by (apply cp_holding; [by rewrite Hc2|done]). cbn [negb]. mrun. rewrite Hc2. cbn [cp_page set_cplock].
  change (pcmem s2) with (pcmem s1). set (m := memmove _ _ _ _).
  assert (Hm : ∀ a, rd8 m a = if decide (between dest size a)
    then file_at (pc_fs s) ip (aligned_off offset + dest_offset + (a - dest)) else rd8 (pcmem s1) a).
  { intros a. unfold m. rewrite rd8_memmove by done. unfold between. case_decide; [|done].
    rewrite <-(ps_fs _ _ _ _ Hst).
    replace (aligned_off offset + dest_offset + (a - dest)) with
      (aligned_off offset + (dest_offset + (a - dest))) by lia.
    rewrite <-Hpg by lia. f_equal. lia. }
  mstep by (apply (cp_release _ _ pid); [change (cpage (set_pcmem m s2) k) with (cpage s2 k); by rewrite Hc2|simpl; rewrite length_alter, Hl1; lia]).
  exists (set_pcmem m s1). split; [|split].
  - unfold mret, M_ret. f_equal. unfold set_pcmem, s2, upd_cpage, set_pages. simpl. f_equal.
    apply list_eq. intros j. rewrite !list_lookup_alter.
    destruct (decide (k = j)); [subst j|done]. rewrite decide_True by done.
    destruct (pages s1 !! k) as [c|] eqn:Ec; [|done]. simpl. f_equal.
    pose proof (po_free _ Hok1 k Hk) as Hfr. rewrite (lookup_cpage _ _ _ Ec) in Hfr.
    destruct c; simpl in *. by rewrite Hfr.
  - apply (pc_step_trans ip _ (λ _, False) (between dest size) s s1); try done.
    apply pc_step_mem; [done| |].
    + intros a (j & Hj & Hin). rewrite Hm, decide_False; [done|]. intros Hb.
      apply (Hdisj a Hb). exists j. split; [done|]. by rewrite <-(ps_pages _ _ _ _ Hst).
    + intros a Ha. by rewrite Hm, decide_False.
  - intros a Ha. change (pcmem (set_pcmem m s1)) with m. by rewrite Hm, decide_True.
Qed.

(** ** Writing through the cache *)

(** The state after [updatePage] found its page [k]. *)
Lemma updatePage_hit offset inum dev src s k :
  pc_ok s → 0 ≤ offset → (k < 30)%nat → u32 inum ≠ 0 →
  tag (cpage s k) = (dev, u32 inum, aligned_off offset) →
  updatePage pid offset inum dev src s =
    Ok tt (set_pcmem (wrbytes (pcmem s) (cp_page (cpage s k) + offset mod 4096) src) s).
Proof.
  intros Hok Ho Hk Hz Ht. pose proof Hok as [H1 H2 H3 H4 H5 H6 H7].
  unfold updatePage. fold (aligned_off offset).
  replace (Z.rem offset PGSIZE) with (offset mod 4096)
    by (unfold PGSIZE; by rewrite Z.rem_mod_nonneg by lia).
  mstep by (apply acquire_free; simpl; by rewrite H2).
  unfold findPage. rewrite bind_assoc. mrun. cbn [lget l_pclock lset pc_lock locked negb].
  mrun. cbn [pages].
  rewrite (find_tagged s _ _ _ k) by done. cbn beta iota. mrun.
  replace (PcSt _ _ _ _ (Spinlock false)) with s by (destruct s; simpl in *; by subst).
  mstep by (apply cp_acquire; [by apply H4|by rewrite H1]). mrun.
  rewrite cpage_upd, decide_True by (done || by rewrite H1). cbn [cp_page set_cplock].
  set (s2 := upd_cpage k _ s). change (pcmem s2) with (pcmem s). set (m := wrbytes _ _ _).
  rewrite (cp_release _ k pid); cycle 1.
  { change (cpage (set_pcmem m s2) k) with (cpage s2 k). unfold s2.
    by rewrite cpage_upd, decide_True by (done || by rewrite H1). }
  { simpl. by rewrite length_alter, H1. }
  f_equal. unfold set_pcmem, s2, upd_cpage, set_pages. simpl. f_equal.
  apply list_eq. intros j. rewrite !list_lookup_alter.
  destruct (decide (k = j)); [subst j|done]. rewrite decide_True by done.
  destruct (pages s !! k) as [c|] eqn:Hc; [|done]. simpl. f_equal.
  pose proof (H4 k Hk) as Hfr. rewrite (lookup_cpage _ _ _ Hc) in Hfr. destruct c; simpl in *. by rewrite Hfr.
Qed.

Lemma updatePage_miss offset inum dev src s :
  pc_ok s → 0 ≤ offset →
  (∀ k, (k < 30)%nat → tag (cpage s k) ≠ (dev, u32 inum, aligned_off offset)) →
  updatePage pid offset inum dev src s = Ok tt s.
Proof.
  intros Hok Ho Hn. pose proof Hok as [H1 H2 _ _ _ _ _].
  unfold updatePage. fold (aligned_off offset).
  mstep by (apply acquire_free; simpl; by rewrite H2).
  unfold findPage. rewrite bind_assoc. mrun. cbn [lget l_pclock lset pc_lock locked negb].
  mrun. cbn [pages].
  pose proof (find_page_spec (pages s) 0 inum (aligned_off offset) dev) as Hfind.
  destruct (find_page (pages s) 0 inum (aligned_off offset) dev) as [j|].
  - destruct Hfind as (_ & c & Hc & Htag). rewrite Nat.sub_0_r in Hc. exfalso.
    apply (Hn j); [rewrite <-H1; by eapply lookup_lt_Some|]. by rewrite (lookup_cpage _ _ _ Hc).
  - unfold mret, M_ret. f_equal. destruct s; simpl in *. by subst.
Qed.

(** A file's bytes after a write. *)
Lemma file_at_write ip f off src f' x :
  fstate ip f → writei_post ip f off src f' → 0 ≤ off ≤ i_size (ino f ip) → 0 ≤ x →
  file_at f' ip x = if decide (off ≤ x < off + Z.of_nat (length src))
    then byte_at src (Z.to_nat (x - off)) else file_at f ip x.
Proof.
  intros Hst Hw Ho Hx. unfold file_at.
  assert (Ez : i_size (ino f' ip) = Z.max (i_size (ino f ip)) (off + Z.of_nat (length src)))
    by (by rewrite (wp_inode _ _ _ _ _ Hw)).
  destruct (Z.ltb_spec x (i_size (ino f' ip))) as [Hlt|Hge].
  - rewrite (wp_bytes _ _ _ _ _ Hw) by lia. case_decide; [done|].
    destruct (Z.ltb_spec x (i_size (ino f ip))); [done|lia].
  - rewrite decide_False by lia. destruct (Z.ltb_spec x (i_size (ino f ip))); [lia|done].
Qed.

Lemma updatePage_spec ip f off src s :
  pc_ok s → coherent s ip → f = pc_fs s → readable_file f ip →
  ∀ f', writei_post ip f off src f' → 0 ≤ off ≤ i_size (ino f ip) → Forall is_byte src →
  off mod 4096 + Z.of_nat (length src) ≤ 4096 →
  let i := ino f ip in
  ∃ m, updatePage pid off (i_inum i) (i_dev i) src (lset l_pcfs f' s) =
      Ok tt (set_pcmem m (lset l_pcfs f' s)) ∧
    (∀ a, ¬ cache_addr s a → rd8 m a = rd8 (pcmem s) a) ∧
    coherent (set_pcmem m (lset l_pcfs f' s)) ip.
Proof.
  intros Hok Hcoh -> Hf f' Hw Ho Hby Hfit i. set (s1 := lset l_pcfs f' s).
  assert (Hok1 : pc_ok s1) by (by destruct Hok). pose proof Hok as [H1 H2 H3 H4 H5 H6 H7].
  destruct (aligned_off_eq off) as (Ha & Ha0 & Ham); [lia|].
  assert (Etag : ∀ o, file_tag f' ip o = file_tag (pc_fs s) ip o)
    by (intros o; unfold file_tag; by rewrite (wp_inode _ _ _ _ _ Hw)).
  assert (Hz : u32 (i_inum i) ≠ 0) by (destruct Hf as (_ & _ & Hi); unfold i; rewrite u32_small; lia).
  (* Pages the write does not touch. *)
  assert (Hother : ∀ o x, o mod 4096 = 0 → o ≠ aligned_off off → 0 ≤ o → o ≤ x < o + 4096 →
    file_at f' ip x = file_at (pc_fs s) ip x).
  { intros o x Hom Hne Ho0 Hx. rewrite (file_at_write ip (pc_fs s) off src) by (apply Hf || done || lia).
    rewrite decide_False; [done|]. zlia. }
  destruct (tag_dec s (i_dev i, u32 (i_inum i), aligned_off off)) as [(k & Hk & Ht)|Hn].
  - eexists. split; [apply (updatePage_hit _ _ _ _ _ k); try done; lia|].
    change (cpage s1 k) with (cpage s k). set (v := cp_page (cpage s k)).
    change (pcmem s1) with (pcmem s).
    assert (Hm : ∀ a, rd8 (wrbytes (pcmem s) (v + off mod 4096) src) a =
      if decide (between (v + off mod 4096) (Z.of_nat (length src)) a)
      then byte_at src (Z.to_nat (a - (v + off mod 4096))) else rd8 (pcmem s) a).
    { intros a. rewrite rd8_wrbytes. unfold between. case_decide; [|done].
      apply u8_small. by apply (byte_at_range src). }
    split.
    + intros a Hn. rewrite Hm, decide_False; [done|]. intros Hb. apply Hn. exists k.
      split; [lia|]. unfold between, in_page, v in *. zlia.
    + intros j o Hj. change (cpage (set_pcmem _ s1) j) with (cpage s j).
      change (pc_fs (set_pcmem _ s1)) with f'. rewrite Etag. intros Htj.
      destruct (Hcoh j o Hj Htj) as (Q1 & Q2 & Q3). split_and!; try done. intros x Hx.
      change (pcmem (set_pcmem ?m s1)) with m. rewrite Hm.
      destruct (decide (j = k)) as [->|Hjk].
      * assert (o = aligned_off off) as -> by (unfold file_tag in *; congruence). fold v.
        rewrite (file_at_write ip (pc_fs s) off src) by (apply Hf || done || lia).
        rewrite <-Q3 by lia. fold v. unfold between.
        repeat case_decide; try lia. f_equal. lia.
      * rewrite decide_False.
        { rewrite Q3 by done. symmetry. apply (Hother o); try done; [|lia]. intros ->.
          apply Hjk, H7; [done|lia| |by rewrite Htj, Ht].
          unfold file_tag, tag in Htj. injection Htj as _ -> _. done. }
        intros Hb. apply Hjk, H6; [done|lia|].
        apply (page_disjoint _ _ (cp_page (cpage s j) + x)); [apply H5; lia|apply H5; lia|unfold in_page; lia|].
        unfold in_page, between, v in *. zlia.
  - exists (pcmem s). rewrite updatePage_miss; [|done|lia|].
    + split_and!; [by destruct s as [[] ? ? ? ?]|done|].
      intros j o Hj. change (cpage (set_pcmem _ s1) j) with (cpage s j).
      change (pc_fs (set_pcmem _ s1)) with f'. rewrite Etag. intros Htj.
      destruct (Hcoh j o Hj Htj) as (Q1 & Q2 & Q3). split_and!; try done. intros x Hx.
      change (pcmem (set_pcmem ?m s1)) with m. rewrite Q3 by done. symmetry.
      apply (Hother o); try done; [|lia]. intros ->. by apply (Hn j).
    + done.
Qed.

(** ** Initialisation *)

(** The first [i] entries have a page of their own, the rest is as in a
    zero-initialised table. *)
Record init_inv (i : nat) (s : pcst) (l : list Z) : Prop := {
  ii_free : free_pages (pc_vm s) l;
  ii_len : length (pages s) = 30%nat;
  ii_lock : pc_lock s = unlocked;
  ii_inum : ∀ k, cp_inum (cpage s k) = 0;
  ii_free_lock : ∀ k, (k < i)%nat → cp_lock (cpage s k) = sl_free;
  ii_page : ∀ k, (k < i)%nat → page (cp_page (cpage s k)) ∧ cp_page (cpage s k) ∉ l;
  ii_inj : ∀ k k', (k < i)%nat → (k' < i)%nat →
    cp_page (cpage s k) = cp_page (cpage s k') → k = k';
}.

Lemma pagecacheinit_loop_spec n i s l :
  init_inv i s l → (i + n = 30)%nat → (n ≤ length l)%nat →
  ∃ s', pagecacheinit_loop n i s = Ok true s' ∧ init_inv 30 s' (drop n l) ∧ pc_fs s' = pc_fs s.
Proof.
  revert i s l. induction n as [|n IH]; intros i s l Hinv Hi Hl.
  { exists s. rewrite Nat.add_0_r in Hi. subst i. done. }
  destruct l as [|v l]; [simpl in Hl; lia|]. destruct Hinv as [F1 F2 F3 F4 F5 F6 F7].
  cbn [pagecacheinit_loop]. destruct (kalloc_cons _ _ _ F1) as (vm1 & E & Hf1 & _).
  pose proof F1 as (_ & Hnd & Hpg & _). apply NoDup_cons in Hnd as [Hvn Hnd].
  apply Forall_cons in Hpg as [Hv Hpl]. pose proof (page_pos v Hv).
  mstep (zoom_ok l_pcvm kalloc s v _ E). mrun.
  destruct (Z.eqb_spec v 0); [lia|]. mrun.
  set (s3 := set_pcmem _ _).
  assert (Hc : ∀ k, cpage s3 k = if decide (i = k) then set_cplock sl_free (set_cppage v (cpage s k))
    else cpage s k).
  { intros k. unfold s3. cbn [initsleeplock]. unfold cpage, set_pcmem. simpl.
    rewrite !list_lookup_alter. destruct (decide (i = k)); [subst k|done]. rewrite decide_True by done.
    destruct (lookup_lt_is_Some_2 (pages s) i) as [c ->]; [lia|done]. }
  destruct (IH (S i) s3 l) as (s' & E' & Hinv & Hfs); [|lia|simpl in Hl; lia|].
  - split.
    + change (pc_vm s3) with (set_vmem (memset (vmem vm1) v 0 PGSIZE) vm1).
      apply free_pages_frame; [done|]. intros w a Hw Ha. unfold PGSIZE.
      rewrite rd8_memset, decide_False; [done| |lia]. intros Hin.
      rewrite Forall_forall in Hpl. apply Hvn. replace v with w; [done|].
      apply (page_disjoint w v a); auto.
    + unfold s3. simpl. by rewrite !length_alter.
    + done.
    + intros k. rewrite Hc. case_decide; apply F4.
    + intros k Hk. rewrite Hc. case_decide; [done|]. apply F5. lia.
    + intros k Hk. rewrite Hc. case_decide; [done|]. destruct (F6 k) as [Q1 Q2]; [lia|].
      split; [done|]. by apply not_elem_of_cons in Q2 as [_ ?].
    + assert (Hne : ∀ k, (k < i)%nat → cp_page (cpage s k) ≠ v).
      { intros k Hk Ev. destruct (F6 k Hk) as [_ Q]. apply Q. rewrite Ev. by left. }
      intros k k' Hk Hk'. rewrite !Hc. repeat case_decide; subst; simpl; try done; intros Ee.
      * destruct (Hne k'); [lia|done].
      * destruct (Hne k); [lia|done].
      * apply F7; try done; lia.
  - exists s'. by rewrite E'.
Qed.

(** From an empty table and thirty free pages, [pagecacheinit] sets up an
    empty cache. *)
Lemma pagecacheinit_ok s l :
  free_pages (pc_vm s) l → (30 ≤ length l)%nat → pages s = replicate 30 cpage0 →
  ∃ s', pagecacheinit s = Ok tt s' ∧ pc_ok s' ∧ free_pages (pc_vm s') (drop 30 l) ∧
    pc_fs s' = pc_fs s ∧ ∀ k, cp_inum (cpage s' k) = 0.
Proof.
  intros Hf Hl Hp. unfold pagecacheinit. mrun.
  destruct (pagecacheinit_loop_spec 30 0 (lset l_pclock unlocked s) l) as (s' & E & Hinv & Hfs); try done.
  { split; try done; try (intros; lia); simpl.
    - by rewrite Hp.
    - intros k. unfold cpage. simpl. rewrite Hp. destruct (replicate 30 cpage0 !! k) eqn:Ek; [|done].
      by apply lookup_replicate in Ek as [-> _]. }
  change (Z.to_nat NPAGECACHE) with 30%nat. mstep E. cbn beta iota.
  exists (set_total 0 s'). destruct Hinv as [F1 F2 F3 F4 F5 F6 F7].
  split_and!; try done. split; try done; simpl.
  - intros k Hk. by apply F6.
  - intros k k' _ _ Hz. change (cpage (set_total 0 s') k) with (cpage s' k) in Hz. by rewrite F4 in Hz.
Qed.

(** A page that lies past the end of the file. *)
Lemma copyPage_eof ip offset dest size dest_offset s :
  pc_ok s → readable_file (pc_fs s) ip →
  0 ≤ offset < 2147483648 → i_size (ino (pc_fs s) ip) < aligned_off offset →
  (∀ k, (k < 30)%nat → tag (cpage s k) ≠ file_tag (pc_fs s) ip (aligned_off offset)) →
  let i := ino (pc_fs s) ip in
  let k := Z.to_nat (totalCount s) in
  ∃ s', copyPage pid dev_read ip offset (i_inum i) (i_dev i) dest size dest_offset s = Ok 0 s' ∧
    length (pages s') = 30%nat ∧
    cpage s' k = set_cplock (sl_held pid) (cpage s k) ∧
    ∀ a, rd8 (pcmem s') a = if decide (in_page (cp_page (cpage s k)) a) then 0 else rd8 (pcmem s) a.
Proof.
  intros Hok Hf Ho Hs Hn i k. pose proof Hok as [H1 H2 H3 H4 H5 H6 H7].
  destruct (aligned_off_eq offset) as (Ha & Ha0 & Ham); [lia|].
  pose proof (fo_size _ _ _ (proj2 (proj2 (proj2 (proj1 Hf))))).
  assert (Hu : u32 (aligned_off offset) = aligned_off offset) by (apply u32_small; zlia).
  assert (Er : readi dev_read ip (aligned_off offset) PGSIZE (pc_fs s) = Ok (-1, []) (pc_fs s)).
  { destruct Hf as (Hst & Htp & _). rewrite (readi_spec ip) by (try done; unfold PGSIZE; zlia).
    destruct (Z.gtb_spec (aligned_off offset) (i_size (ino (pc_fs s) ip))); [done|lia]. }
  set (v := cp_page (cpage s k)).
  assert (Eg : getPage pid dev_read ip offset (i_inum i) (i_dev i) s =
    Ok None (set_pcmem (memset (pcmem s) v 0 PGSIZE) (taken_slot s))).
  { rewrite (getPage_miss ip offset (i_inum i) (i_dev i) s Hok Hn). unfold fill_slot. mrun. rewrite Hu.
    mstep by (apply (zoom_ok l_pcfs); exact Er). mrun. fold k.
    rewrite (cpage_taken s k) by (rewrite H1; lia). rewrite decide_True by done. done. }
  unfold copyPage. mstep Eg. eexists. split; [done|]. split_and!.
  - simpl. by rewrite length_alter.
  - change (cpage (set_pcmem _ ?x) k) with (cpage x k).
    rewrite cpage_taken by (rewrite H1; lia). by rewrite decide_True.
  - intros a. change (pcmem (set_pcmem ?m _)) with m. unfold PGSIZE. by rewrite rd8_memset.
Qed.
End spec.

(** ** An empty cache *)

#[local] Existing Instance example_linker.
Definition demo_page (k : nat) : cached_page :=
  CachedPage 0 0 0 0 (PGROUNDUP kend + 4096 * Z.of_nat k) sl_free.
Definition demo_pc (f : fsst) : pcst :=
  PcSt empty_mem f (demo_page <$> seq 0 30) 0 unlocked.

Lemma demo_cpage f k : (k < 30)%nat → cpage (demo_pc f) k = demo_page k.
Proof. intros Hk. unfold cpage. change (pages (demo_pc f)) with (demo_page <$> seq 0 30).
  by rewrite list_lookup_fmap, lookup_seq_lt. Qed.

Lemma demo_pc_ok f : pc_ok (demo_pc f).
Proof.
  split; try done.
  - intros k Hk. by rewrite demo_cpage.
  - intros k Hk. rewrite demo_cpage by done. pose proof boot_pages as Hb.
    rewrite Forall_forall in Hb. apply Hb, elem_of_page_run. exists (Z.of_nat k). split; [lia|done].
  - intros k k' Hk Hk'. rewrite !demo_cpage by done. simpl. lia.
  - intros k k' Hk Hk'. by rewrite demo_cpage.
Qed.

Lemma demo_untagged f ip o : 0 < i_inum (ino f ip) < 4294967296 →
  ∀ k, (k < 30)%nat → tag (cpage (demo_pc f) k) ≠ file_tag f ip o.
Proof.
  intros Hi k Hk. rewrite demo_cpage by done. unfold file_tag, tag. simpl.
  rewrite (u32_small (i_inum _)) by lia. change (u32 0) with 0. intros [=]. lia.
Qed.

Lemma demo_coherent f ip : 0 < i_inum (ino f ip) < 4294967296 → coherent (demo_pc f) ip.
Proof. intros Hi k o Hk Ht. by destruct (demo_untagged f ip o Hi k Hk). Qed.

Lemma demo_inum : 0 < i_inum (ino (demo_fs T_FILE) 0) < 4294967296.
Proof. by vm_compute. Qed.

Lemma demo_readable : readable_file (demo_fs T_FILE) 0.
Proof. split_and!; [apply demo_fstate|done|done|done]. Qed.

(** ** Claims *)

(** C26. Reading a file through the page cache: from a coherent cache,
    [copyPage] copies to [dest] exactly the file's bytes at the page-aligned
    offset plus [dest_offset] (zeros past the end of the file), whether the
    page was cached or has to be read and replaces another one.  It changes no
    other memory but the cache's own pages, not the file system, and leaves the
    cache coherent for this and for every other file, with all locks
    released.  The exception is a page that begins past the end of the file and
    is not cached: then [copyPage] returns the same 0 but copies nothing, clears
    the page of the next slot, which keeps its tag, and leaves that slot locked:
    whoever asks for it from then on sleeps. *)
Theorem copyPage_reads_file {L : Linker} pid dev_read ip offset dest size dest_offset s :
  pc_ok s → readable_file (pc_fs s) ip → coherent s ip → 0 ≤ offset < 2147483648 →
  0 ≤ size → 0 ≤ dest_offset → dest_offset + size ≤ 4096 →
  (∀ a, between dest size a → ¬ cache_addr s a) →
  let i := ino (pc_fs s) ip in
  ∃ s', copyPage pid dev_read ip offset (i_inum i) (i_dev i) dest size dest_offset s = Ok 0 s' ∧
    (available s ip offset →
      pc_step ip (between dest size) s s' ∧
      ∀ a, between dest size a →
        rd8 (pcmem s') a = file_at (pc_fs s) ip (aligned_off offset + dest_offset + (a - dest))) ∧
    (¬ available s ip offset →
      let k := Z.to_nat (totalCount s) in
      tag (cpage s' k) = tag (cpage s k) ∧
      (∀ a, rd8 (pcmem s') a = if decide (in_page (cp_page (cpage s k)) a) then 0 else rd8 (pcmem s) a) ∧
      ∀ pid' ch, acquiresleep (l_cplock k) pid' ch s' = Sleep ch s').
Proof.
  intros Hok Hf Hcoh Ho Hsz Hd Hds Hdisj i.
  destruct (Z.le_gt_cases (aligned_off offset) (i_size i)) as [Hle|Hgt];
    [|destruct (tag_dec s (file_tag (pc_fs s) ip (aligned_off offset))) as [Hc|Hn]].
  1,2: assert (Hav : available s ip offset) by (by left + by right);
    destruct (copyPage_spec pid dev_read ip offset dest size dest_offset s) as (s' & E & Hst & Hb); try done;
    exists s'; split; [done|]; split; [done|]; intros Hna; by destruct Hna.
  destruct (copyPage_eof pid dev_read ip offset dest size dest_offset s) as (s' & E & Hl & Hc & Hm); try done.
  exists s'. split; [done|]. split; [intros [Hle|(k & Hk & Ht)]; [unfold i in *; lia|by destruct (Hn k Hk)]|].
  intros _. split; [by rewrite Hc|]. split; [done|]. intros pid' ch.
  apply (cp_acquire_busy _ _ _ _ pid); [by rewrite Hc|]. pose proof (po_total _ Hok). lia.
Qed.

Lemma copyPage_reads_file_witness :
  (∃ s', copyPage 7 (λ _, None) 0 0 1 1 0x8000 512 16 (demo_pc (demo_fs T_FILE)) = Ok 0 s' ∧
    pc_ok s' ∧ rd8 (pcmem s') 0x8000 = 0) ∧
  ∃ s', copyPage 7 (λ _, None) 0 4096 1 1 0x8000 512 0 (demo_pc (demo_fs T_FILE)) = Ok 0 s' ∧
    ∀ pid' ch, acquiresleep (l_cplock 0) pid' ch s' = Sleep ch s'.
Proof.
  assert (Hd : ∀ a, between 0x8000 512 a → ¬ cache_addr (demo_pc (demo_fs T_FILE)) a).
  { intros a Ha (k & Hk & Hin). rewrite demo_cpage in Hin by done.
    unfold between, in_page, demo_page in *. cbn [cp_page] in Hin.
    assert (PGROUNDUP kend > 0x80000000) by (by vm_compute). lia. }
  split.
  - destruct (copyPage_reads_file 7 (λ _, None) 0 0 0x8000 512 16 (demo_pc (demo_fs T_FILE)))
      as (s' & E & Hst & _); [apply demo_pc_ok|apply demo_readable|apply demo_coherent, demo_inum|lia..|exact Hd|].
    destruct Hst as [Hst Hb]; [left; by vm_compute|].
    exists s'. split; [exact E|]. split; [apply (ps_ok _ _ _ _ Hst)|].
    rewrite (Hb 0x8000) by (unfold between; lia). by vm_compute.
  - destruct (copyPage_reads_file 7 (λ _, None) 0 4096 0x8000 512 0 (demo_pc (demo_fs T_FILE)))
      as (s' & E & _ & Hst); [apply demo_pc_ok|apply demo_readable|apply demo_coherent, demo_inum|lia..|exact Hd|].
    destruct Hst as (_ & _ & Hlk).
    + intros [Hle|(k & Hk & Ht)]; [by vm_compute in Hle|]. by apply (demo_untagged (demo_fs T_FILE) 0 (aligned_off 4096) demo_inum k Hk).
    + exists s'. split; [exact E|exact Hlk].
Defined.

(** A write that crosses a page boundary overruns the cached page:
    [filewrite] passes up to 1536 bytes to [updatePage], which copies all of
    them from the offset in the page on, so the bytes past the boundary land
    in the next page of physical memory, whatever it is used for. *)
Theorem updatePage_overruns_page {L : Linker} pid off inum dev src s k :
  pc_ok s → 0 ≤ off → (k < 30)%nat → u32 inum ≠ 0 →
  tag (cpage s k) = (dev, u32 inum, aligned_off off) →
  ∃ s', updatePage pid off inum dev src s = Ok tt s' ∧
    ∀ j, 4096 ≤ off mod 4096 + Z.of_nat j → (j < length src)%nat →
      rd8 (pcmem s') (cp_page (cpage s k) + off mod 4096 + Z.of_nat j) = u8 (byte_at src j) ∧
      ¬ in_page (cp_page (cpage s k)) (cp_page (cpage s k) + off mod 4096 + Z.of_nat j).
Proof.
  intros Hok Ho Hk Hz Ht. rewrite (updatePage_hit pid off inum dev src s k) by done.
  eexists. split; [done|]. intros j Hj Hl. change (pcmem (set_pcmem ?m _)) with m.
  rewrite rd8_wrbytes, decide_True by lia. split.
  - unfold byte_at. do 3 f_equal. lia.
  - unfold in_page. lia.
Qed.

(** A cache whose first slot holds the first page of inode 1. *)
Definition demo_cached : pcst :=
  upd_cpage 0 (set_tag 1 1 0) (demo_pc (demo_fs T_FILE)).

Lemma demo_cached_ok : pc_ok demo_cached.
Proof.
  destruct (demo_pc_ok (demo_fs T_FILE)) as [H1 H2 H3 H4 H5 H6 H7].
  assert (Hc : ∀ k, (k < 30)%nat → cpage demo_cached k =
    if decide (0%nat = k) then set_tag 1 1 0 (demo_page k) else demo_page k).
  { intros k Hk. unfold demo_cached. rewrite cpage_upd by (rewrite H1; lia). by rewrite demo_cpage. }
  split; try done.
  - intros k Hk. rewrite Hc by done. by case_decide.
  - intros k Hk. rewrite Hc by done. specialize (H5 k Hk). rewrite demo_cpage in H5 by done.
    by case_decide.
  - intros k k' Hk Hk'. rewrite !Hc by done. repeat case_decide; simpl; lia.
  - intros k k' Hk Hk'. rewrite !Hc by done.
    repeat case_decide; subst; intros Hz Ht; try done; by destruct Hz.
Qed.

Lemma updatePage_overruns_page_witness :
  ∃ s', updatePage 7 4000 1 1 (replicate 1536 65) demo_cached = Ok tt s' ∧
    rd8 (pcmem s') (PGROUNDUP kend + 4096) = 65.
Proof.
  destruct (updatePage_overruns_page 7 4000 1 1 (replicate 1536 65) demo_cached 0)
    as (s' & E & Hb).
  - apply demo_cached_ok.
  - lia.
  - lia.
  - by vm_compute.
  - by vm_compute.
  - exists s'. split; [exact E|]. destruct (Hb 96%nat) as [Hx _]; [done|rewrite length_replicate; lia|].
    replace (PGROUNDUP kend + 4096) with (cp_page (cpage demo_cached 0) + 4000 mod 4096 + Z.of_nat 96)
      by (by vm_compute).
    rewrite Hx. by vm_compute.
Defined.
