(* ===== verification/File.v ===== *)
(** * Open files (file.c, and pipealloc of pipe.c)

    The table of open files with its reference counts, and reading, writing
    and closing a file whatever is behind it.  Data is passed as lists of
    bytes; [filewrite] writes at most three blocks per transaction and passes
    what it wrote to the page cache.  A [struct file *] is an index into the
    table, a [struct pipe *] an index into the list of pipes, each with the
    page it lives in. *)

From Stdlib Require Import ZArith Lia.
From stdpp Require Import base numbers strings gmap list.
From S2P Require Import Prelude Mmu Memory Locks Kalloc Proc0 Bytes Disk Fs FsBlocks FsInode FsFile FsRw.
From S2P Require Import Pagecache Pipe.

Definition NFILE : Z := 100.

Record kpipe := KPipe { kp_page : Z; kp_pipe : pipe }.

Record filest := FileSt {
  fl_pc : pcst;
  fl_pipes : list kpipe;
  fl_lock : spinlock;
  fl_file : list file;
}.

Definition l_fpc : lens filest pcst :=
  Lens fl_pc (λ v s, FileSt v (fl_pipes s) (fl_lock s) (fl_file s)).
Definition l_flock : lens filest spinlock :=
  Lens fl_lock (λ v s, FileSt (fl_pc s) (fl_pipes s) v (fl_file s)).
Definition l_ffs : lens filest fsst := lcomp l_fpc l_pcfs.
Definition l_fvm : lens filest vmst := lcomp l_fpc l_pcvm.
Definition set_files (l : list file) (s : filest) : filest :=
  FileSt (fl_pc s) (fl_pipes s) (fl_lock s) l.
Definition set_pipes (l : list kpipe) (s : filest) : filest :=
  FileSt (fl_pc s) l (fl_lock s) (fl_file s).

Definition get_file (f : nat) : M filest file := λ s,
  match fl_file s !! f with Some x => Ok x s | None => Undef "file pointer" end.
Definition upd_file (f : nat) (g : file → file) : M filest unit := λ s,
  match fl_file s !! f with
  | Some x => Ok tt (set_files (<[f := g x]> (fl_file s)) s)
  | None => Undef "file pointer"
  end.
Definition with_ref (r : Z) (x : file) : file :=
  File (f_type x) r (readable x) (writable x) (f_pipe x) (f_ip x) (f_off x).
Definition with_type (t : file_type) (x : file) : file :=
  File t (f_ref x) (readable x) (writable x) (f_pipe x) (f_ip x) (f_off x).
Definition with_off (o : Z) (x : file) : file :=
  File (f_type x) (f_ref x) (readable x) (writable x) (f_pipe x) (f_ip x) o.
Definition with_pipe (r w : bool) (p : option nat) (x : file) : file :=
  File FD_PIPE (f_ref x) r w p (f_ip x) (f_off x).

(** Run an operation on the pipe a file points to. *)
Definition on_pipe {A} (p : option nat) (m : M pipe A) : M filest A := λ s,
  match p with
  | None => Undef "pipe pointer"
  | Some i =>
      match fl_pipes s !! i with
      | None => Undef "pipe pointer"
      | Some k =>
          zoom (Lens (λ _, kp_pipe k)
            (λ q s, set_pipes (<[i := KPipe (kp_page k) q]> (fl_pipes s)) s)) m s
      end
  end.
Definition pipe_page (p : option nat) (s : filest) : Z :=
  match p with Some i => from_option kp_page 0 (fl_pipes s !! i) | None => 0 end.

(** The channels of a pipe. *)
Definition pipe_chan (p : option nat) (c : chan) : Z :=
  2 * Z.of_nat (default 0%nat p) + match c with NREAD => 0 | NWRITE => 1 end.

(** ** The table *)

Definition fileinit : M filest unit := modify (lset l_flock unlocked).

Fixpoint filealloc_scan (l : list file) (i : nat) : option nat :=
  match l with
  | [] => None
  | f :: l => if f_ref f =? 0 then Some i else filealloc_scan l (S i)
  end.
Definition filealloc : M filest (option nat) :=
  acquire l_flock;;
  l ← gets fl_file;
  match filealloc_scan l 0 with
  | Some f =>
      upd_file f (with_ref 1);;
      release l_flock;;
      mret (Some f)
  | None =>
      release l_flock;;
      mret None
  end.

Definition filedup (f : nat) : M filest nat :=
  acquire l_flock;;
  x ← get_file f;
  if f_ref x <? 1 then panic "filedup"
  else
    upd_file f (with_ref (f_ref x + 1));;
    release l_flock;;
    mret f.

Section file.
Context {L : Linker}.
(** The running process and the device switch. *)
Context (pid : Z) (killed : bool).
Context (dev_read : Z → option (nat → Z → M fsst (Z * list Z))).
Context (dev_write : Z → option (nat → list Z → M fsst Z)).

(** The part of [fileclose] that runs when the last reference is gone. *)
Definition file_gone (ff : file) : M filest unit :=
  match f_type ff with
  | FD_PIPE =>
      free ← on_pipe (f_pipe ff) (pipeclose (writable ff));
      if free : bool then
        pg ← gets (pipe_page (f_pipe ff));
        zoom l_fvm (kfree pg)
      else mret tt
  | FD_INODE =>
      zoom (lcomp l_ffs l_ld) ld_begin_op;;
      match f_ip ff with
      | Some ip => zoom l_ffs (iput pid ip)
      | None => undef "iput"
      end;;
      zoom (lcomp l_ffs l_ld) ld_end_op
  | FD_NONE => mret tt
  end.
Definition fileclose (f : nat) : M filest unit :=
  acquire l_flock;;
  x ← get_file f;
  if f_ref x <? 1 then panic "fileclose"
  else
    upd_file f (with_ref (f_ref x - 1));;
    if f_ref x - 1 >? 0 then release l_flock
    else
      ff ← get_file f;
      upd_file f (with_ref 0);;
      upd_file f (with_type FD_NONE);;
      release l_flock;;
      file_gone ff.

(** [None] is the result -1. *)
Definition filestat (f : nat) : M filest (option stat) :=
  x ← get_file f;
  match f_type x, f_ip x with
  | FD_INODE, Some ip =>
      zoom l_ffs (ilock pid (Some ip));;
      st ← zoom l_ffs (stati ip);
      zoom l_ffs (iunlock pid (Some ip));;
      mret (Some st)
  | FD_INODE, None => panic "ilock"
  | _, _ => mret None
  end.

(** Returns the result and the bytes stored at [addr]. *)
Definition fileread (f : nat) (n : Z) : M filest (Z * list Z) :=
  x ← get_file f;
  if negb (readable x) then mret (-1, [])
  else
    match f_type x with
    | FD_PIPE =>
        r ← on_pipe (f_pipe x) (piperead killed (Z.to_nat n));
        match r with
        | ReadBytes bs => mret (Z.of_nat (length bs), bs)
        | ReadFails => mret (-1, [])
        | ReadSleeps => sleep_on (pipe_chan (f_pipe x) NREAD)
        end
    | FD_INODE =>
        zoom l_ffs (ilock pid (f_ip x));;
        x ← get_file f;
        '(r, bs) ← zoom l_ffs (readi dev_read (default 0%nat (f_ip x)) (f_off x) (u32 n));
        when (r >? 0) (upd_file f (with_off (u32 (f_off x + r))));;
        zoom l_ffs (iunlock pid (f_ip x));;
        mret (r, bs)
    | FD_NONE => panic "fileread"
    end.

Definition WRITE_MAX : Z := ((MAXOPBLOCKS - 1 - 1 - 2) / 2) * 512.

(** One iteration of the loop of [filewrite]: a transaction. *)
Definition filewrite_chunk (f : nat) (src : list Z) : M filest Z :=
  x ← get_file f;
  zoom (lcomp l_ffs l_ld) ld_begin_op;;
  zoom l_ffs (ilock pid (f_ip x));;
  x ← get_file f;
  let ip := default 0%nat (f_ip x) in
  r ← zoom l_ffs (writei dev_write ip src (f_off x));
  (if r >? 0 then
     i ← zoom l_ffs (get_inode ip);
     zoom l_fpc (updatePage pid (f_off x) (i_inum i) (i_dev i) (take (Z.to_nat r) src));;
     upd_file f (with_off (u32 (f_off x + r)))
   else mret tt);;
  zoom l_ffs (iunlock pid (f_ip x));;
  zoom (lcomp l_ffs l_ld) ld_end_op;;
  mret r.
Fixpoint filewrite_loop (fuel f : nat) (src : list Z) (i n : Z) : M filest Z :=
  match fuel with
  | O => nofuel
  | S fuel =>
      if i <? n then
        let n1 := Z.min (n - i) WRITE_MAX in
        r ← filewrite_chunk f (slice (Z.to_nat i) (Z.to_nat n1) src);
        if r <? 0 then mret (if i =? n then n else -1)
        else if negb (r =? n1) then panic "short filewrite"
        else filewrite_loop fuel f src (i + r) n
      else mret (if i =? n then n else -1)
  end.
(** [src] holds the [n] bytes at [addr]. *)
Definition filewrite (f : nat) (src : list Z) : M filest Z :=
  x ← get_file f;
  if negb (writable x) then mret (-1)
  else
    match f_type x with
    | FD_PIPE =>
        r ← on_pipe (f_pipe x) (pipewrite killed src);
        match r with
        | WroteAll => mret (Z.of_nat (length src))
        | WriteFails _ => mret (-1)
        | WriteSleeps _ => sleep_on (pipe_chan (f_pipe x) NWRITE)
        end
    | FD_INODE =>
        filewrite_loop (S (S (length src))) f src 0 (Z.of_nat (length src))
    | FD_NONE => panic "filewrite"
    end.

(** [pipealloc] of pipe.c; the new page's contents are [data].  [None] is the
    result -1. *)
Definition pipealloc (data : list Z) : M filest (option (nat * nat)) :=
  let bad (f0 f1 : option nat) : M filest (option (nat * nat)) :=
    match f0 with Some f => fileclose f | None => mret tt end;;
    match f1 with Some f => fileclose f | None => mret tt end;;
    mret None in
  r0 ← filealloc;
  match r0 with
  | None => bad None None
  | Some f0 =>
      r1 ← filealloc;
      match r1 with
      | None => bad (Some f0) None
      | Some f1 =>
          pg ← zoom l_fvm kalloc;
          if pg =? 0 then bad (Some f0) (Some f1)
          else
            p ← gets (λ s, length (fl_pipes s));
            modify (λ s, set_pipes (fl_pipes s ++ [KPipe pg (pipe_init data)]) s);;
            upd_file f0 (with_pipe true false (Some p));;
            upd_file f1 (with_pipe false true (Some p));;
            mret (Some (f0, f1))
      end
  end.
End file.
