(* ===== verification/FileSpec.v ===== *)
(** * Open files: reference counts, and writing through the page cache

    Specifications of [file.c]: the reference counts of the file table, and
    [filewrite] as a sequence of transactions that keeps the page cache
    coherent. *)

From Stdlib Require Import ZArith Lia.
From stdpp Require Import base numbers strings gmap list.
From S2P Require Import Prelude Mmu Memory Locks Kalloc Proc0 Bytes Disk Fs FsBlocks FsInode FsFile FsRw.
From S2P Require Import Pagecache Pipe File.

(** ** The lock of an inode *)

Section lock.
Context (ip : nat).

Definition ilk (l : sleeplock) (F : fsst) : fsst := lset (l_ilock ip) l F.
Definition set_lock (l : sleeplock) (i : inode) : inode :=
  Inode (i_dev i) (i_inum i) (i_ref i) l (i_valid i) (i_type i) (i_major i) (i_minor i)
    (i_nlink i) (i_size i) (i_addrs i).

Lemma ino_ilk l F j :
  (ip < length (ic_inode F))%nat →
  ino (ilk l F) j = if decide (ip = j) then set_lock l (ino F j) else ino F j.
Proof.
  intros Hip. unfold ino, ilk. simpl. rewrite list_lookup_alter. case_decide; [subst j|done].
  destruct (lookup_lt_is_Some_2 _ _ Hip) as [i ->]. done.
Qed.

Lemma length_ilk l F : length (ic_inode (ilk l F)) = length (ic_inode F).
Proof. simpl. by rewrite length_alter. Qed.

Lemma ilk_ilk l l' F : ilk l (ilk l' F) = ilk l F.
Proof.
  unfold ilk. simpl. unfold set_ic. simpl. f_equal. apply list_eq. intros j.
  rewrite !list_lookup_alter. destruct (decide (ip = j)); [|done]. rewrite decide_True by done.
  by destruct (ic_inode F !! ip).
Qed.

Lemma l_ilock_at F : (ip < length (ic_inode F))%nat → lens_at (l_ilock ip) F.
Proof.
  intros Hip. split.
  - intros l. change (i_lock (ino (ilk l F) ip) = l). rewrite ino_ilk by done. by rewrite decide_True.
  - intros l l'. apply ilk_ilk.
  - destruct F as [ld sb lk ic]. simpl. unfold set_ic, ino in *. simpl in *. f_equal.
    apply list_eq. intros j. rewrite list_lookup_alter. case_decide; [subst j|done].
    destruct (ic !! ip) as [i|]; [|done]. by destruct i.
Qed.

Lemma file_ok_lock d sb l i : file_ok d sb i → file_ok d sb (set_lock l i).
Proof. by intros []. Qed.
Lemma fstate_ilk l F : fstate ip F → fstate ip (ilk l F).
Proof.
  intros (Hip & Hh & Hb & Hf). split_and!; [by rewrite length_ilk|done|done|].
  rewrite ino_ilk, decide_True by done. by apply file_ok_lock.
Qed.

Lemma ilock_ok pid F :
  (ip < length (ic_inode F))%nat → i_lock (ino F ip) = sl_free → 1 ≤ i_ref (ino F ip) →
  i_valid (ino F ip) = true → ilock pid (Some ip) F = Ok tt (ilk (sl_held pid) F).
Proof.
  intros Hip Hl Hr Hv. unfold ilock. mstep (get_inode_ok F ip Hip).
  destruct (Z.ltb_spec (i_ref (ino F ip)) 1); [lia|].
  mstep by (apply (acquiresleep_free _ _ (l_ilock_at F Hip)); simpl; by rewrite Hl).
  fold (ilk (sl_held pid) F). mstep by (apply get_inode_ok; by rewrite length_ilk).
  rewrite ino_ilk, decide_True by done. simpl. by rewrite Hv.
Qed.

Lemma iunlock_ok pid F :
  (ip < length (ic_inode F))%nat → i_lock (ino F ip) = sl_held pid → 1 ≤ i_ref (ino F ip) →
  iunlock pid (Some ip) F = Ok tt (ilk sl_free F).
Proof.
  intros Hip Hl Hr. unfold iunlock.
  mstep by (apply (holdingsleep_ok _ _ (l_ilock_at F Hip)); simpl; by rewrite Hl).
  mstep (get_inode_ok F ip Hip). simpl. rewrite Hl. simpl. rewrite Z.eqb_refl. simpl.
  destruct (Z.ltb_spec (i_ref (ino F ip)) 1); [lia|].
  apply (releasesleep_ok _ _ (l_ilock_at F Hip)). simpl. by rewrite Hl.
Qed.
End lock.

(** ** One write as a transaction *)

(** An open file that nobody uses, between transactions. *)
Record fidle (F : fsst) (ip : nat) : Prop := {
  fi_file : readable_file F ip;
  fi_lock : i_lock (ino F ip) = sl_free;
  fi_valid : i_valid (ino F ip) = true;
  fi_ref : 1 ≤ i_ref (ino F ip);
  fi_dinode : dinode_ok (disk_fields (ino F ip));
  fi_log : ld_log (fs_ld F) = [];
  fi_ops : ld_outstanding (fs_ld F) = 0;
  fi_cap : 8 ≤ log_cap (fs_ld F);
}.

Definition begun (F : fsst) : fsst := lset l_ld (ld_set_ops 1 (fs_ld F)) F.
Definition ended (F : fsst) : fsst :=
  lset l_ld (ld_set_log [] (ld_set_ops 0 (fs_ld F))) F.

Lemma fs_base_ops d sb n l : fs_base d sb → fs_base (ld_set_log l (ld_set_ops n d)) sb.
Proof. by intros []. Qed.
Lemma file_ok_ops d sb i n l : file_ok d sb i → file_ok (ld_set_log l (ld_set_ops n d)) sb i.
Proof. by intros []. Qed.

Lemma begun_begin F ip : fidle F ip → zoom l_ld ld_begin_op F = Ok tt (begun F).
Proof.
  intros H. apply (zoom_ok l_ld). unfold ld_begin_op. simpl.
  by rewrite (fi_log _ _ H), (fi_ops _ _ H).
Qed.

(** What a write of [src] at [off] does to a file, seen from outside. *)
Record file_write (F : fsst) (ip : nat) (off : Z) (src : list Z) (F' : fsst) : Prop := {
  fw_idle : fidle F' ip;
  fw_size : i_size (ino F' ip) = Z.max (i_size (ino F ip)) (off + Z.of_nat (length src));
  fw_dev : i_dev (ino F' ip) = i_dev (ino F ip);
  fw_inum : i_inum (ino F' ip) = i_inum (ino F ip);
  fw_bytes : ∀ x, 0 ≤ x → file_at F' ip x =
    if decide (off ≤ x < off + Z.of_nat (length src))
    then byte_at src (Z.to_nat (x - off)) else file_at F ip x;
  fw_sb : fs_sb F' = fs_sb F;
}.

Lemma nblk_1536 off n : 0 ≤ n ≤ 1536 → nblk off n ≤ 4.
Proof. intros H. unfold nblk. destruct (Z.ltb_spec 0 n); zlia. Qed.

Section txn.
Context (pid : Z) (dev_write : Z → option (nat → list Z → M fsst Z)).
Context (ip : nat) (F : fsst) (off : Z) (src : list Z) (q : Z).
Context (Hi : fidle F ip) (Hoff : 0 ≤ off ≤ i_size (ino F ip)).
Context (Hmax : off + Z.of_nat (length src) ≤ 71680) (Hby : Forall is_byte src).
Context (Hlen : Z.of_nat (length src) ≤ 1536).
Context (Hnf : nfree (fs_ld F) (fs_sb F) (q + 5)) (Hq : 0 ≤ q).

Definition locked_fs : fsst := ilk ip (sl_held pid) (begun F).

Lemma locked_fstate : fstate ip locked_fs ∧ ino locked_fs ip = set_lock (sl_held pid) (ino F ip).
Proof using Hi.
  destruct (fi_file _ _ Hi) as ((Hip & Hh & Hb & Hf) & _). split.
  - apply fstate_ilk. split_and!; [done|done|by destruct Hb|by destruct Hf].
  - unfold locked_fs. rewrite ino_ilk by done. by rewrite decide_True.
Qed.

Lemma txn_writei :
  ∃ F2, writei dev_write ip src off locked_fs = Ok (Z.of_nat (length src)) F2 ∧
    writei_post ip locked_fs off src F2 ∧ nfree (fs_ld F2) (fs_sb F) q.
Proof.
  destruct locked_fstate as [Hst Ei]. destruct (fi_file _ _ Hi) as (_ & Ht & Hn).
  pose proof (nblk_1536 off (Z.of_nat (length src)) ltac:(lia)) as Hnb.
  pose proof (nblk_nonneg off (Z.of_nat (length src))).
  destruct (writei_spec_free ip q dev_write locked_fs off src
    [sb_bmapstart (fs_sb F); IBLOCK (i_inum (ino F ip)) (fs_sb F)] 0) as (F2 & P' & E & Hw & _ & _ & Hn2);
    rewrite ?Ei; try done.
  - apply Hi.
  - by left.
  - right. by left.
  - split_and!; [simpl; rewrite (fi_log _ _ Hi); constructor|done|].
    destruct (fi_file _ _ Hi) as ((_ & _ & _ & Hf) & _). destruct (fo_iblock _ _ _ Hf) as (_ & _ & Hne).
    exists [sb_bmapstart (fs_sb F); IBLOCK (i_inum (ino F ip)) (fs_sb F)]. split_and!.
    + repeat constructor; set_solver.
    + simpl. rewrite (fi_log _ _ Hi). by intros c ?%not_elem_of_nil.
    + done.
    + pose proof (fi_cap _ _ Hi) as Hc. unfold log_cap in *. simpl in *. lia.
  - destruct Hnf as (Fr & ? & ? & ?). exists Fr. split_and!; try done. lia.
  - by exists F2.
Qed.

Definition unlocked_fs (F2 : fsst) : fsst := ended (ilk ip sl_free F2).

(** Unlocking the inode and ending the transaction. *)
Lemma txn_end F2 :
  writei_post ip locked_fs off src F2 → nfree (fs_ld F2) (fs_sb F) q →
  iunlock pid (Some ip) F2 = Ok tt (ilk ip sl_free F2) ∧
  zoom l_ld ld_end_op (ilk ip sl_free F2) = Ok tt (unlocked_fs F2) ∧
  file_write F ip off src (unlocked_fs F2) ∧
  nfree (fs_ld (unlocked_fs F2)) (fs_sb F) q ∧
  ∀ x, file_at (unlocked_fs F2) ip x = file_at F2 ip x.
Proof.
  intros Hw Hn2. destruct locked_fstate as [Hst Ei]. pose proof (fi_file _ _ Hi) as (Hst0 & Ht & Hn).
  pose proof (wp_inode _ _ _ _ _ Hw) as Ei2. rewrite Ei in Ei2. simpl in Ei2.
  destruct (wp_st _ _ _ _ _ Hw) as (Hip2 & Hh2 & Hb2 & Hf2).
  destruct (wp_on _ _ _ _ _ Hw) as (Esb & _ & _ & _ & Els & Eout). simpl in Esb, Els, Eout.
  assert (Eu : ino (unlocked_fs F2) ip = set_lock sl_free (ino F2 ip)).
  { change (ino (unlocked_fs F2) ip) with (ino (ilk ip sl_free F2) ip).
    rewrite ino_ilk by done. by rewrite decide_True. }
  assert (Hat : ∀ x, file_at (unlocked_fs F2) ip x = file_at F2 ip x).
  { intros x. unfold file_at. by rewrite Eu. }
  split_and!.
  - apply iunlock_ok; [done|by rewrite Ei2|]. rewrite Ei2. simpl. apply (fi_ref _ _ Hi).
  - apply (zoom_ok l_ld). unfold ld_end_op. simpl. by rewrite Eout.
  - split.
    + split; rewrite ?Eu; simpl.
      * split; [|rewrite Eu, Ei2; done].
        split; [|split; [done|split; [by apply fs_base_ops|]]].
        -- simpl. by rewrite length_alter.
        -- rewrite Eu. by apply file_ok_ops, file_ok_lock.
      * done.
      * rewrite Ei2. apply (fi_valid _ _ Hi).
      * rewrite Ei2. apply (fi_ref _ _ Hi).
      * pose proof (fo_size _ _ _ Hf2). destruct (fi_dinode _ _ Hi). 
        pose proof (f_equal i_type Ei2). pose proof (f_equal i_major Ei2).
        pose proof (f_equal i_minor Ei2). pose proof (f_equal i_nlink Ei2). simpl in *.
        split; simpl; [congruence..|lia|apply (fo_addrs _ _ _ Hf2)|apply (fo_addr_range _ _ _ Hf2)].
      * done.
      * done.
      * unfold log_cap. simpl. rewrite Els. apply (fi_cap _ _ Hi).
    + rewrite Eu, Ei2. done.
    + rewrite Eu, Ei2. done.
    + rewrite Eu, Ei2. done.
    + intros x Hx. rewrite Hat, (file_at_write ip locked_fs off src F2 x) by (done || by rewrite Ei).
      case_decide; [done|]. unfold file_at. by rewrite Ei.
    + done.
  - done.
  - done.
Qed.
End txn.

(** ** filewrite *)

Lemma zoom_comp {T S A B} (l : lens T S) (k : lens S A) (m : M A B) t :
  zoom (lcomp l k) m t = zoom l (zoom k m) t.
Proof. unfold zoom. simpl. by destruct (m (lget k (lget l t))). Qed.

Definition fsof (s : filest) : fsst := pc_fs (fl_pc s).

(** [f] is an open inode file at offset [off], idle, with a coherent cache. *)
Record wready {L : Linker} (s : filest) (f ip : nat) (off : Z) : Prop := {
  wy_file : ∃ x, fl_file s !! f = Some x ∧ f_type x = FD_INODE ∧ writable x = true ∧
    f_ip x = Some ip ∧ f_off x = off;
  wy_idle : fidle (fsof s) ip;
  wy_off : 0 ≤ off ≤ i_size (ino (fsof s) ip);
  wy_pc : pc_ok (fl_pc s);
  wy_coh : coherent (fl_pc s) ip;
}.

(** [src] has been written at [off]. *)
Record wdone {L : Linker} (s : filest) (f ip : nat) (off : Z) (src : list Z) (s' : filest) : Prop := {
  wd_ready : wready s' f ip (off + Z.of_nat (length src));
  wd_write : file_write (fsof s) ip off src (fsof s');
  wd_others : ∀ g, g ≠ f → fl_file s' !! g = fl_file s !! g;
  wd_pipes : fl_pipes s' = fl_pipes s;
  wd_pages : ∀ k, cp_page (cpage (fl_pc s') k) = cp_page (cpage (fl_pc s) k);
  wd_kmem : kmem (pc_vm (fl_pc s')) = kmem (pc_vm (fl_pc s));
  wd_frame : ∀ a, ¬ cache_addr (fl_pc s) a → rd8 (pcmem (fl_pc s')) a = rd8 (pcmem (fl_pc s)) a;
}.

Lemma coherent_fs F' pc ip :
  coherent pc ip → (∀ x, 0 ≤ x → file_at F' ip x = file_at (pc_fs pc) ip x) →
  (∀ o, file_tag F' ip o = file_tag (pc_fs pc) ip o) → coherent (lset l_pcfs F' pc) ip.
Proof.
  intros Hc Hat Htag k o Hk Ht. simpl pc_fs in Ht. rewrite Htag in Ht.
  destruct (Hc k o Hk Ht) as (H1 & H2 & H3). split_and!; try done. intros j Hj.
  simpl pc_fs. rewrite Hat by lia. by apply H3.
Qed.

Lemma pc_ok_fs {L : Linker} F m pc : pc_ok pc → pc_ok (set_pcmem m (lset l_pcfs F pc)).
Proof. by intros []. Qed.

Section chunk.
Context {L : Linker} (pid : Z).
Context (dev_write : Z → option (nat → list Z → M fsst Z)).

Lemma chunk_spec s f ip off src q :
  wready s f ip off → off + Z.of_nat (length src) ≤ 71680 → Forall is_byte src →
  0 < Z.of_nat (length src) ≤ 1536 → off mod 4096 + Z.of_nat (length src) ≤ 4096 →
  nfree (fs_ld (fsof s)) (fs_sb (fsof s)) (q + 5) → 0 ≤ q →
  ∃ s', filewrite_chunk pid dev_write f src s = Ok (Z.of_nat (length src)) s' ∧
    wdone s f ip off src s' ∧ nfree (fs_ld (fsof s')) (fs_sb (fsof s')) q.
Proof.
  intros [(x & Hx & Hty & Hwr & Hxi & Hxo) Hi Hoff Hpc Hcoh] Hmax Hby Hlen Hpg Hnf Hq.
  set (F := fsof s) in *. pose proof (fi_file _ _ Hi) as (Hst0 & Ht & Hn).
  destruct (locked_fstate pid ip F Hi) as [Hst Ei].
  destruct (txn_writei pid dev_write ip F off src q) as (F2 & E2 & Hw & Hn2); try done; [lia|].
  destruct (txn_end pid ip F off src q Hi Hoff F2 Hw Hn2) as (E3 & E4 & Hfw & Hn3 & Hat).
  assert (Hread : readable_file (locked_fs pid ip F) ip) by (split; [done|by rewrite Ei]).
  assert (Hcoh1 : coherent (lset l_pcfs (locked_fs pid ip F) (fl_pc s)) ip).
  { apply coherent_fs; [done| |].
    - intros y Hy. unfold file_at. by rewrite Ei.
    - intros o. unfold file_tag. by rewrite Ei. }
  destruct (updatePage_spec pid (λ _, None) ip (locked_fs pid ip F) off src
    (lset l_pcfs (locked_fs pid ip F) (fl_pc s))) with (f' := F2) as (m & Eu & Hmf & Hcoh2); try done.
  { by destruct Hpc. } { by rewrite Ei. }
  rewrite Ei in Eu. cbn [set_lock i_inum i_dev] in Eu.
  pose proof (wp_inode _ _ _ _ _ Hw) as Ei2. rewrite Ei in Ei2.
  assert (Einum : i_inum (ino F2 ip) = i_inum (ino F ip)) by (by rewrite Ei2).
  assert (Edev : i_dev (ino F2 ip) = i_dev (ino F ip)) by (by rewrite Ei2).
  unfold filewrite_chunk. mstep by (unfold get_file; rewrite Hx; reflexivity).
  mstep by (rewrite zoom_comp; apply (zoom_ok l_ffs); by apply (begun_begin F ip)).
  rewrite Hxi. mstep by (apply (zoom_ok l_ffs); apply ilock_ok;
    [apply Hst0|apply (fi_lock _ _ Hi)|apply (fi_ref _ _ Hi)|apply (fi_valid _ _ Hi)]).
  mstep by (unfold get_file; simpl; rewrite Hx; reflexivity). rewrite Hxi, Hxo. cbn [default].
  mstep by (apply (zoom_ok l_ffs); exact E2).
  destruct (Z.gtb_spec (Z.of_nat (length src)) 0); [|lia].
  rewrite !bind_assoc.
  mstep by (apply (zoom_ok l_ffs); exact (get_inode_ok F2 ip (proj1 (wp_st _ _ _ _ _ Hw)))).
  rewrite Einum, Edev, Nat2Z.id, take_ge by lia.
  rewrite !bind_assoc. mstep by (apply (zoom_ok l_fpc); exact Eu).
  mstep by (unfold upd_file; simpl; rewrite Hx; reflexivity).
  pose proof (fo_size _ _ _ (proj2 (proj2 (proj2 Hst0)))).
  rewrite (u32_small (off + _)) by lia.
  mstep by (apply (zoom_ok l_ffs); exact E3).
  mstep by (rewrite zoom_comp; apply (zoom_ok l_ffs); exact E4).
  eexists. split; [reflexivity|].
  assert (Hcoh3 : coherent (set_pcmem m (lset l_pcfs (unlocked_fs ip F2) (fl_pc s))) ip).
  { apply (coherent_fs (unlocked_fs ip F2) _ _ Hcoh2); [intros y _; apply Hat|].
    intros o. unfold file_tag. rewrite (fw_dev _ _ _ _ _ Hfw), (fw_inum _ _ _ _ _ Hfw).
    simpl pc_fs. by rewrite Edev, Einum. }
  split; [|change (nfree (fs_ld (unlocked_fs ip F2)) (fs_sb (unlocked_fs ip F2)) q);
    by rewrite (fw_sb _ _ _ _ _ Hfw)].
  split; try done.
  - split.
    + exists (with_off (off + Z.of_nat (length src)) x). simpl.
      rewrite list_lookup_insert_eq by (by eapply lookup_lt_Some). by destruct x.
    + apply Hfw.
    + change (fsof _) with (unlocked_fs ip F2). rewrite (fw_size _ _ _ _ _ Hfw). lia.
    + exact (pc_ok_fs (unlocked_fs ip F2) m (fl_pc s) Hpc).
    + exact Hcoh3.
  - intros g Hg. simpl. by rewrite list_lookup_insert_ne.
Qed.

(** Two writes in a row. *)
Lemma file_write_app F ip off src1 F1 src2 F2 :
  0 ≤ off → file_write F ip off src1 F1 →
  file_write F1 ip (off + Z.of_nat (length src1)) src2 F2 → file_write F ip off (src1 ++ src2) F2.
Proof.
  intros Ho [A1 A2 A3 A4 A5 A6] [B1 B2 B3 B4 B5 B6]. split; try done; try congruence.
  - rewrite B2, A2, length_app. lia.
  - intros x Hx. rewrite B5 by done. rewrite length_app.
    destruct (decide (off + Z.of_nat (length src1) ≤ x < _)) as [H2|H2].
    + rewrite decide_True by lia. rewrite byte_at_app_r by lia. f_equal. lia.
    + rewrite A5 by done. repeat case_decide; try lia.
      by rewrite byte_at_app_l by lia.
Qed.

Lemma wdone_app s f ip off src1 s1 src2 s2 :
  0 ≤ off → wdone s f ip off src1 s1 → wdone s1 f ip (off + Z.of_nat (length src1)) src2 s2 →
  wdone s f ip off (src1 ++ src2) s2.
Proof.
  intros Ho [A1 A2 A3 A4 A5 A6 A7] [B1 B2 B3 B4 B5 B6 B7]. split; try congruence.
  - rewrite length_app, Nat2Z.inj_add, Z.add_assoc. done.
  - by eapply file_write_app.
  - intros g Hg. by rewrite B3, A3.
  - intros a Ha. rewrite B7, A7; [done|done|]. intros (k & Hk & Hin). apply Ha. exists k.
    by rewrite <-A5.
Qed.

Lemma slice_take_drop (src : list Z) i n :
  (i + n ≤ length src)%nat → take (i + n) src = take i src ++ slice i n src.
Proof. intros H. unfold slice. by rewrite take_take_drop. Qed.

Lemma filewrite_loop_spec fuel s0 f ip off src s i q :
  (Z.to_nat (Z.of_nat (length src) - i) < fuel)%nat → 0 ≤ i ≤ Z.of_nat (length src) → 0 ≤ off →
  (i = 0 ∧ s = s0 ∨ wdone s0 f ip off (take (Z.to_nat i) src) s) → wready s f ip (off + i) →
  off + Z.of_nat (length src) ≤ 71680 → Forall is_byte src →
  off mod 4096 + Z.of_nat (length src) ≤ 4096 →
  nfree (fs_ld (fsof s)) (fs_sb (fsof s)) (q + 5 * ((Z.of_nat (length src) - i + 1535) / 1536)) → 0 ≤ q →
  ∃ s', filewrite_loop pid dev_write fuel f src i (Z.of_nat (length src)) s =
      Ok (Z.of_nat (length src)) s' ∧ (src = [] ∧ s' = s0 ∨ wdone s0 f ip off src s').
Proof.
  intros Hfuel Hi Ho Hpre Hry Hmax Hby Hpg Hnf Hq. revert i s Hfuel Hi Hpre Hry Hnf.
  induction fuel as [|fuel IH]; intros i s Hfuel Hi Hpre Hry Hnf; [lia|]. cbn [filewrite_loop].
  destruct (Z.ltb_spec i (Z.of_nat (length src))) as [Hlt|Hge]; cycle 1.
  { assert (i = Z.of_nat (length src)) as -> by lia. rewrite Z.eqb_refl. exists s. split; [done|].
    destruct Hpre as [[Hz ->]|Hd]; [left; split; [apply length_zero_iff_nil; lia|done]|right].
    rewrite take_ge in Hd by lia. done. }
  set (n1 := Z.min (Z.of_nat (length src) - i) WRITE_MAX).
  assert (Hn1 : 0 < n1 ≤ 1536 ∧ i + n1 ≤ Z.of_nat (length src) ∧
    (n1 = Z.of_nat (length src) - i ∨ n1 = 1536)).
  { unfold n1. change WRITE_MAX with 1536. lia. }
  set (c := slice (Z.to_nat i) (Z.to_nat n1) src).
  assert (Hcl : Z.of_nat (length c) = n1) by (unfold c; rewrite length_slice; lia).
  assert (Hdiv : (Z.of_nat (length src) - i + 1535) / 1536 =
    (Z.of_nat (length src) - (i + n1) + 1535) / 1536 + 1) by zlia.
  destruct (chunk_spec s f ip (off + i) c
    (q + 5 * ((Z.of_nat (length src) - (i + n1) + 1535) / 1536))) as (s' & E & Hd & Hnf'); try done.
  - lia.
  - by apply Forall_slice.
  - lia.
  - zlia.
  - rewrite Hdiv in Hnf. by replace (q + 5 * ((Z.of_nat (length src) - (i + n1) + 1535) / 1536) + 5)
      with (q + 5 * ((Z.of_nat (length src) - (i + n1) + 1535) / 1536 + 1)) by lia.
  - zlia.
  - mstep E. rewrite Hcl. destruct (Z.ltb_spec n1 0); [lia|]. rewrite Z.eqb_refl. cbn [negb].
    rewrite Hcl in *. apply IH.
    + lia.
    + lia.
    + right. replace (Z.to_nat (i + n1)) with (Z.to_nat i + Z.to_nat n1)%nat by lia.
      rewrite slice_take_drop by lia. fold c. destruct Hpre as [[-> ->]|Hd0].
      * rewrite Z.add_0_r in Hd. done.
      * eapply wdone_app; [done|exact Hd0|]. rewrite length_take, Nat.min_l by lia. by rewrite Z2Nat.id by lia.
    + rewrite Z.add_assoc. pose proof (wd_ready _ _ _ _ _ _ Hd) as Hr. by rewrite Hcl in Hr.
    + done.
Qed.
End chunk.

(** ** Reference counts *)

Definition file_of (s : filest) (f : nat) : file := default file0 (fl_file s !! f).
Definition nrefs (f : nat) (H : list nat) : nat := length (filter (λ g, g = f) H).

(** [H] lists the references to open files that exist, each as often as it is
    held. *)
Record refs_ok (s : filest) (H : list nat) : Prop := {
  rf_len : length (fl_file s) = 100%nat;
  rf_lock : fl_lock s = unlocked;
  rf_in : ∀ f, f ∈ H → (f < 100)%nat;
  rf_count : ∀ f, (f < 100)%nat → f_ref (file_of s f) = Z.of_nat (nrefs f H);
  rf_none : ∀ f, (f < 100)%nat → f ∉ H → f_type (file_of s f) = FD_NONE;
}.

(** The table with entry [f] replaced. *)
Definition put_file (f : nat) (x : file) (s : filest) : filest :=
  set_files (<[f := x]> (fl_file s)) s.

Lemma file_of_put s f x g :
  (f < length (fl_file s))%nat →
  file_of (put_file f x s) g = if decide (f = g) then x else file_of s g.
Proof.
  intros Hf. unfold file_of, put_file. simpl. rewrite list_lookup_insert.
  destruct (decide (f = g)) as [->|Hn]; [by rewrite decide_True|].
  rewrite decide_False; [done|]. naive_solver.
Qed.

Lemma nrefs_cons f g H : nrefs f (g :: H) = (if decide (g = f) then 1 + nrefs f H else nrefs f H)%nat.
Proof. unfold nrefs. rewrite filter_cons. by case_decide. Qed.

Lemma nrefs_pos f H : (0 < nrefs f H)%nat ↔ f ∈ H.
Proof.
  unfold nrefs. induction H as [|g H IH]; [simpl; rewrite elem_of_nil; lia|].
  rewrite filter_cons, elem_of_cons. case_decide; simpl; [naive_solver lia|]. rewrite IH. naive_solver.
Qed.

Lemma nrefs_perm f H H' : H ≡ₚ H' → nrefs f H = nrefs f H'.
Proof. intros E. unfold nrefs. by rewrite E. Qed.

Lemma get_file_ok s f : (f < length (fl_file s))%nat → get_file f s = Ok (file_of s f) s.
Proof. intros H. unfold get_file, file_of. by destruct (lookup_lt_is_Some_2 _ _ H) as [x ->]. Qed.
Lemma upd_file_ok s f g :
  (f < length (fl_file s))%nat → upd_file f g s = Ok tt (put_file f (g (file_of s f)) s).
Proof. intros H. unfold upd_file, file_of. by destruct (lookup_lt_is_Some_2 _ _ H) as [x ->]. Qed.

Lemma filealloc_scan_spec l i :
  match filealloc_scan l i with
  | Some f => (i ≤ f)%nat ∧ ∃ x, l !! (f - i)%nat = Some x ∧ f_ref x = 0
  | None => ∀ x, x ∈ l → f_ref x ≠ 0
  end.
Proof.
  revert i. induction l as [|x l IH]; intros i; simpl; [by intros x ?%not_elem_of_nil|].
  destruct (Z.eqb_spec (f_ref x) 0) as [E|E].
  - split; [lia|]. exists x. by rewrite Nat.sub_diag.
  - specialize (IH (S i)). destruct (filealloc_scan l (S i)) as [f|].
    + destruct IH as (Hf & y & Hy & E'). split; [lia|]. exists y.
      by replace (f - i)%nat with (S (f - S i)) by lia.
    + intros y [->|Hy]%elem_of_cons; [done|by apply IH].
Qed.

Section refs.
Context (s : filest) (H : list nat) (Hok : refs_ok s H).

(** Changing one entry's count keeps the table in order when the references
    change with it. *)
Lemma refs_put f x H' :
  (f < 100)%nat → f_ref x = Z.of_nat (nrefs f H') → (∀ g, g ≠ f → nrefs g H' = nrefs g H) →
  (f ∉ H' → f_type x = FD_NONE) → refs_ok (put_file f x s) H'.
Proof using Hok.
  intros Hf Hx Hg Hn'. destruct Hok as [H1 H2 H3 H4 H5]. split; try done.
  - simpl. by rewrite length_insert.
  - intros g Hin. destruct (decide (g = f)) as [->|Hn]; [done|]. apply H3, nrefs_pos.
    rewrite <-Hg by done. by apply nrefs_pos.
  - intros g Hgl. rewrite file_of_put by (by rewrite H1). case_decide as E; [by subst|].
    rewrite Hg by done. by apply H4.
  - intros g Hgl Hgn. rewrite file_of_put by (by rewrite H1). case_decide as E; [subst; auto|].
    apply H5; [done|]. rewrite <-nrefs_pos, <-Hg, nrefs_pos by done. done.
Qed.

Lemma filealloc_spec :
  (∃ f, filealloc s = Ok (Some f) (put_file f (with_ref 1 (file_of s f)) s) ∧
     (f ∉ H) ∧ refs_ok (put_file f (with_ref 1 (file_of s f)) s) (f :: H)) ∨
  (filealloc s = Ok None s ∧ ∀ f, (f < 100)%nat → f ∈ H).
Proof using Hok.
  destruct Hok as [H1 H2 H3 H4 H5]. unfold filealloc.
  mstep by (apply acquire_free; simpl; by rewrite H2). mrun. cbn [fl_file lset l_flock].
  pose proof (filealloc_scan_spec (fl_file s) 0) as Hs.
  destruct (filealloc_scan (fl_file s) 0) as [f|].
  - left. exists f. destruct Hs as (_ & x & Hx & Hr). rewrite Nat.sub_0_r in Hx.
    assert (Hf : (f < 100)%nat) by (rewrite <-H1; by eapply lookup_lt_Some).
    assert (Ef : file_of s f = x) by (unfold file_of; by rewrite Hx).
    assert (Hnin : f ∉ H). { rewrite <-nrefs_pos. pose proof (H4 f Hf). rewrite Ef in *. lia. }
    split_and!; [|done|].
    + mstep by (apply upd_file_ok; simpl; by rewrite H1).
      mstep by (by apply release_held). mrun. unfold mret, M_ret. f_equal.
      change (file_of (FileSt (fl_pc s) (fl_pipes s) (Spinlock true) (fl_file s)) f) with (file_of s f).
      destruct s as [a b c d]. unfold put_file, set_files. simpl in *. by subst c.
    + apply refs_put; [done| | |set_solver].
      * rewrite nrefs_cons, decide_True by done. simpl. rewrite <-nrefs_pos in Hnin. lia.
      * intros g Hg. rewrite nrefs_cons, decide_False by done. done.
  - right. mstep by (by apply release_held). mrun. split.
    + unfold mret, M_ret. f_equal. destruct s as [a b c d]. simpl in *. by subst c.
    + intros f Hf. apply nrefs_pos. pose proof (H4 f Hf) as Hc.
      assert (Hx : f_ref (file_of s f) ≠ 0); [|lia].
      destruct (lookup_lt_is_Some_2 (fl_file s) f) as [x Hx]; [by rewrite H1|].
      unfold file_of. rewrite Hx. apply Hs. by eapply list_elem_of_lookup_2.
Qed.

Lemma filedup_spec f :
  (f < 100)%nat →
  if decide (f ∈ H) then
    let s' := put_file f (with_ref (f_ref (file_of s f) + 1) (file_of s f)) s in
    filedup f s = Ok f s' ∧ refs_ok s' (f :: H)
  else filedup f s = Panic "filedup".
Proof using Hok.
  intros Hf. destruct Hok as [H1 H2 H3 H4 H5]. pose proof (H4 f Hf) as Hc.
  assert (E : ∀ A (k : unit → M filest A), (acquire l_flock ≫= k) s = k tt (lset l_flock (Spinlock true) s)).
  { intros A k. by mstep by (apply acquire_free; simpl; by rewrite H2). }
  unfold filedup. rewrite E. mstep by (apply get_file_ok; simpl; by rewrite H1).
  change (file_of (lset l_flock _ s) f) with (file_of s f).
  case_decide as Hin.
  - apply nrefs_pos in Hin. destruct (Z.ltb_spec (f_ref (file_of s f)) 1); [lia|]. split.
    + mstep by (apply upd_file_ok; simpl; by rewrite H1).
      mstep by (by apply release_held). mrun. unfold mret, M_ret. f_equal.
      change (file_of (lset l_flock _ s) f) with (file_of s f).
      destruct s as [a b c d]. unfold put_file, set_files. simpl in *. by subst c.
    + apply refs_put; [done| | |set_solver].
      * rewrite nrefs_cons, decide_True by done. simpl. lia.
      * intros g Hg. by rewrite nrefs_cons, decide_False by done.
  - destruct (Z.ltb_spec (f_ref (file_of s f)) 1); [done|]. rewrite <-nrefs_pos in Hin. lia.
Qed.

(** The state in which [fileclose] drops the last reference. *)
Definition closed_file (f : nat) : filest :=
  put_file f (with_type FD_NONE (with_ref 0 (file_of s f))) s.

Lemma fileclose_spec {L : Linker} pid f H' :
  (f < 100)%nat → H ≡ₚ f :: H' →
  if decide (f ∈ H') then
    let s' := put_file f (with_ref (f_ref (file_of s f) - 1) (file_of s f)) s in
    fileclose pid f s = Ok tt s' ∧ refs_ok s' H'
  else
    fileclose pid f s = file_gone pid (with_ref 0 (file_of s f)) (closed_file f) ∧
    refs_ok (closed_file f) H'.
Proof using Hok.
  intros Hf HH. destruct Hok as [H1 H2 H3 H4 H5]. pose proof (H4 f Hf) as Hc.
  rewrite (nrefs_perm f _ _ HH), nrefs_cons, decide_True in Hc by done.
  assert (Hg : ∀ g, g ≠ f → nrefs g H' = nrefs g H).
  { intros g Hg. rewrite (nrefs_perm g _ _ HH), nrefs_cons. by rewrite decide_False by done. }
  unfold fileclose. mstep by (apply acquire_free; simpl; by rewrite H2).
  mstep by (apply get_file_ok; simpl; by rewrite H1).
  change (file_of (lset l_flock _ s) f) with (file_of s f).
  destruct (Z.ltb_spec (f_ref (file_of s f)) 1); [lia|].
  mstep by (apply upd_file_ok; simpl; by rewrite H1).
  change (file_of (lset l_flock _ s) f) with (file_of s f). case_decide as Hin.
  - apply nrefs_pos in Hin. destruct (Z.gtb_spec (f_ref (file_of s f) - 1) 0); [|lia]. split.
    + rewrite (release_held l_flock) by done. f_equal.
      destruct s as [a b c d]. unfold put_file, set_files. simpl in *. by subst c.
    + apply refs_put; [done| |done|by rewrite <-nrefs_pos; lia]. simpl. lia.
  - assert (Hz : nrefs f H' = 0%nat) by (rewrite <-nrefs_pos in Hin; lia).
    destruct (Z.gtb_spec (f_ref (file_of s f) - 1) 0); [lia|]. split.
    + mstep by (apply get_file_ok; simpl; by rewrite length_insert, H1).
      rewrite file_of_put, decide_True by (done || simpl; by rewrite H1).
      mstep by (apply upd_file_ok; simpl; by rewrite length_insert, H1).
      mstep by (apply upd_file_ok; simpl; by rewrite !length_insert, H1).
      mstep by (by apply release_held).
      replace (f_ref (file_of s f) - 1) with 0 by lia. f_equal.
      unfold closed_file. destruct s as [a b c d]. unfold put_file, set_files, file_of. simpl in *. subst c.
      f_equal. rewrite !list_insert_insert_eq. f_equal.
      rewrite !list_lookup_insert_eq by (rewrite ?length_insert; lia). done.
    + apply refs_put; [done| |done|done]. simpl. lia.
Qed.
End refs.

(** ** pipealloc *)

Lemma put_file_id s f : (f < length (fl_file s))%nat → put_file f (file_of s f) s = s.
Proof.
  intros Hf. destruct s as [a b c d]. unfold put_file, set_files, file_of. simpl in *. f_equal.
  destruct (lookup_lt_is_Some_2 _ _ Hf) as [x Hx]. rewrite Hx. by apply list_insert_id.
Qed.
Lemma put_file_put s f x y : put_file f x (put_file f y s) = put_file f x s.
Proof. unfold put_file, set_files. simpl. by rewrite list_insert_insert_eq. Qed.

Lemma refs_ok_ext s s' H :
  refs_ok s H → fl_file s' = fl_file s → fl_lock s' = fl_lock s → refs_ok s' H.
Proof.
  intros [H1 H2 H3 H4 H5] E1 E2.
  assert (E : ∀ f, file_of s' f = file_of s f) by (intros f; unfold file_of; by rewrite E1).
  split; rewrite ?E1, ?E2; try done; intros f; rewrite E; auto.
Qed.

Section pipealloc.
Context {L : Linker} (pid : Z).

(** Closing a file right after [filealloc] gives the old state back. *)
Lemma filealloc_undo s H f :
  refs_ok s H → (f < 100)%nat → f ∉ H →
  fileclose pid f (put_file f (with_ref 1 (file_of s f)) s) = Ok tt s.
Proof.
  intros Hok Hf Hn. pose proof Hok as [H1 H2 H3 H4 H5].
  assert (Hr : f_ref (file_of s f) = 0).
  { rewrite (H4 f Hf). rewrite <-nrefs_pos in Hn. lia. }
  set (s1 := put_file f (with_ref 1 (file_of s f)) s).
  assert (Hok1 : refs_ok s1 (f :: H)).
  { apply (refs_put s H Hok); [done| | |set_solver].
    - rewrite nrefs_cons, decide_True by done. simpl. rewrite <-nrefs_pos in Hn. lia.
    - intros g Hg. by rewrite nrefs_cons, decide_False by done. }
  pose proof (fileclose_spec s1 (f :: H) Hok1 pid f H Hf ltac:(done)) as Hc.
  rewrite decide_False in Hc by done. destruct Hc as [-> _].
  assert (E1 : file_of s1 f = with_ref 1 (file_of s f)).
  { unfold s1. rewrite file_of_put by (by rewrite H1). by rewrite decide_True. }
  unfold file_gone, closed_file. rewrite E1. cbn [f_type with_ref]. rewrite (H5 f Hf Hn).
  unfold mret, M_ret. f_equal. unfold s1. rewrite put_file_put.
  replace (with_type FD_NONE (with_ref 0 (with_ref 1 (file_of s f)))) with (file_of s f).
  - apply put_file_id. by rewrite H1.
  - pose proof (H5 f Hf Hn). destruct (file_of s f). simpl in *. by subst.
Qed.

Definition pipe_end (s : filest) (f p : nat) (r w : bool) : Prop :=
  file_of s f = File FD_PIPE 1 r w (Some p) (f_ip (file_of s f)) (f_off (file_of s f)).

Definition pipe_made (s : filest) (H l : list _) (f0 f1 : nat) (s' : filest) : Prop :=
  ∃ v l' p k, l = v :: l' ∧ f0 ≠ f1 ∧ (f0 ∉ H) ∧ (f1 ∉ H) ∧ refs_ok s' (f1 :: f0 :: H) ∧
    free_pages (pc_vm (fl_pc s')) l' ∧
    pipe_end s' f0 p true false ∧ pipe_end s' f1 p false true ∧
    fl_pipes s !! p = None ∧ fl_pipes s' = fl_pipes s ++ [KPipe v k] ∧ pipe_rep k [].

Lemma pipealloc_spec s H l data :
  refs_ok s H → free_pages (pc_vm (fl_pc s)) l → length data = 512%nat →
  (pipealloc pid data s = Ok None s ∧
     (l = [] ∨ ∀ f f', (f < 100)%nat → (f' < 100)%nat → f ∉ H → f' ∉ H → f = f')) ∨
  (∃ f0 f1 s', pipealloc pid data s = Ok (Some (f0, f1)) s' ∧ pipe_made s H l f0 f1 s').
Proof.
  intros Hok Hfp Hdata. unfold pipealloc.
  destruct (filealloc_spec s H Hok) as [(f0 & E0 & Hn0 & Hok0)|[E0 Hfull]]; cycle 1.
  { left. mstep E0. mrun. split; [done|]. right. intros f f' Hf _ Hn. by destruct (Hn (Hfull f Hf)). }
  mstep E0. set (s0 := put_file f0 _ s) in *.
  assert (Hf0 : (f0 < 100)%nat) by (apply (rf_in _ _ Hok0); by left).
  assert (Hl0 : length (fl_file s0) = 100%nat) by apply (rf_len _ _ Hok0).
  assert (Eu0 : fileclose pid f0 s0 = Ok tt s) by (by apply (filealloc_undo s H)).
  destruct (filealloc_spec s0 (f0 :: H) Hok0) as [(f1 & E1 & Hn1 & Hok1)|[E1 Hfull]]; cycle 1.
  { left. mstep E1. mstep Eu0. mrun. split; [done|]. right.
    intros f f' Hf Hf' Hn Hn'. pose proof (Hfull f Hf). pose proof (Hfull f' Hf'). set_solver. }
  mstep E1. set (s1 := put_file f1 _ s0) in *.
  assert (Hf1 : (f1 < 100)%nat) by (apply (rf_in _ _ Hok1); by left).
  assert (Hl1 : length (fl_file s1) = 100%nat) by apply (rf_len _ _ Hok1).
  assert (Hne : f0 ≠ f1) by set_solver. assert (Hn1' : f1 ∉ H) by set_solver.
  pose proof (rf_len _ _ Hok) as Hl.
  assert (Ef1 : file_of s0 f1 = file_of s f1).
  { unfold s0. rewrite file_of_put by (by rewrite Hl). by rewrite decide_False. }
  (* the two allocations in the other order *)
  set (t := put_file f1 (with_ref 1 (file_of s f1)) s).
  assert (Eu1 : fileclose pid f1 t = Ok tt s) by (by apply (filealloc_undo s H)).
  assert (Hokt : refs_ok t (f1 :: H)).
  { apply (refs_put s H Hok); [done| | |set_solver].
    - rewrite nrefs_cons, decide_True by done. simpl. rewrite <-nrefs_pos in Hn1'. lia.
    - intros g Hg. by rewrite nrefs_cons, decide_False by done. }
  assert (Et : s1 = put_file f0 (with_ref 1 (file_of t f0)) t).
  { unfold s1. rewrite Ef1. unfold t. rewrite file_of_put, decide_False by (done || by rewrite Hl).
    unfold s0, put_file, set_files. simpl. f_equal. by apply list_insert_insert_ne. }
  assert (Eut : fileclose pid f0 s1 = Ok tt t).
  { rewrite Et. apply (filealloc_undo t (f1 :: H)); [done|done|set_solver]. }
  destruct l as [|v l].
  - left. mstep by (apply (zoom_ok l_fvm); exact (kalloc_nil (pc_vm (fl_pc s)) Hfp)).
    cbn [Z.eqb]. replace (lset l_fvm _ s1) with s1 by (by destruct s as [[] ? ? ?]).
    split; [|by left]. mstep Eut. mstep Eu1. done.
  - right. destruct (kalloc_cons _ _ _ Hfp) as (vm1 & E & Hfp1 & Hmem & _).
    mstep by (apply (zoom_ok l_fvm); exact E).
    pose proof Hfp as (_ & _ & Hpg & _). apply Forall_cons in Hpg as [Hv _]. pose proof (page_pos v Hv).
    destruct (Z.eqb_spec v 0); [lia|]. mrun.
    set (s2 := set_pipes _ _). set (p := length (fl_pipes _)).
    assert (Hok2 : refs_ok s2 (f1 :: f0 :: H)) by (by apply (refs_ok_ext s1)).
    mstep by (apply upd_file_ok; by rewrite (rf_len _ _ Hok2)).
    set (x0 := with_pipe true false _ _). set (s3 := put_file f0 x0 s2).
    assert (Hok3 : refs_ok s3 (f1 :: f0 :: H)).
    { apply (refs_put s2 _ Hok2); [done|by apply (rf_count _ _ Hok2)|done|set_solver]. }
    mstep by (apply upd_file_ok; by rewrite (rf_len _ _ Hok3)).
    set (x1 := with_pipe false true _ _). set (s4 := put_file f1 x1 s3).
    assert (Hok4 : refs_ok s4 (f1 :: f0 :: H)).
    { apply (refs_put s3 _ Hok3); [done|by apply (rf_count _ _ Hok3)|done|set_solver]. }
    exists f0, f1, s4. split; [reflexivity|]. exists v, l, p, (pipe_init data).
    assert (Hr : ∀ f, f ∈ f1 :: f0 :: H → f ∉ H → (f < 100)%nat → f_ref (file_of s2 f) = 1).
    { intros f Hin Hn Hf. rewrite (rf_count _ _ Hok2 f Hf), !nrefs_cons.
      assert (Hz : nrefs f H = 0%nat) by (rewrite <-nrefs_pos in Hn; lia). rewrite Hz.
      clear -Hin Hn Hne. rewrite !elem_of_cons in Hin.
      destruct (decide (f1 = f)), (decide (f0 = f)); subst; try done; naive_solver. }
    split_and!; try done.
    + unfold pipe_end, s4. rewrite file_of_put by (by rewrite (rf_len _ _ Hok3)).
      rewrite decide_False by done. unfold s3. rewrite file_of_put by (by rewrite (rf_len _ _ Hok2)).
      rewrite decide_True by done. unfold x0, with_pipe. simpl. rewrite Hr by (set_solver || done). done.
    + unfold pipe_end, s4. rewrite file_of_put by (by rewrite (rf_len _ _ Hok3)).
      rewrite decide_True by done. unfold x1, with_pipe. simpl.
      unfold s3. rewrite file_of_put by (by rewrite (rf_len _ _ Hok2)). rewrite decide_False by done.
      rewrite Hr by (set_solver || done). done.
    + by apply lookup_ge_None_2.
    + split; try done; simpl; lia.
Qed.
End pipealloc.

(** ** A small system *)

#[local] Existing Instance example_linker.

(** The small file system of [FsRw.v] between transactions, and a table in
    which file 0 has its one inode open. *)
Definition idle_fs : fsst := ended (ilk 0 sl_free (demo_fs T_FILE)).
Definition demo_files (F : fsst) : filest :=
  FileSt (demo_pc F) [] unlocked (File FD_INODE 1 true true None (Some 0%nat) 0 :: replicate 99 file0).

Lemma idle_fs_ok : fidle idle_fs 0.
Proof.
  destruct (demo_fstate T_FILE) as (Hip & Hh & Hb & Hf). split; try done.
  - split; [|done]. split; [done|]. split; [done|]. split; [by apply fs_base_ops|].
    by apply file_ok_ops, file_ok_lock.
  - apply (demo_dinode T_FILE). unfold T_FILE. lia.
Qed.

Lemma demo_files_ready : wready (demo_files idle_fs) 0 0 0.
Proof.
  split.
  - by eexists.
  - apply idle_fs_ok.
  - done.
  - apply demo_pc_ok.
  - by apply demo_coherent.
Qed.

Lemma demo_refs F : refs_ok (demo_files F) [0%nat].
Proof.
  assert (E : ∀ f, f ≠ 0%nat → file_of (demo_files F) f = file0).
  { intros [|f] Hf; [done|]. unfold file_of. cbn [fl_file demo_files lookup list_lookup].
    destruct (replicate 99 file0 !! f) eqn:Ef; [|done]. by apply lookup_replicate in Ef as [-> _]. }
  split; try done.
  - intros f ->%list_elem_of_singleton. lia.
  - intros f Hf. destruct (decide (f = 0%nat)) as [->|Hn]; [done|]. rewrite E by done.
    rewrite nrefs_cons, decide_False by done. done.
  - intros f Hf Hn. rewrite E; [done|]. set_solver.
Qed.

(** ** Claims *)

(** C10. [filewrite] of any number of bytes within one page writes them at the
    file's offset, in transactions of at most 1536 bytes that never exceed
    the log: it returns the number of bytes, the file has exactly the new
    bytes in place (and its old ones elsewhere), the offset has advanced, the
    inode is unlocked, every transaction is committed, and the page cache
    still agrees with the file. *)
Theorem filewrite_coherent {L : Linker} pid killed dev_write s f ip off src :
  wready s f ip off → src ≠ [] → off + Z.of_nat (length src) ≤ MAXFILE * BSIZE →
  Forall is_byte src → off mod 4096 + Z.of_nat (length src) ≤ 4096 →
  nfree (fs_ld (fsof s)) (fs_sb (fsof s)) (5 * ((Z.of_nat (length src) + 1535) / 1536)) →
  ∃ s', filewrite pid killed dev_write f src s = Ok (Z.of_nat (length src)) s' ∧
    wdone s f ip off src s'.
Proof.
  intros Hry Hne Hmax Hby Hpg Hnf. change (MAXFILE * BSIZE) with 71680 in Hmax.
  pose proof Hry as [(x & Hx & Hty & Hwr & Hxi & Hxo) _ Hoff _ _].
  unfold filewrite. mstep by (unfold get_file; rewrite Hx; reflexivity). rewrite Hwr, Hty. cbn [negb].
  destruct (filewrite_loop_spec pid dev_write (S (S (length src))) s f ip off src s 0 0)
    as (s' & E & [[? _]|Hd]); try done; try lia.
  - by left.
  - by rewrite Z.add_0_r.
  - by rewrite Z.sub_0_r.
  - by exists s'.
Qed.

Lemma filewrite_coherent_witness :
  ∃ s', filewrite 7 false (λ _, None) 0 [104; 105] (demo_files idle_fs) = Ok 2 s' ∧
    wdone (demo_files idle_fs) 0 0 0 [104; 105] s'.
Proof.
  apply (filewrite_coherent 7 false (λ _, None) (demo_files idle_fs) 0 0 0 [104; 105]).
  - apply demo_files_ready.
  - done.
  - by vm_compute.
  - repeat constructor; lia.
  - by vm_compute.
  - destruct demo_nfree as (Fr & H1 & H2 & H3). exists Fr. split; [exact H1|split; [|exact H3]].
    change (5 * ((Z.of_nat (length [104; 105]) + 1535) / 1536)) with 5. lia.
Defined.

(** C27. The reference counts of the file table are exact.  As long as each
    entry's count is the number of references held: [filealloc] hands out an
    entry nobody refers to, or fails when there is none; [filedup] and
    [fileclose] adjust the count; [fileclose] of the last reference marks the
    entry free and only then closes what is behind it; and duplicating a file
    that is not open panics. *)
Theorem file_references_counted {L : Linker} pid s H :
  refs_ok s H →
  ((∃ f s', filealloc s = Ok (Some f) s' ∧ (f ∉ H) ∧ refs_ok s' (f :: H)) ∨
   (filealloc s = Ok None s ∧ ∀ f, (f < 100)%nat → f ∈ H)) ∧
  (∀ f, f ∈ H → ∃ s', filedup f s = Ok f s' ∧ refs_ok s' (f :: H)) ∧
  (∀ f, (f < 100)%nat → f ∉ H → filedup f s = Panic "filedup") ∧
  (∀ f H', H ≡ₚ f :: H' → f ∈ H' → ∃ s', fileclose pid f s = Ok tt s' ∧ refs_ok s' H') ∧
  (∀ f H', H ≡ₚ f :: H' → f ∉ H' →
     fileclose pid f s = file_gone pid (with_ref 0 (file_of s f)) (closed_file s f) ∧
     refs_ok (closed_file s f) H').
Proof.
  intros Hok. pose proof (rf_in _ _ Hok) as Hin. split_and!.
  - destruct (filealloc_spec s H Hok) as [(f & ? & ? & ?)|?]; eauto 10.
  - intros f Hf. pose proof (filedup_spec s H Hok f (Hin f Hf)) as Hd.
    rewrite decide_True in Hd by done. eauto.
  - intros f Hf Hn. pose proof (filedup_spec s H Hok f Hf) as Hd. by rewrite decide_False in Hd.
  - intros f H' HH Hf. assert (f < 100)%nat by (apply Hin; rewrite HH; by left).
    pose proof (fileclose_spec s H Hok pid f H') as Hc. rewrite decide_True in Hc by done. eauto.
  - intros f H' HH Hf. assert (f < 100)%nat by (apply Hin; rewrite HH; by left).
    pose proof (fileclose_spec s H Hok pid f H') as Hc. rewrite decide_False in Hc by done. eauto.
Qed.

Lemma file_references_counted_witness :
  ∃ s', filedup 0 (demo_files idle_fs) = Ok 0%nat s' ∧ refs_ok s' [0%nat; 0%nat].
Proof.
  destruct (file_references_counted 7 (demo_files idle_fs) [0%nat] (demo_refs idle_fs)) as (_ & Hd & _).
  apply Hd. by left.
Defined.

(** [pipealloc] is all or nothing: it either returns the two ends of a new
    empty pipe, one readable and one writable, in two entries of the file
    table and one page of memory nobody uses; or it fails, for want of file
    entries or memory, and leaves the whole state as it was. *)
Theorem pipealloc_all_or_nothing {L : Linker} pid s H l data :
  refs_ok s H → free_pages (pc_vm (fl_pc s)) l → length data = 512%nat →
  (pipealloc pid data s = Ok None s ∧
     (l = [] ∨ ∀ f f', (f < 100)%nat → (f' < 100)%nat → f ∉ H → f' ∉ H → f = f')) ∨
  (∃ f0 f1 s', pipealloc pid data s = Ok (Some (f0, f1)) s' ∧ pipe_made s H l f0 f1 s').
Proof. apply pipealloc_spec. Qed.

Lemma pipealloc_all_or_nothing_witness :
  pipealloc 7 (replicate 512 0) (demo_files idle_fs) = Ok None (demo_files idle_fs).
Proof.
  destruct (pipealloc_all_or_nothing 7 (demo_files idle_fs) [0%nat] [] (replicate 512 0)
    (demo_refs idle_fs)) as [[E _]|(f0 & f1 & s' & _ & Hm)].
  - by repeat constructor.
  - by rewrite length_replicate.
  - exact E.
  - exfalso. destruct Hm as (v & l' & p & k & E & _). done.
Defined.
