(* ===== verification/Kernel.v ===== *)
(** * The state of the kernel

    Memory, file system, open files, the process table, what each CPU runs and
    the clock, with the accessors the components that work on all of them
    share.  A [struct proc *] is an index into the process table. *)

From Stdlib Require Import ZArith Lia.
From stdpp Require Import base numbers strings gmap list.
From S2P Require Import Prelude Mmu Memory Locks Kalloc Proc0 Disk Fs Pagecache File.

Definition NPROC : Z := 64.
Definition NOFILE : Z := 16.

Record kst := KSt {
  k_fl : filest;
  k_proc : list proc;
  k_ptlock : spinlock;
  k_nextpid : Z;
  k_initproc : option nat;
  k_cpus : list (option nat);
  k_ticks : Z;
  k_tickslock : spinlock;
}.

Definition l_kfl : lens kst filest := Lens k_fl
  (λ v s, KSt v (k_proc s) (k_ptlock s) (k_nextpid s) (k_initproc s) (k_cpus s) (k_ticks s) (k_tickslock s)).
Definition l_ptlock : lens kst spinlock := Lens k_ptlock
  (λ v s, KSt (k_fl s) (k_proc s) v (k_nextpid s) (k_initproc s) (k_cpus s) (k_ticks s) (k_tickslock s)).
Definition l_tickslock : lens kst spinlock := Lens k_tickslock
  (λ v s, KSt (k_fl s) (k_proc s) (k_ptlock s) (k_nextpid s) (k_initproc s) (k_cpus s) (k_ticks s) v).
Definition l_kpc : lens kst pcst := lcomp l_kfl l_fpc.
Definition l_kfs : lens kst fsst := lcomp l_kfl l_ffs.
Definition l_kvm : lens kst vmst := lcomp l_kfl l_fvm.
Definition l_kld : lens kst ldisk := lcomp l_kfs l_ld.

Definition set_procs (l : list proc) (s : kst) : kst :=
  KSt (k_fl s) l (k_ptlock s) (k_nextpid s) (k_initproc s) (k_cpus s) (k_ticks s) (k_tickslock s).
Definition set_nextpid (n : Z) (s : kst) : kst :=
  KSt (k_fl s) (k_proc s) (k_ptlock s) n (k_initproc s) (k_cpus s) (k_ticks s) (k_tickslock s).
Definition set_initproc (p : option nat) (s : kst) : kst :=
  KSt (k_fl s) (k_proc s) (k_ptlock s) (k_nextpid s) p (k_cpus s) (k_ticks s) (k_tickslock s).
Definition set_cpu (c : nat) (p : option nat) (s : kst) : kst :=
  KSt (k_fl s) (k_proc s) (k_ptlock s) (k_nextpid s) (k_initproc s) (<[c := p]> (k_cpus s))
    (k_ticks s) (k_tickslock s).
Definition set_ticks (n : Z) (s : kst) : kst :=
  KSt (k_fl s) (k_proc s) (k_ptlock s) (k_nextpid s) (k_initproc s) (k_cpus s) n (k_tickslock s).

Definition kvm (s : kst) : vmst := pc_vm (fl_pc (k_fl s)).
Definition kmemory (s : kst) : memory := vmem (kvm s).
(** Store into kernel memory. *)
Definition kmem_upd (f : memory → memory) : M kst unit :=
  zoom l_kvm (modify (λ v, set_vmem (f (vmem v)) v)).

Definition procof (s : kst) (p : nat) : proc := default proc0 (k_proc s !! p).
Definition getp (p : nat) : M kst proc := λ s,
  match k_proc s !! p with Some x => Ok x s | None => Undef "proc pointer" end.
Definition updp (p : nat) (f : proc → proc) : M kst unit := λ s,
  match k_proc s !! p with
  | Some x => Ok tt (set_procs (<[p := f x]> (k_proc s)) s)
  | None => Undef "proc pointer"
  end.
(** Run an operation on one entry of the process table. *)
Definition on_proc {A} (p : nat) (m : M proc A) : M kst A := λ s,
  match k_proc s !! p with
  | Some x => zoom (Lens (λ _, x) (λ y s, set_procs (<[p := y]> (k_proc s)) s)) m s
  | None => Undef "proc pointer"
  end.

(** ** Lemmas *)

Lemma getp_ok s p : (p < length (k_proc s))%nat → getp p s = Ok (procof s p) s.
Proof. intros H. unfold getp, procof. by destruct (lookup_lt_is_Some_2 _ _ H) as [x ->]. Qed.

Definition putp (p : nat) (x : proc) (s : kst) : kst := set_procs (<[p := x]> (k_proc s)) s.

Lemma updp_ok s p f :
  (p < length (k_proc s))%nat → updp p f s = Ok tt (putp p (f (procof s p)) s).
Proof. intros H. unfold updp, procof. by destruct (lookup_lt_is_Some_2 _ _ H) as [x ->]. Qed.

Lemma on_proc_ok {A} s p (m : M proc A) r x :
  (p < length (k_proc s))%nat → m (procof s p) = Ok r x → on_proc p m s = Ok r (putp p x s).
Proof.
  intros H E. unfold on_proc, procof, zoom in *.
  destruct (lookup_lt_is_Some_2 _ _ H) as [y Hy]. rewrite Hy in *. simpl in *. by rewrite E.
Qed.

Lemma procof_putp s p x q :
  (p < length (k_proc s))%nat → procof (putp p x s) q = if decide (p = q) then x else procof s q.
Proof.
  intros Hp. unfold procof, putp. simpl. rewrite list_lookup_insert.
  destruct (decide (p = q)) as [->|Hn]; [by rewrite decide_True|]. rewrite decide_False by naive_solver. done.
Qed.
Lemma length_putp s p x : length (k_proc (putp p x s)) = length (k_proc s).
Proof. simpl. apply length_insert. Qed.
Lemma putp_putp s p x y : putp p x (putp p y s) = putp p x s.
Proof. unfold putp, set_procs. simpl. by rewrite list_insert_insert_eq. Qed.
Lemma putp_id s p : (p < length (k_proc s))%nat → putp p (procof s p) s = s.
Proof.
  intros H. destruct s. unfold putp, set_procs, procof. simpl in *. f_equal.
  destruct (lookup_lt_is_Some_2 _ _ H) as [x Hx]. rewrite Hx. by apply list_insert_id.
Qed.
