(* ===== verification/Mmap.v ===== *)
(** * Mapping and unmapping pages (sys_mmap.c, and handle_page_fault of trap.c)

    The part of [sys_mmap.c] that fills the pages of a mapping, on the first
    access ([handle_page_fault]) or when a shared mapping is inherited
    ([copy_maps]), and that releases them ([my_munmap], [delete_mmaps]).  The
    table of mappings is [Regions.v]. *)

From Stdlib Require Import ZArith Lia.
From stdpp Require Import base numbers strings gmap list.
From S2P Require Import Prelude Mmu Memory Locks Kalloc Vm Proc0 Regions Bytes Disk Fs Pagecache File Kernel.

Section mmap.
Context {L : Linker}.
(** The running process's id and the device switch. *)
Context (pid : Z) (killed : bool).
Context (dev_read : Z → option (nat → Z → M fsst (Z * list Z))).
Context (dev_write : Z → option (nat → list Z → M fsst Z)).

(** Returns the address of the page-table entry and the physical address. *)
Definition get_physical_page (p : nat) (tempaddr : Z) : M kst (Z * Z) :=
  x ← getp p;
  pte ← zoom l_kvm (walkpgdir (p_pgdir x) tempaddr false);
  if pte =? 0 then mret (pte, 0)
  else
    e ← gets (λ s, load32 (kmemory s) pte);
    mret (pte, PTE_ADDR e).

(** ** File-backed mappings *)

Definition get_open (f : option nat) : M kst file :=
  match f with
  | Some f => zoom l_kfl (get_file f)
  | None => undef "file pointer"
  end.

(** The loop that copies the file's bytes to the page [temp]. *)
Fixpoint fill_page_loop (fuel : nat) (f : file) (temp offset size tempsize i : Z) : M kst Z :=
  match fuel with
  | O => nofuel
  | S fuel =>
      if negb (tempsize =? 0) then
        let curroff := Z.rem offset PGSIZE in
        let currsize := if PGSIZE - curroff >? tempsize then tempsize else PGSIZE - curroff in
        match f_ip f with
        | None => undef "file without inode"
        | Some ip =>
            inode ← zoom l_kfs (get_inode ip);
            if u32 curroff >? i_size inode then mret 0
            else
              a ← zoom l_kpc (copyPage pid dev_read ip (s32 (offset + PGSIZE * i)) (i_inum inode)
                    (i_dev inode) (temp + size - tempsize) currsize curroff);
              if a =? -1 then mret (-1)
              else fill_page_loop fuel f temp 0 size (tempsize - currsize) (i + 1)
        end
      else mret 0
  end.
Definition map_pagecache_page_util (p : nat) (f : option nat) (mmapaddr prot offset size : Z) : M kst Z :=
  temp ← zoom l_kvm kalloc;
  if temp =? 0 then mret (-1)
  else
    kmem_upd (λ m, memset m temp 0 PGSIZE);;
    fl ← get_open f;
    r ← fill_page_loop (S (S (Z.to_nat size))) fl temp offset size size 0;
    if r =? -1 then mret (-1)
    else
      x ← getp p;
      (* Map the page to user process *)
      r ← zoom l_kvm (mappages (p_pgdir x) mmapaddr PGSIZE (V2P temp) prot);
      if r <? 0 then mret (-1) else mret size.

Fixpoint map_pagecache_loop (fuel : nat) (p : nat) (f : option nat)
    (mmapaddr prot offset mainsize currsize size : Z) : M kst Z :=
  match fuel with
  | O => nofuel
  | S fuel =>
      if currsize <? mainsize then
        let mapsize := if PGSIZE >? size then size else PGSIZE in
        r ← map_pagecache_page_util p f (u32 (mmapaddr + currsize)) prot (s32 (offset + currsize)) mapsize;
        if r <? 0 then mret (-1)
        else map_pagecache_loop fuel p f mmapaddr prot offset mainsize (currsize + PGSIZE) (size - PGSIZE)
      else mret size
  end.
Definition map_pagecache_page (p : nat) (f : option nat) (mmapaddr prot offset size : Z) : M kst Z :=
  map_pagecache_loop (S (S (Z.to_nat (size / PGSIZE)))) p f mmapaddr prot offset size 0 size.

(** ** Anonymous mappings *)

Definition map_anon_page (p : nat) (off prot : Z) : M kst Z :=
  mapped_page ← zoom l_kvm kalloc;
  if mapped_page =? 0 then mret (-1)
  else
    kmem_upd (λ m, memset m mapped_page 0 PGSIZE);;
    x ← getp p;
    r ← zoom l_kvm (mappages (p_pgdir x) off PGSIZE (V2P mapped_page) prot);
    if r <? 0 then
      (* mappages failed *)
      zoom l_kvm (deallocuvm (p_pgdir x) (u32 (off - PGSIZE)) off);;
      zoom l_kvm (kfree mapped_page);;
      mret (-1)
    else mret 0.

Fixpoint map_anon_loop (fuel : nat) (p : nat) (mmapaddr prot i size : Z) : M kst Z :=
  match fuel with
  | O => nofuel
  | S fuel =>
      if i <? size then
        r ← map_anon_page p (u32 (mmapaddr + i)) prot;
        if r <? 0 then mret (-1) else map_anon_loop fuel p mmapaddr prot (i + PGSIZE) size
      else mret size
  end.
Definition map_anon_main (p : nat) (mmapaddr prot size : Z) : M kst Z :=
  map_anon_loop (S (S (Z.to_nat (size / PGSIZE)))) p mmapaddr prot 0 size.

(** ** Main functions *)

Definition mmap_store_data (p : nat) (addr size flags prot : Z) (f : option nat) (offset : Z) : M kst Z :=
  if negb (has flags MAP_ANONYMOUS) then
    r ← map_pagecache_page p f (u32 addr) prot offset size;
    if r =? -1 then mret (-1) else mret 0
  else
    r ← map_anon_main p (u32 addr) prot size;
    if r <? 0 then mret (-1) else mret 0.

(** The bytes of user memory from [addr] on, which have to be mapped: a page
    fault inside a write of the kernel is not modelled. *)
Fixpoint user_read (n : nat) (p : nat) (addr : Z) : M kst (list Z) :=
  match n with
  | O => mret []
  | S n =>
      '(pte, pa) ← get_physical_page p (PGROUNDDOWN addr);
      e ← gets (λ s, if pte =? 0 then 0 else load32 (kmemory s) pte);
      if present e then
        b ← gets (λ s, rd8 (kmemory s) (P2V pa + addr mod 4096));
        bs ← user_read n p (u32 (addr + 1));
        mret (b :: bs)
      else undef "page fault"
  end.

(** The index of the entry that starts at [mainaddr], 30 if there is none. *)
Fixpoint munmap_find (n : nat) (i : Z) (mainaddr : Z) : M proc Z :=
  match n with
  | O => mret i
  | S n =>
      r ← get_region i;
      if virt_addr r =? mainaddr then mret i else munmap_find n (i + 1) mainaddr
  end.

(** Free the pages of the first [main_map_size] bytes of the mapping. *)
Fixpoint munmap_pages (fuel : nat) (p : nat) (addr main_map_size currsize : Z) : M kst unit :=
  match fuel with
  | O => nofuel
  | S fuel =>
      if currsize <? main_map_size then
        '(pte, pa) ← get_physical_page p (u32 (addr + currsize));
        (if pa =? 0 then mret tt
         else
           zoom l_kvm (kfree (P2V pa));;
           kmem_upd (λ m, store32 m pte 0));;
        munmap_pages fuel p addr main_map_size (currsize + PGSIZE)
      else mret tt
  end.

(** [while (i < 30 && p->mmaps[i + 1].virt_addr)]: left shift the array. *)
Fixpoint shift_left (fuel : nat) (i : Z) : M proc unit :=
  match fuel with
  | O => nofuel
  | S fuel =>
      if i <? 30 then
        r ← get_region (i + 1);
        if nz (virt_addr r) then copy_region i (i + 1);; shift_left fuel (i + 1) else mret tt
      else mret tt
  end.

(** The last part of [my_munmap], which removes the entry or shortens it. *)
Definition munmap_entry (i unmapping_size : Z) : M proc unit :=
  r ← get_region i;
  if r_size r <=? u32 unmapping_size then
    upd_region i zero_mmap_region_struct;;
    shift_left 32 i;;
    modify (λ x, set_total_mmaps (total_mmaps x - 1) x)
  else
    upd_region i (λ r, set_place (u32 (virt_addr r + unmapping_size)) (u32 (r_size r - unmapping_size)) r).

Definition my_munmap (p : nat) (addr size : Z) : M kst Z :=
  let mainaddr := u32 (PGROUNDUPi addr) in
  let unmapping_size := PGROUNDUPi size in
  (* Find the mmap entry *)
  i ← on_proc p (munmap_find 30 0 mainaddr);
  total_size ← (if i =? 30 then mret 0 else r ← on_proc p (get_region i); mret (s32 (r_size r)));
  if (i =? 30) || (total_size =? 0) then mret (-1)
  else
    r ← on_proc p (get_region i);
    let isanon := has (r_flags r) MAP_ANONYMOUS in
    let isshared := has (r_flags r) MAP_SHARED in
    failed ← (if isshared && negb isanon && has (protection r) PROT_WRITE then
                (* write into the file *)
                match r_f r with
                | None => undef "file pointer"
                | Some f =>
                    zoom l_kfl (upd_file f (with_off (u32 (r_offset r))));;
                    src ← user_read (Z.to_nat (r_size r)) p (virt_addr r);
                    n ← zoom l_kfl (filewrite pid killed dev_write f src);
                    mret (n <? 0)
                end
              else mret false);
    if failed : bool then mret (-1)
    else
      let main_map_size := if unmapping_size >? total_size then total_size else unmapping_size in
      munmap_pages (S (S (Z.to_nat (main_map_size / PGSIZE)))) p addr main_map_size 0;;
      on_proc p (munmap_entry i unmapping_size);;
      mret 0.

Fixpoint delete_loop (n : nat) (p : nat) (total_maps : Z) : M kst unit :=
  match n with
  | O => mret tt
  | S n =>
      x ← getp p;
      last ← on_proc p (get_region (total_mmaps x - 1));
      (if ref_count last =? 0 then
         r ← on_proc p (get_region (total_maps - 1));
         my_munmap p (s32 (virt_addr r)) (s32 (r_size r));;
         mret tt
       else mret tt);;
      delete_loop n p (total_maps - 1)
  end.
Definition delete_mmaps (p : nat) : M kst unit :=
  x ← getp p;
  delete_loop (Z.to_nat (total_mmaps x)) p (total_mmaps x);;
  updp p (set_total_mmaps 0).

(** ** copy_maps *)

Definition add_stored (n : Z) (r : mmap_region) : mmap_region :=
  Region (virt_addr r) (r_size r) (r_flags r) (protection r) (r_f r) (r_offset r) (ref_count r)
    (s32 (stored_size r + n)).
Definition set_ref_count (n : Z) (r : mmap_region) : mmap_region :=
  Region (virt_addr r) (r_size r) (r_flags r) (protection r) (r_f r) (r_offset r) n (stored_size r).

(** One page of a shared mapping: map the parent's page, filling it first if
    need be.  Returns whether to give up. *)
Definition copy_shared_page (parent child : nat) (i start : Z) : M kst bool :=
  r ← on_proc parent (get_region i);
  '(_, pa) ← get_physical_page parent start;
  failed ← (if pa =? 0 then
              let total_mmap_size := s32 (r_size r - stored_size r) in
              let size := if PGSIZE >? total_mmap_size then total_mmap_size else PGSIZE in
              e ← mmap_store_data parent start size (r_flags r) (protection r) (r_f r) (r_offset r);
              if e <? 0 then mret true
              else on_proc parent (upd_region i (add_stored size));; mret false
            else mret false);
  if failed : bool then mret true
  else
    '(_, pa) ← get_physical_page parent start;
    c ← getp child;
    zoom l_kvm (mappages (p_pgdir c) start PGSIZE (V2P (P2V pa)) (protection r));;
    mret false.

(** One page of a private mapping: copy the parent's page if there is one. *)
Definition copy_private_page (parent child : nat) (i start : Z) : M kst bool :=
  r ← on_proc parent (get_region i);
  '(_, pa) ← get_physical_page parent start;
  if pa =? 0 then mret false
  else
    mem ← zoom l_kvm kalloc;
    if mem =? 0 then mret true
    else
      kmem_upd (λ m, memmove m mem (P2V pa) PGSIZE);;
      c ← getp child;
      e ← zoom l_kvm (mappages (p_pgdir c) start PGSIZE (V2P mem) (protection r));
      mret (e <? 0).

Fixpoint copy_pages (fuel : nat) (parent child : nat) (i start vend : Z) (isshared : bool) : M kst bool :=
  match fuel with
  | O => nofuel
  | S fuel =>
      if start <? vend then
        failed ← (if isshared then copy_shared_page parent child i start
                  else copy_private_page parent child i start);
        if failed : bool then mret true
        else copy_pages fuel parent child i (u32 (start + PGSIZE)) vend isshared
      else mret false
  end.

Fixpoint copy_regions (n : nat) (parent child : nat) (i : Z) : M kst bool :=
  match n with
  | O => mret false
  | S n =>
      r ← on_proc parent (get_region i);
      let isshared := has (r_flags r) MAP_SHARED in
      failed ← copy_pages (S (S (Z.to_nat (r_size r / PGSIZE)))) parent child i (virt_addr r)
                 (u32 (virt_addr r + r_size r)) isshared;
      if failed : bool then mret true
      else
        r ← on_proc parent (get_region i);
        on_proc child (upd_region i (λ d, copy_mmap_struct d r));;
        when isshared (on_proc child (upd_region i (set_ref_count 1)));;
        copy_regions n parent child (i + 1)
  end.
Definition copy_maps (parent child : nat) : M kst Z :=
  x ← getp parent;
  failed ← copy_regions (Z.to_nat (total_mmaps x)) parent child 0;
  if failed : bool then mret (-1)
  else
    x ← getp parent;
    updp child (set_total_mmaps (total_mmaps x));;
    mret 0.

(** ** handle_page_fault (trap.c) *)

(** The loop over the mappings; [addr] is the contents of [%cr2]. *)
Fixpoint fault_loop (n : nat) (p : nat) (i addr : Z) : M kst unit :=
  match n with
  | O => updp p (set_p_killed true)
  | S n =>
      r ← on_proc p (get_region i);
      let vstart := virt_addr r in
      let vend := u32 (vstart + r_size r) in
      if (addr >=? vstart) && (addr <=? vend) then
        '(_, pa) ← get_physical_page p (PGROUNDDOWN addr);
        if negb (pa =? 0) then updp p (set_p_killed true)
        else
          let remsize := u32 (r_size r - stored_size r) in
          let size := if PGSIZE >? remsize then remsize else PGSIZE in
          e ← mmap_store_data p (s32 (PGROUNDDOWN addr)) size (r_flags r) (protection r) (r_f r)
                (s32 (r_offset r + PGROUNDDOWN addr - virt_addr r));
          when (e <? 0) (updp p (set_p_killed true));;
          on_proc p (upd_region i (add_stored PGSIZE))
      else fault_loop n p (i + 1) addr
  end.
Definition handle_page_fault (p : nat) (addr : Z) : M kst unit :=
  x ← getp p;
  fault_loop (Z.to_nat (total_mmaps x)) p 0 addr.
End mmap.
