(* ===== verification/MmapSpec.v ===== *)
(** * Correctness of page faults on mappings and of munmap

    [handle_page_fault] gives a process a zeroed page of an anonymous mapping
    with the mapping's protection; [my_munmap] frees exactly the pages of the
    range and removes (or shortens) the mapping's entry.  The theorems on
    concrete tables show where the code departs from that. *)

From Stdlib Require Import ZArith Lia.
From stdpp Require Import base numbers strings gmap list.
From S2P Require Import Prelude Mmu Memory Locks Kalloc Vm VmSpec VmAlloc Proc0 Regions Bytes.
From S2P Require Import Disk Fs FsRw Pagecache File Kernel Mmap.

(** ** Kernel memory inside the kernel state *)

Definition wvm (v : vmst) (s : kst) : kst := lset l_kvm v s.

Lemma wvm_wvm v v' s : wvm v (wvm v' s) = wvm v s.
Proof. done. Qed.
Lemma wvm_id s : wvm (kvm s) s = s.
Proof. by destruct s as [[[] ? ? ?] ? ? ? ? ? ? ?]. Qed.
Lemma procof_wvm v s p : procof (wvm v s) p = procof s p.
Proof. done. Qed.

Lemma zoom_kvm {A} (m : M vmst A) s r v :
  m (kvm s) = Ok r v → zoom l_kvm m s = Ok r (wvm v s).
Proof. apply (zoom_ok l_kvm). Qed.

Lemma kmem_upd_ok f s : kmem_upd f s = Ok tt (wvm (set_vmem (f (kmemory s)) (kvm s)) s).
Proof. done. Qed.

Section paging.
Context {L : Linker}.

Lemma get_physical_page_ok p va s l :
  (p < length (k_proc s))%nat → pt_ok (kmemory s) (p_pgdir (procof s p)) l →
  get_physical_page p va s =
    Ok (pte_slot (kmemory s) (p_pgdir (procof s p)) va,
        PTE_ADDR (pte_of (kmemory s) (p_pgdir (procof s p)) va)) s.
Proof.
  intros Hp Hok. unfold get_physical_page. mstep (getp_ok s p Hp).
  mstep (zoom_kvm _ s _ _ (walkpgdir_noalloc (p_pgdir (procof s p)) va (kvm s))).
  rewrite wvm_id. fold (kmemory s).
  destruct (Z.eqb_spec (pte_slot (kmemory s) (p_pgdir (procof s p)) va) 0) as [Hz|Hz].
  - unfold mret, M_ret. rewrite Hz. apply (pte_slot_0 _ _ _ _ Hok) in Hz.
    unfold pte_of. by rewrite Hz.
  - mrun. rewrite pte_of_slot; [done|].
    destruct (present _) eqn:E; [done|]. by apply (pte_slot_0 _ _ _ _ Hok) in E.
Qed.

(** Mapping a page fails only when there is no page for the table. *)
Lemma mappages_one_fails pgdir va pa perm s s' l :
  free_pages s l → pt_ok (vmem s) pgdir l → 0 ≤ va → va mod 4096 = 0 → va + 4096 ≤ KERNBASE →
  mappages pgdir va PGSIZE pa perm s = Ok (-1) s' → l = [].
Proof.
  intros Hf Hok Hva Hal Hk. unfold KERNBASE, mappages in *.
  assert (PGROUNDDOWN va = va) as -> by (apply PGROUNDDOWN_id; lia).
  assert (PGROUNDDOWN (u32 (va + PGSIZE - 1)) = va) as ->
    by (rewrite PGROUNDDOWN_eq; unfold PGSIZE; ulia).
  simpl mappages_loop.
  destruct (walkpgdir_alloc pgdir va s l Hf Hok) as (r & s1 & l1 & E1 & _ & Hok1 & _ & _ & _ & _ & Hr).
  mstep E1. destruct Hr as [(_ & ? & _)|[Hpr ->]]; [done|].
  pose proof (pte_slot_pos _ _ _ _ Hok1 Hpr).
  destruct (Z.eqb_spec (pte_slot (vmem s1) pgdir va) 0); [lia|]. mrun.
  destruct (present (load32 _ _)); [by intros [=]|]. mrun. rewrite Z.eqb_refl. by intros [=].
Qed.

(** A page of the free list, zeroed, is mapped at [a] with [perm]; nothing else
    in the address space changes. *)
Definition page_mapped (pgdir a perm : Z) (s : vmst) (l : list Z) (s' : vmst) : Prop :=
  ∃ v l', v ∈ l ∧ (v ∉ l') ∧ aspace s' pgdir l' ∧ zeroed (vmem s') v ∧ ¬ pt_page (vmem s') pgdir v ∧
    pt_ext pgdir (vmem s) l (vmem s') l' ∧
    (∀ va, 0 ≤ va < 4294967296 → pte_of (vmem s') pgdir va =
      if decide (va / 4096 = a / 4096) then pte_entry (V2P v) perm else pte_of (vmem s) pgdir va).

Lemma map_anon_page_ok p off prot s l :
  (p < length (k_proc s))%nat → aspace (kvm s) (p_pgdir (procof s p)) l → (2 ≤ length l)%nat →
  0 ≤ off → off mod 4096 = 0 → off + 4096 ≤ KERNBASE → 0 ≤ prot < 4096 →
  present (pte_of (kmemory s) (p_pgdir (procof s p)) off) = false →
  ∃ v', map_anon_page p off prot s = Ok 0 (wvm v' s) ∧
    page_mapped (p_pgdir (procof s p)) off prot (kvm s) l v'.
Proof.
  intros Hp [Hf Hok] Hl Ho Hal Hk Hprot Hnp.
  destruct l as [|v l]; simpl in Hl; [lia|].
  destruct (alloc_page prot (p_pgdir (procof s p)) off (kvm s) v l) as (s1 & r & s2 & l2 & E1 & E2 & Hpv &
    Hvl & Hf2 & Hok2 & He2 & Hnl2 & Hvp & Hvl2 & Hz & Hu & Hr & Hpte); [done..|].
  destruct Hr as [->|[-> ->]]; cycle 1.
  { destruct (kalloc_cons (kvm s) v l Hf) as (s1' & E1' & Hf1 & Hm1 & _).
    rewrite E1 in E1'. injection E1' as <-.
    assert (l = []) as ->; [|simpl in Hl; lia].
    set (t := set_vmem (memset (vmem s1) v 0 PGSIZE) s1) in *.
    assert (Hfr : ∀ w, page w → w ≠ v → agree (kmemory s) (vmem t) w).
    { intros w Hw Hne. apply (agree_outside _ _ v); [done..|]. intros a Ha. simpl.
      rewrite Hm1, rd8_memset by (unfold PGSIZE; lia).
      rewrite decide_False; [done|unfold PGSIZE, in_page in *; lia]. }
    assert (Hpl : Forall page l) by (by destruct Hf1 as (_ & _ & ? & _)).
    rewrite Forall_forall in Hpl.
    eapply (mappages_one_fails _ off _ _ t s2); [| |done..|exact E2].
    - apply free_pages_frame; [done|]. intros w a Hw Ha. rewrite (Hfr w); [by rewrite Hm1| | |done].
      + by apply Hpl.
      + by intros ->.
    - eapply pt_ok_frame; [exact Hok|apply Hfr|set_solver].
      + by apply (pt_dir _ _ _ Hok).
      + intros E. apply (pt_dir_free _ _ _ Hok). rewrite E. by left. }
  exists s2. split.
  - unfold map_anon_page. mstep (zoom_kvm _ _ _ _ E1).
    destruct (Z.eqb_spec v 0) as [->|_]; [apply page_pos in Hpv; lia|].
    mstep (kmem_upd_ok (λ m, memset m v 0 PGSIZE) (wvm s1 s)).
    rewrite wvm_wvm. mstep (getp_ok (wvm _ s) p Hp). rewrite procof_wvm.
    by mstep (zoom_kvm _ (wvm _ s) _ _ E2).
  - exists v, l2. split_and!; try done; [by left|]. intros va Hva. rewrite Hpte by done.
    destruct (decide (va / 4096 = off / 4096)) as [E|E];
      [by rewrite decide_True|by rewrite decide_False by naive_solver].
Qed.
End paging.

(** ** Entries of the table of mappings *)

Lemma on_get_region s p i :
  (p < length (k_proc s))%nat → length (mmaps (procof s p)) = 30%nat → 0 ≤ i < 30 →
  on_proc p (get_region i) s = Ok (reg (procof s p) i) s.
Proof.
  intros Hp Hl Hi. rewrite (on_proc_ok s p _ _ _ Hp (get_region_ok _ i Hl Hi)). by rewrite putp_id.
Qed.

Lemma on_upd_region s p i f :
  (p < length (k_proc s))%nat → length (mmaps (procof s p)) = 30%nat → 0 ≤ i < 30 →
  on_proc p (upd_region i f) s = Ok tt (putp p (upd (procof s p) i (f (reg (procof s p) i))) s).
Proof. intros Hp Hl Hi. exact (on_proc_ok s p _ _ _ Hp (upd_region_ok _ i f Hl Hi)). Qed.

(** ** Page faults *)

(** The test of [handle_page_fault]. *)
Definition fault_in (r : mmap_region) (addr : Z) : Prop :=
  virt_addr r ≤ addr ≤ u32 (virt_addr r + r_size r).

Section fault.
Context {L : Linker}.
Context (pid : Z) (dev_read : Z → option (nat → Z → M fsst (Z * list Z))).

Lemma fault_loop_skip m n p k addr s :
  (p < length (k_proc s))%nat → length (mmaps (procof s p)) = 30%nat →
  0 ≤ k → k + Z.of_nat m ≤ 30 →
  (∀ j, k ≤ j < k + Z.of_nat m → ¬ fault_in (reg (procof s p) j) addr) →
  fault_loop pid dev_read (m + n) p k addr s = fault_loop pid dev_read n p (k + Z.of_nat m) addr s.
Proof.
  intros Hp Hl. revert k. induction m as [|m IH]; intros k Hk Hm Hno.
  { simpl. by rewrite Z.add_0_r. }
  simpl fault_loop. mstep (on_get_region s p k Hp Hl ltac:(lia)).
  pose proof (Hno k ltac:(lia)) as Hk0. unfold fault_in in Hk0.
  destruct (Z.geb_spec addr (virt_addr (reg (procof s p) k))); simpl;
    [destruct (Z.leb_spec addr (u32 (virt_addr (reg (procof s p) k) + r_size (reg (procof s p) k)))); [lia|]|].
  all: rewrite IH; [f_equal; lia|lia|lia|intros j Hj; apply Hno; lia].
Qed.

Lemma store_anon_page p addr size flags prot f off s l :
  (p < length (k_proc s))%nat → aspace (kvm s) (p_pgdir (procof s p)) l → (2 ≤ length l)%nat →
  has flags MAP_ANONYMOUS = true → 0 < size ≤ 4096 →
  MMAPBASE ≤ addr → addr mod 4096 = 0 → addr + 4096 ≤ KERNBASE → 0 ≤ prot < 4096 →
  present (pte_of (kmemory s) (p_pgdir (procof s p)) addr) = false →
  ∃ v', mmap_store_data pid dev_read p (s32 addr) size flags prot f off s = Ok 0 (wvm v' s) ∧
    page_mapped (p_pgdir (procof s p)) addr prot (kvm s) l v'.
Proof.
  intros Hp Ha Hl Hfl Hsz Hb Hal Hk Hprot Hnp. unfold MMAPBASE, KERNBASE in *.
  destruct (map_anon_page_ok p addr prot s l) as (v' & E & Hpm); try done; [lia|].
  exists v'. split; [|done].
  assert (map_anon_main p (u32 (s32 addr)) prot size s = Ok size (wvm v' s)) as E1.
  { unfold map_anon_main. assert (u32 (s32 addr) = addr) as -> by ulia.
    simpl map_anon_loop. destruct (Z.ltb_spec 0 size); [|lia].
    assert (u32 (addr + 0) = addr) as -> by ulia. mstep E.
    cbn iota. change (0 + PGSIZE) with 4096. simpl Z.ltb.
    destruct (Z.ltb_spec 4096 size); [lia|done]. }
  unfold mmap_store_data. rewrite Hfl. cbn [negb]. mstep E1. by destruct (Z.ltb_spec size 0); [lia|].
Qed.

(** A mapping without data to store gets no page. *)
Lemma store_nothing p addr flags prot f off s :
  has flags MAP_ANONYMOUS = true → mmap_store_data pid dev_read p addr 0 flags prot f off s = Ok 0 s.
Proof. intros Hfl. unfold mmap_store_data. rewrite Hfl. reflexivity. Qed.

(** Filling the page at [addr] as mapping [i], [r], says. *)
Definition serve_fault (p : nat) (i addr : Z) (r : mmap_region) : M kst unit :=
  let remsize := u32 (r_size r - stored_size r) in
  e ← mmap_store_data pid dev_read p (s32 (PGROUNDDOWN addr)) (if PGSIZE >? remsize then remsize else PGSIZE)
        (r_flags r) (protection r) (r_f r) (s32 (r_offset r + PGROUNDDOWN addr - virt_addr r));
  when (e <? 0) (updp p (set_p_killed true));;
  on_proc p (upd_region i (add_stored PGSIZE)).

(** The first region that passes the test decides how the page is filled. *)
Lemma fault_first p i addr s l :
  let x := procof s p in let r := reg x i in
  (p < length (k_proc s))%nat → length (mmaps x) = 30%nat → 0 ≤ i < total_mmaps x → total_mmaps x ≤ 30 →
  pt_ok (kmemory s) (p_pgdir x) l →
  fault_in r addr → (∀ k, 0 ≤ k < i → ¬ fault_in (reg x k) addr) →
  0 ≤ addr < 4294967296 → pte_of (kmemory s) (p_pgdir x) addr = 0 →
  handle_page_fault pid dev_read p addr s = serve_fault p i addr r s.
Proof.
  intros x r Hp Hl Hi Ht Ha Hin Hno Hb Hpte.
  assert (Hpte' : pte_of (kmemory s) (p_pgdir x) (PGROUNDDOWN addr) = 0).
  { assert (PGROUNDDOWN addr = addr / 4096 * 4096) as Hd by (rewrite PGROUNDDOWN_eq; ulia).
    by rewrite (pte_of_same_page _ _ _ addr), Hpte by zlia. }
  unfold handle_page_fault. mstep (getp_ok s p Hp). fold x.
  replace (Z.to_nat (total_mmaps x)) with (Z.to_nat i + S (Z.to_nat (total_mmaps x - i - 1)))%nat by lia.
  rewrite fault_loop_skip by (try done; try lia; intros j Hj; apply Hno; lia).
  rewrite Z2Nat.id, Z.add_0_l by lia. simpl fault_loop.
  mstep (on_get_region s p i Hp Hl ltac:(lia)). fold x r. unfold fault_in in Hin.
  destruct (Z.geb_spec addr (virt_addr r)); [|lia].
  destruct (Z.leb_spec addr (u32 (virt_addr r + r_size r))); [|lia]. cbn [andb].
  mstep (get_physical_page_ok p (PGROUNDDOWN addr) s l Hp Ha). fold x. rewrite Hpte'.
  change (PTE_ADDR 0 =? 0) with true. reflexivity.
Qed.

Lemma serve_anonymous p i addr s l :
  let x := procof s p in let r := reg x i in
  (p < length (k_proc s))%nat → length (mmaps x) = 30%nat → 0 ≤ i < 30 →
  aspace (kvm s) (p_pgdir x) l → (2 ≤ length l)%nat →
  has (r_flags r) MAP_ANONYMOUS = true → 0 ≤ protection r < 4096 →
  MMAPBASE ≤ addr → addr + 4096 ≤ KERNBASE → pte_of (kmemory s) (p_pgdir x) addr = 0 →
  if decide (u32 (r_size r - stored_size r) = 0)
  then serve_fault p i addr r s = Ok tt (putp p (upd x i (add_stored PGSIZE r)) s)
  else ∃ s', serve_fault p i addr r s = Ok tt s' ∧
    page_mapped (p_pgdir x) addr (protection r) (kvm s) l (kvm s') ∧
    s' = putp p (upd x i (add_stored PGSIZE r)) (wvm (kvm s') s).
Proof.
  intros x r Hp Hl Hi Ha Hfree Hfl Hprot Hb Hk Hpte. unfold MMAPBASE, KERNBASE in *.
  destruct (decide (u32 (r_size r - stored_size r) = 0)) as [Hrem|Hrem].
  { unfold serve_fault. rewrite Hrem. change (if PGSIZE >? 0 then 0 else PGSIZE) with 0.
    mstep (store_nothing p (s32 (PGROUNDDOWN addr)) (r_flags r) (protection r) (r_f r)
      (s32 (r_offset r + PGROUNDDOWN addr - virt_addr r)) s Hfl). mrun.
    exact (on_upd_region s p i (add_stored PGSIZE) Hp Hl ltac:(lia)). }
  assert (PGROUNDDOWN addr = addr / 4096 * 4096) as Hd by (rewrite PGROUNDDOWN_eq; ulia).
  assert (Hpte' : pte_of (kmemory s) (p_pgdir x) (PGROUNDDOWN addr) = 0)
    by (rewrite (pte_of_same_page _ _ _ addr), Hpte by zlia; done).
  destruct (store_anon_page p (PGROUNDDOWN addr)
      (if PGSIZE >? u32 (r_size r - stored_size r) then u32 (r_size r - stored_size r) else PGSIZE)
      (r_flags r) (protection r) (r_f r) (s32 (r_offset r + PGROUNDDOWN addr - virt_addr r)) s l)
    as (v' & E & Hpm); try done; rewrite ?Hd.
  { pose proof (u32_range (r_size r - stored_size r)). unfold PGSIZE.
    destruct (Z.gtb_spec 4096 (u32 (r_size r - stored_size r))); lia. }
  1-3: unfold MMAPBASE, KERNBASE; zlia.
  { rewrite <-Hd. fold x. by rewrite Hpte'. }
  exists (putp p (upd x i (add_stored PGSIZE r)) (wvm v' s)). split_and!; [|clear -Hpm Hd|done].
  - unfold serve_fault. mstep E. mrun. exact (on_upd_region (wvm v' s) p i (add_stored PGSIZE) Hp Hl ltac:(lia)).
  - destruct Hpm as (v & l' & H1 & H2 & H3 & H4 & H5 & H6 & H7).
    exists v, l'. split_and!; try done. intros va Hva. rewrite H7 by done.
    assert (PGROUNDDOWN addr / 4096 = addr / 4096) as -> by zlia. done.
Qed.

(** The mapping that serves a fault at [addr], inside mapping [i]: the one
    before if it ends there. *)
Definition server (x : proc) (i addr : Z) : Z :=
  if decide (0 < i ∧ virt_addr (reg x (i - 1)) + r_size (reg x (i - 1)) = addr) then i - 1 else i.

Lemma server_first x i addr :
  regions_ok x → 0 ≤ i < total_mmaps x →
  virt_addr (reg x i) ≤ addr < virt_addr (reg x i) + r_size (reg x i) →
  let j := server x i addr in
  0 ≤ j ≤ i ∧ fault_in (reg x j) addr ∧ ∀ k, 0 ≤ k < j → ¬ fault_in (reg x k) addr.
Proof.
  intros Hok Hi Hin j.
  assert (Hb : ∀ k, 0 ≤ k < total_mmaps x → 0x60000000 ≤ virt_addr (reg x k) ∧ 0 < r_size (reg x k) ∧
    virt_addr (reg x k) + r_size (reg x k) ≤ rend (reg x k) ∧ rend (reg x k) < 0x80000000 ∧
    u32 (virt_addr (reg x k) + r_size (reg x k)) = virt_addr (reg x k) + r_size (reg x k)).
  { intros k Hk. pose proof (ro_reg _ Hok k Hk) as Hr. pose proof (rend_bounds _ Hr) as [Hre _].
    destruct Hr. unfold MMAPBASE, KERNBASE in *. rewrite u32_small by lia. lia. }
  assert (Hlow : ∀ k m, 0 ≤ k < m → m ≤ i → virt_addr (reg x k) + r_size (reg x k) < virt_addr (reg x m) + r_size (reg x m)).
  { intros k m Hk Hm. pose proof (regions_ordered _ k m Hok ltac:(lia) ltac:(lia)).
    pose proof (Hb k ltac:(lia)). pose proof (Hb m ltac:(lia)). lia. }
  unfold j, server. destruct (decide _) as [[H0 He]|Hne].
  - pose proof (Hb (i - 1) ltac:(lia)). split; [lia|]. unfold fault_in. split; [lia|]. intros k Hk.
    pose proof (Hlow k (i - 1) ltac:(lia) ltac:(lia)). pose proof (Hb k ltac:(lia)). lia.
  - pose proof (Hb i ltac:(lia)). split; [lia|]. unfold fault_in. split; [lia|]. intros k Hk.
    pose proof (Hb k ltac:(lia)). pose proof (regions_ordered _ k i Hok ltac:(lia) ltac:(lia)).
    destruct (decide (k = i - 1)) as [->|Hn]; [intros ?; apply Hne; lia|].
    pose proof (Hlow k (i - 1) ltac:(lia) ltac:(lia)). pose proof (Hb (i - 1) ltac:(lia)).
    pose proof (regions_ordered _ (i - 1) i Hok ltac:(lia) ltac:(lia)). lia.
Qed.

Lemma fault_inside p i addr s l :
  let x := procof s p in let j := server x i addr in
  (p < length (k_proc s))%nat → regions_ok x → 0 ≤ i < total_mmaps x →
  virt_addr (reg x i) ≤ addr < virt_addr (reg x i) + r_size (reg x i) →
  pt_ok (kmemory s) (p_pgdir x) l → pte_of (kmemory s) (p_pgdir x) addr = 0 →
  handle_page_fault pid dev_read p addr s = serve_fault p j addr (reg x j) s.
Proof.
  intros x j Hp Hok Hi Hin Ha Hpte. destruct (server_first x i addr Hok Hi Hin) as (Hj & Hf & Hno).
  pose proof (ro_reg _ Hok i Hi) as Hr. destruct Hr. unfold MMAPBASE, KERNBASE in *. pose proof (ro_tot _ Hok).
  apply (fault_first p j addr s l); try done; [apply Hok|fold j in Hj; fold x; lia|fold x; lia|lia].
Qed.
End fault.

(** ** Unmapping *)














Section unmap.
Context {L : Linker}.


End unmap.

(** ** A concrete process with mappings *)

#[local] Existing Instance example_linker.

(** One process, with the page directory of [VmAlloc.v], in an idle kernel. *)
Definition demo_kernel (x : proc) : kst :=
  KSt (FileSt (PcSt vm_boot (demo_fs T_FILE) [] 0 unlocked) [] unlocked []) [set_p_pgdir pgdir0 x] unlocked 1 None
    [Some 0%nat] 0 unlocked.

Definition rw_anon (a n : Z) : mmap_region :=
  Region a n (Z.lor MAP_PRIVATE MAP_ANONYMOUS) (Z.lor PTE_U 2) None 0 0 0.
Definition ro_anon (a n : Z) : mmap_region :=
  Region a n (Z.lor MAP_PRIVATE MAP_ANONYMOUS) PTE_U None 0 0 0.
(** Two mappings, one next to the other. *)
Definition two_mappings : proc :=
  set_total_mmaps 2
    (set_mmaps (ro_anon MMAPBASE 4096 :: rw_anon (MMAPBASE + 4096) 9000 :: replicate 28 region0) proc0).

Lemma two_mappings_ok x : x = two_mappings ∨ x = set_p_pgdir pgdir0 two_mappings → regions_ok x.
Proof.
  intros H. assert (mmaps x = mmaps two_mappings ∧ total_mmaps x = 2) as [E1 E2] by (by destruct H as [-> | ->]).
  unfold reg in *. split; unfold reg; rewrite ?E1, ?E2; try done.
  - intros k Hk. assert (k = 0 ∨ k = 1) as [-> | ->] by lia; by split.
  - intros k Hk Hk'. assert (k = 0) as -> by lia. by vm_compute.
  - intros k Hk.
    change (mmaps two_mappings) with
      ([ro_anon MMAPBASE 4096; rw_anon (MMAPBASE + 4096) 9000] ++ replicate 28 region0).
    rewrite lookup_app_r by (simpl; lia). by rewrite lookup_replicate_2 by (simpl; lia).
Qed.

Lemma demo_aspace x : aspace (kvm (demo_kernel x)) pgdir0 vm_boot_free.
Proof. destruct vm_boot_ok as (Hf & Hok & _). split; [exact Hf|exact Hok]. Qed.

Lemma demo_free : (2 ≤ length vm_boot_free)%nat.
Proof. assert (length vm_boot_free = 15)%nat as -> by (by vm_compute). lia. Qed.

Lemma demo_pte x va : 0 ≤ va < 4294967296 → pte_of (kmemory (demo_kernel x)) pgdir0 va = 0.
Proof. destruct vm_boot_ok as (_ & _ & Hz). exact (Hz va). Qed.

(** ** Claims *)

(** C6. A page fault on a missing page inside a mapping [i], where the mapping
    that serves it is anonymous.  That is mapping [i], unless the mapping before
    ends exactly at the address, which is taken for a part of it.  If the size
    of the mapping differs from the number of bytes its entry says are stored,
    the page is resolved with a page of its own: a page of the free list (which
    has two, the other for a page table), zeroed, is mapped at the faulting page
    with the protection of the mapping (which must fit the flags of an entry),
    and every other entry of the page table, the other mappings and the rest of
    the kernel are unchanged.  Otherwise
    nothing is mapped at all.  The stored size grows by a page in both cases (it
    stays with the slot of the array when mappings are moved). *)
Theorem page_fault_maps_zeroed_page {L : Linker} pid dev_read p i addr s l :
  let x := procof s p in let j := server x i addr in let r := reg x j in
  (p < length (k_proc s))%nat → regions_ok x → 0 ≤ i < total_mmaps x →
  virt_addr (reg x i) ≤ addr < virt_addr (reg x i) + r_size (reg x i) →
  has (r_flags r) MAP_ANONYMOUS = true → 0 ≤ protection r < 4096 →
  aspace (kvm s) (p_pgdir x) l → (2 ≤ length l)%nat →
  pte_of (kmemory s) (p_pgdir x) addr = 0 →
  if decide (u32 (r_size r - stored_size r) = 0)
  then handle_page_fault pid dev_read p addr s = Ok tt (putp p (upd x j (add_stored PGSIZE r)) s)
  else ∃ s', handle_page_fault pid dev_read p addr s = Ok tt s' ∧
    page_mapped (p_pgdir x) addr (protection r) (kvm s) l (kvm s') ∧
    s' = putp p (upd x j (add_stored PGSIZE r)) (wvm (kvm s') s).
Proof.
  intros x j r Hp Hok Hi Hin Hfl Hprot Ha Hl Hpte.
  rewrite (fault_inside pid dev_read p i addr s l Hp Hok Hi Hin (proj2 Ha) Hpte).
  destruct (server_first x i addr Hok Hi Hin) as (Hj & _). fold j in Hj. pose proof (ro_tot _ Hok).
  destruct (ro_reg _ Hok i Hi). unfold MMAPBASE, KERNBASE in *.
  apply (serve_anonymous pid dev_read p j addr s l); try done; [apply Hok|lia|unfold MMAPBASE; lia|unfold KERNBASE; lia].
Qed.

Lemma page_fault_maps_zeroed_page_witness :
  ∃ s', handle_page_fault 1 (λ _, None) 0 (MMAPBASE + 5000) (demo_kernel two_mappings) = Ok tt s' ∧
    page_mapped pgdir0 (MMAPBASE + 5000) 6 (kvm (demo_kernel two_mappings)) vm_boot_free (kvm s').
Proof.
  destruct (page_fault_maps_zeroed_page 1 (λ _, None) 0 1 (MMAPBASE + 5000) (demo_kernel two_mappings)
    vm_boot_free) as (s' & E & Hm & _).
  - apply Nat.lt_0_1.
  - apply two_mappings_ok. right. reflexivity.
  - vm_compute. split; [discriminate|reflexivity].
  - vm_compute. split; [discriminate|reflexivity].
  - reflexivity.
  - vm_compute. split; [discriminate|reflexivity].
  - apply demo_aspace.
  - apply demo_free.
  - apply (demo_pte two_mappings). vm_compute. split; [discriminate|reflexivity].
  - exists s'. split; [exact E|exact Hm].
Defined.

(** C39. Where a mapping starts exactly at the end of another one (where
    [find_mmap_addr] puts it after a mapping of whole pages), a fault on its
    first byte is served as one of the mapping before, whatever the two are:
    the page is filled with what the flags, the file and the offset of that
    mapping say, as if the file went on behind its end, gets its protection, and
    is counted as stored there. *)
Theorem page_fault_uses_previous_mapping {L : Linker} pid dev_read p i s l :
  let x := procof s p in let addr := virt_addr (reg x (i + 1)) in
  (p < length (k_proc s))%nat → regions_ok x → 0 ≤ i → i + 1 < total_mmaps x →
  virt_addr (reg x i) + r_size (reg x i) = addr →
  pt_ok (kmemory s) (p_pgdir x) l → pte_of (kmemory s) (p_pgdir x) addr = 0 →
  handle_page_fault pid dev_read p addr s = serve_fault pid dev_read p i addr (reg x i) s.
Proof.
  intros x addr Hp Hok H0 Hi Hadj Ha Hpte. destruct (ro_reg _ Hok (i + 1) ltac:(lia)) as [H5 H6 H7 H8].
  rewrite (fault_inside pid dev_read p (i + 1) addr s l Hp Hok ltac:(fold x; lia) ltac:(unfold addr; fold x; lia) Ha Hpte).
  fold x. assert (server x (i + 1) addr = i) as ->; [|done]. unfold server.
  replace (i + 1 - 1) with i by lia. rewrite decide_True; lia.
Qed.

Lemma page_fault_uses_previous_mapping_witness :
  handle_page_fault 1 (λ _, None) 0 (MMAPBASE + 4096) (demo_kernel two_mappings) =
  serve_fault 1 (λ _, None) 0 0 (MMAPBASE + 4096) (ro_anon MMAPBASE 4096) (demo_kernel two_mappings).
Proof.
  apply (page_fault_uses_previous_mapping 1 (λ _, None) 0 0 (demo_kernel two_mappings) vm_boot_free).
  - apply Nat.lt_0_1.
  - apply two_mappings_ok. right. reflexivity.
  - discriminate.
  - reflexivity.
  - reflexivity.
  - apply demo_aspace.
  - apply (demo_pte two_mappings). vm_compute. split; [discriminate|reflexivity].
Defined.





Lemma ok_result {S A} `{EqDecision A} (o : outcome S A) r :
  match o with Ok r' _ => bool_decide (r' = r) | _ => false end = true → ∃ s, o = Ok r s.
Proof. destruct o as [r' s| | | |]; try done. intros ->%bool_decide_eq_true. by exists s. Qed.

(** A process maps two pages and unmaps the first, then the second twice. *)
Definition unmap_twice : M kst (Z * Z) :=
  a ← on_proc 0 (my_mmap [] 0 None 4096 0 (Z.lor MAP_PRIVATE MAP_ANONYMOUS) PROT_READ);
  b ← on_proc 0 (my_mmap [] 0 None 4096 0 (Z.lor MAP_PRIVATE MAP_ANONYMOUS) PROT_READ);
  my_munmap 1 false (λ _, None) 0 a 4096;;
  my_munmap 1 false (λ _, None) 0 b 4096;;
  r ← my_munmap 1 false (λ _, None) 0 b 4096;
  x ← getp 0;
  mret (r, total_mmaps x).

(** The left shift of [my_munmap] leaves a stale copy of the last mapping
    behind the table, which the search of the next [munmap] finds: a process
    that maps two pages and unmaps the first once and the second twice gets a
    success each time and is left with -1 mappings. *)
Theorem munmap_twice_succeeds : ∃ s', unmap_twice (demo_kernel proc0) = Ok (0, -1) s'.
Proof. apply ok_result. by vm_compute. Qed.
