(* ===== verification/Proc.v ===== *)
(** * Processes (proc.c)

    Allocation of processes, [fork], [exit], [wait], [kill], sleeping and
    waking up, and the scheduler, on the state of [Kernel.v].

    [swtch] saves the registers of one kernel thread and resumes another: when
    the process that CPU [c] runs calls [sched], the scheduler of that CPU
    continues its loop over the process table behind that process, with
    [ptable.lock] held, until it has switched to the next runnable process or
    reached the end of the table.  The operations that give up the CPU
    therefore end with that part of the scheduler, and what a process does
    when it is resumed is an operation of its own ([forkret], [yield_end],
    [sleep_end], [wait_resume]). *)

From Stdlib Require Import ZArith Lia.
From stdpp Require Import base numbers strings gmap list.
From S2P Require Import Prelude Mmu Memory Locks Kalloc Vm Proc0 Regions Bytes Pipe Disk Fs.
From S2P Require Import Pagecache File Kernel Mmap.

Definition KSTACKSIZE : Z := 4096.
Definition TRAPFRAME_SIZE : Z := 76.
Definition CONTEXT_SIZE : Z := 20.
Definition FL_IF : Z := 0x200.
Definition SEG_UCODE : Z := 3.
Definition SEG_UDATA : Z := 4.
Definition DPL_USER : Z := 3.

(** ** The running process *)

(** [mycpu()->proc]. *)
Definition mycpu_proc (c : nat) : M kst (option nat) := λ s,
  match k_cpus s !! c with Some p => Ok p s | None => Panic "unknown apicid" end.
(** [myproc()] where it is dereferenced. *)
Definition myproc (c : nat) : M kst nat :=
  p ← mycpu_proc c;
  match p with Some p => mret p | None => undef "myproc" end.

(** [mycpu()->ncli] while no code is between a bare [pushcli] and its [popcli]:
    the number of spin locks held. *)
Definition held (l : spinlock) : Z := if locked l then 1 else 0.
Definition ncli (s : kst) : Z :=
  let fl := k_fl s in let pc := fl_pc fl in let fs := pc_fs pc in
  held (k_ptlock s) + held (k_tickslock s) + held (fl_lock fl) + held (pc_lock pc) +
  held (km_lock (kmem (pc_vm pc))) + held (ic_lock fs) +
  foldr Z.add 0 ((λ i, held (sl_lk (i_lock i))) <$> ic_inode fs) +
  foldr Z.add 0 ((λ k, held (p_lock (kp_pipe k))) <$> fl_pipes fl).

(** The checks of [switchuvm]; it loads the task and page-table registers. *)
Definition switchuvm (p : nat) : M kst unit :=
  x ← getp p;
  if p_kstack x =? 0 then panic "switchuvm: no kstack"
  else if p_pgdir x =? 0 then panic "switchuvm: no pgdir"
  else mret tt.

Definition pinit : M kst unit := modify (lset l_ptlock unlocked).

(** ** The scheduler *)

(** The [for] loop of [scheduler], over the last [n] entries of the table. *)
Fixpoint scheduler_loop (n : nat) (c : nat) (p : nat) : M kst (option nat) :=
  match n with
  | O => release l_ptlock;; mret None
  | S n =>
      x ← getp p;
      if bool_decide (p_state x = RUNNABLE) then
        modify (set_cpu c (Some p));;
        switchuvm p;;
        updp p (set_p_state RUNNING);;
        mret (Some p)
      else scheduler_loop n c (S p)
  end.
(** One round of the outer loop. *)
Definition scheduler (c : nat) : M kst (option nat) :=
  acquire l_ptlock;;
  scheduler_loop (Z.to_nat NPROC) c 0.
(** What follows [swtch] in the loop, after process [p] ran. *)
Definition scheduler_resume (c p : nat) : M kst (option nat) :=
  modify (set_cpu c None);;
  scheduler_loop (Z.to_nat NPROC - S p) c (S p).

(** Interrupts are off while a spin lock is held, so the test of FL_IF is the
    test of [ncli]. *)
Definition sched (c : nat) : M kst (option nat) :=
  p ← myproc c;
  s ← gets id;
  if negb (locked (k_ptlock s)) then panic "sched ptable.lock"
  else if negb (ncli s =? 1) then panic "sched locks"
  else
    x ← getp p;
    if bool_decide (p_state x = RUNNING) then panic "sched running"
    else scheduler_resume c p.

Definition yield (c : nat) : M kst (option nat) :=
  acquire l_ptlock;;
  p ← myproc c;
  updp p (set_p_state RUNNABLE);;
  sched c.
Definition yield_end : M kst unit := release l_ptlock.

(** ** Sleep and wakeup *)

(** [lk] is the lock given up while sleeping, [None] for [ptable.lock]. *)
Definition sleep_begin (c : nat) (chan : Z) (lk : option (lens kst spinlock)) : M kst (option nat) :=
  p ← mycpu_proc c;
  match p with
  | None => panic "sleep"
  | Some p =>
      match lk with Some lk => acquire l_ptlock;; release lk | None => mret tt end;;
      updp p (set_p_chan chan);;
      updp p (set_p_state SLEEPING);;
      sched c
  end.
Definition sleep_end (p : nat) (lk : option (lens kst spinlock)) : M kst unit :=
  updp p (set_p_chan 0);;
  match lk with Some lk => release l_ptlock;; acquire lk | None => mret tt end.

Definition wake (chan : Z) (x : proc) : proc :=
  if bool_decide (p_state x = SLEEPING) && (p_chan x =? chan) then set_p_state RUNNABLE x else x.
Definition wakeup1 (chan : Z) : M kst unit :=
  modify (λ s, set_procs (wake chan <$> k_proc s) s).
Definition wakeup (chan : Z) : M kst unit :=
  acquire l_ptlock;; wakeup1 chan;; release l_ptlock.

Fixpoint kill_loop (n : nat) (p : nat) (pid : Z) : M kst Z :=
  match n with
  | O => release l_ptlock;; mret (-1)
  | S n =>
      x ← getp p;
      if p_pid x =? pid then
        updp p (set_p_killed true);;
        when (bool_decide (p_state x = SLEEPING)) (updp p (set_p_state RUNNABLE));;
        release l_ptlock;;
        mret 0
      else kill_loop n (S p) pid
  end.
Definition kill (pid : Z) : M kst Z :=
  acquire l_ptlock;; kill_loop (Z.to_nat NPROC) 0 pid.

(** ** Creating processes *)

Fixpoint unused_scan (l : list proc) (i : nat) : option nat :=
  match l with
  | [] => None
  | x :: l => if bool_decide (p_state x = UNUSED) then Some i else unused_scan l (S i)
  end.
(** The part of [allocproc] under the lock: an unused entry gets a pid. *)
Definition claim_proc : M kst (option nat) :=
  acquire l_ptlock;;
  r ← gets (λ s, unused_scan (k_proc s) 0);
  match r with
  | None => release l_ptlock;; mret None
  | Some p =>
      updp p (set_p_state EMBRYO);;
      n ← gets k_nextpid;
      updp p (set_p_pid n);;
      modify (set_nextpid (s32 (n + 1)));;
      release l_ptlock;;
      mret (Some p)
  end.

(** [safestrcpy(p->name, t, sizeof(p->name))]. *)
Definition set_name (t : list Z) (x : proc) : proc :=
  set_p_name (splice 0 (safestrcpy (cstr_of t) 16) (p_name x)) x.

Section proc.
Context {L : Linker}.
(** The running process's id, the device switch, the addresses of the entries
    of the process table and of the code new processes start in. *)
Context (dev_write : Z → option (nat → list Z → M fsst Z)).
Context (dev_read : Z → option (nat → Z → M fsst (Z * list Z))).
Context (proc_addr : nat → Z) (trapret_addr forkret_addr : Z).

Definition chan_of (p : option nat) : Z := match p with Some p => proc_addr p | None => 0 end.

(** The rest of [allocproc]: the kernel stack, with room for the trap frame and
    the context [swtch] will find.  The trap frame is kept in the process
    entry; the caller fills it. *)
Definition setup_kstack (p : nat) : M kst bool :=
  v ← zoom l_kvm kalloc;
  updp p (set_p_kstack v);;
  if v =? 0 then updp p (set_p_state UNUSED);; mret false
  else
    let sp := v + KSTACKSIZE - TRAPFRAME_SIZE in
    let sp := sp - 4 in
    kmem_upd (λ m, store32 m sp trapret_addr);;
    let sp := sp - CONTEXT_SIZE in
    updp p (set_p_context sp);;
    kmem_upd (λ m, memset m sp 0 CONTEXT_SIZE);;
    kmem_upd (λ m, store32 m (sp + 16) forkret_addr);;
    updp p (set_total_mmaps 0);;
    mret true.
Definition allocproc : M kst (option nat) :=
  r ← claim_proc;
  match r with
  | None => mret None
  | Some p => ok ← setup_kstack p; mret (if ok : bool then Some p else None)
  end.

Definition make_runnable (p : nat) : M kst unit :=
  acquire l_ptlock;;
  updp p (set_p_state RUNNABLE);;
  release l_ptlock.

(** [initcode] is the program linked into the kernel. *)
Definition userinit (initcode : list Z) : M kst unit :=
  r ← allocproc;
  modify (set_initproc r);;
  match r with
  | None => undef "userinit: null proc"
  | Some p =>
      d ← zoom l_kvm setupkvm;
      updp p (set_p_pgdir d);;
      if d =? 0 then panic "userinit: out of memory?"
      else
        zoom l_kvm (inituvm d initcode);;
        updp p (set_p_sz PGSIZE);;
        let ds := Z.lor (Z.shiftl SEG_UDATA 3) DPL_USER in
        updp p (set_p_tf (Trapframe 0 PGSIZE 0 (Z.lor (Z.shiftl SEG_UCODE 3) DPL_USER) ds ds ds 0 FL_IF 0));;
        updp p (set_name [105; 110; 105; 116; 99; 111; 100; 101]);;
        (* the path is absolute: the current directory is not used *)
        ip ← zoom l_kfs (namei 0 dev_read 0 [SLASH]);
        updp p (set_p_cwd ip);;
        make_runnable p
  end.

Definition growproc (c : nat) (n : Z) : M kst Z :=
  p ← myproc c;
  x ← getp p;
  let sz := p_sz x in
  sz ← (if n >? 0 then zoom l_kvm (allocuvm (p_pgdir x) sz (u32 (sz + n)))
        else if n <? 0 then zoom l_kvm (deallocuvm (p_pgdir x) sz (u32 (sz + n)))
        else mret sz);
  if negb (n =? 0) && (sz =? 0) then mret (-1)
  else
    updp p (set_p_sz sz);;
    switchuvm p;;
    mret 0.

(** Give the new process up again. *)
Definition fork_undo (np : nat) : M kst unit :=
  y ← getp np;
  zoom l_kvm (kfree (p_kstack y));;
  updp np (set_p_kstack 0);;
  updp np (set_p_state UNUSED).

Definition set_eax (v : Z) (tf : trapframe) : trapframe :=
  Trapframe v (tf_esp tf) (tf_eip tf) (tf_cs tf) (tf_ds tf) (tf_es tf) (tf_ss tf) (tf_err tf)
    (tf_eflags tf) (tf_trapno tf).

Fixpoint fork_files (n : nat) (p np : nat) (i : nat) : M kst unit :=
  match n with
  | O => mret tt
  | S n =>
      x ← getp p;
      match x.(p_ofile) !! i with
      | Some (Some f) => f ← zoom l_kfl (filedup f); updp np (set_p_ofile i (Some f))
      | _ => mret tt
      end;;
      fork_files n p np (S i)
  end.

(** The part of [fork] after the address space is copied. *)
Definition fork_inherit (p np : nat) : M kst unit :=
  x ← getp p;
  updp np (set_p_sz (p_sz x));;
  updp np (set_p_parent (Some p));;
  updp np (set_p_tf (p_tf x));;
  (* Clear %eax so that fork returns 0 in the child. *)
  updp np (λ y, set_p_tf (set_eax 0 (p_tf y)) y);;
  fork_files (Z.to_nat NOFILE) p np 0;;
  x ← getp p;
  cwd ← match p_cwd x with Some ip => zoom l_kfs (idup ip) | None => undef "idup" end;
  updp np (set_p_cwd (Some cwd));;
  updp np (set_name (p_name x)).

Definition fork (c : nat) : M kst Z :=
  p ← myproc c;
  r ← allocproc;
  match r with
  | None => mret (-1)
  | Some np =>
      x ← getp p;
      d ← zoom l_kvm (copyuvm (p_pgdir x) (p_sz x));
      updp np (set_p_pgdir d);;
      if d =? 0 then fork_undo np;; mret (-1)
      else
        e ← copy_maps (p_pid x) dev_read p np;
        if e <? 0 then fork_undo np;; mret (-1)
        else
          fork_inherit p np;;
          y ← getp np;
          make_runnable np;;
          mret (p_pid y)
  end.

(** ** exit and wait *)

Fixpoint exit_files (n : nat) (p : nat) (fd : nat) : M kst unit :=
  match n with
  | O => mret tt
  | S n =>
      x ← getp p;
      match p_ofile x !! fd with
      | Some (Some f) => zoom l_kfl (fileclose (p_pid x) f);; updp p (set_p_ofile fd None)
      | _ => mret tt
      end;;
      exit_files n p (S fd)
  end.

(** Pass abandoned children to init. *)
Fixpoint exit_children (n : nat) (p : nat) (q : nat) : M kst unit :=
  match n with
  | O => mret tt
  | S n =>
      y ← getp q;
      (if bool_decide (p_parent y = Some p) then
         i ← gets k_initproc;
         updp q (set_p_parent i);;
         when (bool_decide (p_state y = ZOMBIE)) (wakeup1 (chan_of i))
       else mret tt);;
      exit_children n p (S q)
  end.

(** The part of [exit] under [ptable.lock]. *)
Definition exit_locked (c p : nat) : M kst (option nat) :=
  acquire l_ptlock;;
  (* Parent might be sleeping in wait(). *)
  x ← getp p;
  wakeup1 (chan_of (p_parent x));;
  exit_children (Z.to_nat NPROC) p 0;;
  updp p (set_p_state ZOMBIE);;
  sched c.

Definition exit (c : nat) : M kst (option nat) :=
  p ← myproc c;
  i ← gets k_initproc;
  if bool_decide (i = Some p) then panic "init exiting"
  else
    exit_files (Z.to_nat NOFILE) p 0;;
    x ← getp p;
    delete_mmaps (p_pid x) (p_killed x) dev_write p;;
    zoom l_kld ld_begin_op;;
    match p_cwd x with Some ip => zoom l_kfs (iput (p_pid x) ip) | None => undef "iput" end;;
    zoom l_kld ld_end_op;;
    updp p (set_p_cwd None);;
    exit_locked c p.

(** What the scan of [wait] found. *)
Inductive scan := NoKids | Kids | Reaped (pid : Z).

Definition clear_name (x : proc) : proc := set_p_name (<[0%nat := 0]> (p_name x)) x.
Definition reap (q : nat) : M kst Z :=
  y ← getp q;
  zoom l_kvm (kfree (p_kstack y));;
  updp q (set_p_kstack 0);;
  zoom l_kvm (freevm (p_pgdir y));;
  updp q (set_p_pid 0);;
  updp q (set_p_parent None);;
  updp q clear_name;;
  updp q (set_p_killed false);;
  updp q (set_p_state UNUSED);;
  mret (p_pid y).
Fixpoint wait_scan (n : nat) (p q : nat) (havekids : bool) : M kst scan :=
  match n with
  | O => mret (if havekids then Kids else NoKids)
  | S n =>
      y ← getp q;
      if bool_decide (p_parent y = Some p) then
        if bool_decide (p_state y = ZOMBIE) then pid ← reap q; mret (Reaped pid)
        else wait_scan n p (S q) true
      else wait_scan n p (S q) havekids
  end.

(** One round of the loop of [wait], with [ptable.lock] held: it returns, or
    sleeps ([None]). *)
Definition wait_round (c p : nat) : M kst (option Z) :=
  r ← wait_scan (Z.to_nat NPROC) p 0 false;
  x ← getp p;
  match r with
  | Reaped pid => release l_ptlock;; mret (Some pid)
  | NoKids => release l_ptlock;; mret (Some (-1))
  | Kids =>
      if p_killed x then release l_ptlock;; mret (Some (-1))
      else sleep_begin c (proc_addr p) None;; mret None
  end.
Definition wait (c : nat) : M kst (option Z) :=
  p ← myproc c;
  acquire l_ptlock;;
  wait_round c p.
Definition wait_resume (c : nat) : M kst (option Z) :=
  p ← myproc c;
  sleep_end p None;;
  wait_round c p.

(** [initlog] as the file system sees it: the log has the size that the superblock
    says, and after recovery it is empty. *)
Definition initlog_fs (dev : Z) : M fsst unit :=
  sb ← readsb dev;
  zoom l_ld (modify (λ d, LDisk (ld_blocks d) (ld_held d) [] (s32 (sb_nlog sb)) (ld_outstanding d))).

(** [first] is the function's static variable; the result is its new value. *)
Definition forkret (first : bool) : M kst bool :=
  release l_ptlock;;
  if first then zoom l_kfs (iinit ROOTDEV;; initlog_fs ROOTDEV);; mret false else mret false.
End proc.
