(* ===== verification/Frame.v ===== *)
(** * What operations leave alone

    A frame is a preorder on kernel states, with one on process entries, that
    changes of memory, files, locks and mappings respect.  An operation
    [pres]erves the frame if it relates the states before and after, also when
    the operation ends by going to sleep; the closure below proves that by the
    structure of the operation, for any frame, and is used for the process table
    ([ProcSpec.v]).  A second closure, [prompt], is for operations that do not
    sleep in the middle. *)

From Stdlib Require Import ZArith Lia.
From stdpp Require Import base numbers strings gmap list.
From S2P Require Import Prelude Mmu Memory Locks Kalloc Vm Proc0 Regions Bytes Disk Fs.
From S2P Require Import Pagecache File Kernel Mmap Proc.

Class Frame (R : kst → kst → Prop) (Q : proc → proc → Prop) := {
  fr_pre :: PreOrder R;
  fr_preq :: PreOrder Q;
  fr_kfl : ∀ v s, R s (lset l_kfl v s);
  fr_ptlock : ∀ v s, R s (lset l_ptlock v s);
  fr_tickslock : ∀ v s, R s (lset l_tickslock v s);
  fr_put : ∀ s p x y, k_proc s !! p = Some x → Q x y → R s (putp p y s);
  fr_mmaps : ∀ x i r, Q x (set_mmaps (<[i := r]> (mmaps x)) x);
  fr_total : ∀ x n, Q x (set_total_mmaps n x);
  fr_killed : ∀ x b, Q x (set_p_killed b x);
  fr_ofile : ∀ x fd f, Q x (set_p_ofile fd f x);
  fr_cwd : ∀ x ip, Q x (set_p_cwd ip x);
  fr_sz : ∀ x n, Q x (set_p_sz n x);
  fr_pgdir : ∀ x d, Q x (set_p_pgdir d x);
  fr_tf : ∀ x tf, Q x (set_p_tf tf x);
  fr_name : ∀ x t, Q x (set_name t x);
  fr_kstack : ∀ x v, Q x (set_p_kstack v x);
  fr_context : ∀ x v, Q x (set_p_context v x);
}.

(** The state in which [m] returns or goes to sleep. *)
Definition ends {S A} (m : M S A) (s s' : S) : Prop := (∃ a, m s = Ok a s') ∨ (∃ c, m s = Sleep c s').

Lemma ends_bind {S A B} (m : M S A) (f : A → M S B) s s' :
  ends (m ≫= f) s s' → (∃ a s1, m s = Ok a s1 ∧ ends (f a) s1 s') ∨ (∃ c, m s = Sleep c s').
Proof.
  intros [[b H]|[c H]]; unfold mbind, M_bind in H; destruct (m s) as [a s1| |c1 s1| |] eqn:E; try done.
  - left. exists a, s1. split; [done|]. by left; exists b.
  - left. exists a, s1. split; [done|]. by right; exists c.
  - right. exists c1. congruence.
Qed.
Lemma ends_zoom {S T A} (l : lens S T) (m : M T A) s s' : ends (zoom l m) s s' → ∃ v, s' = lset l v s.
Proof. intros [[a H]|[c H]]; unfold zoom in H; destruct (m _); try done; injection H as <- <-; eauto. Qed.

(** [m] does not sleep in the middle. *)
Definition prompt {S A} (m : M S A) : Prop := ∀ s c s', m s ≠ Sleep c s'.
Lemma prompt_ends {S A} (m : M S A) s s' : prompt m → ends m s s' → ∃ a, m s = Ok a s'.
Proof. intros Hm [H|[c H]]; [done|by destruct (Hm s c s')]. Qed.

Definition pres {A} (R : kst → kst → Prop) (m : M kst A) : Prop := ∀ s s', ends m s s' → R s s'.
Definition ppres {A} (Q : proc → proc → Prop) (m : M proc A) : Prop := ∀ x x', ends m x x' → Q x x'.
(** A part of the state whose changes the frame respects. *)
Definition lpres {T} (R : kst → kst → Prop) (l : lens kst T) : Prop := ∀ v s, R s (lset l v s).

Create HintDb pres.

Lemma updp_inv p f s a s' :
  updp p f s = Ok a s' → ∃ x, k_proc s !! p = Some x ∧ s' = putp p (f x) s.
Proof. unfold updp. destruct (k_proc s !! p) as [x|]; [|done]. intros [= <- <-]. eauto. Qed.
Lemma getp_inv p s x s' : getp p s = Ok x s' → s' = s ∧ k_proc s !! p = Some x.
Proof. unfold getp. destruct (k_proc s !! p); [|done]. by intros [= -> ->]. Qed.

Section frame.
Context {R : kst → kst → Prop} {Q : proc → proc → Prop} {F : Frame R Q}.

Lemma pres_ok {A} (m : M kst A) s a s' : pres R m → m s = Ok a s' → R s s'.
Proof. intros Hm H. apply Hm. by left; exists a. Qed.
Lemma pres_prompt {A} (m : M kst A) : prompt m → (∀ s a s', m s = Ok a s' → R s s') → pres R m.
Proof. intros Hp Hm s s' [a H]%prompt_ends; [by eapply Hm|done]. Qed.

Lemma pres_ret {A} (a : A) : pres R (mret a).
Proof. by apply pres_prompt; [intros ? ? ? [=]|intros s b s' [= _ <-]]. Qed.
Lemma pres_bind {A B} (m : M kst A) (f : A → M kst B) :
  pres R m → (∀ a, pres R (f a)) → pres R (m ≫= f).
Proof.
  intros Hm Hf s s' [(a & s1 & H1 & H2)|[c H]]%ends_bind.
  - etrans; [by eapply pres_ok|by eapply Hf].
  - apply Hm. by right; exists c.
Qed.
Lemma pres_gets {A} (f : kst → A) : pres R (gets f).
Proof. by apply pres_prompt; [intros ? ? ? [=]|intros s b s' [= _ <-]]. Qed.
Lemma pres_modify f : (∀ s, R s (f s)) → pres R (modify f).
Proof. intros Hf. apply pres_prompt; [by intros ? ? ? [=]|]. intros s a s' [= _ <-]. apply Hf. Qed.
Lemma pres_panic {A} e : pres R (panic e : M kst A).
Proof. by intros s s' [[a [=]]|[c [=]]]. Qed.
Lemma pres_undef {A} e : pres R (undef e : M kst A).
Proof. by intros s s' [[a [=]]|[c [=]]]. Qed.
Lemma pres_nofuel {A} : pres R (nofuel : M kst A).
Proof. by intros s s' [[a [=]]|[c [=]]]. Qed.
Lemma pres_when b (m : M kst unit) : pres R m → pres R (when b m).
Proof. intros H. destruct b; [done|apply pres_ret]. Qed.
Lemma pres_zoom {T A} (l : lens kst T) (m : M T A) : lpres R l → pres R (zoom l m).
Proof. intros Hl s s' [v ->]%ends_zoom. apply Hl. Qed.
Lemma prompt_acquire {S} (l : lens S spinlock) : prompt (acquire l).
Proof. intros s c s' H. unfold acquire in H. by destruct (locked _). Qed.
Lemma prompt_release {S} (l : lens S spinlock) : prompt (release l).
Proof. intros s c s' H. unfold release in H. by destruct (locked _). Qed.
Lemma prompt_getp p : prompt (getp p).
Proof. intros s c s' H. unfold getp in H. by destruct (k_proc s !! p). Qed.
Lemma prompt_updp p f : prompt (updp p f).
Proof. intros s c s' H. unfold updp in H. by destruct (k_proc s !! p). Qed.
Lemma pres_acquire (l : lens kst spinlock) : lpres R l → pres R (acquire l).
Proof.
  intros Hl. apply pres_prompt; [apply prompt_acquire|]. intros s a s' H.
  unfold acquire in H. destruct (locked _); [done|]. injection H as <- <-. apply Hl.
Qed.
Lemma pres_release (l : lens kst spinlock) : lpres R l → pres R (release l).
Proof.
  intros Hl. apply pres_prompt; [apply prompt_release|]. intros s a s' H.
  unfold release in H. destruct (locked _); [|done]. injection H as <- <-. apply Hl.
Qed.
Lemma pres_getp p : pres R (getp p).
Proof. apply pres_prompt; [apply prompt_getp|]. by intros s a s' [-> _]%getp_inv. Qed.
Lemma pres_updp p f : (∀ x, Q x (f x)) → pres R (updp p f).
Proof.
  intros Hf. apply pres_prompt; [apply prompt_updp|]. intros s a s' (x & Hx & ->)%updp_inv. by eapply fr_put.
Qed.
Lemma pres_on_proc {A} p (m : M proc A) : ppres Q m → pres R (on_proc p m).
Proof.
  intros Hm s s' H. unfold ends, on_proc, zoom in H. destruct (k_proc s !! p) as [x|] eqn:Hx; [|by destruct H as [[]|[]]].
  simpl in H. destruct (m x) as [b y| |c y| |] eqn:E; try by destruct H as [[]|[]].
  all: assert (Q x y) as Hq by (apply Hm; unfold ends; rewrite E; eauto).
  all: destruct H as [[b' H]|[c' H]]; try done; injection H as <- <-; by eapply fr_put.
Qed.

Lemma lpres_kfl : lpres R l_kfl.
Proof. intros v s. apply fr_kfl. Qed.
Lemma lpres_ptlock : lpres R l_ptlock.
Proof. intros v s. apply fr_ptlock. Qed.
Lemma lpres_tickslock : lpres R l_tickslock.
Proof. intros v s. apply fr_tickslock. Qed.
Lemma lpres_comp {T U} (l : lens kst T) (k : lens T U) : lpres R l → lpres R (lcomp l k).
Proof. intros H v s. apply H. Qed.

Lemma ppres_ok {A} (m : M proc A) : prompt m → (∀ x a x', m x = Ok a x' → Q x x') → ppres Q m.
Proof. intros Hp Hm x x' [a H]%prompt_ends; [by eapply Hm|done]. Qed.
Lemma ppres_ret {A} (a : A) : ppres Q (mret a).
Proof. by apply ppres_ok; [intros ? ? ? [=]|intros x b x' [= _ <-]]. Qed.
Lemma ppres_bind {A B} (m : M proc A) (f : A → M proc B) :
  ppres Q m → (∀ a, ppres Q (f a)) → ppres Q (m ≫= f).
Proof.
  intros Hm Hf x x' [(a & y & H1 & H2)|[c H]]%ends_bind.
  - etrans; [apply Hm; by left; exists a|by eapply Hf].
  - apply Hm. by right; exists c.
Qed.
Lemma ppres_nofuel {A} : ppres Q (nofuel : M proc A).
Proof. by intros s s' [[a [=]]|[c [=]]]. Qed.
Lemma ppres_undef {A} e : ppres Q (undef e : M proc A).
Proof. by intros s s' [[a [=]]|[c [=]]]. Qed.
Lemma ppres_gets {A} (f : proc → A) : ppres Q (gets f).
Proof. by apply ppres_ok; [intros ? ? ? [=]|intros x b x' [= _ <-]]. Qed.
Lemma ppres_modify_total g : ppres Q (modify (λ x, set_total_mmaps (g x) x)).
Proof. apply ppres_ok; [by intros ? ? ? [=]|]. intros x a x' [= _ <-]. apply fr_total. Qed.
Lemma ppres_get_region i : ppres Q (get_region i).
Proof.
  apply ppres_ok; [intros x c x' H; unfold get_region in H; by repeat case_match|].
  intros x a x' H. unfold get_region in H. repeat case_match; by simplify_eq.
Qed.
Lemma ppres_upd_region i f : ppres Q (upd_region i f).
Proof.
  apply ppres_ok; [intros x c x' H; unfold upd_region in H; by repeat case_match|].
  intros x a x' H. unfold upd_region in H. repeat case_match; simplify_eq. apply fr_mmaps.
Qed.
End frame.

#[export] Hint Resolve pres_ret pres_gets pres_panic pres_undef pres_nofuel pres_getp
  ppres_ret ppres_nofuel ppres_undef ppres_gets ppres_get_region ppres_upd_region ppres_modify_total
  lpres_kfl lpres_ptlock lpres_tickslock : pres.

#[export] Hint Extern 0 (Frame _ _) => typeclasses eauto : pres.

(** The structure of an operation. *)
Ltac pres_step :=
  match goal with
  | |- ∀ _, _ => intros
  | |- pres _ (_ ≫= _) => apply pres_bind
  | |- pres _ (when _ _) => apply pres_when
  | |- pres _ (zoom _ _) => apply pres_zoom
  | |- pres _ (acquire _) => apply pres_acquire
  | |- pres _ (release _) => apply pres_release
  | |- pres _ (updp _ _) => apply pres_updp
  | |- pres _ (on_proc _ _) => apply pres_on_proc
  | |- pres _ (kmem_upd _) => unfold kmem_upd
  | |- pres _ (modify _) => apply pres_modify
  | |- pres _ (let _ := _ in _) => cbv zeta
  | |- pres _ (match ?x with _ => _ end) => destruct x
  | |- ppres _ (_ ≫= _) => apply ppres_bind
  | |- ppres _ (let _ := _ in _) => cbv zeta
  | |- ppres _ (match ?x with _ => _ end) => destruct x
  | |- lpres _ l_kpc => unfold l_kpc
  | |- lpres _ l_kfs => unfold l_kfs
  | |- lpres _ l_kvm => unfold l_kvm
  | |- lpres _ l_kld => unfold l_kld
  | |- lpres _ (lcomp _ _) => apply lpres_comp
  | |- _ ?x (set_total_mmaps _ ?x) => apply fr_total
  | |- _ ?x (set_p_killed _ ?x) => apply fr_killed
  | |- _ ?x (set_p_ofile _ _ ?x) => apply fr_ofile
  | |- _ ?x (set_p_cwd _ ?x) => apply fr_cwd
  | |- _ ?x (set_p_sz _ ?x) => apply fr_sz
  | |- _ ?x (set_p_pgdir _ ?x) => apply fr_pgdir
  | |- _ ?x (set_p_tf _ ?x) => apply fr_tf
  | |- _ ?x (set_name _ ?x) => apply fr_name
  | |- _ ?x (set_p_kstack _ ?x) => apply fr_kstack
  | |- _ ?x (set_p_context _ ?x) => apply fr_context
  | |- _ => solve [eauto with pres]
  end.
Ltac pres := repeat pres_step.

(** ** Mappings *)

Section mmap.
Context {R : kst → kst → Prop} {Q : proc → proc → Prop} {F : Frame R Q}.
Context {L : Linker}.
Context (pid : Z) (killed : bool).
Context (dev_read : Z → option (nat → Z → M fsst (Z * list Z))).
Context (dev_write : Z → option (nat → list Z → M fsst Z)).

Lemma pres_get_physical_page p va : pres R (get_physical_page p va).
Proof. unfold get_physical_page. pres. Qed.
Hint Resolve pres_get_physical_page : pres.
Lemma pres_fill_page_loop fuel f temp off size tsize i :
  pres R (fill_page_loop pid dev_read fuel f temp off size tsize i).
Proof. revert off tsize i. induction fuel as [|fuel IH]; intros; simpl; pres. Qed.
Hint Resolve pres_fill_page_loop : pres.
Lemma pres_map_pagecache_page p f a prot off size :
  pres R (map_pagecache_page pid dev_read p f a prot off size).
Proof.
  unfold map_pagecache_page. generalize 0. generalize size at 3.
  generalize (S (S (Z.to_nat (size / PGSIZE)))) as fuel.
  induction fuel as [|fuel IH]; intros; simpl; unfold map_pagecache_page_util, get_open; pres.
Qed.
Lemma pres_map_anon_main p a prot size : pres R (map_anon_main p a prot size).
Proof.
  unfold map_anon_main. generalize 0. generalize (S (S (Z.to_nat (size / PGSIZE)))) as fuel.
  induction fuel as [|fuel IH]; intros; simpl; unfold map_anon_page; pres.
Qed.
Hint Resolve pres_map_pagecache_page pres_map_anon_main : pres.
Lemma pres_mmap_store_data p a size fl prot f off :
  pres R (mmap_store_data pid dev_read p a size fl prot f off).
Proof. unfold mmap_store_data. pres. Qed.
Lemma pres_user_read n p a : pres R (user_read n p a).
Proof. revert a. induction n as [|n IH]; intros; simpl; pres. Qed.
Lemma pres_munmap_pages fuel p a n c : pres R (munmap_pages fuel p a n c).
Proof. revert c. induction fuel as [|fuel IH]; intros; simpl; pres. Qed.
Lemma ppres_munmap_find n i a : ppres Q (munmap_find n i a).
Proof. revert i. induction n as [|n IH]; intros; simpl; pres. Qed.
Lemma ppres_shift_left fuel i : ppres Q (shift_left fuel i).
Proof. revert i. induction fuel as [|fuel IH]; intros; simpl; unfold copy_region; pres. Qed.
Hint Resolve pres_mmap_store_data pres_user_read pres_munmap_pages ppres_munmap_find ppres_shift_left : pres.
Lemma pres_my_munmap p a n : pres R (my_munmap pid killed dev_write p a n).
Proof. unfold my_munmap, munmap_entry. pres. Qed.
Hint Resolve pres_my_munmap : pres.
Lemma pres_delete_mmaps p : pres R (delete_mmaps pid killed dev_write p).
Proof.
  unfold delete_mmaps. pres.
  match goal with |- pres _ (delete_loop _ _ _ ?n _ ?t) => generalize n; generalize t end.
  intros z k. revert z. induction k as [|k IH]; intros; simpl; pres.
Qed.
Lemma pres_copy_page p np i a :
  pres R (copy_shared_page pid dev_read p np i a) ∧ pres R (copy_private_page p np i a).
Proof. unfold copy_shared_page, copy_private_page. split; pres. Qed.
Lemma pres_copy_pages fuel p np i a e sh : pres R (copy_pages pid dev_read fuel p np i a e sh).
Proof. revert a. induction fuel as [|fuel IH]; intros; simpl; pres; by apply pres_copy_page. Qed.
Hint Resolve pres_copy_pages : pres.
Lemma pres_copy_maps p np : pres R (copy_maps pid dev_read p np).
Proof.
  unfold copy_maps. pres. match goal with |- pres _ (copy_regions _ _ ?n _ _ ?i) =>
    generalize i; generalize n end.
  intros k. induction k as [|k IH]; intros; cbn [copy_regions]; pres.
Qed.
Lemma pres_handle_page_fault p addr : pres R (handle_page_fault pid dev_read p addr).
Proof.
  unfold handle_page_fault. pres.
  match goal with |- pres _ (fault_loop _ _ ?n _ ?i _) => generalize i; generalize n end.
  intros k. induction k as [|k IH]; intros; simpl; pres.
Qed.
End mmap.
#[export] Hint Resolve pres_get_physical_page pres_user_read pres_my_munmap pres_delete_mmaps pres_copy_maps
  pres_handle_page_fault : pres.

(** ** Processes *)

Section proc.
Context {R : kst → kst → Prop} {Q : proc → proc → Prop} {F : Frame R Q}.
Context {L : Linker}.

Lemma pres_mycpu_proc c : pres R (mycpu_proc c).
Proof.
  apply pres_prompt; [intros s ch s' H; unfold mycpu_proc in H; by destruct (k_cpus s !! c)|].
  intros s a s' H. unfold mycpu_proc in H. by destruct (k_cpus s !! c); simplify_eq.
Qed.
Hint Resolve pres_mycpu_proc : pres.
Lemma pres_myproc c : pres R (myproc c).
Proof. unfold myproc. pres. Qed.
Hint Resolve pres_myproc : pres.
Lemma pres_switchuvm p : pres R (switchuvm p).
Proof. unfold switchuvm. pres. Qed.
Hint Resolve pres_switchuvm : pres.
Lemma pres_growproc c n : pres R (growproc c n).
Proof. unfold growproc. pres. Qed.
Lemma pres_fork_files n p np i : pres R (fork_files n p np i).
Proof. revert i. induction n as [|n IH]; intros i; simpl; pres. Qed.
Lemma pres_exit_files n p fd : pres R (exit_files n p fd).
Proof. revert fd. induction n as [|n IH]; intros fd; simpl; pres. Qed.
End proc.
#[export] Hint Resolve pres_mycpu_proc pres_myproc pres_switchuvm pres_growproc pres_fork_files
  pres_exit_files : pres.

(** ** Operations that do not sleep in the middle *)

Create HintDb prompt.

Section prompt.
Context {S : Type}.

Lemma prompt_ret {A} (a : A) : prompt (mret a : M S A).
Proof. by intros s c s' [=]. Qed.
Lemma prompt_bind {A B} (m : M S A) (f : A → M S B) : prompt m → (∀ a, prompt (f a)) → prompt (m ≫= f).
Proof.
  intros Hm Hf s c s' H. destruct (ends_bind m f s s' (or_intror (ex_intro _ c H))) as [(a & s1 & H1 & H2)|[c1 H1]].
  - unfold mbind, M_bind in H. rewrite H1 in H. by eapply Hf.
  - by eapply Hm.
Qed.
Lemma prompt_gets {A} (f : S → A) : prompt (gets f).
Proof. by intros s c s' [=]. Qed.
Lemma prompt_modify (f : S → S) : prompt (modify f).
Proof. by intros s c s' [=]. Qed.
Lemma prompt_panic {A} e : prompt (panic e : M S A).
Proof. by intros s c s' [=]. Qed.
Lemma prompt_undef {A} e : prompt (undef e : M S A).
Proof. by intros s c s' [=]. Qed.
Lemma prompt_nofuel {A} : prompt (nofuel : M S A).
Proof. by intros s c s' [=]. Qed.
Lemma prompt_when b (m : M S unit) : prompt m → prompt (when b m).
Proof. intros H. destruct b; [done|apply prompt_ret]. Qed.
Lemma prompt_zoom {T A} (l : lens S T) (m : M T A) : prompt m → prompt (zoom l m).
Proof. intros Hm s c s' H. unfold zoom in H. destruct (m _) eqn:E; try done. by eapply Hm. Qed.
End prompt.
#[export] Hint Resolve prompt_ret prompt_gets prompt_modify prompt_panic prompt_undef prompt_nofuel
  prompt_acquire prompt_release prompt_getp prompt_updp : prompt.

Ltac prompt_step :=
  match goal with
  | |- ∀ _, _ => intros
  | |- prompt (_ ≫= _) => apply prompt_bind
  | |- prompt (when _ _) => apply prompt_when
  | |- prompt (zoom _ _) => apply prompt_zoom
  | |- prompt (kmem_upd _) => unfold kmem_upd
  | |- prompt (let _ := _ in _) => cbv zeta
  | |- prompt (match ?x with _ => _ end) => destruct x
  | |- _ => solve [eauto with prompt]
  end.
Ltac prompt := repeat prompt_step.

Section vm.
Context {L : Linker}.
Lemma prompt_kalloc : prompt kalloc.
Proof. unfold kalloc. prompt. Qed.
Lemma prompt_kfree v : prompt (kfree v).
Proof. unfold kfree. prompt. Qed.
Hint Resolve prompt_kalloc prompt_kfree : prompt.
Lemma prompt_deallocuvm d o n : prompt (deallocuvm d o n).
Proof.
  unfold deallocuvm. prompt. match goal with |- prompt (deallocuvm_loop ?k _ ?a _) => generalize k; generalize a end.
  intros z k. revert z. induction k as [|k IH]; intros; cbn [deallocuvm_loop]; unfold walkpgdir; prompt.
Qed.
Hint Resolve prompt_deallocuvm : prompt.
Lemma prompt_freevm d : prompt (freevm d).
Proof.
  unfold freevm. prompt. match goal with |- prompt (freevm_loop ?k _ ?a) => generalize k; generalize a end.
  intros z k. revert z. induction k as [|k IH]; intros; cbn [freevm_loop]; prompt.
Qed.
End vm.
#[export] Hint Resolve prompt_kalloc prompt_kfree prompt_freevm : prompt.

Section proc.
Context {L : Linker}.
Context (proc_addr : nat → Z) (tr fr : Z).

Lemma prompt_mycpu_proc c : prompt (mycpu_proc c).
Proof. intros s ch s' H. unfold mycpu_proc in H. by destruct (k_cpus s !! c). Qed.
Hint Resolve prompt_mycpu_proc : prompt.
Lemma prompt_myproc c : prompt (myproc c).
Proof. unfold myproc. prompt. Qed.
Hint Resolve prompt_myproc : prompt.
Lemma prompt_scheduler_loop n c p : prompt (scheduler_loop n c p).
Proof. revert p. induction n as [|n IH]; intros p; cbn [scheduler_loop]; unfold switchuvm; prompt. Qed.
Hint Resolve prompt_scheduler_loop : prompt.
Lemma prompt_sched c : prompt (sched c).
Proof. unfold sched, scheduler_resume. prompt. Qed.
Hint Resolve prompt_sched : prompt.
Lemma prompt_yield c : prompt (yield c).
Proof. unfold yield. prompt. Qed.
Lemma prompt_sleep_begin c chan lk : prompt (sleep_begin c chan lk).
Proof. unfold sleep_begin. prompt. Qed.
Hint Resolve prompt_sleep_begin : prompt.
Lemma prompt_wakeup chan : prompt (wakeup chan).
Proof. unfold wakeup, wakeup1. prompt. Qed.
Lemma prompt_kill pid : prompt (kill pid).
Proof.
  unfold kill. prompt. match goal with |- prompt (kill_loop ?k ?p _) => generalize k; generalize p end.
  intros p k. revert p. induction k as [|k IH]; intros; cbn [kill_loop]; prompt.
Qed.
Lemma prompt_allocproc : prompt (allocproc tr fr).
Proof. unfold allocproc, claim_proc, setup_kstack. prompt. Qed.
Lemma prompt_make_runnable p : prompt (make_runnable p).
Proof. unfold make_runnable. prompt. Qed.
Lemma prompt_fork_undo p : prompt (fork_undo p).
Proof. unfold fork_undo. prompt. Qed.
Lemma prompt_exit_locked c p : prompt (exit_locked proc_addr c p).
Proof.
  unfold exit_locked, wakeup1. prompt.
  match goal with |- prompt (exit_children _ ?k _ ?q) => generalize k; generalize q end.
  intros q k. revert q. induction k as [|k IH]; intros; cbn [exit_children]; unfold wakeup1; prompt.
Qed.
Lemma prompt_wait c : prompt (wait proc_addr c).
Proof.
  unfold wait, wait_round. prompt.
  match goal with |- prompt (wait_scan ?k _ ?q ?b) => generalize k; generalize q; generalize b end.
  intros b q k. revert q b. induction k as [|k IH]; intros; cbn [wait_scan]; unfold reap; prompt.
Qed.
End proc.
#[export] Hint Resolve prompt_mycpu_proc prompt_myproc prompt_sched prompt_yield prompt_sleep_begin prompt_wakeup
  prompt_kill prompt_allocproc prompt_make_runnable prompt_fork_undo prompt_exit_locked prompt_wait : prompt.
