(* ===== verification/Ptable.v ===== *)
(** * The process table as a transition system

    What scheduling is about: the state, pid, parent and channel of each
    process, the process each CPU runs, and init.  The transitions are the
    changes the code of [proc.c] makes, one at a time, so that they interleave
    freely between CPUs; [ProcSpec.v] shows that every operation of [Proc.v] is
    a sequence of them.  The invariant says that pids are unique, that a
    process runs on exactly one CPU if its state says so, that parents are
    alive, and that no parent sleeps in [wait] while a child of its is a
    zombie. *)

From Stdlib Require Import ZArith Lia.
From stdpp Require Import base numbers strings gmap list relations.
From S2P Require Import Prelude Proc0.

Record sview := SView {
  v_state : procstate;
  v_pid : Z;
  v_parent : option nat;
  v_chan : Z;
}.

Record psys := PSys {
  a_procs : list sview;
  a_cpus : list (option nat);
  a_init : option nat;
  a_next : Z;
}.

Definition a_upd (p : nat) (v : sview) (a : psys) : psys :=
  PSys (<[p := v]> (a_procs a)) (a_cpus a) (a_init a) (a_next a).
Definition a_cpu (c : nat) (p : option nat) (a : psys) : psys :=
  PSys (a_procs a) (<[c := p]> (a_cpus a)) (a_init a) (a_next a).
Definition a_set_next (n : Z) (a : psys) : psys := PSys (a_procs a) (a_cpus a) (a_init a) n.
Definition a_set_init (i : option nat) (a : psys) : psys := PSys (a_procs a) (a_cpus a) i (a_next a).

Definition v_set_state (st : procstate) (v : sview) : sview := SView st (v_pid v) (v_parent v) (v_chan v).
Definition v_set_parent (r : option nat) (v : sview) : sview := SView (v_state v) (v_pid v) r (v_chan v).
Definition v_set_chan (ch : Z) (v : sview) : sview := SView (v_state v) (v_pid v) (v_parent v) ch.

(** One entry changes. *)
Lemma a_upd_Some a p v q w :
  a_procs (a_upd p v a) !! q = Some w →
  p = q ∧ w = v ∧ (p < length (a_procs a))%nat ∨ p ≠ q ∧ a_procs a !! q = Some w.
Proof. simpl. rewrite list_lookup_insert_Some. naive_solver. Qed.
Lemma a_upd_eq a p v w : a_procs a !! p = Some w → a_procs (a_upd p v a) !! p = Some v.
Proof. intros H%lookup_lt_Some. simpl. by rewrite list_lookup_insert_eq. Qed.
Lemma a_upd_ne a p q v : p ≠ q → a_procs (a_upd p v a) !! q = a_procs a !! q.
Proof. intros H. simpl. by rewrite list_lookup_insert_ne. Qed.

Section ptable.
(** The address of an entry: the channel its process waits for children on. *)
Context (proc_addr : nat → Z).

Definition runs_on (a : psys) (c p : nat) : Prop := a_cpus a !! c = Some (Some p).
(** Process [p] sleeps in [wait]. *)
Definition in_wait (a : psys) (p : nat) : Prop :=
  ∃ v, a_procs a !! p = Some v ∧ v_state v = SLEEPING ∧ v_chan v = proc_addr p.

(** What a process that gives up the CPU must have seen to. *)
Definition may_leave (a : psys) (p : nat) (v : sview) : Prop :=
  match v_state v with
  | RUNNABLE => True
  | SLEEPING => v_chan v = proc_addr p →
      ∀ q w, a_procs a !! q = Some w → v_parent w = Some p → v_state w ≠ ZOMBIE
  | ZOMBIE => a_init a ≠ Some p ∧
      (∀ q w, a_procs a !! q = Some w → v_parent w ≠ Some p) ∧
      (∀ r, v_parent v = Some r → ¬ in_wait a r)
  | _ => False
  end.

Inductive astep (a : psys) : psys → Prop :=
| a_claim p v :
    a_procs a !! p = Some v → v_state v = UNUSED →
    astep a (a_set_next (a_next a + 1) (a_upd p (SView EMBRYO (a_next a) (v_parent v) (v_chan v)) a))
| a_abandon p v :
    a_procs a !! p = Some v → v_state v = EMBRYO → v_parent v = None → a_init a ≠ Some p →
    astep a (a_upd p (v_set_state UNUSED v) a)
| a_init_is p v :
    a_procs a !! p = Some v → v_state v = EMBRYO → v_parent v = None → a_init a = None →
    astep a (a_set_init (Some p) a)
| a_adopt c p q v :
    runs_on a c p → a_procs a !! q = Some v → v_state v = EMBRYO → a_init a ≠ Some q →
    astep a (a_upd q (v_set_parent (Some p) v) a)
| a_ready q v :
    a_procs a !! q = Some v → v_state v = EMBRYO → astep a (a_upd q (v_set_state RUNNABLE v) a)
| a_wake p v :
    a_procs a !! p = Some v → v_state v = SLEEPING → astep a (a_upd p (v_set_state RUNNABLE v) a)
| a_leave c p v v' :
    runs_on a c p → a_procs a !! p = Some v → v_pid v' = v_pid v → v_parent v' = v_parent v →
    may_leave a p v' → astep a (a_cpu c None (a_upd p v' a))
| a_dispatch c p v :
    a_cpus a !! c = Some None → a_procs a !! p = Some v → v_state v = RUNNABLE →
    astep a (a_cpu c (Some p) (a_upd p (v_set_state RUNNING v) a))
| a_unchan p v :
    a_procs a !! p = Some v → v_state v = RUNNING → astep a (a_upd p (v_set_chan 0 v) a)
| a_reparent p q v :
    a_procs a !! q = Some v → v_parent v = Some p →
    (v_state v = ZOMBIE → ∀ i, a_init a = Some i → ¬ in_wait a i) →
    astep a (a_upd q (v_set_parent (a_init a) v) a)
| a_reap c p q v :
    runs_on a c p → a_procs a !! q = Some v → v_parent v = Some p → v_state v = ZOMBIE →
    astep a (a_upd q (SView UNUSED 0 None (v_chan v)) a).

Definition active (st : procstate) : Prop := st = RUNNABLE ∨ st = RUNNING ∨ st = SLEEPING.

(** The table. *)
Record tinv (a : psys) : Prop := {
  ti_pid : ∀ p v, a_procs a !! p = Some v → v_state v ≠ UNUSED → 0 < v_pid v < a_next a;
  ti_uniq : ∀ p q v w, a_procs a !! p = Some v → a_procs a !! q = Some w →
    v_state v ≠ UNUSED → v_state w ≠ UNUSED → v_pid v = v_pid w → p = q;
  ti_next : 0 < a_next a;
  ti_unused : ∀ p v, a_procs a !! p = Some v → v_state v = UNUSED → v_parent v = None;
  ti_parent : ∀ p v r, a_procs a !! p = Some v → v_parent v = Some r →
    ∃ w, a_procs a !! r = Some w ∧ (active (v_state w) ∨ a_init a = Some r);
  ti_init : ∀ i, a_init a = Some i →
    ∃ w, a_procs a !! i = Some w ∧ v_state w ≠ UNUSED ∧ v_state w ≠ ZOMBIE;
  ti_self : ∀ p v, a_procs a !! p = Some v → v_parent v ≠ Some p;
  ti_orphan : ∀ i w, a_init a = Some i → a_procs a !! i = Some w → v_parent w = None;
  ti_wait : ∀ p q w, in_wait a p → a_procs a !! q = Some w → v_parent w = Some p → v_state w ≠ ZOMBIE;
}.
(** The CPUs. *)
Record cinv (a : psys) : Prop := {
  ci_cpu : ∀ c p, runs_on a c p → ∃ v, a_procs a !! p = Some v ∧ v_state v = RUNNING;
  ci_one : ∀ c c' p, runs_on a c p → runs_on a c' p → c = c';
  ci_running : ∀ p v, a_procs a !! p = Some v → v_state v = RUNNING → ∃ c, runs_on a c p;
}.
Definition pinv (a : psys) : Prop := tinv a ∧ cinv a.

(** ** One entry changes *)

Lemma in_wait_upd a p v q :
  in_wait (a_upd p v a) q → p = q ∧ v_state v = SLEEPING ∧ v_chan v = proc_addr p ∨ p ≠ q ∧ in_wait a q.
Proof.
  intros (w & Hw & H1 & H2). apply a_upd_Some in Hw as [(-> & -> & _)|[Hn Hw]]; [by left|right].
  split; [done|]. by exists w.
Qed.

(** The obligations of a change of entry [p] from [v] to [v']. *)
Lemma tinv_upd a p v v' :
  tinv a → a_procs a !! p = Some v →
  (v_state v' ≠ UNUSED → v_state v ≠ UNUSED ∧ v_pid v' = v_pid v) →
  (v_state v' = UNUSED → v_parent v' = None) →
  (∀ r, v_parent v' = Some r → v_parent v = Some r ∨
    ∃ w, a_procs a !! r = Some w ∧ (active (v_state w) ∨ a_init a = Some r)) →
  (active (v_state v) → active (v_state v') ∨
    (∀ q w, a_procs a !! q = Some w → v_parent w ≠ Some p) ∧ v_parent v' ≠ Some p) →
  (a_init a = Some p → v_state v' ≠ UNUSED ∧ v_state v' ≠ ZOMBIE) →
  (∀ r, v_parent v' = Some r → v_parent v = Some r ∨ r ≠ p ∧ a_init a ≠ Some p) →
  (v_state v' = SLEEPING → v_chan v' = proc_addr p →
    ∀ q w, a_procs a !! q = Some w → v_parent w = Some p → v_state w ≠ ZOMBIE) →
  (v_state v' = ZOMBIE → ∀ r, v_parent v' = Some r → ¬ in_wait a r) →
  tinv (a_upd p v' a).
Proof.
  intros [I1 I2 I3 I7 I8 I9 I11 I12 I10] Hp Hpid Hun Hpar Hact Hini Hself Hsl Hz.
  assert (Hown : v_state v' ≠ UNUSED → 0 < v_pid v' < a_next a ∧
    ∀ q w, a_procs a !! q = Some w → v_state w ≠ UNUSED → v_pid v' = v_pid w → p = q).
  { intros H. destruct (Hpid H) as [Hu ->]. split; [by eapply I1|]. intros q w Hq Hw E. by eapply I2. }
  assert (Hkeep : ∀ r w, a_procs a !! r = Some w → active (v_state w) ∨ a_init a = Some r →
    (∃ q u, a_procs a !! q = Some u ∧ v_parent u = Some r) ∨ v_parent v' = Some r →
    ∃ w', a_procs (a_upd p v' a) !! r = Some w' ∧ (active (v_state w') ∨ a_init a = Some r)).
  { intros r w Hr H Hch. destruct (decide (p = r)) as [->|Hn].
    - exists v'. split; [by eapply a_upd_eq|]. assert (w = v) as -> by congruence.
      destruct H as [H|H]; [|by right]. left. destruct (Hact H) as [?|[Hno Hno']]; [done|].
      destruct Hch as [(q & u & Hq & Hu)|Hch]; [by destruct (Hno q u)|done].
    - exists w. by rewrite a_upd_ne. }
  split.
  - intros q w Hq. apply a_upd_Some in Hq as [(-> & -> & _)|[_ Hq]]; [apply Hown|by apply (I1 q)].
  - intros q q' w w' Hq Hq'. apply a_upd_Some in Hq as [(<- & -> & _)|[_ Hq]];
      apply a_upd_Some in Hq' as [(<- & -> & _)|[_ Hq']]; intros H1 H2 E.
    + done.
    + destruct (Hown H1) as [_ Hu]. by eapply Hu.
    + destruct (Hown H2) as [_ Hu]. symmetry. by eapply Hu.
    + by eapply I2.
  - done.
  - intros q w Hq E. apply a_upd_Some in Hq as [(-> & -> & _)|[_ Hq]]; [by apply Hun|by eapply I7].
  - intros q w r Hq E. apply a_upd_Some in Hq as [(-> & -> & _)|[_ Hq]].
    + destruct (Hpar r E) as [E'|(w & Hw & H)]; [|by eapply Hkeep; [..|right]].
      destruct (I8 q v r Hp E') as (w & Hw & H). eapply Hkeep; [done..|by right].
    + destruct (I8 q w r Hq E) as (w' & Hw' & H). eapply Hkeep; [done..|left; by exists q, w].
  - intros i Hi. destruct (I9 i Hi) as (w & Hw & H). destruct (decide (p = i)) as [->|Hn].
    + exists v'. split; [by eapply a_upd_eq|by apply Hini].
    + exists w. by rewrite a_upd_ne.
  - intros q w Hq E. apply a_upd_Some in Hq as [(-> & -> & _)|[_ Hq]]; [|by apply (I11 q w)].
    destruct (Hself q E) as [E'|[? _]]; [by apply (I11 q v)|done].
  - intros i w Hi Hq. apply a_upd_Some in Hq as [(-> & -> & _)|[_ Hq]]; [|by apply (I12 i)].
    destruct (v_parent v') as [r|] eqn:E; [|done]. destruct (Hself r eq_refl) as [E'|[_ ?]]; [|done].
    by rewrite (I12 i v Hi Hp) in E'.
  - intros q q' w Hw Hq E. apply in_wait_upd in Hw as [(<- & H1 & H2)|[Hn Hw]].
    + apply a_upd_Some in Hq as [(-> & -> & _)|[_ Hq]]; [by rewrite H1|by eapply Hsl].
    + apply a_upd_Some in Hq as [(-> & -> & _)|[_ Hq]]; [|by eapply I10].
      intros Ez. by eapply (Hz Ez q).
Qed.

Lemma tinv_cpu a c x : tinv a → tinv (a_cpu c x a).
Proof. intros [H1 H2 H3 H4 H5 H6 H7 H8 H9]. by split. Qed.

Lemma cinv_upd a p v v' :
  cinv a → a_procs a !! p = Some v → (v_state v' = RUNNING ↔ v_state v = RUNNING) → cinv (a_upd p v' a).
Proof.
  intros [I1 I2 I3] Hp Hr. split; [|done|].
  - intros c q Hc. destruct (I1 c q Hc) as (w & Hw & E). destruct (decide (p = q)) as [->|Hn].
    + exists v'. split; [by eapply a_upd_eq|]. apply Hr. congruence.
    + exists w. by rewrite a_upd_ne.
  - intros q w Hq E. apply a_upd_Some in Hq as [(-> & -> & _)|[_ Hq]]; [|by eapply I3].
    eapply (I3 q v); [done|by apply Hr].
Qed.

Lemma runs_on_cpu a c x c' p :
  runs_on (a_cpu c x a) c' p → c = c' ∧ x = Some p ∨ c ≠ c' ∧ runs_on a c' p.
Proof. unfold runs_on. simpl. rewrite list_lookup_insert_Some. naive_solver. Qed.
Lemma runs_on_cpu_ne a c x c' p : c ≠ c' → runs_on a c' p → runs_on (a_cpu c x a) c' p.
Proof. intros Hn H. unfold runs_on. simpl. by rewrite list_lookup_insert_ne. Qed.

Lemma tinv_claim a p v :
  tinv a → a_procs a !! p = Some v → v_state v = UNUSED →
  tinv (a_set_next (a_next a + 1) (a_upd p (SView EMBRYO (a_next a) (v_parent v) (v_chan v)) a)).
Proof.
  intros [I1 I2 I3 I7 I8 I9 I11 I12 I10] Hp Hu. set (v' := SView _ _ _ _).
  assert (Hnew : ∀ q w, a_procs (a_set_next (a_next a + 1) (a_upd p v' a)) !! q = Some w →
    p = q ∧ w = v' ∨ p ≠ q ∧ a_procs a !! q = Some w).
  { intros q w Hq. apply a_upd_Some in Hq. naive_solver. }
  assert (Hold : ∀ r w, a_procs a !! r = Some w → v_state w ≠ UNUSED →
    a_procs (a_set_next (a_next a + 1) (a_upd p v' a)) !! r = Some w).
  { intros r w Hr Hw. change (a_procs (a_upd p v' a) !! r = Some w). rewrite a_upd_ne; [done|]. intros ->.
    congruence. }
  split; simpl a_next; simpl a_init.
  - intros q w Hq Hw. apply Hnew in Hq as [[-> ->]|[_ Hq]]; [simpl; lia|]. pose proof (I1 q w Hq Hw). lia.
  - intros q q' w w' Hq Hq' Hw Hw' E.
    apply Hnew in Hq as [[<- ->]|[_ Hq]]; apply Hnew in Hq' as [[<- ->]|[_ Hq']]; simpl in E.
    + done.
    + pose proof (I1 q' w' Hq' Hw'). lia.
    + pose proof (I1 q w Hq Hw). lia.
    + by eapply I2.
  - lia.
  - intros q w Hq E. apply Hnew in Hq as [[-> ->]|[_ Hq]]; [done|by eapply I7].
  - assert (Hl : ∀ q w r, a_procs a !! q = Some w → v_parent w = Some r →
      ∃ w', a_procs (a_set_next (a_next a + 1) (a_upd p v' a)) !! r = Some w' ∧
        (active (v_state w') ∨ a_init a = Some r)).
    { intros q w r Hq E. destruct (I8 q w r Hq E) as (w' & Hw' & H). exists w'. split; [|done].
      apply Hold; [done|]. destruct H as [[?|[?|?]]|H]; [congruence..|].
      destruct (I9 r H) as (u & ? & ? & _). congruence. }
    intros q w r Hq E. apply Hnew in Hq as [[-> ->]|[_ Hq]]; [by eapply Hl|by eapply Hl].
  - intros i Hi. destruct (I9 i Hi) as (w & Hw & H1 & H2). exists w. split; [by apply Hold|done].
  - intros q w Hq. apply Hnew in Hq as [[-> ->]|[_ Hq]]; [by apply (I11 q v)|by apply (I11 q w)].
  - intros i w Hi Hq. apply Hnew in Hq as [[-> ->]|[_ Hq]]; [by apply (I12 i v)|by apply (I12 i w)].
  - intros q q' w (u & Hu' & H1 & H2) Hq E.
    apply Hnew in Hq as [[-> ->]|[_ Hq]]; [done|].
    apply Hnew in Hu' as [[-> ->]|[_ Hu']]; [done|]. eapply I10; [by exists u|done|done].
Qed.

(** ** Every step preserves the invariant *)

Ltac side := repeat match goal with H : ∀ _, _ |- _ => clear H | H : cinv _ |- _ => clear H
  | H : tinv _ |- _ => clear H end; unfold active; naive_solver.

Lemma astep_inv a a' : pinv a → astep a a' → pinv a'.
Proof.
  intros [HT HC] H. pose proof HT as [I1 I2 I3 I7 I8 I9 I11 I12 I10]. pose proof HC as [J1 J2 J3]. unfold active in *.
  destruct H as [p v Hp Hs|p v Hp Hs Hpa Hi|p v Hp Hs Hpa Hi|c p q v Hr Hp Hs Hi|q v Hp Hs|p v Hp Hs
    |c p v v' Hr Hp E1 E2 Hl|c p v Hc Hp Hs|p v Hp Hs|p q v Hp Hpa Hi|c p q v Hr Hp Hpa Hs].
  - split; [by apply tinv_claim|]. destruct (cinv_upd a p v (SView EMBRYO (a_next a) (v_parent v) (v_chan v)) HC Hp)
      as [K1 K2 K3]; [rewrite Hs; done|]. by split.
  - split; [eapply (tinv_upd a _ v)|eapply (cinv_upd a _ v)]; simpl; rewrite ?Hs; try done; side.
  - split; split; try done; simpl.
    + intros q w r Hq E. destruct (I8 q w r Hq E) as (w' & Hw' & H). exists w'. rewrite Hi in H.
      split; [done|]. destruct H; [by left|done].
    + intros i [= <-]. exists v. rewrite Hs. done.
    + intros i w [= <-] Hw. congruence.
  - destruct (J1 c p Hr) as (w & Hw & Ew). assert (p ≠ q) by congruence.
    split; [eapply (tinv_upd a _ v)|eapply (cinv_upd a _ v)]; simpl; rewrite ?Hs; try done; side.
  - split; [eapply (tinv_upd a _ v)|eapply (cinv_upd a _ v)]; simpl; rewrite ?Hs; try done; side.
  - split; [eapply (tinv_upd a _ v)|eapply (cinv_upd a _ v)]; simpl; rewrite ?Hs; try done; side.
  - destruct (J1 c p Hr) as (w & Hw & Ew). assert (w = v) as -> by congruence.
    assert (v_state v' ≠ RUNNING) as Hnr by (unfold may_leave in Hl; by destruct (v_state v')).
    split; [apply tinv_cpu; apply (tinv_upd a p v)|]; try done.
    + intros _. rewrite Ew. done.
    + unfold may_leave in Hl. intros E. by rewrite E in Hl.
    + intros r. rewrite E2. by left.
    + intros _. unfold active. unfold may_leave in Hl. destruct (v_state v'); try done; auto.
      right. destruct Hl as (_ & Hno & _). split; [done|]. rewrite E2. by eapply Hno.
    + intros Hi. unfold may_leave in Hl. destruct (v_state v'); try done. by destruct Hl.
    + intros r. rewrite E2. by left.
    + intros E. unfold may_leave in Hl. by rewrite E in Hl.
    + intros E. unfold may_leave in Hl. rewrite E in Hl. by destruct Hl as (_ & _ & ?).
    + split.
      * intros c' q Hq. apply runs_on_cpu in Hq as [[_ ?]|[Hn Hq]]; [done|].
        destruct (J1 c' q Hq) as (w & Hw' & E). exists w. split; [|done].
        change (a_procs (a_upd p v' a) !! q = Some w). rewrite a_upd_ne; [done|]. intros ->. by destruct Hn; eapply J2.
      * intros c1 c2 q H1 H2. apply runs_on_cpu in H1 as [[_ ?]|[_ H1]]; [done|].
        apply runs_on_cpu in H2 as [[_ ?]|[_ H2]]; [done|]. by eapply J2.
      * intros q w Hq E. apply (a_upd_Some a p v') in Hq as [(_ & -> & _)|[Hn Hq]]; [done|].
        destruct (J3 q w Hq E) as [c' Hc']. exists c'. apply runs_on_cpu_ne; [|done]. intros ->.
        unfold runs_on in *. congruence.
  - split; [apply tinv_cpu; eapply (tinv_upd a _ v); simpl; rewrite ?Hs; try done; side|].
    assert (Hnot : ∀ c', ¬ runs_on a c' p).
    { intros c' Hc'. destruct (J1 c' p Hc') as (w & Hw & E). congruence. }
    split.
    + intros c' q Hq. apply runs_on_cpu in Hq as [[_ [= ->]]|[_ Hq]].
      * eexists. split; [by eapply a_upd_eq|done].
      * destruct (J1 c' q Hq) as (w & Hw & E). exists w. split; [|done].
        change (a_procs (a_upd p (v_set_state RUNNING v) a) !! q = Some w). rewrite a_upd_ne; [done|].
        intros ->. by destruct (Hnot c').
    + intros c1 c2 q H1 H2. apply runs_on_cpu in H1 as [[<- E1]|[_ H1]];
        apply runs_on_cpu in H2 as [[<- E2]|[_ H2]]; simplify_eq; try done.
      * by destruct (Hnot c2).
      * by destruct (Hnot c1).
      * by eapply J2.
    + intros q w Hq E. apply a_upd_Some in Hq as [(-> & _ & _)|[Hn Hq]].
      * exists c. unfold runs_on. simpl. rewrite list_lookup_insert_eq; [done|by eapply lookup_lt_Some].
      * destruct (J3 q w Hq E) as [c' Hc']. exists c'. apply runs_on_cpu_ne; [|done]. intros ->.
        unfold runs_on in *. congruence.
  - split; [eapply (tinv_upd a _ v)|eapply (cinv_upd a _ v)]; simpl; rewrite ?Hs; try done; side.
  - split; [eapply (tinv_upd a q v)|eapply (cinv_upd a q v)]; simpl; try done.
    + intros Hu. by rewrite (I7 q v Hp Hu) in Hpa.
    + intros r Hr. right. destruct (I9 r Hr) as (w & Hw & _). exists w. by split; [|right].
    + by left.
    + intros Hq. destruct (I9 q Hq) as (w & Hw & H). congruence || (assert (w = v) as -> by congruence; done).
    + intros r Hr. right. assert (a_init a ≠ Some q) as Hq by (intros Hq; by rewrite (I12 q v Hq Hp) in Hpa).
      split; [by intros ->|done].
    + intros E1 E2 q2 w. apply I10. by exists v.
  - split; [eapply (tinv_upd a q v)|eapply (cinv_upd a q v)]; simpl; rewrite ?Hs; try done; unfold active.
    + intros [?|[?|?]]; done.
    + intros Hq. destruct (I9 q Hq) as (w & Hw & _ & H). congruence.
Qed.

Lemma asteps_inv a a' : pinv a → rtc astep a a' → pinv a'.
Proof. intros Hi H. revert Hi. induction H; eauto using astep_inv. Qed.
End ptable.
