(* ===== verification/ProcSpec.v ===== *)
(** * The operations of proc.c are runs of the process table system

    [abs] is what a kernel state says about scheduling.  Operations that do not
    concern it keep it ([keeps], proved by a syntactic closure); [fork],
    [exit], [wait], [sleep], [wakeup], [kill], [yield] and the scheduler are
    sequences of the transitions of [Ptable.v], whose invariant therefore
    holds in every state they reach. *)

From Stdlib Require Import ZArith Lia.
From stdpp Require Import base numbers strings gmap list relations.
From S2P Require Import Prelude Mmu Memory Locks Kalloc Vm VmAlloc Proc0 Regions Bytes Disk Fs.
From S2P Require Import FsRw Pagecache File FileSpec Kernel Mmap MmapSpec Proc Frame Ptable.

Definition sview_of (x : proc) : sview := SView (p_state x) (p_pid x) (p_parent x) (p_chan x).
Definition abs (s : kst) : psys :=
  PSys (sview_of <$> k_proc s) (k_cpus s) (k_initproc s) (k_nextpid s).

(** ** What keeps the table *)

Lemma abs_putp s p x : abs (putp p x s) = a_upd p (sview_of x) (abs s).
Proof. unfold abs, putp, a_upd. simpl. by rewrite list_fmap_insert. Qed.
Lemma abs_lookup s p x : k_proc s !! p = Some x → a_procs (abs s) !! p = Some (sview_of x).
Proof. intros H. simpl. by rewrite list_lookup_fmap, H. Qed.
Lemma abs_lookup_inv s p v :
  a_procs (abs s) !! p = Some v → ∃ x, k_proc s !! p = Some x ∧ v = sview_of x.
Proof. simpl. rewrite list_lookup_fmap. destruct (k_proc s !! p) as [x|]; simpl; [|done]. intros [= <-]. eauto. Qed.
Lemma a_upd_same a p v : a_procs a !! p = Some v → a_upd p v a = a.
Proof. intros H. destruct a. unfold a_upd. simpl in *. by rewrite list_insert_id. Qed.

Definition same_abs (s s' : kst) : Prop := abs s' = abs s.
Definition same_view (x y : proc) : Prop := sview_of y = sview_of x.
#[export] Instance abs_frame : Frame same_abs same_view.
Proof.
  unfold same_abs, same_view. split; try done.
  - split; [done|]. intros s1 s2 s3 H1 H2. by rewrite H2.
  - split; [done|]. intros x y z H1 H2. by rewrite H2.
  - intros s p x y Hx E. rewrite abs_putp, E. by apply a_upd_same, abs_lookup.
Qed.
#[export] Hint Extern 0 (same_view _ _) => reflexivity : pres.

Definition keeps {A} (m : M kst A) : Prop := ∀ s a s', m s = Ok a s' → abs s' = abs s.
Definition lkeeps {T} (l : lens kst T) : Prop := lpres same_abs l.
#[export] Hint Unfold lkeeps : pres.

Lemma pres_keeps {A} (m : M kst A) : pres same_abs m → keeps m.
Proof. intros Hm s a s' H. apply Hm. by left; exists a. Qed.

(** The end of a sequence, behind a part that does not sleep and behind one that
    keeps the table. *)
Lemma ends_prompt {A B} (m : M kst A) (f : A → M kst B) s s' :
  ends (m ≫= f) s s' → prompt m → ∃ a s1, m s = Ok a s1 ∧ ends (f a) s1 s'.
Proof. intros [H|[c H]]%ends_bind Hm; [done|by destruct (Hm s c s')]. Qed.
Lemma ends_keeps {A B} (m : M kst A) (f : A → M kst B) s s' :
  ends (m ≫= f) s s' → pres same_abs m →
  abs s' = abs s ∨ ∃ a s1, m s = Ok a s1 ∧ abs s1 = abs s ∧ ends (f a) s1 s'.
Proof.
  intros [(a & s1 & H1 & H2)|[c H]]%ends_bind Hm.
  - right. exists a, s1. split; [done|]. split; [|done]. by apply (pres_keeps m Hm) in H1.
  - left. apply Hm. right. by exists c.
Qed.
Ltac keeps := first [apply pres_keeps; pres | by intros ? ? | done].

Lemma keeps_zoom {T A} (l : lens kst T) (m : M T A) : lkeeps l → keeps (zoom l m).
Proof. intros Hl. apply pres_keeps. by apply pres_zoom. Qed.
Lemma keeps_acquire (l : lens kst spinlock) : lkeeps l → keeps (acquire l).
Proof. intros Hl. apply pres_keeps. by apply pres_acquire. Qed.
Lemma keeps_release (l : lens kst spinlock) : lkeeps l → keeps (release l).
Proof. intros Hl. apply pres_keeps. by apply pres_release. Qed.
Lemma keeps_updp p f : (∀ x, sview_of (f x) = sview_of x) → keeps (updp p f).
Proof. intros Hf. apply pres_keeps. by apply pres_updp. Qed.

(** ** The scheduler *)

Section steps.
Context (proc_addr : nat → Z).
Local Abbreviation steps := (rtc (astep proc_addr)).

Lemma steps_refl a a' : a' = a → steps a a'.
Proof. by intros ->. Qed.

Lemma switchuvm_keeps p : keeps (switchuvm p).
Proof. keeps. Qed.

Lemma scheduler_loop_steps n c p s r s' :
  k_cpus s !! c = Some None → scheduler_loop n c p s = Ok r s' → steps (abs s) (abs s').
Proof.
  intros Hc. revert p. induction n as [|n IH]; intros p H; simpl in H.
  - apply steps_refl. assert (keeps (release l_ptlock;; mret (None : option nat))) as Hk by keeps. by eapply Hk.
  - minv H as (x & s1 & H1 & H). apply getp_inv in H1 as [-> Hx].
    destruct (bool_decide_reflect (p_state x = RUNNABLE)) as [Hst|_]; [|by eapply IH].
    minv H as ([] & s2 & [= <-] & H). minv H as ([] & s3 & H3 & H). apply switchuvm_keeps in H3.
    minv H as ([] & s4 & H4 & H). injection H as _ <-. apply updp_inv in H4 as (x' & Hx' & ->).
    apply rtc_once. rewrite abs_putp, H3.
    assert (sview_of x' = sview_of x) as Ev.
    { apply abs_lookup in Hx'. rewrite H3 in Hx'. apply abs_lookup in Hx. simpl in *. congruence. }
    replace (a_upd p _ _) with (a_cpu c (Some p) (a_upd p (v_set_state RUNNING (sview_of x)) (abs s))).
    + eapply a_dispatch; [done|by apply abs_lookup|done].
    + injection Ev as E1 E2 E3 E4. unfold a_cpu, a_upd, abs. simpl. unfold v_set_state, sview_of. simpl.
      by rewrite E2, E3, E4.
Qed.

(** The scheduler changes only the entry of the process it picks. *)
Lemma scheduler_loop_other n c p s r s' q v :
  scheduler_loop n c p s = Ok r s' → a_procs (abs s) !! q = Some v → v_state v ≠ RUNNABLE →
  a_procs (abs s') !! q = Some v.
Proof.
  revert p. induction n as [|n IH]; intros p H Hq Hv; simpl in H.
  - assert (keeps (release l_ptlock;; mret (None : option nat))) as Hk by keeps. by rewrite (Hk _ _ _ H).
  - minv H as (x & s1 & H1 & H). apply getp_inv in H1 as [-> Hx].
    destruct (bool_decide_reflect (p_state x = RUNNABLE)) as [Hst|_]; [|by eapply IH].
    minv H as ([] & s2 & [= <-] & H). minv H as ([] & s3 & H3 & H). apply switchuvm_keeps in H3.
    minv H as ([] & s4 & H4 & H). injection H as _ <-. apply updp_inv in H4 as (x' & Hx' & ->).
    rewrite abs_putp, H3. change (a_procs (a_upd p (sview_of (set_p_state RUNNING x')) (abs s)) !! q = Some v).
    rewrite a_upd_ne; [done|]. intros ->. apply abs_lookup in Hx. assert (v = sview_of x) as -> by congruence. done.
Qed.

Lemma myproc_inv c s p s' : myproc c s = Ok p s' → s' = s ∧ k_cpus s !! c = Some (Some p).
Proof.
  unfold myproc. intros H. minv H as (o & s1 & H1 & H). unfold mycpu_proc in H1.
  destruct (k_cpus s !! c) as [o'|] eqn:E; [|done]. injection H1 as <- <-. destruct o' as [q|]; [|done].
  by injection H as <- <-.
Qed.

Lemma sched_steps c p s r s' :
  k_cpus s !! c = Some (Some p) → sched c s = Ok r s' → steps (a_cpu c None (abs s)) (abs s').
Proof.
  intros Hc H. unfold sched in H. minv H as (q & s1 & H1 & H). apply myproc_inv in H1 as [-> Hq].
  minv H as (t & s2 & [= <- <-] & H). simpl in H. destruct (negb (locked _)); [done|].
  destruct (negb (_ =? 1)); [done|]. minv H as (x & s3 & H3 & H). apply getp_inv in H3 as [-> Hx].
  destruct (bool_decide _); [done|]. unfold scheduler_resume in H. minv H as ([] & s4 & [= <-] & H).
  apply (scheduler_loop_steps _ c _ (set_cpu c None s)) in H; [done|]. simpl.
  rewrite list_lookup_insert_eq; [done|by eapply lookup_lt_Some].
Qed.

Lemma sched_other c s r s' q v :
  sched c s = Ok r s' → a_procs (abs s) !! q = Some v → v_state v ≠ RUNNABLE →
  a_procs (abs s') !! q = Some v.
Proof.
  intros H Hq Hv. unfold sched in H. minv H as (p & s1 & H1 & H). apply myproc_inv in H1 as [-> Hp].
  minv H as (t & s2 & [= <- <-] & H). simpl in H. destruct (negb (locked _)); [done|].
  destruct (negb (_ =? 1)); [done|]. minv H as (x & s3 & H3 & H). apply getp_inv in H3 as [-> Hx].
  destruct (bool_decide _); [done|]. unfold scheduler_resume in H. minv H as ([] & s4 & [= <-] & H).
  by apply (scheduler_loop_other _ _ _ _ _ _ q v H).
Qed.

(** A process changes its own entry and gives up the CPU. *)
Lemma leave_steps c p x f s r s' :
  k_cpus s !! c = Some (Some p) → k_proc s !! p = Some x →
  p_pid (f x) = p_pid x → p_parent (f x) = p_parent x →
  may_leave proc_addr (abs s) p (sview_of (f x)) →
  sched c (putp p (f x) s) = Ok r s' → steps (abs s) (abs s').
Proof.
  intros Hc Hx E1 E2 Hl H. apply (sched_steps c p) in H; [|done]. rewrite abs_putp in H.
  eapply rtc_l; [|exact H]. eapply a_leave; [done|by apply abs_lookup|done..].
Qed.

Lemma yield_steps c s r s' : yield c s = Ok r s' → steps (abs s) (abs s').
Proof.
  intros H. unfold yield in H. minv H as ([] & s1 & H1 & H).
  assert (abs s1 = abs s) as <- by (eapply (keeps_acquire l_ptlock); [keeps|done]).
  minv H as (p & s2 & H2 & H). apply myproc_inv in H2 as [-> Hp].
  minv H as ([] & s3 & H3 & H). apply updp_inv in H3 as (x & Hx & ->).
  by eapply (leave_steps c p x (set_p_state RUNNABLE)).
Qed.

(** ** sleep and wakeup *)

Lemma sleep_steps c chan lk s r s' :
  (∀ l, lk = Some l → lkeeps l) →
  (∀ p, k_cpus s !! c = Some (Some p) → chan = proc_addr p →
    ∀ q w, a_procs (abs s) !! q = Some w → v_parent w = Some p → v_state w ≠ ZOMBIE) →
  sleep_begin c chan lk s = Ok r s' → steps (abs s) (abs s').
Proof.
  intros Hlk Hz H. unfold sleep_begin in H. minv H as (o & s1 & H1 & H). unfold mycpu_proc in H1.
  destruct (k_cpus s !! c) as [o'|] eqn:Hc; [|done]. injection H1 as <- <-. destruct o' as [p|]; [|done].
  minv H as ([] & s2 & H2 & H).
  assert (abs s2 = abs s) as E.
  { destruct lk as [l|]; [|by injection H2 as <-]. specialize (Hlk l eq_refl).
    assert (keeps (acquire l_ptlock;; release l)) as Hk by keeps. by eapply Hk. }
  rewrite <-E. minv H as ([] & s3 & H3 & H). apply updp_inv in H3 as (x & Hx & ->).
  minv H as ([] & s4 & H4 & H). apply updp_inv in H4 as (y & Hy & ->). rewrite putp_putp in H.
  assert (y = set_p_chan chan x) as ->.
  { simpl in Hy. rewrite list_lookup_insert_eq in Hy by (by eapply lookup_lt_Some). congruence. }
  assert (k_cpus s2 = k_cpus s) as Ec by (by injection E).
  eapply (leave_steps c p x (λ x, set_p_state SLEEPING (set_p_chan chan x))); try done; [by rewrite Ec|].
  unfold may_leave. simpl v_state. intros Ech q w Hq. apply (Hz p eq_refl Ech q w). by rewrite <-E.
Qed.

Lemma sleep_end_steps p lk s s' :
  (∀ l, lk = Some l → lkeeps l) →
  (∃ v, a_procs (abs s) !! p = Some v ∧ v_state v = RUNNING) →
  sleep_end p lk s = Ok tt s' → steps (abs s) (abs s').
Proof.
  intros Hlk (v & Hv & Hr) H. unfold sleep_end in H. minv H as ([] & s1 & H1 & H).
  apply updp_inv in H1 as (x & Hx & ->).
  assert (abs s' = abs (putp p (set_p_chan 0 x) s)) as ->.
  { destruct lk as [l|]; [|by injection H as <-]. specialize (Hlk l eq_refl).
    assert (keeps (release l_ptlock;; acquire l)) as Hk by keeps. by eapply Hk. }
  rewrite abs_putp. apply rtc_once. apply abs_lookup in Hx. assert (v = sview_of x) as -> by congruence.
  by apply (a_unchan _ _ p (sview_of x)).
Qed.

(** Waking up the sleepers on a channel. *)
Definition v_wake (chan : Z) (v : sview) : sview :=
  if bool_decide (v_state v = SLEEPING) && (v_chan v =? chan) then v_set_state RUNNABLE v else v.

Lemma wake_list_steps chan l k cpus i n :
  steps (PSys (k ++ l) cpus i n) (PSys (k ++ (v_wake chan <$> l)) cpus i n).
Proof.
  revert k. induction l as [|v l IH]; intros k; [done|]. simpl.
  specialize (IH (k ++ [v_wake chan v])). rewrite <-!app_assoc in IH. etrans; [|exact IH]. simpl.
  unfold v_wake. destruct (bool_decide_reflect (v_state v = SLEEPING)) as [Hs|]; simpl; [|done].
  destruct (v_chan v =? chan); [|done]. apply rtc_once.
  replace (PSys (k ++ v_set_state RUNNABLE v :: l) cpus i n) with
    (a_upd (length k) (v_set_state RUNNABLE v) (PSys (k ++ v :: l) cpus i n)).
  - apply (a_wake _ _ (length k) v); [simpl; by rewrite list_lookup_middle|done].
  - unfold a_upd. simpl. f_equal. by rewrite list_insert_middle || rewrite insert_app_r_alt, Nat.sub_diag by lia.
Qed.

Definition a_wakeall (chan : Z) (a : psys) : psys :=
  PSys (v_wake chan <$> a_procs a) (a_cpus a) (a_init a) (a_next a).

Lemma abs_wakeup1 chan s s' : wakeup1 chan s = Ok tt s' → abs s' = a_wakeall chan (abs s).
Proof.
  intros [= <-]. unfold abs, a_wakeall. simpl. f_equal. rewrite <-!list_fmap_compose.
  apply list_fmap_ext. intros i x _. simpl. unfold wake, v_wake. simpl. by destruct (_ && _).
Qed.
Lemma wakeall_steps chan a : steps a (a_wakeall chan a).
Proof. destruct a. apply (wake_list_steps chan _ []). Qed.
Lemma wakeall_awake chan a q w :
  a_procs (a_wakeall chan a) !! q = Some w → v_state w = SLEEPING → v_chan w ≠ chan.
Proof.
  intros Hq Hs. simpl in Hq. rewrite list_lookup_fmap in Hq.
  destruct (a_procs a !! q) as [v|]; simpl in Hq; [|done]. injection Hq as <-.
  unfold v_wake in *. destruct (bool_decide_reflect (v_state v = SLEEPING)) as [Hv|]; simpl in *; [|done].
  destruct (Z.eqb_spec (v_chan v) chan); [done|by simpl].
Qed.

(** Entries keep everything but the state, which only sleepers lose. *)
Definition v_woken (v w : sview) : Prop := w = v ∨ v_state v = SLEEPING ∧ w = v_set_state RUNNABLE v.
Lemma v_wake_woken chan v : v_woken v (v_wake chan v).
Proof.
  unfold v_woken, v_wake. destruct (bool_decide_reflect (v_state v = SLEEPING)); simpl; [|by left].
  destruct (v_chan v =? chan); [by right|by left].
Qed.
Lemma wakeup_steps chan s s' : wakeup chan s = Ok tt s' → steps (abs s) (abs s').
Proof.
  intros H. unfold wakeup in H. minv H as ([] & s1 & H1 & H). minv H as ([] & s2 & H2 & H).
  assert (abs s1 = abs s) as <- by (eapply (keeps_acquire l_ptlock); [keeps|done]).
  assert (abs s' = abs s2) as -> by (eapply (keeps_release l_ptlock); [keeps|done]).
  rewrite (abs_wakeup1 _ _ _ H2). apply wakeall_steps.
Qed.

Lemma kill_steps pid s r s' : kill pid s = Ok r s' → steps (abs s) (abs s').
Proof.
  intros H. unfold kill in H. minv H as ([] & s1 & H1 & H).
  assert (abs s1 = abs s) as <- by (eapply (keeps_acquire l_ptlock); [keeps|done]). clear H1.
  revert H. generalize 0%nat as p. generalize (Z.to_nat NPROC) as n. induction n as [|n IH]; intros p H; simpl in H.
  - apply steps_refl. assert (keeps (release l_ptlock;; mret (-1))) as Hk by keeps. by eapply Hk.
  - minv H as (x & s2 & H2 & H). apply getp_inv in H2 as [-> Hx]. destruct (p_pid x =? pid); [|by eapply IH].
    minv H as ([] & s3 & H3 & H). minv H as ([] & s4 & H4 & H).
    assert (keeps (release l_ptlock;; mret 0)) as Hk by keeps. apply Hk in H as ->.
    apply updp_inv in H3 as (x' & Hx' & ->). assert (x' = x) as -> by congruence.
    destruct (bool_decide_reflect (p_state x = SLEEPING)) as [Hs|].
    + simpl in H4. apply updp_inv in H4 as (y & Hy & ->). rewrite putp_putp, abs_putp. apply rtc_once.
      simpl in Hy. rewrite list_lookup_insert_eq in Hy by (by eapply lookup_lt_Some). injection Hy as <-.
      apply (a_wake _ _ p (sview_of x)); [by apply abs_lookup|done].
    + injection H4 as <-. rewrite abs_putp. apply steps_refl.
      by apply (a_upd_same _ p (sview_of x)), abs_lookup.
Qed.

(** ** Creating processes *)

Lemma unused_scan_Some l i p :
  unused_scan l i = Some p → ∃ x, l !! (p - i)%nat = Some x ∧ p_state x = UNUSED ∧ (i ≤ p)%nat.
Proof.
  revert i. induction l as [|x l IH]; intros i H; [done|]. simpl in H.
  destruct (bool_decide_reflect (p_state x = UNUSED)) as [Hx|_].
  - injection H as <-. exists x. by rewrite Nat.sub_diag.
  - destruct (IH _ H) as (y & Hy & Hs & Hle). exists y. split_and!; [|done|lia].
    replace (p - i)%nat with (S (p - S i)) by lia. done.
Qed.

(** An unused entry gets the next pid. *)
Definition claimed (a : psys) (p : nat) (v : sview) : psys :=
  a_set_next (a_next a + 1) (a_upd p (SView EMBRYO (a_next a) (v_parent v) (v_chan v)) a).

Lemma claim_spec s r s' :
  0 < k_nextpid s < 2147483647 → claim_proc s = Ok r s' →
  match r with
  | None => abs s' = abs s
  | Some p => ∃ v, a_procs (abs s) !! p = Some v ∧ v_state v = UNUSED ∧ abs s' = claimed (abs s) p v
  end.
Proof.
  intros Hn H. unfold claim_proc in H. minv H as ([] & s1 & H1 & H).
  assert (abs s1 = abs s) as E by (eapply (keeps_acquire l_ptlock); [keeps|done]). clear H1.
  minv H as (o & s2 & [= <- <-] & H). destruct (unused_scan (k_proc s1) 0) as [p|] eqn:Hu; cycle 1.
  { minv H as ([] & s2 & H2 & H). injection H as <- <-. rewrite <-E.
    eapply (keeps_release l_ptlock); [keeps|done]. }
  apply unused_scan_Some in Hu as (x & Hx & Hs & _). rewrite Nat.sub_0_r in Hx.
  minv H as ([] & s2 & H2 & H). apply updp_inv in H2 as (x2 & Hx2 & ->). assert (x2 = x) as -> by congruence.
  minv H as (n & s3 & [= <- <-] & H). minv H as ([] & s4 & H4 & H). apply updp_inv in H4 as (x4 & Hx4 & ->).
  simpl in Hx4. rewrite list_lookup_insert_eq in Hx4 by (by eapply lookup_lt_Some). injection Hx4 as <-.
  minv H as ([] & s5 & [= <-] & H). minv H as ([] & s6 & H6 & H). injection H as <- <-.
  exists (sview_of x). rewrite <-E. split_and!; [by apply abs_lookup|done|].
  assert (k_nextpid s1 = k_nextpid s) as En by (by injection E).
  rewrite (keeps_release l_ptlock ltac:(keeps) _ _ _ H6). unfold claimed, abs, a_set_next, a_upd, putp. simpl.
  rewrite list_insert_insert_eq, list_fmap_insert, s32_small by (rewrite En; lia). done.
Qed.

Lemma setup_kstack_spec tr fr p s b s' :
  setup_kstack tr fr p s = Ok b s' →
  if b then abs s' = abs s
  else ∃ x, k_proc s !! p = Some x ∧ abs s' = a_upd p (v_set_state UNUSED (sview_of x)) (abs s).
Proof.
  intros H. unfold setup_kstack in H. minv H as (v & s1 & H1 & H).
  assert (abs s1 = abs s ∧ k_proc s1 = k_proc s) as [E Ep].
  { unfold zoom in H1. destruct (kalloc _); try done. by injection H1 as <- <-. }
  minv H as ([] & s2 & H2 & H). apply updp_inv in H2 as (x & Hx & ->). destruct (v =? 0).
  - minv H as ([] & s3 & H3 & H). injection H as <- <-. apply updp_inv in H3 as (y & Hy & ->).
    simpl in Hy. rewrite list_lookup_insert_eq in Hy by (by eapply lookup_lt_Some). injection Hy as <-.
    exists x. rewrite <-Ep, putp_putp, abs_putp, E. done.
  - assert (abs (putp p (set_p_kstack v x) s1) = abs s) as E2.
    { rewrite abs_putp, E. apply a_upd_same. rewrite <-E. exact (abs_lookup _ _ _ Hx). }
    rewrite <-E2. match type of H with ?m _ = _ => assert (Hk : keeps m) by keeps end.
    assert (b = true) as ->; [|by eapply Hk].
    repeat (minv H as ([] & ? & _ & H)). by injection H.
Qed.

Definition embryo (a : psys) (p : nat) : Prop :=
  ∃ v, a_procs a !! p = Some v ∧ v_state v = EMBRYO ∧ v_parent v = None ∧ a_init a ≠ Some p.

Lemma claimed_embryo a p v :
  pinv proc_addr a → a_procs a !! p = Some v → v_state v = UNUSED → embryo (claimed a p v) p.
Proof.
  intros [HT _] Hp Hu. eexists. split; [by eapply (a_upd_eq a p)|]. split_and!; [done| |].
  - exact (ti_unused _ _ HT p v Hp Hu).
  - simpl. intros Hi. destruct (ti_init _ _ HT p Hi) as (w & Hw & ? & _). congruence.
Qed.

Lemma abandon_steps a p v :
  embryo a p → a_procs a !! p = Some v → steps a (a_upd p (v_set_state UNUSED v) a).
Proof.
  intros (w & Hw & H1 & H2 & H3) Hv. assert (w = v) as -> by congruence. apply rtc_once. by apply a_abandon.
Qed.

Lemma allocproc_spec tr fr s r s' :
  pinv proc_addr (abs s) → k_nextpid s < 2147483647 → allocproc tr fr s = Ok r s' →
  steps (abs s) (abs s') ∧ (∀ p, r = Some p → embryo (abs s') p ∧ k_cpus s' = k_cpus s ∧ k_initproc s' = k_initproc s).
Proof.
  intros Hi Hn H. unfold allocproc in H. minv H as (o & s1 & H1 & H).
  assert (0 < k_nextpid s) by (apply (ti_next _ _ (proj1 Hi))).
  apply claim_spec in H1; [|lia]. destruct o as [p|]; cycle 1.
  { injection H as <- <-. split; [by apply steps_refl|done]. }
  destruct H1 as (v & Hv & Hu & E1). minv H as (b & s2 & H2 & H). injection H as <- <-.
  assert (steps (abs s) (abs s1)) as Hs1 by (rewrite E1; apply rtc_once; by apply a_claim).
  assert (embryo (abs s1) p) as He by (rewrite E1; by apply claimed_embryo).
  apply setup_kstack_spec in H2. destruct b.
  - rewrite H2. split; [done|]. intros q [= <-]. split; [done|]. injection H2 as _ -> -> _.
    by injection E1 as _ -> -> _.
  - destruct H2 as (x & Hx & E2). split; [|done]. etrans; [exact Hs1|]. rewrite E2.
    apply abandon_steps; [done|by apply abs_lookup].
Qed.

Lemma make_runnable_steps p s s' :
  (∃ v, a_procs (abs s) !! p = Some v ∧ v_state v = EMBRYO) →
  make_runnable p s = Ok tt s' → steps (abs s) (abs s').
Proof.
  intros (v & Hv & He) H. unfold make_runnable in H. minv H as ([] & s1 & H1 & H).
  assert (abs s1 = abs s) as E by (eapply (keeps_acquire l_ptlock); [keeps|done]).
  minv H as ([] & s2 & H2 & H). rewrite (keeps_release l_ptlock ltac:(keeps) _ _ _ H).
  apply updp_inv in H2 as (x & Hx & ->). rewrite abs_putp, E. apply rtc_once.
  apply abs_lookup in Hx. rewrite E in Hx. assert (v = sview_of x) as -> by congruence.
  by apply (a_ready _ _ p (sview_of x)).
Qed.

Lemma fork_undo_steps {L : Linker} p s s' :
  embryo (abs s) p → fork_undo p s = Ok tt s' → steps (abs s) (abs s').
Proof.
  intros He H. unfold fork_undo in H. minv H as (y & s1 & H1 & H). apply getp_inv in H1 as [-> Hy].
  minv H as ([] & s2 & H2 & H). minv H as ([] & s3 & H3 & H). apply updp_inv in H as (x & Hx & ->).
  assert (abs s3 = abs s) as E.
  { rewrite (keeps_updp p (set_p_kstack 0) ltac:(keeps) _ _ _ H3).
    by apply (keeps_zoom l_kvm (kfree (p_kstack y)) ltac:(keeps) _ _ _ H2). }
  rewrite abs_putp, E. apply (abandon_steps _ _ (sview_of x) He). rewrite <-E. by apply abs_lookup.
Qed.


Lemma fork_inherit_spec p np s s' :
  ends (fork_inherit p np) s s' →
  ∃ v, a_procs (abs s) !! np = Some v ∧ abs s' = a_upd np (v_set_parent (Some p) v) (abs s).
Proof.
  intros H. unfold fork_inherit in H. apply ends_prompt in H as (x & s1 & H1 & H); [|prompt]. apply getp_inv in H1 as [-> _].
  apply ends_prompt in H as ([] & s2 & H2 & H); [|prompt]. apply keeps_updp in H2; [|done].
  apply ends_prompt in H as ([] & s3 & H3 & H); [|prompt]. apply updp_inv in H3 as (y & Hy & ->).
  exists (sview_of y). rewrite <-H2. split; [by apply abs_lookup|].
  match type of H with ends ?m _ _ => assert (Hk : pres same_abs m) by pres end.
  by rewrite (Hk _ _ H), abs_putp.
Qed.

Lemma inherit_steps c p np s s' :
  embryo (abs s) np → k_cpus s !! c = Some (Some p) → ends (fork_inherit p np) s s' →
  steps (abs s) (abs s') ∧ ∃ v, a_procs (abs s') !! np = Some v ∧ v_state v = EMBRYO.
Proof.
  intros (w & Hw & He1 & He2 & He3) Hc (v & Hv & E)%fork_inherit_spec. assert (w = v) as -> by congruence.
  rewrite E. split.
  - apply rtc_once. by apply (a_adopt _ _ c p).
  - eexists. split; [by eapply a_upd_eq|done].
Qed.

Section fork.
Context {L : Linker} (dev_read : Z → option (nat → Z → M fsst (Z * list Z))) (tr fr : Z).

Lemma fork_steps c s s' :
  pinv proc_addr (abs s) → k_nextpid s < 2147483647 →
  ends (fork dev_read tr fr c) s s' → steps (abs s) (abs s').
Proof.
  intros Hi Hn H. unfold fork in H. apply ends_prompt in H as (p & s1 & H1 & H); [|prompt]. apply myproc_inv in H1 as [-> Hp].
  apply ends_prompt in H as (o & s1 & H1 & H); [|prompt]. apply allocproc_spec in H1 as [Hs1 Hnp]; [|done..].
  destruct o as [np|]; [|by apply prompt_ends in H as (r & [= _ <-]); [|prompt]]. destruct (Hnp np eq_refl) as (He & Ec & Ei). clear Hnp.
  etrans; [exact Hs1|]. clear Hs1. apply ends_prompt in H as (x & s2 & H2 & H); [|prompt]. apply getp_inv in H2 as [-> _].
  apply ends_keeps in H as [E|(d & s2 & _ & H2 & H)]; [by apply steps_refl| |pres].
  apply ends_prompt in H as ([] & s3 & H3 & H); [|prompt]. apply keeps_updp in H3; [|done]. rewrite H2 in H3. clear H2.
  assert (Hundo : ∀ s4, abs s4 = abs s1 → ends (fork_undo np;; mret (-1)) s4 s' → steps (abs s1) (abs s')).
  { intros s4 E H4. apply ends_prompt in H4 as ([] & s5 & H5 & H4); [|prompt].
    apply prompt_ends in H4 as (r & [= _ <-]); [|prompt]. rewrite <-E in *. by eapply fork_undo_steps. }
  destruct (d =? 0); [by apply (Hundo s3)|].
  apply ends_keeps in H as [E|(e & s4 & _ & H4 & H)]; [apply steps_refl; congruence| |apply pres_copy_maps].
  rewrite H3 in H4. destruct (e <? 0); [by apply (Hundo s4)|].
  assert (Hp4 : k_cpus s4 !! c = Some (Some p)) by (change (a_cpus (abs s4) !! c = Some (Some p)); rewrite H4; simpl; by rewrite Ec).
  rewrite <-H4 in He |- *. apply ends_bind in H as [([] & s5 & H5 & H)|[ch H]]; cycle 1.
  { eapply inherit_steps; [done|done|]. by right; exists ch. }
  destruct (inherit_steps c p np s4 s5 He Hp4) as [Hs5 Hnp5]; [by left; exists tt|]. etrans; [exact Hs5|].
  apply ends_prompt in H as (y & s6 & H6 & H); [|prompt]. apply getp_inv in H6 as [-> Hy].
  apply ends_prompt in H as ([] & s6 & H6 & H); [|prompt]. apply prompt_ends in H as (r & [= _ <-]); [|prompt].
  by apply (make_runnable_steps np s5 s6).
Qed.

Lemma userinit_steps code s s' :
  pinv proc_addr (abs s) → k_nextpid s < 2147483647 → k_initproc s = None →
  userinit dev_read tr fr code s = Ok tt s' → steps (abs s) (abs s').
Proof.
  intros Hi Hn Hin H. unfold userinit in H. minv H as (o & s1 & H1 & H).
  apply allocproc_spec in H1 as [Hs1 Hnp]; [|done..]. minv H as ([] & s2 & [= <-] & H).
  destruct o as [p|]; [|done]. destruct (Hnp p eq_refl) as (He & Ec & Ei). etrans; [exact Hs1|].
  destruct He as (v & Hv & He1 & He2 & He3).
  apply rtc_l with (abs (set_initproc (Some p) s1)).
  { change (abs (set_initproc (Some p) s1)) with (a_set_init (Some p) (abs s1)).
    eapply a_init_is; [done..|]. simpl. by rewrite Ei. }
  revert H. match goal with |- ?m ?t = _ → _ => remember t as t0 eqn:Et end. intros H.
  minv H as (d & s3 & H3 & H). apply keeps_zoom in H3; [|by intros ? ?].
  minv H as ([] & s4 & H4 & H). apply keeps_updp in H4; [|done]. rewrite H3 in H4. clear H3.
  destruct (d =? 0); [done|].
  minv H as ([] & s5 & H5 & H). apply keeps_zoom in H5; [|by intros ? ?].
  minv H as ([] & s6 & H6 & H). apply keeps_updp in H6; [|done].
  minv H as ([] & s7 & H7 & H). apply keeps_updp in H7; [|done].
  minv H as ([] & s8 & H8 & H). apply keeps_updp in H8; [|done].
  minv H as (ip & s9 & H9 & H). apply keeps_zoom in H9; [|by intros ? ?].
  minv H as ([] & s10 & H10 & H). apply keeps_updp in H10; [|done].
  assert (abs s10 = abs t0) as <- by congruence.
  apply make_runnable_steps in H; [done|]. exists v. split; [|done].
  assert (a_procs (abs s10) = a_procs (abs t0)) as -> by congruence. by rewrite Et.
Qed.
End fork.

(** ** exit *)

Section exit.
Context {L : Linker} (dev_write : Z → option (nat → list Z → M fsst Z)).

(** What the loop over the children of [p] may have done to an entry. *)
Definition disowned (i : option nat) (p : nat) (v w : sview) : Prop :=
  v_pid w = v_pid v ∧ (v_state v ≠ SLEEPING → v_state w = v_state v) ∧
  (v_state w = SLEEPING → v_state v = SLEEPING ∧ v_chan w = v_chan v) ∧
  (v_parent w = v_parent v ∨ v_parent v = Some p ∧ v_parent w = i).

Lemma disowned_refl i p v : disowned i p v v.
Proof. unfold disowned. naive_solver. Qed.
Lemma disowned_trans i p u v w : disowned i p u v → disowned i p v w → disowned i p u w.
Proof. unfold disowned. intros (H1 & H2 & H3 & H4) (K1 & K2 & K3 & K4). split_and!; [congruence| | |].
  - intros Hs. rewrite K2, H2; [done|done|]. by rewrite H2.
  - intros Hs. destruct (K3 Hs) as [Hs' E]. destruct (H3 Hs') as [? ?]. split; [done|congruence].
  - destruct H4 as [H4|[H4 H4']], K4 as [K4|[K4 K4']]; naive_solver congruence.
Qed.

Definition disown_all (p : nat) (a a' : psys) : Prop :=
  a_cpus a' = a_cpus a ∧ a_init a' = a_init a ∧
  ∀ k w, a_procs a' !! k = Some w → ∃ v, a_procs a !! k = Some v ∧ disowned (a_init a) p v w.

Lemma disown_one p q y s s' :
  k_proc s !! q = Some y → p_parent y = Some p →
  (i ← gets k_initproc;
   updp q (set_p_parent i);;
   when (bool_decide (p_state y = ZOMBIE)) (wakeup1 (chan_of proc_addr i))) s = Ok tt s' →
  steps (abs s) (abs s') ∧ disown_all p (abs s) (abs s') ∧
  (∃ w, a_procs (abs s') !! q = Some w ∧ v_parent w = k_initproc s).
Proof.
  intros Hy Hpa H. minv H as (i & s1 & [= <- <-] & H). minv H as ([] & s1 & H1 & H).
  apply updp_inv in H1 as (y' & Hy' & ->). assert (y' = y) as -> by congruence.
  set (v := sview_of y). assert (Hv : a_procs (abs s) !! q = Some v) by (by apply abs_lookup).
  assert (E1 : abs (putp q (set_p_parent (k_initproc s) y) s) = a_upd q (v_set_parent (a_init (abs s)) v) (abs s))
    by apply abs_putp.
  assert (Hdis : ∀ k w, a_procs (a_upd q (v_set_parent (a_init (abs s)) v) (abs s)) !! k = Some w →
    ∃ u, a_procs (abs s) !! k = Some u ∧ disowned (a_init (abs s)) p u w).
  { intros k w Hk. apply a_upd_Some in Hk as [(<- & -> & _)|[_ Hk]].
    - exists v. split; [done|]. unfold disowned. simpl. naive_solver.
    - exists w. split; [done|apply disowned_refl]. }
  destruct (bool_decide_reflect (p_state y = ZOMBIE)) as [Hz|Hnz]; cycle 1.
  { injection H as <-. rewrite E1. split; [|split].
    - apply rtc_once. by eapply (a_reparent _ _ p q v).
    - split_and!; try done.
    - eexists. split; [by eapply a_upd_eq|done]. }
  simpl in H. apply abs_wakeup1 in H. rewrite E1 in H. set (ch := chan_of proc_addr (k_initproc s)) in *.
  assert (E2 : a_wakeall ch (a_upd q (v_set_parent (a_init (abs s)) v) (abs s)) =
    a_upd q (v_set_parent (a_init (abs s)) v) (a_wakeall ch (abs s))).
  { unfold a_wakeall, a_upd. cbn [a_procs a_cpus a_init a_next]. rewrite list_fmap_insert. do 2 f_equal.
    unfold v_wake. simpl. by rewrite Hz. }
  assert (Hv' : a_procs (a_wakeall ch (abs s)) !! q = Some v).
  { cbn [a_wakeall a_procs]. rewrite list_lookup_fmap, Hv. simpl. unfold v_wake. simpl. by rewrite Hz. }
  rewrite H, E2. split; [|split].
  - eapply rtc_r; [apply (wakeall_steps ch)|]. eapply (a_reparent _ (a_wakeall ch (abs s)) p q v); [done|done|].
    intros _ i Hi (u & Hu & Hs & Hch). apply (wakeall_awake _ _ _ _ Hu Hs). rewrite Hch.
    unfold ch. change (k_initproc s = Some i) in Hi. by rewrite Hi.
  - split_and!; try done. rewrite <-E2. intros k w Hk. cbn [a_wakeall a_procs] in Hk.
    rewrite list_lookup_fmap in Hk.
    destruct (a_procs (a_upd q (v_set_parent (a_init (abs s)) v) (abs s)) !! k) as [u|] eqn:Hu; [|done].
    injection Hk as <-. destruct (Hdis k u Hu) as (u0 & Hu0 & Hd). exists u0. split; [done|].
    eapply disowned_trans; [exact Hd|].
    destruct (v_wake_woken ch u) as [->|[Hs ->]]; [apply disowned_refl|].
    unfold disowned. simpl. naive_solver.
  - eexists. split; [by eapply a_upd_eq|done].
Qed.

Lemma disown_all_refl p a : disown_all p a a.
Proof. split_and!; try done. intros k w Hk. exists w. split; [done|apply disowned_refl]. Qed.
Lemma disown_all_trans p a b c : disown_all p a b → disown_all p b c → disown_all p a c.
Proof.
  intros (H1 & H2 & H3) (K1 & K2 & K3). split_and!; [congruence..|]. intros k w Hk.
  destruct (K3 k w Hk) as (v & Hv & Hd). destruct (H3 k v Hv) as (u & Hu & Hd'). exists u.
  split; [done|]. rewrite H2 in Hd. by eapply disowned_trans.
Qed.

Lemma exit_children_spec n p q s s' :
  a_init (abs s) ≠ Some p → exit_children proc_addr n p q s = Ok tt s' →
  steps (abs s) (abs s') ∧ disown_all p (abs s) (abs s') ∧
  (∀ k w, (q ≤ k < q + n)%nat → a_procs (abs s') !! k = Some w → v_parent w ≠ Some p).
Proof.
  revert q s. induction n as [|n IH]; intros q s Hi H; simpl in H.
  { injection H as <-. split; [done|]. split; [apply disown_all_refl|]. intros k w Hk. lia. }
  minv H as (y & s1 & H1 & H). apply getp_inv in H1 as [-> Hy]. minv H as ([] & s1 & H1 & H).
  assert (steps (abs s) (abs s1) ∧ disown_all p (abs s) (abs s1) ∧
    (∀ w, a_procs (abs s1) !! q = Some w → v_parent w ≠ Some p)) as (Hs1 & Hd1 & Hq1).
  { destruct (bool_decide_reflect (p_parent y = Some p)) as [Hpa|Hpa].
    - apply (disown_one p q y) in H1 as (Ha & Hb & w & Hw & E); [|done..]. split; [done|]. split; [done|].
      intros w' Hw'. assert (w' = w) as -> by congruence. by rewrite E.
    - injection H1 as <-. split; [done|]. split; [apply disown_all_refl|]. intros w Hw.
      apply abs_lookup in Hy. assert (w = sview_of y) as -> by congruence. done. }
  assert (a_init (abs s1) = a_init (abs s)) as Ei by apply Hd1.
  destruct (IH (S q) s1) as (Hs2 & Hd2 & Hq2); [by rewrite Ei|done|].
  split; [by etrans|]. split; [by eapply disown_all_trans|]. intros k w Hk Hw.
  destruct (decide (k = q)) as [->|Hn]; [|apply (Hq2 k w); [lia|done]].
  destruct Hd2 as (_ & _ & Hd2). destruct (Hd2 q w Hw) as (v & Hv & _ & _ & _ & [E|[_ E]]).
  - rewrite E. by apply Hq1.
  - by rewrite E, Ei.
Qed.

Lemma exit_locked_steps c p s r s' :
  pinv proc_addr (abs s) → length (k_proc s) = Z.to_nat NPROC →
  k_cpus s !! c = Some (Some p) → k_initproc s ≠ Some p →
  exit_locked proc_addr c p s = Ok r s' → steps (abs s) (abs s').
Proof.
  intros [HT HC] Hlen Hc Hi H. unfold exit_locked in H. minv H as ([] & s1 & H1 & H).
  assert (abs s1 = abs s) as E1 by (eapply (keeps_acquire l_ptlock); [keeps|done]). clear H1.
  minv H as (x & s2 & H2 & H). apply getp_inv in H2 as [-> Hx]. minv H as ([] & s2 & H2 & H).
  apply abs_wakeup1 in H2. rewrite E1 in H2. minv H as ([] & s3 & H3 & H).
  destruct (exit_children_spec (Z.to_nat NPROC) p 0 s2 s3) as (Hs3 & Hd3 & Hq3); [by rewrite H2|done|].
  minv H as ([] & s4 & H4 & H). apply updp_inv in H4 as (y & Hy & ->).
  destruct Hd3 as (Ec3 & Ei3 & Hd3). rewrite H2 in Ec3, Ei3, Hd3.
  etrans; [apply (wakeall_steps (chan_of proc_addr (p_parent x)) (abs s))|]. rewrite <-H2.
  etrans; [exact Hs3|].
  destruct (Hd3 p (sview_of y)) as (v2 & Hv2 & Hd); [by apply abs_lookup|].
  cbn [a_wakeall a_procs] in Hv2. rewrite list_lookup_fmap in Hv2.
  assert (Hx0 : a_procs (abs s) !! p = Some (sview_of x)) by (rewrite <-E1; by apply abs_lookup).
  rewrite Hx0 in Hv2. injection Hv2 as <-.
  destruct (ci_cpu _ HC c p Hc) as (v & Hv & Hrun). assert (v = sview_of x) as -> by congruence.
  assert (v_wake (chan_of proc_addr (p_parent x)) (sview_of x) = sview_of x) as Ew
    by (unfold v_wake; by rewrite Hrun).
  rewrite Ew in Hd. destruct Hd as (Dpid & _ & _ & Dpar).
  assert (p_parent y = p_parent x) as Epar.
  { destruct Dpar as [E|[E _]]; [done|]. by destruct (ti_self _ _ HT p _ Hx0). }
  eapply (leave_steps c p y (set_p_state ZOMBIE)); [|done|done|done| |exact H].
  { change (a_cpus (abs s3) !! c = Some (Some p)). by rewrite Ec3. }
  unfold may_leave. simpl v_state. cbn iota. split_and!.
  - rewrite Ei3. done.
  - intros q w Hq. apply (Hq3 q w); [|done]. split; [lia|]. apply lookup_lt_Some in Hq.
    assert (length (a_procs (abs s3)) = length (k_proc s)) as El; [|lia].
    assert (∀ a a', steps a a' → length (a_procs a') = length (a_procs a)) as Hl.
    { intros a a'. induction 1 as [|a a1 a2 Ha _ IH]; [done|]. rewrite IH.
      destruct Ha; simpl; by rewrite ?length_insert. }
    rewrite (Hl _ _ Hs3), H2. simpl. rewrite !length_fmap. done.
  - intros r0 Hr. simpl in Hr. rewrite Epar in Hr. intros (u & Hu & Hs & Hch).
    destruct (Hd3 r0 u Hu) as (u2 & Hu2 & _ & _ & D3 & _). destruct (D3 Hs) as [Hs2 Ech2].
    apply (wakeall_awake _ _ _ _ Hu2 Hs2). rewrite <-Ech2, Hch, Hr. done.
Qed.


Lemma exit_steps c s s' :
  pinv proc_addr (abs s) → length (k_proc s) = Z.to_nat NPROC →
  ends (exit dev_write proc_addr c) s s' → steps (abs s) (abs s').
Proof.
  intros Hi Hlen H. unfold exit in H. apply ends_prompt in H as (p & s1 & H1 & H); [|prompt]. apply myproc_inv in H1 as [-> Hp].
  apply ends_prompt in H as (i & s1 & [= <- <-] & H); [|prompt].
  destruct (bool_decide_reflect (k_initproc s = Some p)) as [|Hni]; [apply prompt_ends in H as (? & [=]); prompt|].
  apply ends_keeps in H as [E|([] & s1 & _ & H1 & H)]; [by apply steps_refl| |pres].
  apply ends_prompt in H as (x & s2 & H2 & H); [|prompt]. apply getp_inv in H2 as [-> Hx].
  apply ends_keeps in H as [E|([] & s2 & _ & H2 & H)]; [apply steps_refl; congruence| |pres].
  apply ends_keeps in H as [E|([] & s3 & _ & H3 & H)]; [apply steps_refl; congruence| |pres].
  apply ends_keeps in H as [E|([] & s4 & _ & H4 & H)]; [apply steps_refl; congruence| |pres].
  apply ends_keeps in H as [E|([] & s5 & _ & H5 & H)]; [apply steps_refl; congruence| |pres].
  apply ends_keeps in H as [E|([] & s6 & _ & H6 & H)]; [apply steps_refl; congruence| |pres].
  apply prompt_ends in H as (r & H); [|prompt]. assert (abs s6 = abs s) as E by congruence. rewrite <-E.
  eapply exit_locked_steps; [..|exact H].
  - by rewrite E.
  - rewrite <-Hlen. pose proof (f_equal (λ a, length (a_procs a)) E) as El. simpl in El.
    by rewrite !length_fmap in El.
  - change (a_cpus (abs s6) !! c = Some (Some p)). by rewrite E.
  - change (a_init (abs s6) ≠ Some p). by rewrite E.
Qed.
End exit.

(** ** wait *)

Section wait.
Context {L : Linker}.

Lemma reap_spec q s pid s' :
  reap q s = Ok pid s' → ∃ y, k_proc s !! q = Some y ∧ pid = p_pid y ∧
    abs s' = a_upd q (SView UNUSED 0 None (p_chan y)) (abs s).
Proof.
  intros H. unfold reap in H. minv H as (y & s1 & H1 & H). apply getp_inv in H1 as [-> Hy].
  exists y. split; [done|].
  minv H as ([] & s1 & H1 & H). apply keeps_zoom in H1; [|by intros ? ?].
  minv H as ([] & s2 & H2 & H). apply keeps_updp in H2; [|done].
  minv H as ([] & s3 & H3 & H). apply keeps_zoom in H3; [|by intros ? ?].
  assert (abs s3 = abs s) as E by congruence.
  minv H as ([] & s4 & H4 & H). apply updp_inv in H4 as (y4 & Hy4 & ->).
  minv H as ([] & s5 & H5 & H). apply updp_inv in H5 as (y5 & Hy5 & ->). rewrite putp_putp in H.
  minv H as ([] & s6 & H6 & H). apply updp_inv in H6 as (y6 & Hy6 & ->). rewrite putp_putp in H.
  minv H as ([] & s7 & H7 & H). apply updp_inv in H7 as (y7 & Hy7 & ->). rewrite putp_putp in H.
  minv H as ([] & s8 & H8 & H). apply updp_inv in H8 as (y8 & Hy8 & ->). rewrite putp_putp in H.
  injection H as <- <-. split; [done|]. rewrite abs_putp, E. f_equal.
  assert (sview_of y4 = sview_of y) as Ev.
  { apply abs_lookup in Hy4, Hy. rewrite E in Hy4. congruence. }
  assert (Hq : (q < length (k_proc s3))%nat) by (by eapply lookup_lt_Some).
  simpl in Hy5, Hy6, Hy7, Hy8. rewrite list_lookup_insert_eq in Hy5, Hy6, Hy7, Hy8 by done.
  injection Ev as _ _ _ Ech. simplify_eq. unfold sview_of. simpl. by rewrite Ech.
Qed.

Lemma wait_scan_spec n p q hk s r s' :
  wait_scan n p q hk s = Ok r s' →
  match r with
  | Reaped pid => ∃ k y, k_proc s !! k = Some y ∧ p_parent y = Some p ∧ p_state y = ZOMBIE ∧
      pid = p_pid y ∧ abs s' = a_upd k (SView UNUSED 0 None (p_chan y)) (abs s)
  | NoKids => s' = s ∧ hk = false ∧
      ∀ k y, (q ≤ k < q + n)%nat → k_proc s !! k = Some y → p_parent y ≠ Some p
  | Kids => s' = s ∧ (hk = true ∨ ∃ k y, k_proc s !! k = Some y ∧ p_parent y = Some p) ∧
      ∀ k y, (q ≤ k < q + n)%nat → k_proc s !! k = Some y → p_parent y = Some p → p_state y ≠ ZOMBIE
  end.
Proof.
  revert q hk. induction n as [|n IH]; intros q hk H; simpl in H.
  { injection H as <- <-. destruct hk; split_and!; try done; [by left|..]; intros; lia. }
  minv H as (y & s1 & H1 & H). apply getp_inv in H1 as [-> Hy].
  destruct (bool_decide_reflect (p_parent y = Some p)) as [Hpa|Hpa].
  - destruct (bool_decide_reflect (p_state y = ZOMBIE)) as [Hz|Hz].
    + minv H as (pid & s1 & H1 & H). injection H as <- <-. apply reap_spec in H1 as (y' & Hy' & -> & E).
      assert (y' = y) as -> by congruence. by exists q, y.
    + apply IH in H. destruct r; [naive_solver| |done]. destruct H as (-> & _ & H). split_and!; [done|right; eauto|].
      intros k z Hk Hz'. destruct (decide (k = q)) as [->|Hn]; [congruence|]. apply (H k z); [lia|done].
  - apply IH in H. destruct r; [| |done].
    + destruct H as (-> & -> & H). split_and!; try done. intros k z Hk Hz'.
      destruct (decide (k = q)) as [->|Hn]; [congruence|]. apply (H k z); [lia|done].
    + destruct H as (-> & Hk & H). split_and!; try done. intros k z Hkk Hz'.
      destruct (decide (k = q)) as [->|Hn]; [congruence|]. apply (H k z); [lia|done].
Qed.

#[local] Opaque wait_scan.

Lemma wait_round_steps c p s r s' :
  length (k_proc s) = Z.to_nat NPROC → k_cpus s !! c = Some (Some p) →
  wait_round proc_addr c p s = Ok r s' → steps (abs s) (abs s').
Proof.
  intros Hlen Hc H. unfold wait_round in H. minv H as (o & s1 & H1 & H). apply wait_scan_spec in H1.
  minv H as (x & s2 & H2 & H). apply getp_inv in H2 as [-> _].
  assert (Hrel : ∀ a, keeps (release l_ptlock;; mret (a : option Z))) by (intros; keeps).
  destruct o as [| |pid].
  - destruct H1 as (-> & _). apply Hrel in H as ->. done.
  - destruct H1 as (-> & _ & Hnz). destruct (p_killed x); [by apply Hrel in H as ->|].
    minv H as (o & s1 & H1 & H). injection H as _ <-.
    apply (sleep_steps c (proc_addr p) None _ o s1); [by intros l [=]| |exact H1].
    intros p' Hp' _ q w Hq Hpa. assert (p' = p) as -> by congruence.
    apply abs_lookup_inv in Hq as (y & Hy & ->). apply (Hnz q y); [|done..].
    apply lookup_lt_Some in Hy. rewrite Hlen in Hy. lia.
  - destruct H1 as (k & y & Hk & Hpa & Hz & -> & E). apply Hrel in H as ->. rewrite E. apply rtc_once.
    eapply (a_reap _ _ c p k (sview_of y)); [done|by apply abs_lookup|done..].
Qed.

Lemma wait_steps c s r s' :
  length (k_proc s) = Z.to_nat NPROC → wait proc_addr c s = Ok r s' → steps (abs s) (abs s').
Proof.
  intros Hlen H. unfold wait in H. minv H as (p & s1 & H1 & H). apply myproc_inv in H1 as [-> Hp].
  minv H as ([] & s1 & H1 & H). unfold acquire in H1. destruct (locked _); [done|]. injection H1 as <-.
  exact (wait_round_steps c p (lset l_ptlock (Spinlock true) s) r s' Hlen Hp H).
Qed.

Lemma wait_resume_steps c s r s' :
  pinv proc_addr (abs s) → length (k_proc s) = Z.to_nat NPROC →
  wait_resume proc_addr c s = Ok r s' → steps (abs s) (abs s').
Proof.
  intros [_ HC] Hlen H. unfold wait_resume in H. minv H as (p & s1 & H1 & H).
  apply myproc_inv in H1 as [-> Hp]. minv H as ([] & s1 & H1 & H).
  etrans; [eapply (sleep_end_steps p None s s1); [done|by eapply (ci_cpu _ HC c)|done]|].
  unfold sleep_end in H1. minv H1 as ([] & s2 & H2 & H1). injection H1 as <-.
  apply updp_inv in H2 as (x & Hx & ->). apply (wait_round_steps c p _ r s') in H; [done| |exact Hp]. by rewrite length_putp.
Qed.
End wait.
End steps.

(** ** All operations *)

Section system.
Context {L : Linker}.
Context (dev_write : Z → option (nat → list Z → M fsst Z)).
Context (dev_read : Z → option (nat → Z → M fsst (Z * list Z))).
Context (proc_addr : nat → Z) (trapret_addr forkret_addr : Z).

(** One operation of some CPU on the process table, or anything that keeps
    it.  [fork] and [exit] release [ptable.lock] in between, so their parts are
    operations too, which those of other CPUs come between; both may also end
    asleep.  Only [wait] sleeps on the address of a process, and fewer than 2^31
    processes are ever created. *)
Inductive kstep (s s' : kst) : Prop :=
| k_userinit code : k_initproc s = None → k_nextpid s < 2147483647 →
    userinit dev_read trapret_addr forkret_addr code s = Ok tt s' → kstep s s'
| k_fork c : k_nextpid s < 2147483647 →
    ends (fork dev_read trapret_addr forkret_addr c) s s' → kstep s s'
| k_alloc r : k_nextpid s < 2147483647 →
    allocproc trapret_addr forkret_addr s = Ok r s' → kstep s s'
| k_undo np : embryo (abs s) np → fork_undo np s = Ok tt s' → kstep s s'
| k_inherit c p np : k_cpus s !! c = Some (Some p) → embryo (abs s) np →
    ends (fork_inherit p np) s s' → kstep s s'
| k_ready np x : k_proc s !! np = Some x → p_state x = EMBRYO → make_runnable np s = Ok tt s' → kstep s s'
| k_exit c : ends (exit dev_write proc_addr c) s s' → kstep s s'
| k_exit_locked c p r : k_cpus s !! c = Some (Some p) → k_initproc s ≠ Some p →
    exit_locked proc_addr c p s = Ok r s' → kstep s s'
| k_wait c r : wait proc_addr c s = Ok r s' → kstep s s'
| k_wait_resume c r : wait_resume proc_addr c s = Ok r s' → kstep s s'
| k_yield c r : yield c s = Ok r s' → kstep s s'
| k_sleep c chan l r : (∀ lk, l = Some lk → lkeeps lk) → (∀ p, chan ≠ proc_addr p) →
    sleep_begin c chan l s = Ok r s' → kstep s s'
| k_sleep_end c p l : lkeeps l → k_cpus s !! c = Some (Some p) →
    sleep_end p (Some l) s = Ok tt s' → kstep s s'
| k_wakeup chan : wakeup chan s = Ok tt s' → kstep s s'
| k_kill pid r : kill pid s = Ok r s' → kstep s s'
| k_sched c r : k_cpus s !! c = Some None → scheduler c s = Ok r s' → kstep s s'
| k_other : abs s' = abs s → kstep s s'.

Definition kinv (s : kst) : Prop :=
  pinv proc_addr (abs s) ∧ length (k_proc s) = Z.to_nat NPROC.

Lemma asteps_length a a' :
  rtc (astep proc_addr) a a' → length (a_procs a') = length (a_procs a).
Proof.
  induction 1 as [|a a1 a2 Ha _ IH]; [done|]. rewrite IH. destruct Ha; simpl; by rewrite ?length_insert.
Qed.

Lemma kstep_steps s s' : kinv s → kstep s s' → rtc (astep proc_addr) (abs s) (abs s').
Proof.
  intros [Hi Hlen] H.
  destruct H as [code H1 H2 H|c H1 H|r H1 H|np H1 H|c p np H1 H2 H|np x H1 H2 H|c H|c p r H1 H2 H|c r H|c r H|c r H
    |c chan l r H1 H2 H|c p l H1 H2 H|chan H|pid r H|c r H1 H|H].
  - by eapply userinit_steps.
  - by eapply fork_steps.
  - by eapply allocproc_spec.
  - by eapply fork_undo_steps.
  - by eapply inherit_steps.
  - eapply make_runnable_steps; [|exact H]. exists (sview_of x). split; [by apply abs_lookup|done].
  - by eapply exit_steps.
  - by eapply exit_locked_steps.
  - by eapply wait_steps.
  - by eapply wait_resume_steps.
  - by eapply yield_steps.
  - apply (sleep_steps proc_addr c chan l s r s'); [done| |done]. intros p _ E. by destruct (H2 p).
  - apply (sleep_end_steps proc_addr p (Some l) s s'); [by intros ? [= <-]| |exact H]. by eapply (ci_cpu _ (proj2 Hi) c).
  - by eapply wakeup_steps.
  - by eapply kill_steps.
  - unfold scheduler in H. minv H as ([] & s1 & H2 & H). unfold acquire in H2. destruct (locked _); [done|].
    injection H2 as <-. exact (scheduler_loop_steps _ _ _ _ (lset l_ptlock (Spinlock true) s) _ _ H1 H).
  - by apply steps_refl.
Qed.

Lemma steps_kinv s s' : kinv s → rtc (astep proc_addr) (abs s) (abs s') → kinv s'.
Proof.
  intros [Hi Hlen] Hs. split.
  - by eapply asteps_inv.
  - apply asteps_length in Hs. simpl in Hs. rewrite !length_fmap in Hs. by rewrite Hs.
Qed.
Lemma ksteps_inv s s' : kinv s → rtc kstep s s' → kinv s'.
Proof.
  intros Hk H. revert Hk. induction H as [|s s1 s' Hs _ IH]; [done|]. intros Hk. apply IH.
  eapply steps_kinv; [done|by apply kstep_steps].
Qed.

(** The state [main] leaves behind: no process, every CPU idle. *)
Definition booted (s : kst) : Prop :=
  k_proc s = replicate (Z.to_nat NPROC) proc0 ∧ Forall (λ p, p = None) (k_cpus s) ∧
  k_initproc s = None ∧ k_nextpid s = 1.

Lemma booted_inv s : booted s → kinv s.
Proof.
  intros (H1 & H2 & H3 & H4). split; [|by rewrite H1, length_replicate].
  assert (Hp : ∀ p v, a_procs (abs s) !! p = Some v → v = sview_of proc0).
  { intros p v (x & Hx & ->)%abs_lookup_inv. rewrite H1 in Hx. by apply lookup_replicate in Hx as [-> _]. }
  assert (Hc : ∀ c p, ¬ runs_on (abs s) c p).
  { intros c p Hc. rewrite Forall_lookup in H2. by apply H2 in Hc. }
  split; split; simpl; rewrite ?H3, ?H4; try done.
  - intros p v Hv. by rewrite (Hp p v Hv).
  - intros p q v w Hv. by rewrite (Hp p v Hv).
  - intros p v Hv. by rewrite (Hp p v Hv).
  - intros p v r Hv. by rewrite (Hp p v Hv).
  - intros p v Hv. by rewrite (Hp p v Hv).
  - intros p q w _ Hw. by rewrite (Hp q w Hw).
  - intros c p Hr. by destruct (Hc c p).
  - intros c c' p Hr. by destruct (Hc c p).
  - intros p v Hv. by rewrite (Hp p v Hv).
Qed.
End system.

#[local] Opaque wait_scan.

(** The same for one round, with [ptable.lock] held. *)
Lemma wait_round_outcome {L : Linker} proc_addr c p x s r s' :
  length (k_proc s) = Z.to_nat NPROC → k_cpus s !! c = Some (Some p) → k_proc s !! p = Some x →
  wait_round proc_addr c p s = Ok r s' →
  match r with
  | Some pid =>
      (∃ q y, k_proc s !! q = Some y ∧ p_parent y = Some p ∧ p_state y = ZOMBIE ∧ pid = p_pid y ∧
         abs s' = a_upd q (SView UNUSED 0 None (p_chan y)) (abs s)) ∨
      (pid = -1 ∧ abs s' = abs s ∧
         ((∀ q y, k_proc s !! q = Some y → p_parent y ≠ Some p) ∨
          p_killed x = true ∧ ∀ q y, k_proc s !! q = Some y → p_parent y = Some p → p_state y ≠ ZOMBIE))
  | None =>
      p_killed x = false ∧ (∃ q y, k_proc s !! q = Some y ∧ p_parent y = Some p) ∧
      (∀ q y, k_proc s !! q = Some y → p_parent y = Some p → p_state y ≠ ZOMBIE) ∧
      in_wait proc_addr (abs s') p
  end.
Proof.
  intros Hlen Hc Hx H. unfold wait_round in H. minv H as (o & s1 & H1 & H).
  apply (wait_scan_spec proc_addr) in H1. minv H as (x' & s2 & H2 & H). apply getp_inv in H2 as [-> Hx'].
  assert (Hrel : ∀ a, keeps (release l_ptlock;; mret (a : option Z))) by (intros; keeps).
  assert (Hall : ∀ k y, k_proc s !! k = Some y → (0 ≤ k < 0 + Z.to_nat NPROC)%nat).
  { intros k y Hk%lookup_lt_Some. rewrite Hlen in Hk. lia. }
  destruct o as [| |pid].
  - destruct H1 as (-> & _ & Hno). pose proof (Hrel _ _ _ _ H) as E. minv H as ([] & s2 & _ & H).
    injection H as <- _. right. split_and!; [done|done|]. left. intros q y Hq. eapply Hno; [by eapply Hall|done].
  - destruct H1 as (-> & Hk & Hnz). assert (x' = x) as -> by congruence.
    assert (Hnz' : ∀ q y, k_proc s !! q = Some y → p_parent y = Some p → p_state y ≠ ZOMBIE).
    { intros q y Hq. eapply Hnz; [by eapply Hall|done]. }
    destruct (p_killed x) eqn:Ek.
    + pose proof (Hrel _ _ _ _ H) as E. minv H as ([] & s2 & _ & H). injection H as <- _.
      right. split_and!; [done|done|]. by right.
    + minv H as (o & s1 & H1 & H). injection H as <- <-. split_and!; [done|by destruct Hk|done|].
      unfold sleep_begin in H1. minv H1 as (o' & s2 & H2 & H1). unfold mycpu_proc in H2.
      rewrite Hc in H2. injection H2 as <- <-. minv H1 as ([] & s2 & [= <-] & H1).
      minv H1 as ([] & s3 & H3 & H1). apply updp_inv in H3 as (x1 & Hx1 & ->).
      minv H1 as ([] & s4 & H4 & H1). apply updp_inv in H4 as (x2 & Hx2 & ->). rewrite putp_putp in H1.
      assert (x2 = set_p_chan (proc_addr p) x1) as ->.
      { simpl in Hx2. rewrite list_lookup_insert_eq in Hx2 by (by eapply lookup_lt_Some). congruence. }
      exists (sview_of (set_p_state SLEEPING (set_p_chan (proc_addr p) x1))). split; [|by split].
      eapply sched_other; [exact H1| |]; [rewrite abs_putp; by eapply a_upd_eq, abs_lookup|done].
  - destruct H1 as (q & y & Hq & Hpa & Hz & -> & E). pose proof (Hrel _ _ _ _ H) as E'.
    minv H as ([] & s2 & _ & H). injection H as <- _. left. exists q, y. by rewrite E', E.
Qed.

(** ** Concrete states *)

#[local] Existing Instance example_linker.

(** A kernel in which nothing holds a lock. *)
Definition quiet (v : vmst) (files : list file) (ps : list proc) (init : option nat) (cpus : list (option nat)) : kst :=
  KSt (FileSt (PcSt v idle_fs [] 0 unlocked) [] unlocked files) ps unlocked 1 init cpus 0 unlocked.
Definition st_boot : kst := quiet vm_boot [] (replicate 64 proc0) None [None; None].

(** A process with a sleeping child. *)
Definition st_parent : kst :=
  quiet vm_boot [] (set_p_state RUNNING (set_p_pid 1 proc0)
    :: set_p_state SLEEPING (set_p_pid 2 (set_p_parent (Some 0%nat) proc0)) :: replicate 62 proc0)
    None [Some 0%nat].

(** ** Claims *)

(** C2. The process table stays sound whatever the CPUs do.  From boot, after
    any sequence of operations (the first process, forks, exits, waits, sleeps,
    wakeups, kills, yields and scheduling rounds, those of different CPUs also
    between the parts of a fork or an exit that hold the lock of the table, with
    anything else in between): the pids of live processes are distinct; a process is marked
    running exactly when one CPU, and only one, runs it; parents are alive, or
    init, and init neither exits nor has a parent; and no process sleeps in
    [wait] while one of its children is a zombie, so no exit is missed. *)
Theorem process_table_invariant {L : Linker} dev_write dev_read proc_addr tr fr s s' :
  booted s → rtc (kstep dev_write dev_read proc_addr tr fr) s s' → kinv proc_addr s'.
Proof.
  intros Hb H. eapply ksteps_inv; [by apply booted_inv|exact H].
Qed.

(** The first process is created in parts and scheduled on CPU 1. *)
Definition final {A} (m : M kst A) (s : kst) : kst := match m s with Ok _ s' => s' | _ => s end.
Definition returned {A} (m : M kst A) (s : kst) : option A := match m s with Ok a _ => Some a | _ => None end.
Lemma final_ok {A} (m : M kst A) s a : returned m s = Some a → m s = Ok a (final m s).
Proof. unfold returned, final. destruct (m s); try done. by intros [= ->]. Qed.

Definition st_new : kst := final (allocproc 8 12) st_boot.
Definition st_mapped : kst := final (updp 0 (set_p_pgdir pgdir0)) st_new.
Definition st_ready : kst := final (make_runnable 0) st_mapped.
Definition st_running : kst := final (scheduler 1) st_ready.

Lemma st_running_reached :
  rtc (kstep (λ _, None) (λ _, None) (λ p, 4 + 4 * Z.of_nat p) 8 12) st_boot st_running.
Proof.
  eapply rtc_l.
  { apply (k_alloc _ _ _ _ _ _ st_new (Some 0%nat)); [reflexivity|].
    refine (final_ok (allocproc 8 12) st_boot (Some 0%nat) _). vm_compute. reflexivity. }
  eapply rtc_l.
  { apply (k_other _ _ _ _ _ _ st_mapped). vm_compute. reflexivity. }
  eapply rtc_l.
  { apply (k_ready _ _ _ _ _ _ st_ready 0 (procof st_mapped 0)); [vm_compute; reflexivity..|].
    refine (final_ok (make_runnable 0) st_mapped tt _). vm_compute. reflexivity. }
  eapply rtc_l.
  { apply (k_sched _ _ _ _ _ _ st_running 1 (Some 0%nat)); [vm_compute; reflexivity|].
    refine (final_ok (scheduler 1) st_ready (Some 0%nat) _). vm_compute. reflexivity. }
  apply rtc_refl.
Qed.
Lemma st_boot_booted : booted st_boot.
Proof. split; [reflexivity|split; [|split; reflexivity]]. repeat constructor. Qed.
Lemma st_running_inv : kinv (λ p, 4 + 4 * Z.of_nat p) st_running.
Proof. eapply ksteps_inv; [apply booted_inv, st_boot_booted|exact st_running_reached]. Qed.

Lemma process_table_invariant_witness :
  k_cpus st_running = [None; Some 0%nat] ∧ kinv (λ p, 4 + 4 * Z.of_nat p) st_running.
Proof.
  split; [vm_compute; reflexivity|].
  apply (process_table_invariant (λ _, None) (λ _, None) (λ p, 4 + 4 * Z.of_nat p) 8 12 st_boot).
  - exact st_boot_booted.
  - exact st_running_reached.
Defined.

(** C22. What [wait] does: it frees the entry of one zombie child and returns
    its pid; or it returns -1, the table unchanged, when there is no child, or
    the process is killed and no child has exited; or it leaves the process
    asleep on its own address, with children none of which has exited. *)
Theorem wait_outcome {L : Linker} proc_addr c p x s r s' :
  length (k_proc s) = Z.to_nat NPROC → k_cpus s !! c = Some (Some p) → k_proc s !! p = Some x →
  wait proc_addr c s = Ok r s' →
  match r with
  | Some pid =>
      (∃ q y, k_proc s !! q = Some y ∧ p_parent y = Some p ∧ p_state y = ZOMBIE ∧ pid = p_pid y ∧
         abs s' = a_upd q (SView UNUSED 0 None (p_chan y)) (abs s)) ∨
      (pid = -1 ∧ abs s' = abs s ∧
         ((∀ q y, k_proc s !! q = Some y → p_parent y ≠ Some p) ∨
          p_killed x = true ∧ ∀ q y, k_proc s !! q = Some y → p_parent y = Some p → p_state y ≠ ZOMBIE))
  | None =>
      p_killed x = false ∧ (∃ q y, k_proc s !! q = Some y ∧ p_parent y = Some p) ∧
      (∀ q y, k_proc s !! q = Some y → p_parent y = Some p → p_state y ≠ ZOMBIE) ∧
      in_wait proc_addr (abs s') p
  end.
Proof.
  intros Hlen Hc Hx H. unfold wait in H. minv H as (p' & s1 & H1 & H). apply myproc_inv in H1 as [-> Hp].
  assert (p' = p) as -> by congruence. minv H as ([] & s1 & H1 & H). unfold acquire in H1.
  destruct (locked _); [done|]. injection H1 as <-.
  exact (wait_round_outcome proc_addr c p x (lset l_ptlock (Spinlock true) s) r s' Hlen Hc Hx H).
Qed.

Lemma wait_outcome_witness : ∃ s',
  wait (λ p, 4 + 4 * Z.of_nat p) 0 st_parent = Ok None s' ∧
  in_wait (λ p, 4 + 4 * Z.of_nat p) (abs s') 0.
Proof.
  assert (∃ s', wait (λ p, 4 + 4 * Z.of_nat p) 0 st_parent = Ok None s') as [s' E]
    by (apply ok_result; vm_compute; reflexivity).
  exists s'. split; [exact E|].
  destruct (wait_outcome (λ p, 4 + 4 * Z.of_nat p) 0 0 (set_p_state RUNNING (set_p_pid 1 proc0)) st_parent None s')
    as (_ & _ & _ & H).
  - reflexivity.
  - reflexivity.
  - reflexivity.
  - exact E.
  - exact H.
Defined.
