(* ===== verification/Exec.v ===== *)
(** * Replacing a process image (exec.c, and loaduvm of vm.c)

    The program file is read through the file system into a new address space;
    the process switches to it only when everything has succeeded. *)

From Stdlib Require Import ZArith Lia.
From stdpp Require Import base numbers strings gmap list.
From S2P Require Import Prelude Mmu Memory Locks Kalloc Vm Proc0 Regions Bytes Disk Fs.
From S2P Require Import Pagecache File Kernel Mmap Proc.

(** ** elf.h *)

Definition ELF_MAGIC : Z := 0x464C457F.
Definition ELF_PROG_LOAD : Z := 1.
Definition ELFHDR_SIZE : Z := 52.
Definition PROGHDR_SIZE : Z := 32.
Definition MAXARG : Z := 32.

Definition elf_magic (e : list Z) : Z := get32 e 0.
Definition elf_entry (e : list Z) : Z := get32 e 24.
Definition elf_phoff (e : list Z) : Z := get32 e 28.
Definition elf_phnum (e : list Z) : Z := get16 e 44.
Definition ph_type (e : list Z) : Z := get32 e 0.
Definition ph_off (e : list Z) : Z := get32 e 4.
Definition ph_vaddr (e : list Z) : Z := get32 e 8.
Definition ph_filesz (e : list Z) : Z := get32 e 16.
Definition ph_memsz (e : list Z) : Z := get32 e 20.

(** The part of a path behind the last slash. *)
Fixpoint last_elem (path last : list Z) : list Z :=
  match path with
  | [] => last
  | ch :: path => last_elem path (if ch =? SLASH then path else last)
  end.

Definition set_entry (eip esp : Z) (x : proc) : proc :=
  let tf := p_tf x in
  set_p_tf (Trapframe (tf_eax tf) esp eip (tf_cs tf) (tf_ds tf) (tf_es tf) (tf_ss tf) (tf_err tf)
    (tf_eflags tf) (tf_trapno tf)) x.

Section exec.
Context {L : Linker}.
Context (dev_write : Z → option (nat → list Z → M fsst Z)).
Context (dev_read : Z → option (nat → Z → M fsst (Z * list Z))).

Fixpoint loaduvm_loop (fuel : nat) (pgdir addr : Z) (ip : nat) (offset sz i : Z) : M kst Z :=
  match fuel with
  | O => nofuel
  | S fuel =>
      if i <? sz then
        pte ← zoom l_kvm (walkpgdir pgdir (u32 (addr + i)) false);
        if pte =? 0 then panic "loaduvm: address should exist"
        else
          pa ← gets (λ s, PTE_ADDR (load32 (kmemory s) pte));
          let n := if sz - i <? PGSIZE then sz - i else PGSIZE in
          '(r, bs) ← zoom l_kfs (readi dev_read ip (u32 (offset + i)) n);
          kmem_upd (λ m, wrbytes m (P2V pa) bs);;
          if negb (u32 r =? n) then mret (-1)
          else loaduvm_loop fuel pgdir addr ip offset sz (u32 (i + PGSIZE))
      else mret 0
  end.
Definition loaduvm (pgdir addr : Z) (ip : nat) (offset sz : Z) : M kst Z :=
  if nz (addr mod PGSIZE) then panic "loaduvm: addr must be page aligned"
  else loaduvm_loop (S (Z.to_nat (sz / PGSIZE + 1))) pgdir addr ip offset sz 0.

(** The label [bad]: free the new address space, and the inode if it is still
    locked. *)
Definition exec_bad (pid pgdir : Z) (ip : option nat) : M kst Z :=
  (if pgdir =? 0 then mret tt else zoom l_kvm (freevm pgdir));;
  match ip with
  | Some ip => zoom l_kfs (iunlockput pid ip);; zoom l_kld ld_end_op
  | None => mret tt
  end;;
  mret (-1).

(** The loop over the program headers; [None] is [goto bad]. *)
Fixpoint load_segments (n : nat) (pgdir : Z) (ip : nat) (off sz : Z) : M kst (option Z) :=
  match n with
  | O => mret (Some sz)
  | S n =>
      '(r, ph) ← zoom l_kfs (readi dev_read ip (u32 off) PROGHDR_SIZE);
      if negb (r =? PROGHDR_SIZE) then mret None
      else if negb (ph_type ph =? ELF_PROG_LOAD) then load_segments n pgdir ip (s32 (off + PROGHDR_SIZE)) sz
      else if ph_memsz ph <? ph_filesz ph then mret None
      else if u32 (ph_vaddr ph + ph_memsz ph) <? ph_vaddr ph then mret None
      else
        sz ← zoom l_kvm (allocuvm pgdir sz (u32 (ph_vaddr ph + ph_memsz ph)));
        if sz =? 0 then mret None
        else if nz (ph_vaddr ph mod PGSIZE) then mret None
        else
          e ← loaduvm pgdir (ph_vaddr ph) ip (ph_off ph) (ph_filesz ph);
          if e <? 0 then mret None
          else load_segments n pgdir ip (s32 (off + PROGHDR_SIZE)) sz
  end.

(** Push the argument strings; the result is the stack pointer and the argument
    vector [ustack[3..]]. *)
Fixpoint push_args (argv : list (list Z)) (pgdir argc sp : Z) (ustack : list Z) : M kst (option (Z * list Z)) :=
  match argv with
  | [] => mret (Some (sp, ustack))
  | a :: argv =>
      if argc >=? MAXARG then mret None
      else
        let sp := Z.land (u32 (sp - (Z.of_nat (length a) + 1))) (Z.lnot 3) in
        e ← zoom l_kvm (copyout pgdir sp (a ++ [0]));
        if e <? 0 then mret None else push_args argv pgdir (argc + 1) sp (ustack ++ [sp])
  end.

(** Commit to the user image. *)
Definition exec_commit (p : nat) (pgdir sz entry sp : Z) : M kst unit :=
  x ← getp p;
  delete_mmaps (p_pid x) (p_killed x) dev_write p;;
  updp p (set_p_pgdir pgdir);;
  updp p (set_p_sz sz);;
  updp p (set_entry entry sp);;
  switchuvm p;;
  zoom l_kvm (freevm (p_pgdir x)).

(** The stack: two pages, of which the first is made inaccessible, and the
    arguments. *)
Definition exec_stack (p : nat) (path : list Z) (argv : list (list Z)) (pgdir entry sz : Z) : M kst Z :=
  x ← getp p;
  let sz := PGROUNDUP sz in
  sz ← zoom l_kvm (allocuvm pgdir sz (u32 (sz + 2 * PGSIZE)));
  if sz =? 0 then exec_bad (p_pid x) pgdir None
  else
    zoom l_kvm (clearpteu pgdir (u32 (sz - 2 * PGSIZE)));;
    r ← push_args argv pgdir 0 sz [];
    match r with
    | None => exec_bad (p_pid x) pgdir None
    | Some (sp, ustack) =>
        let argc := Z.of_nat (length argv) in
        let words := [0xffffffff; argc; u32 (sp - (argc + 1) * 4)] ++ ustack ++ [0] in
        let sp := u32 (sp - (3 + argc + 1) * 4) in
        e ← zoom l_kvm (copyout pgdir sp (concat (le32 <$> words)));
        if e <? 0 then exec_bad (p_pid x) pgdir None
        else
          updp p (set_name (last_elem path path));;
          exec_commit p pgdir sz entry sp;;
          mret 0
    end.

Definition exec (c : nat) (path : list Z) (argv : list (list Z)) : M kst Z :=
  p ← myproc c;
  x ← getp p;
  let pid := p_pid x in
  zoom l_kld ld_begin_op;;
  r ← zoom l_kfs (namei pid dev_read (default 0%nat (p_cwd x)) path);
  match r with
  | None => zoom l_kld ld_end_op;; mret (-1)
  | Some ip =>
      zoom l_kfs (ilock pid (Some ip));;
      (* Check ELF header *)
      '(n, elf) ← zoom l_kfs (readi dev_read ip 0 ELFHDR_SIZE);
      if negb (n =? ELFHDR_SIZE) || negb (elf_magic elf =? ELF_MAGIC) then exec_bad pid 0 (Some ip)
      else
        pgdir ← zoom l_kvm setupkvm;
        if pgdir =? 0 then exec_bad pid 0 (Some ip)
        else
          (* Load program into memory. *)
          r ← load_segments (Z.to_nat (elf_phnum elf)) pgdir ip (s32 (elf_phoff elf)) 0;
          match r with
          | None => exec_bad pid pgdir (Some ip)
          | Some sz =>
              zoom l_kfs (iunlockput pid ip);;
              zoom l_kld ld_end_op;;
              exec_stack p path argv pgdir (elf_entry elf) sz
          end
  end.
End exec.
