(* ===== verification/Syscall.v ===== *)
(** * System calls (syscall.c, sysproc.c, sysfile.c)

    Fetching and checking the arguments of a system call, the handlers, and
    their dispatch.  A handler returns [None] when the calling process has
    given up the CPU: it has exited, or its call goes on in another operation
    when it is resumed.  User memory is accessed through the page table of the
    process; what a pointer argument points to is passed to the file system as
    the bytes it designates. *)

From Stdlib Require Import ZArith Lia.
From stdpp Require Import base numbers strings gmap list.
From S2P Require Import Prelude Mmu Memory Locks Kalloc Vm Proc0 Regions Bytes Disk Fs.
From S2P Require Import Pagecache File Kernel Mmap Proc Exec.

Definition O_RDONLY : Z := 0.
Definition O_WRONLY : Z := 1.
Definition O_RDWR : Z := 2.
Definition O_CREATE : Z := 0x200.

(** ** User memory *)

(** Store bytes at a user address. *)
Fixpoint user_write (p : nat) (addr : Z) (bs : list Z) : M kst unit :=
  match bs with
  | [] => mret tt
  | b :: bs =>
      '(pte, pa) ← get_physical_page p (PGROUNDDOWN addr);
      e ← gets (λ s, if pte =? 0 then 0 else load32 (kmemory s) pte);
      if present e then
        kmem_upd (λ m, wr8 m (P2V pa + addr mod 4096) b);;
        user_write p (u32 (addr + 1)) bs
      else undef "page fault"
  end.

(** ** syscall.c: arguments *)

Definition fetchint (p : nat) (addr : Z) : M kst (option Z) :=
  x ← getp p;
  if (addr >=? p_sz x) || (u32 (addr + 4) >? p_sz x) then mret None
  else
    bs ← user_read 4 p addr;
    mret (Some (s32 (get32 bs 0))).

(** The loop of [fetchstr], over the bytes up to the end of the process's
    memory; the result is the string. *)
Fixpoint fetchstr_loop (n : nat) (p : nat) (s : Z) (str : list Z) : M kst (option (list Z)) :=
  match n with
  | O => mret None
  | S n =>
      bs ← user_read 1 p s;
      if byte_at bs 0 =? 0 then mret (Some str)
      else fetchstr_loop n p (s + 1) (str ++ [byte_at bs 0])
  end.
Definition fetchstr (p : nat) (addr : Z) : M kst (option (list Z)) :=
  x ← getp p;
  if addr >=? p_sz x then mret None
  else fetchstr_loop (Z.to_nat (p_sz x - addr)) p addr [].

Definition argint (p : nat) (n : Z) : M kst (option Z) :=
  x ← getp p;
  fetchint p (u32 (tf_esp (p_tf x) + 4 + 4 * n)).

Definition argptr (p : nat) (n size : Z) : M kst (option Z) :=
  i ← argint p n;
  match i with
  | None => mret None
  | Some i =>
      x ← getp p;
      if (size <? 0) || (u32 i >=? p_sz x) || (u32 (u32 i + size) >? p_sz x) then mret None
      else mret (Some (u32 i))
  end.

Definition argstr (p : nat) (n : Z) : M kst (option (list Z)) :=
  addr ← argint p n;
  match addr with
  | None => mret None
  | Some addr => fetchstr p (u32 addr)
  end.

(** Use an argument, or fail with -1. *)
Definition or_fail {A} (m : M kst (option A)) (k : A → M kst (option Z)) : M kst (option Z) :=
  r ← m;
  match r with Some a => k a | None => mret (Some (-1)) end.
Definition ret (v : Z) : M kst (option Z) := mret (Some v).

(** ** File descriptors *)

Definition argfd (p : nat) (n : Z) : M kst (option (nat * nat)) :=
  fd ← argint p n;
  match fd with
  | None => mret None
  | Some fd =>
      if (fd <? 0) || (fd >=? NOFILE) then mret None
      else
        x ← getp p;
        match p_ofile x !! Z.to_nat fd with
        | Some (Some f) => mret (Some (Z.to_nat fd, f))
        | _ => mret None
        end
  end.

Fixpoint free_fd {A} (l : list (option A)) (fd : nat) : option nat :=
  match l with
  | [] => None
  | Some _ :: l => free_fd l (S fd)
  | None :: _ => Some fd
  end.
Definition fdalloc (p f : nat) : M kst Z :=
  x ← getp p;
  match free_fd (p_ofile x) 0 with
  | Some fd => updp p (set_p_ofile fd (Some f));; mret (Z.of_nat fd)
  | None => mret (-1)
  end.

Section syscalls.
Context {L : Linker}.
Context (dev_write : Z → option (nat → list Z → M fsst Z)).
Context (dev_read : Z → option (nat → Z → M fsst (Z * list Z))).
Context (proc_addr : nat → Z) (trapret_addr forkret_addr ticks_addr : Z).
(** What the data array of a new pipe holds. *)
Context (pipe_junk : list Z).

(** ** sysproc.c *)

Definition sys_fork (c : nat) : M kst (option Z) :=
  r ← fork dev_read trapret_addr forkret_addr c; ret r.
Definition sys_exit (c : nat) : M kst (option Z) :=
  exit dev_write proc_addr c;; mret None.
Definition sys_wait (c : nat) : M kst (option Z) := wait proc_addr c.
Definition sys_kill (p : nat) : M kst (option Z) :=
  or_fail (argint p 0) (λ pid, r ← kill pid; ret r).
Definition sys_getpid (p : nat) : M kst (option Z) := x ← getp p; ret (p_pid x).
Definition sys_sbrk (c p : nat) : M kst (option Z) :=
  or_fail (argint p 0) (λ n,
    x ← getp p;
    r ← growproc c n;
    if r <? 0 then ret (-1) else ret (s32 (p_sz x))).

(** The loop of [sys_sleep], with [tickslock] held. *)
Definition sleep_round (c p : nat) (ticks0 n : Z) : M kst (option Z) :=
  ticks ← gets k_ticks;
  if u32 (ticks - ticks0) <? u32 n then
    x ← getp p;
    if p_killed x then release l_tickslock;; ret (-1)
    else sleep_begin c ticks_addr (Some l_tickslock);; mret None
  else release l_tickslock;; ret 0.
Definition sys_sleep (c p : nat) : M kst (option Z) :=
  or_fail (argint p 0) (λ n,
    acquire l_tickslock;;
    ticks0 ← gets k_ticks;
    sleep_round c p ticks0 n).
(** What it does when it is woken up. *)
Definition sys_sleep_resume (c p : nat) (ticks0 n : Z) : M kst (option Z) :=
  sleep_end p (Some l_tickslock);; sleep_round c p ticks0 n.
Definition sys_uptime : M kst (option Z) :=
  acquire l_tickslock;;
  xticks ← gets k_ticks;
  release l_tickslock;;
  ret (s32 xticks).

(** ** sysfile.c *)

Definition sys_dup (p : nat) : M kst (option Z) :=
  or_fail (argfd p 0) (λ '(_, f),
    fd ← fdalloc p f;
    if fd <? 0 then ret (-1) else zoom l_kfl (filedup f);; ret fd).

Definition sys_read (p : nat) : M kst (option Z) :=
  or_fail (argfd p 0) (λ '(_, f), or_fail (argint p 2) (λ n, or_fail (argptr p 1 n) (λ a,
    x ← getp p;
    '(r, bs) ← zoom l_kfl (fileread (p_pid x) (p_killed x) dev_read f n);
    user_write p a bs;;
    ret r))).

Definition sys_write (p : nat) : M kst (option Z) :=
  or_fail (argfd p 0) (λ '(_, f), or_fail (argint p 2) (λ n, or_fail (argptr p 1 n) (λ a,
    x ← getp p;
    bs ← user_read (Z.to_nat n) p a;
    r ← zoom l_kfl (filewrite (p_pid x) (p_killed x) dev_write f bs);
    ret r))).

Definition sys_close (p : nat) : M kst (option Z) :=
  or_fail (argfd p 0) (λ '(fd, f),
    updp p (set_p_ofile fd None);;
    x ← getp p;
    zoom l_kfl (fileclose (p_pid x) f);;
    ret 0).

(** [struct stat] as [stati] fills it. *)
Definition store_stat (p : nat) (a : Z) (st : stat) : M kst unit :=
  user_write p a (le16 (st_type st));;
  user_write p (u32 (a + 4)) (le32 (st_dev st));;
  user_write p (u32 (a + 8)) (le32 (st_ino st));;
  user_write p (u32 (a + 12)) (le16 (st_nlink st));;
  user_write p (u32 (a + 16)) (le32 (st_size st)).
Definition sys_fstat (p : nat) : M kst (option Z) :=
  or_fail (argfd p 0) (λ '(_, f), or_fail (argptr p 1 20) (λ a,
    x ← getp p;
    r ← zoom l_kfl (filestat (p_pid x) f);
    match r with
    | Some st => store_stat p a st;; ret 0
    | None => ret (-1)
    end)).

(** The operations of the file system run in a transaction. *)
Definition sys_begin_op : M kst unit := zoom l_kld ld_begin_op.
Definition sys_end_op : M kst unit := zoom l_kld ld_end_op.
Definition cwd_of (x : proc) : nat := default 0%nat (p_cwd x).

(** The label [bad] of [sys_link]: drop the link again. *)
Definition link_bad (pid : Z) (ip : nat) : M kst (option Z) :=
  zoom l_kfs (ilock pid (Some ip));;
  zoom l_kfs (upd_inode ip (λ i, set_nlink (s16 (i_nlink i - 1)) i));;
  zoom l_kfs (iupdate ip);;
  zoom l_kfs (iunlockput pid ip);;
  sys_end_op;;
  ret (-1).
Definition sys_link (p : nat) : M kst (option Z) :=
  or_fail (argstr p 0) (λ old, or_fail (argstr p 1) (λ new,
    x ← getp p;
    let pid := p_pid x in
    sys_begin_op;;
    r ← zoom l_kfs (namei pid dev_read (cwd_of x) old);
    match r with
    | None => sys_end_op;; ret (-1)
    | Some ip =>
        zoom l_kfs (ilock pid (Some ip));;
        i ← zoom l_kfs (get_inode ip);
        if i_type i =? T_DIR then zoom l_kfs (iunlockput pid ip);; sys_end_op;; ret (-1)
        else
          zoom l_kfs (upd_inode ip (λ i, set_nlink (s16 (i_nlink i + 1)) i));;
          zoom l_kfs (iupdate ip);;
          zoom l_kfs (iunlock pid (Some ip));;
          '(r, name) ← zoom l_kfs (nameiparent pid dev_read (cwd_of x) new (replicate 14 0));
          match r with
          | None => link_bad pid ip
          | Some dp =>
              zoom l_kfs (ilock pid (Some dp));;
              d ← zoom l_kfs (get_inode dp);
              i ← zoom l_kfs (get_inode ip);
              bad ← (if negb (i_dev d =? i_dev i) then mret true
                     else e ← zoom l_kfs (dirlink pid dev_read dev_write dp name (i_inum i)); mret (e <? 0));
              if bad : bool then zoom l_kfs (iunlockput pid dp);; link_bad pid ip
              else
                zoom l_kfs (iunlockput pid dp);;
                zoom l_kfs (iput pid ip);;
                sys_end_op;;
                ret 0
          end
    end)).

(** Is the directory empty except for "." and ".."? *)
Fixpoint isdirempty_loop (fuel : nat) (dp : nat) (off : Z) : M fsst bool :=
  match fuel with
  | O => nofuel
  | S fuel =>
      d ← get_inode dp;
      if off <? i_size d then
        '(r, de) ← readi dev_read dp off 16;
        if negb (r =? 16) then panic "isdirempty: readi"
        else if negb (de_inum de =? 0) then mret false
        else isdirempty_loop fuel dp (off + 16)
      else mret true
  end.
Definition isdirempty (dp : nat) : M fsst bool :=
  d ← get_inode dp;
  isdirempty_loop (S (Z.to_nat (i_size d / 16))) dp 32.

(** The label [bad] of [sys_unlink]. *)
Definition unlink_bad (pid : Z) (dp : nat) : M kst (option Z) :=
  zoom l_kfs (iunlockput pid dp);; sys_end_op;; ret (-1).
(** The part of [sys_unlink] after the entry has been found. *)
Definition unlink_entry (pid : Z) (dp ip : nat) (off : Z) : M kst (option Z) :=
  zoom l_kfs (ilock pid (Some ip));;
  i ← zoom l_kfs (get_inode ip);
  if i_nlink i <? 1 then panic "unlink: nlink < 1"
  else
    full ← (if i_type i =? T_DIR then e ← zoom l_kfs (isdirempty ip); mret (negb e) else mret false);
    if full : bool then zoom l_kfs (iunlockput pid ip);; unlink_bad pid dp
    else
      w ← zoom l_kfs (writei dev_write dp (replicate 16 0) off);
      if negb (w =? 16) then panic "unlink: writei"
      else
        when (i_type i =? T_DIR)
          (zoom l_kfs (upd_inode dp (λ d, set_nlink (s16 (i_nlink d - 1)) d));;
           zoom l_kfs (iupdate dp));;
        zoom l_kfs (iunlockput pid dp);;
        zoom l_kfs (upd_inode ip (λ i, set_nlink (s16 (i_nlink i - 1)) i));;
        zoom l_kfs (iupdate ip);;
        zoom l_kfs (iunlockput pid ip);;
        sys_end_op;;
        ret 0.
Definition DOT : list Z := [46].
Definition DOTDOT : list Z := [46; 46].
Definition sys_unlink (p : nat) : M kst (option Z) :=
  or_fail (argstr p 0) (λ path,
    x ← getp p;
    let pid := p_pid x in
    sys_begin_op;;
    '(r, name) ← zoom l_kfs (nameiparent pid dev_read (cwd_of x) path (replicate 14 0));
    match r with
    | None => sys_end_op;; ret (-1)
    | Some dp =>
        zoom l_kfs (ilock pid (Some dp));;
        if (namecmp name DOT =? 0) || (namecmp name DOTDOT =? 0) then unlink_bad pid dp
        else
          r ← zoom l_kfs (dirlookup dev_read dp name);
          match r with
          | None => unlink_bad pid dp
          | Some (ip, off) => unlink_entry pid dp ip off
          end
    end).

(** The part of [create] that makes a new inode [ip] in directory [dp]. *)
Definition create_new (pid : Z) (dp : nat) (name : list Z) (type major minor : Z) : M fsst nat :=
  d ← get_inode dp;
  ip ← ialloc (i_dev d) type;
  ilock pid (Some ip);;
  upd_inode ip (set_dev major minor 1);;
  iupdate ip;;
  i ← get_inode ip;
  when (type =? T_DIR)
    ((* Create . and .. entries. *)
     upd_inode dp (λ d, set_nlink (s16 (i_nlink d + 1)) d);;
     iupdate dp;;
     e ← dirlink pid dev_read dev_write ip DOT (i_inum i);
     if e <? 0 then panic "create dots"
     else
       e ← dirlink pid dev_read dev_write ip DOTDOT (i_inum d);
       if e <? 0 then panic "create dots" else mret tt);;
  e ← dirlink pid dev_read dev_write dp name (i_inum i);
  if e <? 0 then panic "create: dirlink"
  else
    iunlockput pid dp;;
    mret ip.
Definition create (pid : Z) (cwd : nat) (path : list Z) (type major minor : Z) : M fsst (option nat) :=
  '(r, name) ← nameiparent pid dev_read cwd path (replicate 14 0);
  match r with
  | None => mret None
  | Some dp =>
      ilock pid (Some dp);;
      r ← dirlookup dev_read dp name;
      match r with
      | Some (ip, _) =>
          iunlockput pid dp;;
          ilock pid (Some ip);;
          i ← get_inode ip;
          if (type =? T_FILE) && (i_type i =? T_FILE) then mret (Some ip)
          else iunlockput pid ip;; mret None
      | None => ip ← create_new pid dp name type major minor; mret (Some ip)
      end
  end.

(** The inode [sys_open] opens, locked. *)
Definition open_inode (pid : Z) (cwd : nat) (path : list Z) (omode : Z) : M fsst (option nat) :=
  if has omode O_CREATE then create pid cwd path T_FILE 0 0
  else
    r ← namei pid dev_read cwd path;
    match r with
    | None => mret None
    | Some ip =>
        ilock pid (Some ip);;
        i ← get_inode ip;
        if (i_type i =? T_DIR) && negb (omode =? O_RDONLY) then iunlockput pid ip;; mret None
        else mret (Some ip)
    end.
Definition opened (omode : Z) (ip : nat) (x : file) : file :=
  File FD_INODE (f_ref x) (negb (has omode O_WRONLY)) (has omode O_WRONLY || has omode O_RDWR)
    (f_pipe x) (Some ip) 0.
Definition sys_open (p : nat) : M kst (option Z) :=
  or_fail (argstr p 0) (λ path, or_fail (argint p 1) (λ omode,
    x ← getp p;
    let pid := p_pid x in
    sys_begin_op;;
    r ← zoom l_kfs (open_inode pid (cwd_of x) path omode);
    match r with
    | None => sys_end_op;; ret (-1)
    | Some ip =>
        let bad := zoom l_kfs (iunlockput pid ip);; sys_end_op;; ret (-1) in
        f ← zoom l_kfl filealloc;
        match f with
        | None => bad
        | Some f =>
            fd ← fdalloc p f;
            if fd <? 0 then zoom l_kfl (fileclose pid f);; bad
            else
              zoom l_kfs (iunlock pid (Some ip));;
              sys_end_op;;
              zoom l_kfl (upd_file f (opened omode ip));;
              ret fd
        end
    end)).

(** [mkdir] and [mknod]: create an inode and let go of it. *)
Definition make_node (p : nat) (path : list Z) (type major minor : Z) : M kst (option Z) :=
  x ← getp p;
  r ← zoom l_kfs (create (p_pid x) (cwd_of x) path type major minor);
  match r with
  | None => sys_end_op;; ret (-1)
  | Some ip => zoom l_kfs (iunlockput (p_pid x) ip);; sys_end_op;; ret 0
  end.
(** An argument that is fetched inside the transaction. *)
Definition or_end {A} (m : M kst (option A)) (k : A → M kst (option Z)) : M kst (option Z) :=
  r ← m;
  match r with Some a => k a | None => sys_end_op;; ret (-1) end.
Definition sys_mkdir (p : nat) : M kst (option Z) :=
  sys_begin_op;; or_end (argstr p 0) (λ path, make_node p path T_DIR 0 0).
Definition sys_mknod (p : nat) : M kst (option Z) :=
  sys_begin_op;;
  or_end (argstr p 0) (λ path, or_end (argint p 1) (λ major, or_end (argint p 2) (λ minor,
    make_node p path T_DEV (s16 major) (s16 minor)))).

Definition sys_chdir (p : nat) : M kst (option Z) :=
  sys_begin_op;;
  or_end (argstr p 0) (λ path,
    x ← getp p;
    let pid := p_pid x in
    r ← zoom l_kfs (namei pid dev_read (cwd_of x) path);
    match r with
    | None => sys_end_op;; ret (-1)
    | Some ip =>
        zoom l_kfs (ilock pid (Some ip));;
        i ← zoom l_kfs (get_inode ip);
        if negb (i_type i =? T_DIR) then zoom l_kfs (iunlockput pid ip);; sys_end_op;; ret (-1)
        else
          zoom l_kfs (iunlock pid (Some ip));;
          zoom l_kfs (iput pid (cwd_of x));;
          sys_end_op;;
          updp p (set_p_cwd (Some ip));;
          ret 0
    end).

(** The loop of [sys_exec] over the argument vector. *)
Fixpoint exec_argv (n : nat) (p : nat) (uargv i : Z) (argv : list (list Z)) : M kst (option (list (list Z))) :=
  match n with
  | O => mret None
  | S n =>
      a ← fetchint p (u32 (uargv + 4 * i));
      match a with
      | None => mret None
      | Some a =>
          if a =? 0 then mret (Some argv)
          else
            str ← fetchstr p (u32 a);
            match str with
            | None => mret None
            | Some str => exec_argv n p uargv (i + 1) (argv ++ [str])
            end
      end
  end.
Definition sys_exec (c p : nat) : M kst (option Z) :=
  or_fail (argstr p 0) (λ path, or_fail (argint p 1) (λ uargv,
    or_fail (exec_argv (Z.to_nat MAXARG) p (u32 uargv) 0 []) (λ argv,
      r ← exec dev_write dev_read c path argv; ret r))).

Definition sys_pipe (p : nat) : M kst (option Z) :=
  or_fail (argptr p 0 8) (λ a,
    x ← getp p;
    let pid := p_pid x in
    r ← zoom l_kfl (pipealloc pid pipe_junk);
    match r with
    | None => ret (-1)
    | Some (rf, wf) =>
        let bad := zoom l_kfl (fileclose pid rf);; zoom l_kfl (fileclose pid wf);; ret (-1) in
        fd0 ← fdalloc p rf;
        if fd0 <? 0 then bad
        else
          fd1 ← fdalloc p wf;
          if fd1 <? 0 then updp p (set_p_ofile (Z.to_nat fd0) None);; bad
          else
            user_write p a (le32 fd0);;
            user_write p (u32 (a + 4)) (le32 fd1);;
            ret 0
    end).

(** With MAP_ANONYMOUS and no valid descriptor, [f] is uninitialised. *)
Definition sys_mmap (p : nat) : M kst (option Z) :=
  or_fail (argint p 1) (λ size, or_fail (argint p 2) (λ protection, or_fail (argint p 3) (λ flags,
  or_fail (argint p 5) (λ offset, or_fail (argint p 0) (λ addr,
    val ← argfd p 4;
    match val with
    | None =>
        if negb (has flags MAP_ANONYMOUS) then ret (-1)
        else
          ftab ← gets (λ s, fl_file (k_fl s));
          r ← on_proc p (my_mmap ftab addr None size offset flags protection);
          ret (s32 r)
    | Some (_, f) =>
        (* Duplicate the file so it will work even when the descriptor is closed *)
        zoom l_kfl (filedup f);;
        ftab ← gets (λ s, fl_file (k_fl s));
        r ← on_proc p (my_mmap ftab addr (Some f) size offset flags protection);
        ret (s32 r)
    end))))).
Definition sys_munmap (p : nat) : M kst (option Z) :=
  or_fail (argint p 0) (λ addr, or_fail (argint p 1) (λ size,
    x ← getp p;
    r ← my_munmap (p_pid x) (p_killed x) dev_write p addr size;
    ret r)).

(** ** Dispatch *)

Definition syscalls (c p : nat) (num : Z) : option (M kst (option Z)) :=
  match num with
  | 1 => Some (sys_fork c) | 2 => Some (sys_exit c) | 3 => Some (sys_wait c)
  | 4 => Some (sys_pipe p) | 5 => Some (sys_read p) | 6 => Some (sys_kill p)
  | 7 => Some (sys_exec c p) | 8 => Some (sys_fstat p) | 9 => Some (sys_chdir p)
  | 10 => Some (sys_dup p) | 11 => Some (sys_getpid p) | 12 => Some (sys_sbrk c p)
  | 13 => Some (sys_sleep c p) | 14 => Some sys_uptime | 15 => Some (sys_open p)
  | 16 => Some (sys_write p) | 17 => Some (sys_mknod p) | 18 => Some (sys_unlink p)
  | 19 => Some (sys_link p) | 20 => Some (sys_mkdir p) | 21 => Some (sys_close p)
  | 22 => Some (sys_mmap p) | 23 => Some (sys_munmap p)
  | _ => None
  end.

Definition return_eax (p : nat) (v : Z) : M kst unit :=
  updp p (λ x, set_p_tf (set_eax (u32 v) (p_tf x)) x).
(** The result says whether the process still runs. *)
Definition syscall (c : nat) : M kst bool :=
  p ← myproc c;
  x ← getp p;
  match syscalls c p (s32 (tf_eax (p_tf x))) with
  | Some sys =>
      r ← sys;
      match r with
      | Some v => return_eax p v;; mret true
      | None => mret false
      end
  | None => return_eax p (-1);; mret true
  end.
End syscalls.
