(* ===== verification/Trap.v ===== *)
(** * Traps (trap.c)

    The entry points of the kernel: system calls, the clock, devices, page
    faults on mappings, and everything else.  The interrupt handlers of the
    devices work on the state of their own components; here they are the
    operations [ideintr], [kbdintr] and [uartintr] they amount to on the kernel
    state.  Acknowledging the interrupt controller and printing are left
    out. *)

From Stdlib Require Import ZArith Lia.
From stdpp Require Import base numbers strings gmap list relations.
From S2P Require Import Prelude Mmu Memory Locks Kalloc Vm Proc0 Regions Bytes Disk Fs.
From S2P Require Import Pagecache File Kernel Mmap Proc Ptable ProcSpec Exec Syscall.

Definition T_SYSCALL : Z := 64.
Definition T_IRQ0 : Z := 32.
Definition IRQ_TIMER : Z := 0.
Definition IRQ_KBD : Z := 1.
Definition IRQ_COM1 : Z := 4.
Definition IRQ_IDE : Z := 14.
Definition IRQ_SPURIOUS : Z := 31.

Section trap.
Context {L : Linker}.
Context (dev_write : Z → option (nat → list Z → M fsst Z)).
Context (dev_read : Z → option (nat → Z → M fsst (Z * list Z))).
Context (proc_addr : nat → Z) (trapret_addr forkret_addr ticks_addr : Z).
Context (pipe_junk : list Z).
Context (ideintr kbdintr uartintr : M kst unit).

Definition killed_in_user (c : nat) (tf : trapframe) : M kst bool :=
  p ← mycpu_proc c;
  match p with
  | Some p => x ← getp p; mret (p_killed x && (Z.land (tf_cs tf) 3 =? DPL_USER))
  | None => mret false
  end.
Definition is_running (c : nat) : M kst bool :=
  p ← mycpu_proc c;
  match p with
  | Some p => x ← getp p; mret (bool_decide (p_state x = RUNNING))
  | None => mret false
  end.

(** The branch of T_SYSCALL; the result says whether the process still runs. *)
Definition trap_syscall (c : nat) (tf : trapframe) : M kst bool :=
  p ← myproc c;
  x ← getp p;
  if p_killed x then exit dev_write proc_addr c;; mret false
  else
    updp p (set_p_tf tf);;
    go ← syscall dev_write dev_read proc_addr trapret_addr forkret_addr ticks_addr pipe_junk c;
    if go : bool then
      x ← getp p;
      if p_killed x then exit dev_write proc_addr c;; mret false else mret true
    else mret false.

(** The clock: only the first CPU counts. *)
Definition trap_timer (c : nat) : M kst unit :=
  if bool_decide (c = 0%nat) then
    acquire l_tickslock;;
    t ← gets k_ticks;
    modify (set_ticks (u32 (t + 1)));;
    wakeup ticks_addr;;
    release l_tickslock
  else mret tt.

(** The [default] case. *)
Definition trap_unexpected (c : nat) (tf : trapframe) : M kst unit :=
  p ← mycpu_proc c;
  match p with
  | Some p =>
      if Z.land (tf_cs tf) 3 =? 0 then panic "trap" else updp p (set_p_killed true)
  | None => panic "trap"
  end.

(** The [switch]; [cr2] is the address of the last page fault. *)
Definition trap_switch (c : nat) (tf : trapframe) (cr2 : Z) : M kst unit :=
  let n := tf_trapno tf in
  if n =? T_IRQ0 + IRQ_TIMER then trap_timer c
  else if n =? T_IRQ0 + IRQ_IDE then ideintr
  else if n =? T_IRQ0 + IRQ_IDE + 1 then mret tt
  else if n =? T_IRQ0 + IRQ_KBD then kbdintr
  else if n =? T_IRQ0 + IRQ_COM1 then uartintr
  else if (n =? T_IRQ0 + 7) || (n =? T_IRQ0 + IRQ_SPURIOUS) then mret tt
  else if (n =? 14) && (MMAPBASE <=? cr2) && (cr2 <? KERNBASE) then
    p ← myproc c;
    x ← getp p;
    handle_page_fault (p_pid x) dev_read p cr2
  else trap_unexpected c tf.

(** The last test, also made when the process is resumed after [yield]. *)
Definition trap_end (c : nat) (tf : trapframe) : M kst bool :=
  k ← killed_in_user c tf;
  if k : bool then exit dev_write proc_addr c;; mret false else mret true.

Definition trap (c : nat) (tf : trapframe) (cr2 : Z) : M kst bool :=
  if tf_trapno tf =? T_SYSCALL then trap_syscall c tf
  else
    trap_switch c tf cr2;;
    k ← killed_in_user c tf;
    if k : bool then exit dev_write proc_addr c;; mret false
    else
      r ← is_running c;
      if r && (tf_trapno tf =? T_IRQ0 + IRQ_TIMER) then yield c;; mret false
      else trap_end c tf.
End trap.
