(* ===== verification/SyscallSpec.v ===== *)
(** * Correctness of the system call interface

    The handlers that do not concern scheduling preserve every frame; with the
    operations of [ProcSpec.v] this carries the invariant of the process table
    through every system call and every trap.  Pointer arguments stay inside the
    memory of the process.  A mapping's reference to its file is never given
    back. *)

From Stdlib Require Import ZArith Lia.
From stdpp Require Import base numbers strings gmap list relations.
From S2P Require Import Prelude Mmu Memory Locks Kalloc Vm VmSpec VmAlloc Proc0 Regions Bytes.
From S2P Require Import Disk Fs Pipe Pagecache File FileSpec Kernel Mmap MmapSpec Proc Frame Ptable.
From S2P Require Import ProcSpec Exec Syscall Trap.

(** ** Handlers that preserve every frame *)

Section handlers.
Context {R : kst → kst → Prop} {Q : proc → proc → Prop} {F : Frame R Q}.
Context {L : Linker}.
Context (dev_write : Z → option (nat → list Z → M fsst Z)).
Context (dev_read : Z → option (nat → Z → M fsst (Z * list Z))).

Lemma pres_user_write p a bs : pres R (user_write p a bs).
Proof. revert a. induction bs as [|b bs IH]; intros; simpl; pres. Qed.
Lemma pres_fetchint p a : pres R (fetchint p a).
Proof. unfold fetchint. pres. Qed.
Lemma pres_fetchstr_loop n p a str : pres R (fetchstr_loop n p a str).
Proof. revert a str. induction n as [|n IH]; intros; cbn [fetchstr_loop]; pres. Qed.
Hint Resolve pres_user_write pres_fetchint pres_fetchstr_loop : pres.
Lemma pres_fetchstr p a : pres R (fetchstr p a).
Proof. unfold fetchstr. pres. Qed.
Lemma pres_argint p n : pres R (argint p n).
Proof. unfold argint. pres. Qed.
Hint Resolve pres_fetchstr pres_argint : pres.
Lemma pres_argptr p n size : pres R (argptr p n size).
Proof. unfold argptr. pres. Qed.
Lemma pres_argstr p n : pres R (argstr p n).
Proof. unfold argstr. pres. Qed.
Lemma pres_argfd p n : pres R (argfd p n).
Proof. unfold argfd. pres. Qed.
Lemma pres_fdalloc p f : pres R (fdalloc p f).
Proof. unfold fdalloc. pres. Qed.
Hint Resolve pres_argptr pres_argstr pres_argfd pres_fdalloc : pres.
Lemma pres_or_fail {A} (m : M kst (option A)) k : pres R m → (∀ a, pres R (k a)) → pres R (or_fail m k).
Proof. intros Hm Hk. unfold or_fail, ret. pres. Qed.
Lemma pres_or_end {A} (m : M kst (option A)) k : pres R m → (∀ a, pres R (k a)) → pres R (or_end m k).
Proof. intros Hm Hk. unfold or_end, ret, sys_end_op. pres. Qed.
Lemma pres_exec_bad pid d ip : pres R (exec_bad pid d ip).
Proof. unfold exec_bad. pres. Qed.
Lemma pres_loaduvm d a ip off sz : pres R (loaduvm dev_read d a ip off sz).
Proof.
  unfold loaduvm. pres. generalize 0.
  match goal with |- ∀ _, pres _ (loaduvm_loop _ ?n _ _ _ _ _ _) => generalize n end.
  intros n. induction n as [|n IH]; intros; simpl; pres.
Qed.
Hint Resolve pres_exec_bad pres_loaduvm : pres.
Lemma pres_load_segments n d ip off sz : pres R (load_segments dev_read n d ip off sz).
Proof. revert off sz. induction n as [|n IH]; intros; cbn [load_segments]; pres. Qed.
Lemma pres_push_args argv d argc sp u : pres R (push_args argv d argc sp u).
Proof. revert argc sp u. induction argv as [|a argv IH]; intros; simpl; pres. Qed.
Hint Resolve pres_load_segments pres_push_args : pres.
Lemma pres_set_entry p eip esp : pres R (updp p (set_entry eip esp)).
Proof. apply pres_updp. intros x. unfold set_entry. apply fr_tf. Qed.
Lemma pres_exec_commit p d sz e sp : pres R (exec_commit dev_write p d sz e sp).
Proof. unfold exec_commit. repeat first [apply pres_set_entry | pres_step]. Qed.
Hint Resolve pres_exec_commit : pres.
Lemma pres_exec c path argv : pres R (exec dev_write dev_read c path argv).
Proof. unfold exec, exec_stack. pres. Qed.
Lemma pres_exec_argv n p u i argv : pres R (exec_argv n p u i argv).
Proof. revert i argv. induction n as [|n IH]; intros; cbn [exec_argv]; pres. Qed.
Hint Resolve pres_exec pres_exec_argv : pres.
End handlers.
#[export] Hint Resolve pres_user_write pres_argint pres_argptr pres_argstr pres_argfd pres_fdalloc
  pres_exec pres_exec_argv : pres.

Ltac sys_step :=
  match goal with
  | |- pres _ (or_fail _ _) => apply pres_or_fail
  | |- pres _ (or_end _ _) => apply pres_or_end
  | |- _ => pres_step
  end.
Ltac sys := repeat sys_step.

Section quiet.
Context {R : kst → kst → Prop} {Q : proc → proc → Prop} {F : Frame R Q}.
Context {L : Linker}.
Context (dev_write : Z → option (nat → list Z → M fsst Z)).
Context (dev_read : Z → option (nat → Z → M fsst (Z * list Z))).
Context (proc_addr : nat → Z) (tr fr ticks_addr : Z) (junk : list Z).

Lemma ppres_setup_mmap_arr size i a : ppres Q (setup_mmap_arr size i a).
Proof.
  unfold setup_mmap_arr. pres.
  match goal with |- ppres _ (shift_right ?n ?j) => generalize n; generalize j end.
  intros j n. revert j. induction n as [|n IH]; intros; simpl; unfold copy_region; pres.
Qed.
Hint Resolve ppres_setup_mmap_arr : pres.
Lemma ppres_find_mmap_addr size : ppres Q (find_mmap_addr size).
Proof.
  unfold find_mmap_addr. pres. generalize 0. generalize (S (Z.to_nat NMMAPS)) as n.
  induction n as [|n IH]; intros; cbn [find_loop]; pres.
Qed.
Lemma ppres_check_mmap_possible a size : ppres Q (check_mmap_possible a size).
Proof.
  unfold check_mmap_possible. pres. generalize 0.
  match goal with |- ∀ _, ppres _ (check_loop ?n _ _ _) => generalize n end.
  intros n. induction n as [|n IH]; intros; cbn [check_loop]; pres.
Qed.
Hint Resolve ppres_find_mmap_addr ppres_check_mmap_possible : pres.
Lemma ppres_my_mmap ftab a f size off fl prot : ppres Q (my_mmap ftab a f size off fl prot).
Proof. unfold my_mmap, place_mapping, deref_file. pres. Qed.
Hint Resolve ppres_my_mmap : pres.

(** The calls that are not about scheduling. *)
Definition concerns_scheduling (num : Z) : bool :=
  (num =? 1) || (num =? 2) || (num =? 3) || (num =? 6) || (num =? 13).

Lemma pres_quiet_syscall c p num h :
  syscalls dev_write dev_read proc_addr tr fr ticks_addr junk c p num = Some h →
  concerns_scheduling num = false → pres R h.
Proof.
  unfold syscalls. intros H Hn. repeat case_match; simplify_eq; try done.
  all: unfold sys_pipe, sys_read, sys_exec, sys_fstat, store_stat, sys_chdir, sys_dup, sys_getpid, sys_sbrk, sys_uptime,
    sys_open, sys_write, sys_mknod, sys_unlink, sys_link, sys_mkdir, sys_close, sys_mmap, sys_munmap, make_node,
    unlink_entry, unlink_bad, link_bad, sys_begin_op, sys_end_op, ret; sys.
Qed.
End quiet.

(** ** System calls as operations on the process table *)

Create HintDb runs.

(** [m] amounts to a sequence of changes of the process table, whether it returns
    or goes to sleep; the second form is for operations that may create a
    process. *)
Definition runs (proc_addr : nat → Z) {A} (m : M kst A) : Prop :=
  ∀ s s', kinv proc_addr s → ends m s s' → rtc (astep proc_addr) (abs s) (abs s').
Definition runs_new (proc_addr : nat → Z) {A} (m : M kst A) : Prop :=
  ∀ s s', kinv proc_addr s → k_nextpid s < 2147483647 → ends m s s' → rtc (astep proc_addr) (abs s) (abs s').

Section steps.
Context {L : Linker}.
Context (dev_write : Z → option (nat → list Z → M fsst Z)).
Context (dev_read : Z → option (nat → Z → M fsst (Z * list Z))).
Context (proc_addr : nat → Z) (tr fr ticks_addr : Z) (junk : list Z).
Context (Hticks : ∀ p, ticks_addr ≠ proc_addr p).
Local Abbreviation runs := (runs proc_addr).
Local Abbreviation runs_new := (runs_new proc_addr).

Lemma runs_keeps {A} (m : M kst A) : pres same_abs m → runs m.
Proof. intros Hm s s' _ H. apply steps_refl. by apply Hm. Qed.
Lemma runs_bind {A B} (m : M kst A) (f : A → M kst B) : runs m → (∀ a, runs (f a)) → runs (m ≫= f).
Proof.
  intros Hm Hf s s' Hk [(a & s1 & H1 & H)|[c H]]%ends_bind.
  - assert (Hs : rtc (astep proc_addr) (abs s) (abs s1)) by (apply Hm; [done|]; by left; exists a).
    etrans; [exact Hs|]. eapply Hf; [by eapply steps_kinv|exact H].
  - apply Hm; [done|]. by right; exists c.
Qed.
Lemma runs_weaken {A} (m : M kst A) : runs m → runs_new m.
Proof. intros Hm s s' Hk _. by apply Hm. Qed.
Lemma runs_new_bind {A B} (m : M kst A) (f : A → M kst B) :
  runs_new m → (∀ a, runs (f a)) → runs_new (m ≫= f).
Proof.
  intros Hm Hf s s' Hk Hn [(a & s1 & H1 & H)|[c H]]%ends_bind.
  - assert (Hs : rtc (astep proc_addr) (abs s) (abs s1)) by (apply Hm; [done..|]; by left; exists a).
    etrans; [exact Hs|]. eapply Hf; [by eapply steps_kinv|exact H].
  - apply Hm; [done..|]. by right; exists c.
Qed.
Lemma keeps_new_bind {A B} (m : M kst A) (f : A → M kst B) :
  pres same_abs m → (∀ a, runs_new (f a)) → runs_new (m ≫= f).
Proof.
  intros Hm Hf s s' Hk Hn [E|(a & s1 & _ & E & H)]%ends_keeps; [by apply steps_refl| |done].
  rewrite <-E. eapply Hf; [by eapply steps_kinv; [|apply steps_refl]| |exact H].
  assert (a_next (abs s1) = a_next (abs s)) as E1 by (by rewrite E). simpl in E1. by rewrite E1.
Qed.
Lemma runs_prompt {A} (m : M kst A) :
  prompt m → (∀ s a s', kinv proc_addr s → m s = Ok a s' → rtc (astep proc_addr) (abs s) (abs s')) → runs m.
Proof. intros Hp Hm s s' Hk [a H]%prompt_ends; [by eapply Hm|done]. Qed.

Lemma runs_exit c : runs (exit dev_write proc_addr c).
Proof. intros s s' [Hi Hl] H. by eapply exit_steps. Qed.
Lemma runs_wait c : runs (wait proc_addr c).
Proof. apply runs_prompt; [prompt|]. intros s a s' [Hi Hl] H. by eapply wait_steps. Qed.
Lemma runs_kill pid : runs (kill pid).
Proof. apply runs_prompt; [prompt|]. intros s a s' _ H. by eapply kill_steps. Qed.
Lemma runs_wakeup chan : runs (wakeup chan).
Proof. apply runs_prompt; [prompt|]. intros s [] s' _ H. by eapply wakeup_steps. Qed.
Lemma runs_yield c : runs (yield c).
Proof. apply runs_prompt; [prompt|]. intros s a s' _ H. by eapply yield_steps. Qed.
Lemma runs_fork c : runs_new (fork dev_read tr fr c).
Proof. intros s s' [Hi Hl] Hn H. by eapply fork_steps. Qed.
Lemma runs_sleep_on c chan lk :
  (∀ p, chan ≠ proc_addr p) → (∀ l, lk = Some l → lkeeps l) → runs (sleep_begin c chan lk).
Proof.
  intros Hch Hlk. apply runs_prompt; [prompt|]. intros s a s' _ H.
  apply (sleep_steps proc_addr c chan lk s a s'); [done| |done]. intros p _ E. by destruct (Hch p).
Qed.
Lemma runs_sleep c : runs (sleep_begin c ticks_addr (Some l_tickslock)).
Proof. apply runs_sleep_on; [exact Hticks|]. intros l [= <-]. by intros ? ?. Qed.
Hint Resolve runs_exit runs_wait runs_kill runs_wakeup runs_yield runs_sleep : runs.

Ltac runs_step :=
  match goal with
  | |- ∀ _, _ => intros
  | |- runs _ => solve [eauto with runs | apply runs_keeps; sys]
  | |- runs (let _ := _ in _) => cbv zeta
  | |- runs (_ ≫= _) => apply runs_bind
  | |- runs (match ?x with _ => _ end) => destruct x
  end.
Ltac runs := repeat runs_step.

Lemma runs_syscalls c p num h :
  syscalls dev_write dev_read proc_addr tr fr ticks_addr junk c p num = Some h → runs_new h.
Proof.
  intros H. destruct (concerns_scheduling num) eqn:Hn; cycle 1.
  { apply runs_weaken, runs_keeps. by eapply pres_quiet_syscall. }
  unfold concerns_scheduling in Hn. repeat rewrite orb_true_iff in Hn. rewrite !Z.eqb_eq in Hn.
  destruct Hn as [[[[-> | ->] | ->] | ->] | ->]; injection H as <-.
  - unfold sys_fork. apply runs_new_bind; [apply runs_fork|]. unfold ret. runs.
  - apply runs_weaken. unfold sys_exit. runs.
  - apply runs_weaken. unfold sys_wait. runs.
  - apply runs_weaken. unfold sys_kill, or_fail, ret. runs.
  - apply runs_weaken. unfold sys_sleep, sleep_round, or_fail, ret. runs.
Qed.

Lemma runs_syscall c : runs_new (syscall dev_write dev_read proc_addr tr fr ticks_addr junk c).
Proof.
  unfold syscall. apply keeps_new_bind; [sys|]. intros p. apply keeps_new_bind; [sys|]. intros x.
  destruct (syscalls _ _ _ _ _ _ _ _ _) as [h|] eqn:E.
  - apply runs_new_bind; [by eapply runs_syscalls|]. unfold return_eax. runs.
  - apply runs_weaken. unfold return_eax. runs.
Qed.

(** ** Traps *)

Context (ideintr kbdintr uartintr : M kst unit).
Context (Hide : runs ideintr) (Hkbd : runs kbdintr) (Huart : runs uartintr).

Lemma runs_set_ticks n : runs (modify (set_ticks n)).
Proof. apply runs_keeps. apply pres_modify. by intros s. Qed.
Hint Resolve runs_set_ticks : runs.

Lemma runs_trap c tf cr2 :
  runs_new (trap dev_write dev_read proc_addr tr fr ticks_addr junk ideintr kbdintr uartintr c tf cr2).
Proof.
  unfold trap. destruct (_ =? T_SYSCALL).
  - unfold trap_syscall. apply keeps_new_bind; [sys|]. intros p. apply keeps_new_bind; [sys|]. intros x.
    destruct (p_killed x); [apply runs_weaken; runs|]. apply keeps_new_bind; [sys|]. intros _.
    apply runs_new_bind; [apply runs_syscall|]. runs.
  - apply runs_weaken. unfold trap_end, trap_switch, trap_timer, trap_unexpected, killed_in_user, is_running. runs.
Qed.
End steps.

(** ** Pointer arguments *)

Lemma fetchint_keeps p a s r s' : fetchint p a s = Ok r s' → s' = s.
Proof.
  assert (Hu : ∀ n a s r s', user_read n p a s = Ok r s' → s' = s).
  { intros n. induction n as [|n IH]; intros b t q t' H; simpl in H; [by injection H|].
    minv H as ([pte pa] & t1 & H1 & H). assert (t1 = t) as ->.
    { unfold get_physical_page in H1. minv H1 as (x & t2 & H2 & H1). apply getp_inv in H2 as [-> _].
      minv H1 as (e & t2 & H2 & H1).
      rewrite (zoom_kvm _ _ _ _ (walkpgdir_noalloc _ _ _)) in H2. injection H2 as <- <-. rewrite wvm_id in H1.
      destruct (_ =? 0); [by injection H1|]. minv H1 as (y & t3 & [= _ <-] & H1). by injection H1. }
    minv H as (e & t1 & [= <- <-] & H). destruct (present _); [|done].
    minv H as (y & t1 & [= _ <-] & H). minv H as (bs & t1 & H1' & H). apply IH in H1' as ->. by injection H. }
  intros H. unfold fetchint in H. minv H as (x & s1 & H1 & H). apply getp_inv in H1 as [-> _].
  destruct (_ || _); [by injection H|]. minv H as (bs & s1 & H1 & H). apply Hu in H1 as ->. by injection H.
Qed.

Lemma argint_keeps p n s r s' : argint p n s = Ok r s' → s' = s.
Proof.
  intros H. unfold argint in H. minv H as (x & s1 & H1 & H). apply getp_inv in H1 as [-> _].
  by eapply fetchint_keeps.
Qed.

Lemma argfd_keeps p n s r s' : argfd p n s = Ok r s' → s' = s.
Proof.
  intros H. unfold argfd in H. minv H as (x & s1 & H1 & H). apply argint_keeps in H1 as ->.
  destruct x as [fd|]; [|by injection H]. destruct (_ || _); [by injection H|].
  minv H as (x & s1 & H1 & H). apply getp_inv in H1 as [-> _]. destruct (p_ofile x !! _) as [[f|]|]; by injection H.
Qed.
Lemma argint_ok p n s v : returned (argint p n) s = Some (Some v) → argint p n s = Ok (Some v) s.
Proof. intros E%final_ok. pose proof (argint_keeps _ _ _ _ _ E) as Es. by rewrite Es in E. Qed.
Lemma argfd_ok p n s v : returned (argfd p n) s = Some (Some v) → argfd p n s = Ok (Some v) s.
Proof. intros E%final_ok. pose proof (argfd_keeps _ _ _ _ _ E) as Es. by rewrite Es in E. Qed.

(** An argument accepted as a block of [size] bytes of the memory of [p]. *)
Definition inside (s : kst) (p : nat) (a size : Z) : Prop :=
  0 ≤ a ∧ 0 ≤ size ∧ a + size ≤ p_sz (procof s p).

Lemma checked_range a size sz :
  0 ≤ sz < 2147483648 → size < 2147483648 →
  (size <? 0) || (u32 a >=? sz) || (u32 (u32 a + size) >? sz) = false →
  0 ≤ u32 a ∧ 0 ≤ size ∧ u32 a + size ≤ sz.
Proof.
  intros Hsz Hs H. apply orb_false_elim in H as [H H3]. apply orb_false_elim in H as [H1 H2].
  rewrite Z.geb_leb in H2. rewrite Z.gtb_ltb in H3. apply Z.ltb_ge in H1, H3. apply Z.leb_gt in H2.
  pose proof (u32_range a). rewrite (u32_small (u32 a + size)) in H3 by lia. lia.
Qed.

(** ** The references of files *)

(** [m] leaves the value of [g] as it is. *)
Definition fixes {S T A} (g : S → T) (m : M S A) : Prop := ∀ s s', ends m s s' → g s' = g s.

Create HintDb fixes.

Section fixes.
Context {S T : Type} {g : S → T}.

Lemma fixes_ret {A} (a : A) : fixes g (mret a).
Proof. by intros s s' [[b [= _ <-]]|[c [=]]]. Qed.
Lemma fixes_bind {A B} (m : M S A) (f : A → M S B) : fixes g m → (∀ a, fixes g (f a)) → fixes g (m ≫= f).
Proof.
  intros Hm Hf s s' [(a & s1 & H1 & H2)|[c H]]%ends_bind.
  - rewrite (Hf a _ _ H2). apply Hm. by left; exists a.
  - apply Hm. by right; exists c.
Qed.
Lemma fixes_gets {A} (f : S → A) : fixes g (gets f).
Proof. by intros s s' [[b [= _ <-]]|[c [=]]]. Qed.
Lemma fixes_panic {A} e : fixes g (panic e : M S A).
Proof. by intros s s' [[b [=]]|[c [=]]]. Qed.
Lemma fixes_undef {A} e : fixes g (undef e : M S A).
Proof. by intros s s' [[b [=]]|[c [=]]]. Qed.
Lemma fixes_nofuel {A} : fixes g (nofuel : M S A).
Proof. by intros s s' [[b [=]]|[c [=]]]. Qed.
Lemma fixes_sleep {A} c : fixes g (sleep_on c : M S A).
Proof. by intros s s' [[b [=]]|[c' [= _ <-]]]. Qed.
Lemma fixes_zoom {U A} (l : lens S U) (m : M U A) : (∀ v s, g (lset l v s) = g s) → fixes g (zoom l m).
Proof. intros Hl s s' [v ->]%ends_zoom. apply Hl. Qed.
End fixes.
#[export] Hint Resolve fixes_ret fixes_gets fixes_panic fixes_undef fixes_nofuel fixes_sleep : fixes.

(** The reference counts of the file table. *)
Definition frefs (s : filest) : list Z := f_ref <$> fl_file s.
Definition krefs (s : kst) : list Z := frefs (k_fl s).

Lemma fixes_get_file f : fixes frefs (get_file f).
Proof. intros s s' [[b H]|[c H]]; unfold get_file in H; destruct (fl_file s !! f); by simplify_eq. Qed.
Lemma fixes_with_off f o : fixes frefs (upd_file f (with_off o)).
Proof.
  intros s s' [[b H]|[c H]]; unfold upd_file in H; destruct (fl_file s !! f) as [x|] eqn:E; simplify_eq.
  unfold frefs. simpl. rewrite list_fmap_insert. apply list_insert_id. by rewrite list_lookup_fmap, E.
Qed.
Lemma fixes_on_pipe {A} p (m : M Pipe.pipe A) : fixes frefs (on_pipe p m).
Proof.
  intros s s' H. unfold ends, on_pipe in H. destruct p as [i|]; [|by destruct H as [[? [=]]|[? [=]]]].
  destruct (fl_pipes s !! i); [|by destruct H as [[? [=]]|[? [=]]]]. by apply ends_zoom in H as [v ->].
Qed.
Lemma fixes_kfl {A} (m : M filest A) : fixes frefs m → fixes krefs (zoom l_kfl m).
Proof.
  intros Hm s s' H. unfold krefs. assert (ends m (k_fl s) (k_fl s')) as He; [|by apply Hm].
  destruct H as [[a H]|[c H]]; unfold zoom in H; simpl in H; destruct (m (k_fl s)) as [b v| |c' v| |] eqn:E;
    try done; injection H as <- <-; [left|right]; rewrite E; eauto.
Qed.
Lemma fixes_on_proc {A} p (m : M proc A) : fixes krefs (on_proc p m).
Proof.
  intros s s' H. unfold ends, on_proc in H. destruct (k_proc s !! p); [|by destruct H as [[? [=]]|[? [=]]]].
  by apply ends_zoom in H as [v ->].
Qed.
Lemma fixes_getp p : fixes krefs (getp p).
Proof. intros s s' [[b [-> _]%getp_inv]|[c H]]; [done|by apply prompt_getp in H]. Qed.
Lemma fixes_updp p f : fixes krefs (updp p f).
Proof. intros s s' [[b (x & _ & ->)%updp_inv]|[c H]]; [done|by apply prompt_updp in H]. Qed.
#[export] Hint Resolve fixes_get_file fixes_with_off fixes_on_pipe fixes_on_proc fixes_getp fixes_updp : fixes.

Ltac fixes_step :=
  match goal with
  | |- ∀ _, _ => intros
  | |- fixes _ (_ ≫= _) => apply fixes_bind
  | |- fixes _ (zoom l_kfl _) => apply fixes_kfl
  | |- fixes _ (zoom _ _) => apply fixes_zoom; done
  | |- fixes _ (kmem_upd _) => unfold kmem_upd
  | |- fixes _ (let _ := _ in _) => cbv zeta
  | |- fixes _ (match ?x with _ => _ end) => destruct x
  | |- _ => solve [eauto with fixes]
  end.
Ltac fixes := repeat fixes_step.

Section refs.
Context {L : Linker}.
Context (dev_write : Z → option (nat → list Z → M fsst Z)).

Lemma fixes_filewrite pid killed f src : fixes frefs (filewrite pid killed dev_write f src).
Proof.
  unfold filewrite. fixes. match goal with |- fixes _ (filewrite_loop _ _ ?n _ _ ?i _) => generalize n; generalize i end.
  intros i n. revert i. induction n as [|n IH]; intros; cbn [filewrite_loop]; unfold filewrite_chunk; fixes.
Qed.
Lemma fixes_get_physical_page p va : fixes krefs (get_physical_page p va).
Proof. unfold get_physical_page. fixes. Qed.
Hint Resolve fixes_filewrite fixes_get_physical_page : fixes.
Lemma fixes_user_read n p a : fixes krefs (user_read n p a).
Proof. revert a. induction n as [|n IH]; intros; cbn [user_read]; fixes. Qed.
Lemma fixes_munmap_pages n p a m c : fixes krefs (munmap_pages n p a m c).
Proof. revert c. induction n as [|n IH]; intros; cbn [munmap_pages]; fixes. Qed.
Hint Resolve fixes_user_read fixes_munmap_pages : fixes.
Lemma fixes_my_munmap pid killed p a n : fixes krefs (my_munmap pid killed dev_write p a n).
Proof. unfold my_munmap. fixes. Qed.
Lemma fixes_delete_mmaps pid killed p : fixes krefs (delete_mmaps pid killed dev_write p).
Proof.
  unfold delete_mmaps. fixes. match goal with |- fixes _ (delete_loop _ _ _ ?n _ ?z) => generalize n; generalize z end.
  intros z n. revert z. induction n as [|n IH]; intros; cbn [delete_loop]; fixes; apply fixes_my_munmap.
Qed.

Lemma fixes_sys_munmap p : fixes krefs (sys_munmap dev_write p).
Proof.
  unfold sys_munmap, or_fail, ret, argint, fetchint. fixes; auto using fixes_user_read, fixes_my_munmap.
Qed.

Lemma filedup_refs f s a s' : filedup f s = Ok a s' → frefs s' = alter (Z.add 1) f (frefs s).
Proof.
  intros H. unfold filedup in H. minv H as ([] & s1 & H1 & H). unfold acquire in H1. destruct (locked _); [done|].
  injection H1 as <-. minv H as (x & s1 & H1 & H). unfold get_file in H1. simpl in H1.
  destruct (fl_file s !! f) as [y|] eqn:E; [|done]. injection H1 as <- <-. destruct (_ <? 1); [done|].
  minv H as ([] & s1 & H1 & H). unfold upd_file in H1. simpl in H1. rewrite E in H1. injection H1 as <-.
  minv H as ([] & s1 & H1 & H). unfold release in H1. simpl in H1. injection H1 as <-. injection H as _ <-.
  unfold frefs. simpl. apply list_eq. intros i. rewrite list_lookup_alter, !list_lookup_fmap, list_lookup_insert.
  destruct (decide (f = i)) as [<-|Hn]; [|by rewrite decide_False by tauto].
  rewrite decide_True by (split; [done|by eapply lookup_lt_Some]). rewrite E. simpl. f_equal. lia.
Qed.
End refs.

(** The arguments of [mmap] can be fetched, and name a descriptor of file [f]. *)
Definition mmap_of_file {L : Linker} (p f : nat) (s : kst) : Prop :=
  (∀ n, n ∈ [0; 1; 2; 3; 5] → ∃ v, argint p n s = Ok (Some v) s) ∧ ∃ fd, argfd p 4 s = Ok (Some (fd, f)) s.

Lemma sys_mmap_refs {L : Linker} p f s r s' :
  mmap_of_file p f s → sys_mmap p s = Ok r s' → krefs s' = alter (Z.add 1) f (krefs s).
Proof.
  intros [Ha [fd Hf]] H. unfold sys_mmap, or_fail in H.
  destruct (Ha 1) as [v1 E1]; [set_solver|]. rewrite (bind_ok _ _ _ _ _ E1) in H. cbv beta iota in H.
  destruct (Ha 2) as [v2 E2]; [set_solver|]. rewrite (bind_ok _ _ _ _ _ E2) in H. cbv beta iota in H.
  destruct (Ha 3) as [v3 E3]; [set_solver|]. rewrite (bind_ok _ _ _ _ _ E3) in H. cbv beta iota in H.
  destruct (Ha 5) as [v5 E5]; [set_solver|]. rewrite (bind_ok _ _ _ _ _ E5) in H. cbv beta iota in H.
  destruct (Ha 0) as [v0 E0]; [set_solver|]. rewrite (bind_ok _ _ _ _ _ E0) in H. cbv beta iota in H.
  rewrite (bind_ok _ _ _ _ _ Hf) in H. cbv beta iota in H. minv H as (a & s1 & H1 & H). unfold zoom in H1.
  destruct (filedup f _) as [b v| | | |] eqn:Ed; try done. injection H1 as _ <-. apply filedup_refs in Ed. simpl in Ed.
  assert (fixes krefs (ftab ← gets (λ s, fl_file (k_fl s));
    r ← on_proc p (my_mmap ftab v0 (Some f) v1 v5 v3 v2); ret (s32 r))) as Hk by (unfold ret; fixes).
  rewrite (Hk _ s' (or_introl (ex_intro _ r H))). exact Ed.
Qed.

(** ** Concrete runs *)

#[local] Existing Instance example_linker.

Definition addr_of (p : nat) : Z := 4 + 4 * Z.of_nat p.
Definition no_dev {A} (n : Z) : option A := None.

Definition tf_of (trapno esp : Z) : trapframe := Trapframe 0 esp 0 0 0 0 0 0 0 trapno.

(** One process with a page of memory, a stack and a file open as
    descriptor 0. *)
Definition open_file : file := File FD_INODE 1 true true None (Some 0%nat) 0.
Definition caller : proc :=
  set_p_tf (tf_of 0 100) (set_p_ofile 0 (Some 0%nat) (set_p_state RUNNING (set_p_pid 1 (set_p_pgdir pgdir0 proc0)))).
Definition st_caller : kst :=
  quiet vm_boot [open_file] (caller :: replicate 63 proc0) None [Some 0%nat].

(** Pushes arguments the way a user stub does. *)
Definition with_args (args : list Z) : M kst unit := user_write 0 104 (mjoin (le32 <$> args)).
Definition with_memory : M kst unit :=
  sz ← zoom l_kvm (allocuvm pgdir0 0 4096);
  updp 0 (set_p_sz sz).

(** [caller] with the arguments [args] on its stack. *)
Definition st_args (args : list Z) : kst :=
  match (with_memory;; with_args args) st_caller with Ok _ s => s | _ => st_caller end.

(** ** Claims *)

(** C3. Every trap keeps the process table sound: whatever the reason of the
    trap (any system call with any arguments, the clock, a device, a page fault
    in a mapping, an exception), the table changes by a sequence of its
    transitions, and its invariant holds, when the trap returns, when it gives up
    the CPU, and when a system call has to wait for a lock, a buffer or the log in
    the middle; in the last case it still holds when the process has then been
    put to sleep on its channel.  Pids must not be exhausted, and the handlers of
    the devices may only do transitions of the table.  Nothing is said of a trap
    that panics or runs into undefined behaviour. *)
Theorem trap_preserves_process_table {L : Linker} dev_write dev_read proc_addr tr fr ticks_addr junk
    ideintr kbdintr uartintr c tf cr2 s s' :
  (∀ p, ticks_addr ≠ proc_addr p) →
  runs proc_addr ideintr → runs proc_addr kbdintr → runs proc_addr uartintr →
  kinv proc_addr s → k_nextpid s < 2147483647 →
  ends (trap dev_write dev_read proc_addr tr fr ticks_addr junk ideintr kbdintr uartintr c tf cr2) s s' →
  rtc (astep proc_addr) (abs s) (abs s') ∧ kinv proc_addr s' ∧
  ∀ chan r s2, (∀ p, chan ≠ proc_addr p) →
    (acquire l_ptlock;; sleep_begin c chan None) s' = Ok r s2 → kinv proc_addr s2.
Proof.
  intros Ht Hi Hk Hu Hinv Hn H.
  assert (Hs : rtc (astep proc_addr) (abs s) (abs s')) by exact (runs_trap _ _ _ _ _ _ _ Ht _ _ _ Hi Hk Hu _ _ _ _ _ Hinv Hn H).
  assert (Hinv' : kinv proc_addr s') by (by eapply steps_kinv). split; [done|]. split; [done|].
  intros chan r s2 Hch H2. eapply steps_kinv; [exact Hinv'|].
  assert (Hr : runs proc_addr (acquire l_ptlock;; sleep_begin c chan None)).
  { apply runs_bind; [apply runs_keeps; pres|]. intros _. by apply runs_sleep_on. }
  apply Hr; [done|]. by left; exists r.
Qed.

(** The process that runs on CPU 1 calls [chdir] while three other calls fill the
    log. *)
Definition st_busy : kst := lset l_kld (LDisk ∅ [] [] 30 3) st_running.
Definition chdir_tf : trapframe := Trapframe 9 0 0 0 0 0 0 0 0 64.
Lemma st_busy_inv : kinv addr_of st_busy.
Proof.
  assert (H : ∀ v s, abs (lset l_kld v s) = abs s) by done.
  apply (steps_kinv addr_of st_running); [exact st_running_inv|]. apply steps_refl, H.
Qed.

Lemma trap_preserves_process_table_witness : ∃ s',
  trap no_dev no_dev addr_of 8 12 3 [] (mret tt) (mret tt) (mret tt) 1 chdir_tf 0 st_busy = Sleep 0 s' ∧
  kinv addr_of s'.
Proof.
  assert (Hr : runs addr_of (mret tt : M kst unit)).
  { apply runs_keeps. apply pres_ret. }
  assert (∃ s', trap no_dev no_dev addr_of 8 12 3 [] (mret tt) (mret tt) (mret tt) 1 chdir_tf 0 st_busy
    = Sleep 0 s') as [s' E].
  { assert (match trap no_dev no_dev addr_of 8 12 3 [] (mret tt) (mret tt) (mret tt) 1 chdir_tf 0 st_busy with
      | Sleep c _ => c = 0 | _ => False end) as H by (vm_compute; reflexivity).
    destruct (trap _ _ _ _ _ _ _ _ _ _ _ _ _ _) as [| |c s'| |]; try done. subst. by exists s'. }
  exists s'. split; [exact E|].
  apply (trap_preserves_process_table no_dev no_dev addr_of 8 12 3 [] (mret tt) (mret tt) (mret tt) 1 chdir_tf 0
    st_busy s').
  - intros p H. unfold addr_of in H. lia.
  - exact Hr.
  - exact Hr.
  - exact Hr.
  - exact st_busy_inv.
  - vm_compute. reflexivity.
  - right. exists 0. exact E.
Defined.

(** C23. A pointer argument that [argptr] accepts is a block inside the memory
    of the process, and fetching it changes nothing: no choice of address and
    size, negative or wrapping around, passes the check from outside. *)
Theorem argptr_inside {L : Linker} p n size s a s' :
  0 ≤ p_sz (procof s p) < KERNBASE → size < 2147483648 →
  argptr p n size s = Ok (Some a) s' → s' = s ∧ inside s p a size.
Proof.
  intros Hsz Hs H. unfold argptr in H. minv H as (i & s1 & H1 & H). apply argint_keeps in H1 as ->.
  destruct i as [i|]; [|done]. minv H as (x & s1 & H1 & H). apply getp_inv in H1 as [-> Hx].
  assert (procof s p = x) as Ex by (unfold procof; by rewrite Hx). rewrite Ex in Hsz. unfold inside. rewrite Ex.
  destruct (_ || _) eqn:E; [done|]. injection H as <- <-. split; [done|]. by apply checked_range.
Qed.

Lemma argptr_inside_witness : ∃ s',
  argptr 0 0 100 (st_args [3000]) = Ok (Some 3000) s' ∧ inside (st_args [3000]) 0 3000 100.
Proof.
  assert (∃ s', argptr 0 0 100 (st_args [3000]) = Ok (Some 3000) s') as [s' E]
    by (apply ok_result; vm_compute; reflexivity).
  exists s'. split; [exact E|]. destruct (argptr_inside 0 0 100 (st_args [3000]) 3000 s') as [_ H].
  - vm_compute. split; [discriminate|reflexivity].
  - reflexivity.
  - exact E.
  - exact H.
Defined.

(** C40. The reference that [mmap] takes to a file is never given back: every
    call that names a descriptor adds one to the file's count, also if the mapping
    is then refused, and neither [munmap] nor the removal of all mappings, when
    the process exits or executes another program, changes any count, whatever
    it unmaps or writes back.  So the entry of a file that was once mapped stays
    in use after its descriptors are closed and its mappings gone. *)
Theorem munmap_leaks_file {L : Linker} dev_write p :
  (∀ f s r s', mmap_of_file p f s → sys_mmap p s = Ok r s' → krefs s' = alter (Z.add 1) f (krefs s)) ∧
  (∀ s s', ends (sys_munmap dev_write p) s s' → krefs s' = krefs s) ∧
  (∀ pid killed s s', ends (delete_mmaps pid killed dev_write p) s s' → krefs s' = krefs s).
Proof.
  split; [|split].
  - intros f s r s'. apply sys_mmap_refs.
  - apply fixes_sys_munmap.
  - intros pid killed. apply fixes_delete_mmaps.
Qed.

(** Map the file, close the descriptor, and unmap: one reference is left. *)
Definition st_mapping : kst := final (sys_mmap 0) (st_args [0; 5000; PROT_READ; MAP_PRIVATE; 0; 0]).
Definition st_closed : kst := final (with_args [0];; sys_close 0;; with_args [MMAPBASE; 5000]) st_mapping.
Definition st_unmapped : kst := final (sys_munmap no_dev 0) st_closed.

Lemma munmap_leaks_file_witness :
  krefs st_mapping = [2] ∧ krefs st_unmapped = [1] ∧
  p_ofile (procof st_unmapped 0) = replicate 16 None ∧ total_mmaps (procof st_unmapped 0) = 0.
Proof.
  destruct (munmap_leaks_file no_dev 0) as (Hmap & Hunmap & _). split_and!.
  - rewrite (Hmap 0%nat (st_args [0; 5000; PROT_READ; MAP_PRIVATE; 0; 0]) (Some MMAPBASE) st_mapping).
    + vm_compute. reflexivity.
    + split.
      * intros n Hn. repeat (apply elem_of_cons in Hn as [->|Hn]; [eexists; apply argint_ok; vm_compute; reflexivity|]).
        by apply elem_of_nil in Hn.
      * exists 0%nat. apply argfd_ok. vm_compute. reflexivity.
    + refine (final_ok (sys_mmap 0) _ (Some MMAPBASE) _). vm_compute. reflexivity.
  - rewrite (Hunmap st_closed st_unmapped).
    + vm_compute. reflexivity.
    + left. exists (Some 0). refine (final_ok (sys_munmap no_dev 0) st_closed (Some 0) _). vm_compute. reflexivity.
  - vm_compute. reflexivity.
  - vm_compute. reflexivity.
Defined.
