(* ===== verification/User.v ===== *)
(** * User programs (user.h, ulib.c, printf.c)

    A user program is a tree of the system calls of [user.h]: it ends, or makes
    a call and goes on with its result.  Loops that can run forever take fuel.
    The library functions of [ulib.c] and [printf.c] work on C strings, lists of
    bytes without the final NUL.  [run] executes a program against a handler
    that answers the calls. *)

From Stdlib Require Import ZArith Lia.
From stdpp Require Import base numbers strings list.
From S2P Require Import Prelude Disk Fs.

(** ** Programs *)

(** The calls of [user.h] the programs make, with the type of their results.
    [Read] returns the result and the bytes stored in the buffer, [Pipe] the
    two descriptors, [Fstat] what it stores. *)
Inductive call : Type → Type :=
| Fork : call Z
| Wait : call Z
| Pipe : call (option (Z * Z))
| Write (fd : Z) (bs : list Z) : call Z
| Read (fd n : Z) : call (Z * list Z)
| Close (fd : Z) : call Z
| Kill (pid : Z) : call Z
| Exec (path : list Z) (argv : list (list Z)) : call Z
| Open (path : list Z) (mode : Z) : call Z
| Mknod (path : list Z) (major minor : Z) : call Z
| Unlink (path : list Z) : call Z
| Fstat (fd : Z) : call (option stat)
| Link (old new : list Z) : call Z
| Mkdir (path : list Z) : call Z
| Chdir (path : list Z) : call Z
| Dup (fd : Z) : call Z
| Sbrk (n : Z) : call Z
| SleepTicks (n : Z) : call Z.

Inductive U (A : Type) : Type :=
| Ret (a : A)
| Exit
| Crash (what : string)
| Stuck
| Call {X : Type} (c : call X) (k : X → U A).
Arguments Ret {A} a.
Arguments Exit {A}.
Arguments Crash {A} what.
Arguments Stuck {A}.
Arguments Call {A X} c k.

#[global] Instance U_ret : MRet U := @Ret.
#[global] Instance U_bind : MBind U := λ A B f,
  fix go (m : U A) : U B :=
    match m with
    | Ret a => f a
    | Exit => Exit
    | Crash e => Crash e
    | Stuck => Stuck
    | Call c k => Call c (λ x, go (k x))
    end.

Definition sys {X} (c : call X) : U X := Call c Ret.

(** How a program ended, with the state of the world it left behind. *)
Inductive ending (A : Type) : Type :=
| Done (a : A)
| Exited
| Crashed (what : string)
| Running.
Arguments Done {A} a.
Arguments Exited {A}.
Arguments Crashed {A} what.
Arguments Running {A}.

Definition handler (S : Type) : Type := ∀ X, call X → S → X * S.

Fixpoint run {S A} (h : handler S) (m : U A) (s : S) : ending A * S :=
  match m with
  | Ret a => (Done a, s)
  | Exit => (Exited, s)
  | Crash e => (Crashed e, s)
  | Stuck => (Running, s)
  | Call c k => let '(x, s') := h _ c s in run h (k x) s'
  end.

Lemma run_bind {S A B} (h : handler S) (m : U A) (f : A → U B) s :
  run h (m ≫= f) s =
  match run h m s with
  | (Done a, s') => run h (f a) s'
  | (Exited, s') => (Exited, s')
  | (Crashed e, s') => (Crashed e, s')
  | (Running, s') => (Running, s')
  end.
Proof.
  revert s. induction m as [a| |e| |X c k IH]; intros s; try done.
  simpl. destruct (h X c s) as [x s']. apply IH.
Qed.

Lemma run_bind_done {S A B} (h : handler S) (m : U A) (f : A → U B) s a s' :
  run h m s = (Done a, s') → run h (m ≫= f) s = run h (f a) s'.
Proof. intros H. by rewrite run_bind, H. Qed.
Lemma run_bind_exit {S A B} (h : handler S) (m : U A) (f : A → U B) s s' :
  run h m s = (Exited, s') → run h (m ≫= f) s = (Exited, s').
Proof. intros H. by rewrite run_bind, H. Qed.

(** ** ulib.c *)

Fixpoint strcmp (p q : list Z) : Z :=
  match p, q with
  | a :: p, b :: q => if a =? b then strcmp p q else u8 a - u8 b
  | [], b :: _ => - u8 b
  | a :: _, [] => u8 a
  | [], [] => 0
  end.

Fixpoint strchr (s : list Z) (c : Z) : option (list Z) :=
  match s with
  | [] => None
  | d :: s' => if d =? c then Some s else strchr s' c
  end.
(** As a condition. *)
Definition in_set (s : list Z) (c : Z) : bool :=
  match strchr s c with Some _ => true | None => false end.

(** The loop of [gets] with room for [n] more bytes. *)
Fixpoint gets_loop (n : nat) (buf : list Z) : U (list Z) :=
  match n with
  | O => mret buf
  | S n =>
      '(cc, bs) ← sys (Read 0 1);
      if cc <? 1 then mret buf
      else
        match bs with
        | c :: _ =>
            if (c =? 10) || (c =? 13) then mret (buf ++ [c]) else gets_loop n (buf ++ [c])
        | [] => Crash "gets"
        end
  end.
Definition gets (max : Z) : U (list Z) := gets_loop (Z.to_nat (max - 1)) [].

Definition stat_of (n : list Z) : U (option stat) :=
  fd ← sys (Open n 0);
  if fd <? 0 then mret None
  else
    r ← sys (Fstat fd);
    _ ← sys (Close fd);
    mret r.

Fixpoint atoi_loop (s : list Z) (n : Z) : Z :=
  match s with
  | c :: s => if (48 <=? c) && (c <=? 57) then atoi_loop s (s32 (n * 10 + c - 48)) else n
  | [] => n
  end.
Definition atoi (s : list Z) : Z := atoi_loop s 0.

(** ** printf.c *)

Definition putc (fd c : Z) : U unit := _ ← sys (Write fd [u8 c]); mret tt.

Definition digits : list Z := [48; 49; 50; 51; 52; 53; 54; 55; 56; 57; 65; 66; 67; 68; 69; 70].

(** The loop that stores the digits, least significant first, in [buf]. *)
Fixpoint print_digits (fuel : nat) (x base : Z) (buf : list Z) : U (list Z) :=
  match fuel with
  | O => Stuck
  | S fuel =>
      if (length buf <? 16)%nat then
        let buf := buf ++ [default 0 (digits !! Z.to_nat (x mod base))] in
        if negb (x / base =? 0) then print_digits fuel (x / base) base buf else mret buf
      else Crash "printint"
  end.

Fixpoint putcs (fd : Z) (s : list Z) : U unit :=
  match s with
  | [] => mret tt
  | c :: s => putc fd c;; putcs fd s
  end.

Definition printint (fd xx base : Z) (sgn : bool) : U unit :=
  let neg := sgn && (xx <? 0) in
  let x := if neg then u32 (- xx) else u32 xx in
  buf ← print_digits 33 x base [];
  (if neg && negb (length buf <? 16)%nat then Crash "printint" else mret tt);;
  putcs fd (rev (if neg then buf ++ [45] else buf)).

(** The arguments of [printf]: a word, or a pointer to a string. *)
Inductive arg : Type :=
| Int (x : Z)
| Str (s : option (list Z)).

Definition null_text : list Z := [40; 110; 117; 108; 108; 41].

Fixpoint printf_loop (fd : Z) (fmt : list Z) (ap : list arg) (state : bool) : U unit :=
  match fmt with
  | [] => mret tt
  | c :: fmt =>
      if state then
        if c =? 100 then
          match ap with
          | Int x :: ap => printint fd (s32 x) 10 true;; printf_loop fd fmt ap false
          | _ => Crash "printf"
          end
        else if (c =? 120) || (c =? 112) then
          match ap with
          | Int x :: ap => printint fd (s32 x) 16 false;; printf_loop fd fmt ap false
          | _ => Crash "printf"
          end
        else if c =? 115 then
          match ap with
          | Str s :: ap => putcs fd (default null_text s);; printf_loop fd fmt ap false
          | _ => Crash "printf"
          end
        else if c =? 99 then
          match ap with
          | Int x :: ap => putc fd x;; printf_loop fd fmt ap false
          | _ => Crash "printf"
          end
        else if c =? 37 then putc fd c;; printf_loop fd fmt ap false
        else putc fd 37;; putc fd c;; printf_loop fd fmt ap false
      else if c =? 37 then printf_loop fd fmt ap true
      else putc fd c;; printf_loop fd fmt ap false
  end.
Definition printf (fd : Z) (fmt : list Z) (ap : list arg) : U unit := printf_loop fd fmt ap false.

(** Text as bytes. *)
Definition bytes (s : string) : list Z :=
  (λ c, Z.of_nat (Ascii.nat_of_ascii c)) <$> String.list_ascii_of_string s.
