(* ===== verification/Sh.v ===== *)
(** * The shell (sh.c)

    The recursive-descent parser of command lines, and the runner.  The parser
    works on positions in the input buffer: a token is a pair of positions, its
    start and its end, and [nulterminate] ends the strings in place once the
    whole line is parsed.  The state of the parser is the position [*ps].
    Running out of memory in the constructors is not modelled. *)

From Stdlib Require Import ZArith Lia.
From stdpp Require Import base numbers strings list.
From S2P Require Import Prelude Disk Fs User Syscall.

Definition MAXARGS : nat := 10.

(** [struct cmd] and its variants over a representation [W] of strings; the
    NULL that ends [argv] is the end of the list. *)
Inductive cmd (W : Type) : Type :=
| EXEC (argv : list W)
| REDIR (c : cmd W) (file : W) (mode fd : Z)
| PIPE (left right : cmd W)
| LIST (left right : cmd W)
| BACK (c : cmd W).
Arguments EXEC {W} argv.
Arguments REDIR {W} c file mode fd.
Arguments PIPE {W} left right.
Arguments LIST {W} left right.
Arguments BACK {W} c.

Fixpoint cmd_map {W V} (f : W → V) (c : cmd W) : cmd V :=
  match c with
  | EXEC argv => EXEC (f <$> argv)
  | REDIR c file mode fd => REDIR (cmd_map f c) (f file) mode fd
  | PIPE l r => PIPE (cmd_map f l) (cmd_map f r)
  | LIST l r => LIST (cmd_map f l) (cmd_map f r)
  | BACK c => BACK (cmd_map f c)
  end.

(** Start and end of a string in the buffer ([argv[i]] and [eargv[i]], [file]
    and [efile]). *)
Definition span : Type := nat * nat.

(** [cmd->argv[argc] = q]: [parseexec] keeps a pointer to the [execcmd] under
    the redirections it has read so far. *)
Fixpoint add_arg (w : span) (c : cmd span) : cmd span :=
  match c with
  | EXEC argv => EXEC (argv ++ [w])
  | REDIR c file mode fd => REDIR (add_arg w c) file mode fd
  | _ => c
  end.

(** ** Tokens *)

Definition whitespace : list Z := [32; 9; 13; 10; 11].
Definition symbols : list Z := [60; 124; 62; 38; 59; 40; 41].
Definition white (c : Z) : bool := in_set whitespace c.
Definition symbol (c : Z) : bool := in_set symbols c.

(** The byte at a position of the buffer. *)
Definition at_ (buf : list Z) (s : nat) : Z := default 0 (buf !! s).

(** The bytes from a position up to the next NUL. *)
Fixpoint cstring (bs : list Z) : list Z :=
  match bs with
  | [] => []
  | c :: bs => if c =? 0 then [] else c :: cstring bs
  end.
Definition string_at (buf : list Z) (s : nat) : list Z := cstring (drop s buf).

(** Bytes as text. *)
Definition text (l : list Z) : string :=
  String.string_of_list_ascii ((λ c, Ascii.ascii_of_nat (Z.to_nat (u8 c))) <$> l).

Section parser.
Context (buf : list Z) (es : nat).

(** The loops over white space and words, with [n] bytes up to [es]. *)
Fixpoint skip_while (f : Z → bool) (n s : nat) : nat :=
  match n with
  | O => s
  | S n => if f (at_ buf s) then skip_while f n (S s) else s
  end.
Definition skip (f : Z → bool) (s : nat) : nat := skip_while f (es - s) s.

(** The [switch] of [gettoken]: the token at [s] and the position behind it. *)
Definition token (s : nat) : Z * nat :=
  let c := at_ buf s in
  if c =? 0 then (0, s)
  else if (c =? 124) || (c =? 40) || (c =? 41) || (c =? 59) || (c =? 38) || (c =? 60) then (c, S s)
  else if c =? 62 then
    if at_ buf (S s) =? 62 then (43, S (S s)) else (c, S s)
  else (97, skip (λ c, negb (white c) && negb (symbol c)) s).

Definition gettoken : M nat (Z * span) :=
  s ← Prelude.gets id;
  let q := skip white s in
  let '(ret, eq) := token q in
  modify (λ _, skip white eq);;
  mret (ret, (q, eq)).

Definition peek (toks : list Z) : M nat bool :=
  s ← Prelude.gets id;
  let s := skip white s in
  modify (λ _, s);;
  mret (negb (at_ buf s =? 0) && in_set toks (at_ buf s)).

(** ** The parser *)

Definition redirect (tok : Z) (c : cmd span) (w : span) : cmd span :=
  if tok =? 60 then REDIR c w O_RDONLY 0
  else if tok =? 62 then REDIR c w (Z.lor O_WRONLY O_CREATE) 1
  else if tok =? 43 then REDIR c w (Z.lor O_WRONLY O_CREATE) 1
  else c.

Fixpoint parseredirs (fuel : nat) (c : cmd span) : M nat (cmd span) :=
  match fuel with
  | O => nofuel
  | S fuel =>
      b ← peek [60; 62];
      if b : bool then
        '(tok, _) ← gettoken;
        '(t, w) ← gettoken;
        if negb (t =? 97) then panic "missing file for redirection"
        else parseredirs fuel (redirect tok c w)
      else mret c
  end.

(** The loop of [parseexec]. *)
Fixpoint exec_loop (fuel argc : nat) (ret : cmd span) : M nat (cmd span) :=
  match fuel with
  | O => nofuel
  | S fuel =>
      b ← peek [124; 41; 38; 59];
      if b : bool then mret ret
      else
        '(tok, w) ← gettoken;
        if tok =? 0 then mret ret
        else if negb (tok =? 97) then panic "syntax"
        else if (MAXARGS <=? argc)%nat then undef "argv"
        else
          let ret := add_arg w ret in
          let argc := S argc in
          if (MAXARGS <=? argc)%nat then panic "too many args"
          else
            ret ← parseredirs (S es) ret;
            exec_loop fuel argc ret
  end.

(** The loop of [parseline] over the background marks. *)
Fixpoint back_loop (fuel : nat) (c : cmd span) : M nat (cmd span) :=
  match fuel with
  | O => nofuel
  | S fuel =>
      b ← peek [38];
      if b : bool then _ ← gettoken; back_loop fuel (BACK c) else mret c
  end.

Fixpoint parseline (fuel : nat) : M nat (cmd span) :=
  match fuel with
  | O => nofuel
  | S fuel =>
      c ← parsepipe fuel;
      c ← back_loop (S es) c;
      b ← peek [59];
      if b : bool then
        _ ← gettoken;
        r ← parseline fuel;
        mret (LIST c r)
      else mret c
  end
with parsepipe (fuel : nat) : M nat (cmd span) :=
  match fuel with
  | O => nofuel
  | S fuel =>
      c ← parseexec fuel;
      b ← peek [124];
      if b : bool then
        _ ← gettoken;
        r ← parsepipe fuel;
        mret (PIPE c r)
      else mret c
  end
with parseexec (fuel : nat) : M nat (cmd span) :=
  match fuel with
  | O => nofuel
  | S fuel =>
      b ← peek [40];
      if b : bool then parseblock fuel
      else
        ret ← parseredirs (S es) (EXEC []);
        exec_loop (S es) 0 ret
  end
with parseblock (fuel : nat) : M nat (cmd span) :=
  match fuel with
  | O => nofuel
  | S fuel =>
      b ← peek [40];
      if negb b then panic "parseblock"
      else
        _ ← gettoken;
        c ← parseline fuel;
        b ← peek [41];
        if negb b then panic "syntax - missing )"
        else
          _ ← gettoken;
          parseredirs (S es) c
  end.

(** The part of [parsecmd] that reads the line: every nested call has passed a
    symbol, so four levels for each byte and four to start with are enough.  The
    message names what is left of the line; with the newline that [panic] prints
    it is two lines. *)
Definition parse_text : M nat (cmd span) :=
  c ← parseline (4 * es + 4);
  _ ← peek [];
  s ← Prelude.gets id;
  if negb (s =? es)%nat
  then panic (String.append "leftovers: " (String.append (text (string_at buf s))
         (String.String (Ascii.ascii_of_nat 10) "syntax")))
  else mret c.
End parser.

(** The writes of [nulterminate] to the buffer. *)
Fixpoint nulterminate (c : cmd span) (buf : list Z) : list Z :=
  match c with
  | EXEC argv => foldl (λ b w, <[w.2 := 0]> b) buf argv
  | REDIR c file _ _ => <[file.2 := 0]> (nulterminate c buf)
  | PIPE l r => nulterminate r (nulterminate l buf)
  | LIST l r => nulterminate r (nulterminate l buf)
  | BACK c => nulterminate c buf
  end.

(** [parsecmd], on the buffer that is its argument. *)
Definition parsecmd : M (list Z) (cmd span) := λ buf,
  match parse_text buf (length (string_at buf 0%nat)) 0%nat with
  | Ok c _ => Ok c (nulterminate c buf)
  | Panic e => Panic e
  | Sleep _ _ => Undef "sleep"
  | Undef e => Undef e
  | NoFuel => NoFuel
  end.

(** ** Running commands *)

(** [panic] of the shell: a message and the end of the process. *)
Definition sh_panic {A} (s : string) : U A := printf 2 (bytes "%s" ++ [10]) [Str (Some (bytes s))];; Exit.

Definition fork1 : U Z :=
  pid ← sys Fork;
  if pid =? -1 then sh_panic "fork" else mret pid.

(** Never returns. *)
Fixpoint runcmd (c : cmd (list Z)) : U unit :=
  match c with
  | EXEC argv =>
      match argv with
      | [] => Exit
      | a :: _ =>
          _ ← sys (Exec a argv);
          printf 2 (bytes "exec %s failed" ++ [10]) [Str (Some a)];;
          Exit
      end
  | REDIR c file mode fd =>
      _ ← sys (Close fd);
      r ← sys (Open file mode);
      if r <? 0 then
        printf 2 (bytes "open %s failed" ++ [10]) [Str (Some file)];;
        Exit
      else
        runcmd c;;
        Exit
  | LIST l r =>
      pid ← fork1;
      (if pid =? 0 then runcmd l else mret tt);;
      _ ← sys Wait;
      runcmd r;;
      Exit
  | PIPE l r =>
      p ← sys Pipe;
      match p with
      | None => sh_panic "pipe"
      | Some (p0, p1) =>
          pid ← fork1;
          (if pid =? 0 then
             _ ← sys (Close 1);
             _ ← sys (Dup p1);
             _ ← sys (Close p0);
             _ ← sys (Close p1);
             runcmd l
           else mret tt);;
          pid ← fork1;
          (if pid =? 0 then
             _ ← sys (Close 0);
             _ ← sys (Dup p0);
             _ ← sys (Close p0);
             _ ← sys (Close p1);
             runcmd r
           else mret tt);;
          _ ← sys (Close p0);
          _ ← sys (Close p1);
          _ ← sys Wait;
          _ ← sys Wait;
          Exit
      end
  | BACK c =>
      pid ← fork1;
      (if pid =? 0 then runcmd c else mret tt);;
      Exit
  end.

(** The buffer holds the bytes read and then zeros. *)
Definition getcmd (nbuf : Z) : U (list Z) :=
  printf 2 (bytes "$ ") [];;
  User.gets nbuf.

Definition is_cd (line : list Z) : bool :=
  (at_ line 0 =? 99) && (at_ line 1 =? 100) && (at_ line 2 =? 32).

(** A line of input: [cd] in the shell itself, anything else in a child.  The
    buffer of the shell is [sizeof(buf)] = 100 bytes long. *)
Definition run_line (line : list Z) : U unit :=
  if is_cd line then
    let s := cstring line in
    let dir := drop 3 (take (length s - 1) s) in
    r ← sys (Chdir dir);
    if r <? 0 then printf 2 (bytes "cannot cd %s" ++ [10]) [Str (Some dir)] else mret tt
  else
    pid ← fork1;
    (if pid =? 0 then
       match parsecmd (line ++ replicate (100 - length line) 0) with
       | Ok c buf => runcmd (cmd_map (λ w, string_at buf w.1) c)
       | Panic e => sh_panic e
       | Undef e => Crash e
       | _ => Stuck
       end
     else mret tt);;
    _ ← sys Wait;
    mret tt.

(** [while((fd = open(console)) >= 0) ...]: make descriptors 0 to 2 open. *)
Fixpoint open_console (fuel : nat) : U unit :=
  match fuel with
  | O => Stuck
  | S fuel =>
      fd ← sys (Open (bytes "console") O_RDWR);
      if fd <? 0 then mret tt
      else if fd >=? 3 then _ ← sys (Close fd); mret tt
      else open_console fuel
  end.

(** The loop over the lines; [fuel] bounds their number. *)
Fixpoint sh_loop (fuel : nat) : U unit :=
  match fuel with
  | O => Stuck
  | S fuel =>
      line ← getcmd 100;
      match line with
      | [] => mret tt
      | c :: _ => if c =? 0 then mret tt else run_line line;; sh_loop fuel
      end
  end.

Definition sh_main (fuel : nat) : U unit :=
  open_console 5;;
  sh_loop fuel;;
  Exit.
