(* ===== verification/ShRun.v ===== *)
(** * What the shell starts (sh.c: runcmd)

    The processes a command line starts, and the files and pipes their
    descriptors refer to.  System calls are answered the way the kernel does:
    [fork] goes on in both processes, descriptors are the lowest free ones
    ([free_fd] of [Syscall.v]), and a successful [exec] ends the shell's own
    code. *)

From Stdlib Require Import ZArith Lia.
From stdpp Require Import base numbers strings list.
From S2P Require Import Prelude Disk Fs User Syscall Sh.

(** What a descriptor refers to; a pipe is named after the point where it was
    created. *)
Inductive obj : Type :=
| Inherited (n : nat)
| OFile (path : list Z) (mode : Z)
| OPipe (id : list nat) (wr : bool).

(** A process: how it came about, its descriptors, and what it has executed. *)
Record pstate := PState {
  ps_id : list nat;
  ps_fd : list (option obj);
  ps_argv : option (list (list Z));
}.
Definition set_id (b : nat) (s : pstate) : pstate := PState (b :: ps_id s) (ps_fd s) (ps_argv s).
Definition set_fd (t : list (option obj)) (s : pstate) : pstate := PState (ps_id s) t (ps_argv s).

(** The states in which the processes of a program end.  A call has a list of
    continuations; [None] is the end of the program. *)
Fixpoint ends {S A} (h : ∀ X, call X → S → list (option X * S)) (m : U A) (s : S) : list S :=
  match m with
  | Call c k =>
      mjoin ((λ '(o, s'), match o with Some x => ends h (k x) s' | None => [s'] end) <$> h _ c s)
  | _ => [s]
  end.

Section run.
Context (can_open : list Z → Z → bool).

(** Put an object at the lowest free descriptor. *)
Definition alloc_fd (o : obj) (s : pstate) : option (nat * pstate) :=
  fd ← free_fd (ps_fd s) 0%nat; Some (fd, set_fd (<[fd := Some o]> (ps_fd s)) s).

Definition sh_call (X : Type) (c : call X) (s : pstate) : list (option X * pstate) :=
  match c in call X return list (option X * pstate) with
  | Fork => [(Some 0, set_id 0 s); (Some 1, set_id 1 s)]
  | Wait => [(Some 1, s)]
  | Pipe =>
      match alloc_fd (OPipe (ps_id s) false) s with
      | Some (r, s1) =>
          match alloc_fd (OPipe (ps_id s) true) s1 with
          | Some (w, s2) => [(Some (Some (Z.of_nat r, Z.of_nat w)), set_id 2 s2)]
          | None => [(Some None, s)]
          end
      | None => [(Some None, s)]
      end
  | Write _ bs => [(Some (Z.of_nat (length bs)), s)]
  | Read _ _ => [(Some (0, []), s)]
  | Close fd => [(Some 0, set_fd (<[Z.to_nat fd := None]> (ps_fd s)) s)]
  | Exec _ argv => [(None, PState (ps_id s) (ps_fd s) (Some argv))]
  | Open path mode =>
      if can_open path mode then
        match alloc_fd (OFile path mode) s with
        | Some (fd, s1) => [(Some (Z.of_nat fd), s1)]
        | None => [(Some (-1), s)]
        end
      else [(Some (-1), s)]
  | Dup fd =>
      match ps_fd s !! Z.to_nat fd with
      | Some (Some o) =>
          match alloc_fd o s with
          | Some (fd, s1) => [(Some (Z.of_nat fd), s1)]
          | None => [(Some (-1), s)]
          end
      | _ => [(Some (-1), s)]
      end
  | Fstat _ => [(Some None, s)]
  | Kill _ | Unlink _ | Mkdir _ | Chdir _ | Sbrk _ | SleepTicks _ => [(Some (-1), s)]
  | Mknod _ _ _ | Link _ _ => [(Some (-1), s)]
  end.

(** The programs started, with their descriptors. *)
Definition started (s : pstate) : option (list (list Z) * list (option obj)) :=
  argv ← ps_argv s; Some (argv, ps_fd s).
Definition launches {A} (m : U A) (s : pstate) : list (list (list Z) * list (option obj)) :=
  omap started (ends sh_call m s).

(** ** What a command line means *)

(** Standard input, output and error, and nothing else. *)
Definition std (a b e : obj) : list (option obj) := [Some a; Some b; Some e] ++ replicate 13 None.

(** The programs of a command with their descriptors: a redirection replaces
    one, a pipe joins the output of its left side to the input of its right
    side, and both sides keep nothing else of it. *)
Fixpoint wiring (id : list nat) (c : cmd (list Z)) (a b e : obj) : list (list (list Z) * list (option obj)) :=
  match c with
  | EXEC argv => match argv with [] => [] | _ => [(argv, std a b e)] end
  | REDIR c file mode fd =>
      if can_open file mode then
        if fd =? 0 then wiring id c (OFile file mode) b e else wiring id c a (OFile file mode) e
      else []
  | PIPE l r =>
      wiring (0%nat :: 2%nat :: id) l a (OPipe id true) e ++
      wiring (0%nat :: 1%nat :: 2%nat :: id) r (OPipe id false) b e
  | LIST l r => wiring (0%nat :: id) l a b e ++ wiring (1%nat :: id) r a b e
  | BACK c => wiring (0%nat :: id) c a b e
  end.

(** Redirections of standard input or output, as the parser makes them. *)
Fixpoint redirs_ok (c : cmd (list Z)) : bool :=
  match c with
  | EXEC _ => true
  | REDIR c _ _ fd => ((fd =? 0) || (fd =? 1)) && redirs_ok c
  | PIPE l r => redirs_ok l && redirs_ok r
  | LIST l r => redirs_ok l && redirs_ok r
  | BACK c => redirs_ok c
  end.

(** ** Proof *)

Lemma launches_call {A X} (c : call X) (k : X → U A) s :
  launches (Call c k) s =
  mjoin ((λ '(o, s'), match o with Some x => launches (k x) s' | None => omap started [s'] end) <$> sh_call X c s).
Proof.
  unfold launches. cbn [ends]. induction (sh_call X c s) as [|[o s'] l IH]; [done|].
  rewrite !fmap_cons. cbn [mjoin list_join]. rewrite omap_app. f_equal; [by destruct o|exact IH].
Qed.

(** A message changes nothing. *)
Inductive talks {A} : U A → Prop :=
| talks_ret a : talks (Ret a)
| talks_exit : talks Exit
| talks_crash e : talks (Crash e)
| talks_stuck : talks Stuck
| talks_write fd bs k : (∀ x, talks (k x)) → talks (Call (Write fd bs) k).

Lemma talks_bind {A B} (m : U A) (f : A → U B) : talks m → (∀ a, talks (f a)) → talks (m ≫= f).
Proof. intros Hm Hf. induction Hm as [a| |e| |fd bs k _ IH]; [apply Hf|constructor..]. exact IH. Qed.

Lemma talks_putc fd c : talks (putc fd c).
Proof. constructor. intros x. constructor. Qed.
Lemma talks_putcs fd s : talks (putcs fd s).
Proof. induction s as [|c s IH]; [constructor|]. apply talks_bind; [apply talks_putc|done]. Qed.
Lemma talks_digits n x base buf : talks (print_digits n x base buf).
Proof. revert x buf. induction n as [|n IH]; intros; simpl; repeat case_match; try apply IH; constructor. Qed.
Lemma talks_printint fd x base sgn : talks (printint fd x base sgn).
Proof.
  apply talks_bind; [apply talks_digits|]. intros buf.
  apply talks_bind; [case_match; constructor|]. intros _. apply talks_putcs.
Qed.
Lemma talks_printf fd fmt ap : talks (printf fd fmt ap).
Proof.
  unfold printf. generalize false. revert ap.
  induction fmt as [|c fmt IH]; intros ap st; [constructor|]. cbn [printf_loop].
  repeat case_match;
    repeat (apply talks_bind; [first [apply talks_putc|apply talks_putcs|apply talks_printint]|intros _]);
    first [apply IH|constructor].
Qed.

Lemma talks_quiet {A} (m : U A) s : talks m → ps_argv s = None → launches m s = [].
Proof.
  intros Hm Hs. induction Hm as [a| |e| |fd bs k _ IH]; [unfold launches; simpl; unfold started; by rewrite Hs..|].
  rewrite launches_call. simpl. by rewrite IH, app_nil_r.
Qed.
Lemma launches_exit s : ps_argv s = None → launches (Exit : U unit) s = [].
Proof. apply talks_quiet. constructor. Qed.

(** [runcmd] never returns. *)
Inductive never {A} : U A → Prop :=
| never_exit : never Exit
| never_crash e : never (Crash e)
| never_stuck : never Stuck
| never_call X (c : call X) k : (∀ x, never (k x)) → never (Call c k).

Lemma never_bind {A B} (m : U A) (f : A → U B) : never m → never (m ≫= f).
Proof. induction 1; by constructor. Qed.
Lemma never_after {A B} (m : U A) (f : A → U B) : (∀ a, never (f a)) → never (m ≫= f).
Proof. intros Hf. induction m; [apply Hf|constructor..]. done. Qed.
Lemma never_runcmd c : never (runcmd c).
Proof.
  induction c as [argv|c IH file mode fd|l IHl r IHr|l IHl r IHr|c IH].
  - destruct argv as [|a argv]; [constructor|]. apply never_after. intros _. apply never_after. constructor.
  - do 2 (apply never_after; intros ?). case_match; apply never_after; constructor.
  - apply never_after. intros [[p0 p1]|]; [|apply never_after; constructor].
    do 8 (apply never_after; intros ?). constructor.
  - do 4 (apply never_after; intros ?). constructor.
  - do 2 (apply never_after; intros ?). constructor.
Qed.

Lemma launches_never {A B} (m : U A) (f : A → U B) s : never m → launches (m ≫= f) s = launches m s.
Proof.
  intros Hm. revert s. induction Hm as [| | |X c k _ IH]; intros s; try done.
  change (Call c k ≫= f) with (Call c (λ x, k x ≫= f)). rewrite !launches_call. f_equal.
  apply list_fmap_ext. intros i [[x|] s'] _; [apply IH|done].
Qed.

Lemma launches_sys {A X} (c : call X) (f : X → U A) s x s' :
  sh_call X c s = [(Some x, s')] → launches (sys c ≫= f) s = launches (f x) s'.
Proof.
  intros H. change (sys c ≫= f) with (Call c f). rewrite launches_call, H. simpl. apply app_nil_r.
Qed.
Lemma launches_fork {A} (f : Z → U A) s :
  launches (fork1 ≫= f) s = launches (f 0) (set_id 0 s) ++ launches (f 1) (set_id 1 s).
Proof.
  unfold fork1. change (launches _ s) with (launches (Call Fork (λ pid, (if pid =? -1 then sh_panic "fork" else mret pid) ≫= f)) s).
  rewrite launches_call. simpl. by rewrite app_nil_r.
Qed.
Ltac step := erewrite launches_sys by reflexivity.

Lemma wiring_redir id a b e file mode fd {A} (f : Z → U A) :
  fd = 0 ∨ fd = 1 → can_open file mode = true →
  launches (_ ← sys (Close fd); r ← sys (Open file mode); f r) (PState id (std a b e) None) =
  launches (f fd) (PState id (if fd =? 0 then std (OFile file mode) b e else std a (OFile file mode) e) None).
Proof.
  intros Hfd Ho. step.
  destruct Hfd as [-> | ->]; (erewrite launches_sys; [|cbn; by rewrite Ho]); reflexivity.
Qed.

Lemma runs_wiring c id a b e :
  redirs_ok c = true → launches (runcmd c) (PState id (std a b e) None) = wiring id c a b e.
Proof.
  revert id a b e. induction c as [argv|c IH file mode fd|l IHl r IHr|l IHl r IHr|c IH]; intros id a b e Hok.
  - by destruct argv.
  - cbn [redirs_ok] in Hok. apply andb_true_iff in Hok as [Hfd Hok]. cbn [runcmd wiring].
    destruct (can_open file mode) eqn:Ho.
    + assert (fd = 0 ∨ fd = 1) as Hf by (rewrite orb_true_iff, !Z.eqb_eq in Hfd; done).
      rewrite wiring_redir by done. destruct (Z.ltb_spec fd 0); [lia|].
      rewrite launches_never by apply never_runcmd. destruct (fd =? 0); by apply IH.
    + step. erewrite launches_sys; [|cbn; by rewrite Ho]. cbn [Z.ltb Z.compare].
      apply talks_quiet; [|done]. apply talks_bind; [apply talks_printf|constructor].
  - cbn [redirs_ok] in Hok. apply andb_true_iff in Hok as [Hl Hr]. cbn [runcmd wiring].
    step. cbn iota. rewrite launches_fork. f_equal.
    + cbn [Z.eqb]. rewrite launches_never by (do 4 (apply never_after; intros ?); apply never_runcmd).
      do 4 step. by apply IHl.
    + cbn [Z.eqb]. change (mret tt ≫= ?f) with (f tt). cbn beta. rewrite launches_fork.
      cbn [Z.eqb]. rewrite launches_never by (do 4 (apply never_after; intros ?); apply never_runcmd).
      do 4 step. change (mret tt ≫= ?f) with (f tt). cbn beta. do 4 step.
      rewrite launches_exit by done. rewrite app_nil_r. by apply IHr.
  - cbn [redirs_ok] in Hok. apply andb_true_iff in Hok as [Hl Hr]. cbn [runcmd wiring].
    rewrite launches_fork. cbn [Z.eqb]. rewrite launches_never by apply never_runcmd.
    change (mret tt ≫= ?f) with (f tt). cbn beta. step. rewrite launches_never by apply never_runcmd.
    f_equal; [by apply IHl|by apply IHr].
  - cbn [runcmd wiring]. rewrite launches_fork. cbn [Z.eqb]. rewrite launches_never by apply never_runcmd.
    change (mret tt ≫= ?f) with (f tt). cbn beta. rewrite launches_exit, app_nil_r by done. by apply IH.
Qed.
End run.
