(* ===== verification/ShSpec.v ===== *)
(** * Correctness of the shell's parser (sh.c)

    The grammar of command lines as a data type [line], its tokens and its
    meaning.  Any text that spells the tokens of a line, with white space
    wherever it is allowed, is parsed to the meaning of the line, and the strings
    of the command are the words of the text once [nulterminate] has run.  On
    every input at all the parser terminates, with a command or with a message,
    and stays inside [argv]. *)

From Stdlib Require Import ZArith Lia.
From stdpp Require Import base numbers strings list sets.
From S2P Require Import Prelude Disk Fs User Syscall Sh ShRun.

(** ** Grammar *)

Inductive direction := In | Out | Append.
Definition redir : Type := direction * list Z.

Inductive line : Type :=
| LEnd (p : pipeline) (n : nat)
| LSeq (p : pipeline) (n : nat) (l : line)
with pipeline : Type :=
| POne (i : item)
| PCons (i : item) (p : pipeline)
with item : Type :=
| Block (l : line) (rs : list redir)
| Simple (rs : list redir) (args : list (list Z * list redir)).

Scheme line_rec2 := Induction for line Sort Prop
  with pipeline_rec2 := Induction for pipeline Sort Prop
  with item_rec2 := Induction for item Sort Prop.
Combined Scheme grammar_ind from line_rec2, pipeline_rec2, item_rec2.

Inductive tok : Type :=
| TWord (w : list Z)
| TSym (c : Z)
| TAppend.

Definition redir_toks (r : redir) : list tok :=
  [match r.1 with In => TSym 60 | Out => TSym 62 | Append => TAppend end; TWord r.2].
Definition redirs_toks (rs : list redir) : list tok := mjoin (redir_toks <$> rs).
Definition args_toks (args : list (list Z * list redir)) : list tok :=
  mjoin ((λ a, TWord a.1 :: redirs_toks a.2) <$> args).

Fixpoint line_toks (l : line) : list tok :=
  match l with
  | LEnd p n => pipe_toks p ++ replicate n (TSym 38)
  | LSeq p n l => pipe_toks p ++ replicate n (TSym 38) ++ TSym 59 :: line_toks l
  end
with pipe_toks (p : pipeline) : list tok :=
  match p with
  | POne i => item_toks i
  | PCons i p => item_toks i ++ TSym 124 :: pipe_toks p
  end
with item_toks (i : item) : list tok :=
  match i with
  | Block l rs => TSym 40 :: line_toks l ++ TSym 41 :: redirs_toks rs
  | Simple rs args => redirs_toks rs ++ args_toks args
  end.

(** ** Meaning *)

Definition den_redir (c : cmd (list Z)) (r : redir) : cmd (list Z) :=
  match r.1 with
  | In => REDIR c r.2 O_RDONLY 0
  | Out | Append => REDIR c r.2 (Z.lor O_WRONLY O_CREATE) 1
  end.
Definition den_redirs (c : cmd (list Z)) (rs : list redir) : cmd (list Z) := foldl den_redir c rs.

Fixpoint den_line (l : line) : cmd (list Z) :=
  match l with
  | LEnd p n => Nat.iter n BACK (den_pipe p)
  | LSeq p n l => LIST (Nat.iter n BACK (den_pipe p)) (den_line l)
  end
with den_pipe (p : pipeline) : cmd (list Z) :=
  match p with
  | POne i => den_item i
  | PCons i p => PIPE (den_item i) (den_pipe p)
  end
with den_item (i : item) : cmd (list Z) :=
  match i with
  | Block l rs => den_redirs (den_line l) rs
  | Simple rs args => den_redirs (EXEC args.*1) (rs ++ mjoin args.*2)
  end.

(** Words are not empty and have neither white space, symbols nor NUL; a
    command has at most nine. *)
Definition word_char (c : Z) : bool := negb (white c) && negb (symbol c).
Definition word_ok (w : list Z) : Prop := w ≠ [] ∧ Forall (λ c, word_char c = true ∧ c ≠ 0) w.
Definition redirs_wf (rs : list redir) : Prop := Forall (λ r : redir, word_ok r.2) rs.
Definition args_wf (args : list (list Z * list redir)) : Prop :=
  Forall (λ a : list Z * list redir, word_ok a.1 ∧ redirs_wf a.2) args.

Fixpoint line_ok (l : line) : Prop :=
  match l with
  | LEnd p n => pipe_ok p
  | LSeq p n l => pipe_ok p ∧ line_ok l
  end
with pipe_ok (p : pipeline) : Prop :=
  match p with
  | POne i => item_ok i
  | PCons i p => item_ok i ∧ pipe_ok p
  end
with item_ok (i : item) : Prop :=
  match i with
  | Block l rs => line_ok l ∧ redirs_wf rs
  | Simple rs args => redirs_wf rs ∧ args_wf args ∧ (length args < MAXARGS)%nat
  end.

(** ** Spelling *)

Definition spell (t : tok) : list Z :=
  match t with TWord w => w | TSym c => [c] | TAppend => [62; 62] end.

(** No white space is needed between two tokens unless they would merge. *)
Definition apart (t : tok) (next : list Z) : Prop :=
  match t, next with
  | TWord _, c :: _ => word_char c = false
  | TSym 62, c :: _ => c ≠ 62
  | _, _ => True
  end.

Inductive spells : list tok → list Z → Prop :=
| spells_nil : spells [] []
| spells_cons t ts ws txt :
    Forall (λ c, white c = true) ws → spells ts txt → (ws = [] → apart t txt) →
    spells (t :: ts) (spell t ++ ws ++ txt).

Definition code (t : tok) : Z :=
  match t with TWord _ => 97 | TSym c => c | TAppend => 43 end.
Definition first (t : tok) : Z :=
  match t with TWord w => hd 0 w | TSym c => c | TAppend => 62 end.
Definition tok_ok (t : tok) : Prop :=
  match t with TWord w => word_ok w | TSym c => c ∈ symbols | TAppend => True end.

Lemma in_set_spec s c : in_set s c = true ↔ c ∈ s.
Proof.
  unfold in_set. induction s as [|d s IH]; cbn [strchr]; [split; [done|by intros ?%elem_of_nil]|].
  rewrite elem_of_cons. destruct (Z.eqb_spec d c) as [->|Hn]; [split; [by left|done]|].
  rewrite IH. split; [by right|by intros [?|?]].
Qed.

Lemma symbol_cases c : c ∈ symbols → c = 60 ∨ c = 124 ∨ c = 62 ∨ c = 38 ∨ c = 59 ∨ c = 40 ∨ c = 41.
Proof. unfold symbols. rewrite !elem_of_cons, elem_of_nil. naive_solver. Qed.
Lemma symbol_not_white c : symbol c = true → white c = false.
Proof. intros H%in_set_spec%symbol_cases. by destruct_or!; subst. Qed.
Lemma word_not_symbol c : word_char c = true → white c = false ∧ symbol c = false.
Proof. unfold word_char. by intros [?%negb_true_iff ?%negb_true_iff]%andb_true_iff. Qed.

Lemma first_solid t : tok_ok t → white (first t) = false ∧ first t ≠ 0.
Proof.
  destruct t as [w|c|]; simpl; [|intros H%symbol_cases; by destruct_or!; subst|done].
  intros [Hw Hc]. destruct w as [|c w]; [done|]. apply Forall_cons in Hc as [[Hc H0] _]. simpl.
  split; [by apply word_not_symbol|done].
Qed.
Lemma spell_first t : tok_ok t → ∃ r, spell t = first t :: r.
Proof. destruct t as [w|c|]; simpl; [|by exists []|by exists [62]]. intros [Hw _]. destruct w as [|c w]; [done|by exists w]. Qed.

(** The same command, over two representations of strings. *)
Inductive cmd_rel {V W} (R : V → W → Prop) : cmd V → cmd W → Prop :=
| rel_exec args ws : Forall2 R args ws → cmd_rel R (EXEC args) (EXEC ws)
| rel_redir c d v w mode fd : cmd_rel R c d → R v w → cmd_rel R (REDIR c v mode fd) (REDIR d w mode fd)
| rel_pipe c1 c2 d1 d2 : cmd_rel R c1 d1 → cmd_rel R c2 d2 → cmd_rel R (PIPE c1 c2) (PIPE d1 d2)
| rel_list c1 c2 d1 d2 : cmd_rel R c1 d1 → cmd_rel R c2 d2 → cmd_rel R (LIST c1 c2) (LIST d1 d2)
| rel_back c d : cmd_rel R c d → cmd_rel R (BACK c) (BACK d).

(** What may follow an item, a pipeline or a line. *)
Definition follows (set : list Z) (ts : list tok) : Prop :=
  match ts with [] => True | TSym c :: _ => c ∈ set | _ => False end.

(** What [peek] finds. *)
Definition peeks (toks : list Z) (ts : list tok) : bool :=
  match ts with [] => false | t :: _ => in_set toks (first t) end.

Lemma follows_mono A B ts : A ⊆ B → follows A ts → follows B ts.
Proof. intros H. destruct ts as [|[| |] ts]; simpl; auto. Qed.
Lemma follows_peeks set toks ts : follows set ts → Forall (λ c, in_set toks c = false) set → peeks toks ts = false.
Proof. intros H Hs. destruct ts as [|[w|c|] ts]; simpl in *; try done. by apply (Forall_forall _ _) with (x := c) in Hs. Qed.

Lemma word_peeks toks w ts : word_ok w → Forall (λ c, symbol c = true) toks → peeks toks (TWord w :: ts) = false.
Proof.
  intros [Hne Hc] Ht. destruct w as [|b w]; [done|]. simpl. apply Forall_cons in Hc as [[Hb _] _].
  apply word_not_symbol in Hb as [_ Hb]. destruct (in_set toks b) eqn:E; [|done]. apply in_set_spec in E.
  eapply Forall_forall in Ht; [|exact E]. congruence.
Qed.

Section text.
Context (full junk : list Z).
Context (Hnz : Forall (λ c, c ≠ 0) full).
Local Abbreviation buf := (full ++ 0 :: junk).
Local Abbreviation es := (length full).

(** [txt] is what is left of the line at position [s]. *)
Definition left_at (s : nat) (txt : list Z) : Prop := ∃ pre, full = pre ++ txt ∧ s = length pre.

Lemma left_at_byte s c txt : left_at s (c :: txt) → at_ buf s = c.
Proof.
  intros (pre & E & ->). unfold at_. rewrite E, <-app_assoc. simpl. by rewrite list_lookup_middle.
Qed.
Lemma left_at_end s : left_at s [] → at_ buf s = 0.
Proof. intros (pre & E & ->). rewrite app_nil_r in E. subst pre. unfold at_. by rewrite list_lookup_middle. Qed.
Lemma left_at_app s a txt : left_at s (a ++ txt) → left_at (s + length a) txt.
Proof. intros (pre & E & ->). exists (pre ++ a). by rewrite <-app_assoc, length_app. Qed.
Lemma left_at_cons s c txt : left_at s (c :: txt) → left_at (S s) txt.
Proof. intros H. rewrite <-Nat.add_1_r. by apply (left_at_app s [c]). Qed.
Lemma left_at_room s txt : left_at s txt → (es - s = length txt)%nat.
Proof. intros (pre & E & ->). rewrite E, length_app. lia. Qed.
Lemma left_at_nonzero s c txt : left_at s (c :: txt) → c ≠ 0.
Proof. intros (pre & E & _). rewrite E in Hnz. apply Forall_app in Hnz as [_ H]. by apply Forall_cons in H as [? _]. Qed.

(** The head of a text does not satisfy [f]. *)
Definition stops (f : Z → bool) (txt : list Z) : Prop := ∀ c r, txt = c :: r → f c = false.

Lemma skip_spec f a txt s :
  left_at s (a ++ txt) → Forall (λ c, f c = true) a → stops f txt → skip buf es f s = (s + length a)%nat.
Proof.
  intros H Ha Hst. unfold skip. rewrite (left_at_room _ _ H). clear Hnz.
  revert s H. induction Ha as [|c a Hc Ha IH]; intros s H; simpl.
  - destruct txt as [|c r]; [simpl; lia|]. simpl. rewrite (left_at_byte _ _ _ H), (Hst c r) by done. lia.
  - rewrite (left_at_byte _ _ _ H), Hc. rewrite IH by (by eapply left_at_cons). lia.
Qed.

(** At [s], white space and then the tokens [ts]. *)
Definition lead (s : nat) (ts : list tok) : Prop :=
  ∃ ws txt, left_at s (ws ++ txt) ∧ Forall (λ c, white c = true) ws ∧ spells ts txt ∧ Forall tok_ok ts.

Lemma lead_ok s ts : lead s ts → Forall tok_ok ts.
Proof. by intros (? & ? & _ & _ & _ & ?). Qed.

Lemma spells_stops ts txt : spells ts txt → Forall tok_ok ts → stops white txt.
Proof.
  intros H Ht c r E. destruct H as [|t ts ws txt]; [done|]. apply Forall_cons in Ht as [Ht _].
  destruct (spell_first t Ht) as [q Eq]. rewrite Eq in E. simplify_eq/=. by apply first_solid.
Qed.

(** The token at [s] once white space is skipped. *)
Lemma lead_skip s ts : lead s ts → ∃ txt, left_at (skip buf es white s) txt ∧ spells ts txt ∧ Forall tok_ok ts.
Proof.
  intros (ws & txt & H & Hw & Hs & Ht). exists txt.
  rewrite (skip_spec _ _ _ _ H Hw) by (by eapply spells_stops). split; [by apply left_at_app|done].
Qed.
Lemma left_lead s ts txt : left_at s txt → spells ts txt → Forall tok_ok ts → lead s ts.
Proof. intros H1 H2 H3. by exists [], txt. Qed.

Lemma peek_spec toks s ts : lead s ts → ∃ s', peek buf es toks s = Ok (peeks toks ts) s' ∧ lead s' ts.
Proof.
  intros H. destruct (lead_skip _ _ H) as (txt & Hl & Hs & Ht). eexists. split; [|by eapply left_lead].
  unfold peek. mrun. unfold modify. cbn. unfold mret, M_ret. f_equal. unfold id.
  destruct Hs as [|t ts ws txt Hw Hs Ha].
  - by rewrite (left_at_end _ Hl).
  - apply Forall_cons in Ht as [Ht _]. destruct (spell_first t Ht) as [q Eq]. rewrite Eq in Hl.
    rewrite (left_at_byte _ _ _ Hl). simpl. destruct (Z.eqb_spec (first t) 0) as [E|]; [|done].
    by apply first_solid in Ht as [_ ?].
Qed.

(** A string in the buffer: a word, with nothing behind it that could belong to
    it. *)
Definition word_at (w : list Z) (sp : span) : Prop :=
  ∃ post, left_at sp.1 (w ++ post) ∧ sp.2 = (sp.1 + length w)%nat ∧ word_ok w ∧ stops word_char post.

Lemma spells_apart t ws txt : (ws = [] → apart t txt) → Forall (λ c, white c = true) ws →
  (∃ w, t = TWord w) → stops word_char (ws ++ txt).
Proof.
  intros Ha Hw [w ->] c r E. destruct Hw as [|d ws Hd Hw]; simplify_eq/=; [by apply (Ha eq_refl)|].
  unfold word_char. by rewrite Hd.
Qed.

Lemma token_spec q t ws txt :
  left_at q (spell t ++ ws ++ txt) → tok_ok t → Forall (λ c, white c = true) ws → (ws = [] → apart t txt) →
  token buf es q = (code t, (q + length (spell t))%nat).
Proof.
  intros Hl Ht Hw Ha. destruct t as [w|c|].
  - assert (Hst : stops word_char (ws ++ txt)) by (eapply spells_apart; eauto).
    destruct Ht as [Hne Hc]. destruct w as [|c w]; [done|]. pose proof Hc as Hc'.
    apply Forall_cons in Hc as [[Hc H0] _]. destruct (word_not_symbol _ Hc) as [_ Hsym].
    assert (Hn : ¬ c ∈ symbols) by (by rewrite <-in_set_spec; unfold symbol in Hsym; rewrite Hsym).
    unfold symbols in Hn. rewrite !elem_of_cons in Hn. unfold token. simpl in Hl. rewrite (left_at_byte _ _ _ Hl).
    destruct (Z.eqb_spec c 0); [done|].
    assert ((c =? 124) || (c =? 40) || (c =? 41) || (c =? 59) || (c =? 38) || (c =? 60) = false) as ->
      by (rewrite !orb_false_iff, !Z.eqb_neq; naive_solver).
    destruct (Z.eqb_spec c 62); [naive_solver|]. simpl. f_equal.
    apply (skip_spec _ (c :: w) (ws ++ txt)); [done| |exact Hst].
    eapply Forall_impl; [exact Hc'|]. by intros d [Hd _].
  - pose proof (left_at_byte _ _ _ Hl) as E. unfold token. rewrite E. simpl. rewrite Nat.add_1_r.
    destruct (decide (c = 62)) as [->|Hn].
    + simpl. destruct (Z.eqb_spec (at_ buf (S q)) 62) as [E2|]; [|done]. exfalso.
      apply left_at_cons in Hl. destruct Hw as [|d ws Hd Hw].
      * simpl in Hl. destruct txt as [|d txt]; [by rewrite (left_at_end _ Hl) in E2|].
        rewrite (left_at_byte _ _ _ Hl) in E2. by apply (Ha eq_refl).
      * rewrite (left_at_byte _ _ _ Hl) in E2. by subst d.
    + apply symbol_cases in Ht. by destruct_or!; subst.
  - unfold token. rewrite (left_at_byte _ _ _ Hl). apply left_at_cons in Hl. simpl.
    rewrite (left_at_byte _ _ _ Hl). simpl. f_equal. lia.
Qed.

Lemma gettoken_spec s t ts :
  lead s (t :: ts) → ∃ sp s', gettoken buf es s = Ok (code t, sp) s' ∧ lead s' ts ∧
    ∀ w, t = TWord w → word_at w sp.
Proof.
  intros H. destruct (lead_skip _ _ H) as (txt & Hl & Hs & Ht). inversion Hs as [|t' ts' ws txt' Hw Hs' Ha]; simplify_eq.
  apply Forall_cons in Ht as [Ht Hts]. set (q := skip buf es white s) in *.
  pose proof (token_spec q t ws txt' Hl Ht Hw Ha) as E.
  exists (q, (q + length (spell t))%nat), (skip buf es white (q + length (spell t))). split; [|split].
  - unfold gettoken. mrun. unfold id. fold q. by rewrite E.
  - pose proof (left_at_app _ _ _ Hl) as Hl'. exists [], txt'. split; [|done].
    rewrite (skip_spec _ _ _ _ Hl' Hw) by (by eapply spells_stops). by apply left_at_app.
  - intros w ->. exists (ws ++ txt'). split; [done|]. split; [done|]. split; [done|].
    eapply spells_apart; eauto.
Qed.
Lemma gettoken_end s : lead s [] → ∃ sp s', gettoken buf es s = Ok (0, sp) s' ∧ lead s' [].
Proof.
  intros H. destruct (lead_skip _ _ H) as (txt & Hl & Hs & Ht). inversion Hs; simplify_eq.
  set (q := skip buf es white s) in *. exists (q, q), (skip buf es white q). split.
  - unfold gettoken. mrun. unfold id. fold q. unfold token. by rewrite (left_at_end _ Hl).
  - exists [], []. split; [|done]. simpl. by rewrite (skip_spec white [] [] q), Nat.add_0_r.
Qed.

(** Every token takes at least a byte. *)
Lemma lead_length s ts : lead s ts → (length ts ≤ es - s)%nat.
Proof.
  intros (ws & txt & Hl & _ & Hs & Ht). rewrite (left_at_room _ _ Hl), length_app. clear Hl.
  assert (length ts ≤ length txt)%nat; [|lia].
  induction Hs as [|t ts ws' txt _ Hs IH _]; [done|]. apply Forall_cons in Ht as [Ht Hts].
  destruct (spell_first t Ht) as [r ->]. specialize (IH Hts). simpl. rewrite !length_app. lia.
Qed.

(** *** Redirections and words *)

Lemma add_arg_rel args rs c w sp :
  cmd_rel word_at (den_redirs (EXEC args) rs) c → word_at w sp →
  cmd_rel word_at (den_redirs (EXEC (args ++ [w])) rs) (add_arg sp c).
Proof.
  intros H Hw. revert c H. induction rs as [|r rs IH] using rev_ind; intros c H; simpl in *.
  - inversion H; subst. simpl. constructor. apply Forall2_app; [done|by constructor].
  - unfold den_redirs in *. rewrite foldl_app in *. simpl in *.
    unfold den_redir in *. destruct (r.1); inversion H; subst; simpl; constructor; auto.
Qed.

Lemma parseredirs_spec rs d c s ts fuel :
  lead s (redirs_toks rs ++ ts) → cmd_rel word_at d c → peeks [60; 62] ts = false → (length rs < fuel)%nat →
  ∃ c' s', parseredirs buf es fuel c s = Ok c' s' ∧ lead s' ts ∧ cmd_rel word_at (den_redirs d rs) c'.
Proof.
  revert d c s fuel. induction rs as [|[dir w] rs IH]; intros d c s fuel H Hc Hp Hf.
  - destruct fuel as [|fuel]; [lia|]. simpl in *. destruct (peek_spec [60; 62] _ _ H) as (s1 & E & H1).
    rewrite Hp in E. exists c, s1. split; [by mstep E|done].
  - destruct fuel as [|fuel]; [simpl in *; lia|]. cbn [parseredirs].
    change (redirs_toks ((dir, w) :: rs)) with (redir_toks (dir, w) ++ redirs_toks rs) in H.
    rewrite <-app_assoc in H. unfold redir_toks in H. simpl in H.
    destruct (peek_spec [60; 62] _ _ H) as (s1 & E1 & H1).
    destruct (gettoken_spec _ _ _ H1) as (sp1 & s2 & E2 & H2 & _).
    destruct (gettoken_spec _ _ _ H2) as (sp2 & s3 & E3 & H3 & Hw).
    destruct (IH (den_redir d (dir, w)) (redirect (code (match dir with In => TSym 60 | Out => TSym 62 | Append => TAppend end)) c sp2) s3 fuel)
      as (c' & s' & E & Hl & Hr); [done| |done|simpl in *; lia|].
    { specialize (Hw w eq_refl). destruct dir; simpl; by constructor. }
    exists c', s'. split; [|done]. mstep E1. assert (peeks [60; 62] (match dir with In => TSym 60 | Out => TSym 62 | Append => TAppend end :: TWord w :: redirs_toks rs ++ ts) = true) as -> by (by destruct dir).
    mstep E2. mstep E3. exact E.
Qed.

Lemma redirs_room rs ts s : lead s (redirs_toks rs ++ ts) → (length rs < S es)%nat.
Proof.
  intros H%lead_length. rewrite length_app in H. assert (length rs ≤ length (redirs_toks rs))%nat; [|lia].
  clear H. induction rs as [|r rs IH]; [done|]. change (redirs_toks (r :: rs)) with (redir_toks r ++ redirs_toks rs).
  rewrite length_app. simpl. lia.
Qed.

Lemma exec_loop_spec args pre rs c s ts fuel :
  lead s (args_toks args ++ ts) → cmd_rel word_at (den_redirs (EXEC pre) rs) c →
  follows [124; 41; 38; 59] ts → (length pre + length args < MAXARGS)%nat → (length args < fuel)%nat →
  ∃ c' s', exec_loop buf es fuel (length pre) c s = Ok c' s' ∧ lead s' ts ∧
    cmd_rel word_at (den_redirs (EXEC (pre ++ args.*1)) (rs ++ mjoin args.*2)) c'.
Proof.
  revert pre rs c s fuel. induction args as [|[w ws] args IH]; intros pre rs c s fuel H Hc Hf Hm Hfu;
    (destruct fuel as [|fuel]; [simpl in *; lia|]); cbn [exec_loop].
  - simpl in *. rewrite !app_nil_r. destruct (peek_spec [124; 41; 38; 59] _ _ H) as (s1 & E1 & H1). mstep E1.
    destruct ts as [|[w|t|] ts]; [|done| |done].
    + simpl. destruct (gettoken_end _ H1) as (sp & s2 & E2 & H2). mstep E2. simpl. by exists c, s2.
    + simpl in Hf |- *. apply in_set_spec in Hf. rewrite Hf. by exists c, s1.
  - change (args_toks ((w, ws) :: args)) with (TWord w :: redirs_toks ws ++ args_toks args) in H.
    simpl in H. rewrite <-app_assoc in H. destruct (peek_spec [124; 41; 38; 59] _ _ H) as (s1 & E1 & H1). mstep E1.
    destruct (gettoken_spec _ _ _ H1) as (sp & s2 & E2 & H2 & Hw). specialize (Hw w eq_refl).
    assert (peeks [124; 41; 38; 59] (TWord w :: redirs_toks ws ++ args_toks args ++ ts) = false) as ->.
    { destruct Hw as (_ & _ & _ & Hok & _). apply word_peeks; [done|by repeat constructor]. }
    mstep E2. simpl in Hm. cbn [code Z.eqb Pos.eqb negb].
    destruct (Nat.leb_spec MAXARGS (length pre)) as [Hx|_]; [lia|].
    destruct (Nat.leb_spec MAXARGS (S (length pre))) as [Hx|_]; [lia|].
    destruct (parseredirs_spec ws (den_redirs (EXEC (pre ++ [w])) rs) (add_arg sp c) s2 (args_toks args ++ ts) (S es))
      as (c1 & s3 & E3 & H3 & Hc1); [done|by apply add_arg_rel| |by eapply redirs_room|].
    { destruct args as [|[w' ws'] args]; simpl in *.
      - by eapply follows_peeks; [exact Hf|repeat constructor].
      - apply lead_ok in H2. apply Forall_app in H2 as [_ H2]. simpl in H2. apply Forall_cons in H2 as [H2 _].
        apply (word_peeks [60; 62] w' []); [done|by repeat constructor]. }
    mstep E3. destruct (IH (pre ++ [w]) (rs ++ ws) c1 s3 fuel) as (c' & s' & E & Hl & Hr); [done| |done| | |].
    + unfold den_redirs in *. by rewrite foldl_app.
    + rewrite length_app. simpl in *. lia.
    + simpl in *. lia.
    + exists c', s'. rewrite length_app, Nat.add_1_r in E. split; [exact E|split; [done|]].
      rewrite <-app_assoc in Hr. simpl in *. by rewrite <-app_assoc in Hr.
Qed.

Lemma back_loop_spec n d c s ts fuel :
  lead s (replicate n (TSym 38) ++ ts) → cmd_rel word_at d c → peeks [38] ts = false → (n < fuel)%nat →
  ∃ c' s', back_loop buf es fuel c s = Ok c' s' ∧ lead s' ts ∧ cmd_rel word_at (Nat.iter n BACK d) c'.
Proof.
  revert d c s fuel. induction n as [|n IH]; intros d c s fuel H Hc Hp Hf; (destruct fuel as [|fuel]; [lia|]);
    cbn [back_loop]; destruct (peek_spec [38] _ _ H) as (s1 & E1 & H1); mstep E1.
  - simpl in *. rewrite Hp. by exists c, s1.
  - cbn [replicate app peeks]. destruct (gettoken_spec _ _ _ H1) as (sp & s2 & E2 & H2 & _). simpl. mstep E2.
    destruct (IH (BACK d) (BACK c) s2 fuel) as (c' & s' & E & Hl & Hr); [done|by constructor|done|lia|].
    exists c', s'. split; [done|split; [done|]]. by rewrite <-Nat.iter_succ_r in Hr.
Qed.

Lemma simple_peeks rs args ts :
  Forall tok_ok (redirs_toks rs ++ args_toks args ++ ts) → follows [124; 41; 38; 59] ts →
  peeks [40] (redirs_toks rs ++ args_toks args ++ ts) = false ∧ peeks [60; 62] (args_toks args ++ ts) = false.
Proof.
  intros Hok Hf.
  assert (H : ∀ toks, Forall (λ c, symbol c = true) toks → Forall (λ c, in_set toks c = false) [124; 41; 38; 59] →
    peeks toks (args_toks args ++ ts) = false).
  { intros toks Ht Hd. destruct args as [|[w ws] args]; [by eapply follows_peeks|].
    apply Forall_app in Hok as [_ Hok]. apply Forall_cons in Hok as [Hok _].
    by apply (word_peeks toks w []). }
  split; [|apply H; by repeat constructor].
  destruct rs as [|[[] w] rs]; [apply H; by repeat constructor|done..].
Qed.

(** *** Lines, pipelines and items *)

Lemma parse_spec :
  (∀ l, line_ok l → ∀ fuel s ts, lead s (line_toks l ++ ts) → follows [41] ts →
     (4 * length (line_toks l) + 4 ≤ fuel)%nat →
     ∃ c s', parseline buf es fuel s = Ok c s' ∧ lead s' ts ∧ cmd_rel word_at (den_line l) c) ∧
  (∀ p, pipe_ok p → ∀ fuel s ts, lead s (pipe_toks p ++ ts) → follows [41; 38; 59] ts →
     (4 * length (pipe_toks p) + 3 ≤ fuel)%nat →
     ∃ c s', parsepipe buf es fuel s = Ok c s' ∧ lead s' ts ∧ cmd_rel word_at (den_pipe p) c) ∧
  (∀ i, item_ok i → ∀ fuel s ts, lead s (item_toks i ++ ts) → follows [124; 41; 38; 59] ts →
     (4 * length (item_toks i) + 2 ≤ fuel)%nat →
     ∃ c s', parseexec buf es fuel s = Ok c s' ∧ lead s' ts ∧ cmd_rel word_at (den_item i) c).
Proof.
  apply grammar_ind.
  - intros p IH n Hok fuel s ts H Hf Hfu. cbn [line_toks] in *. rewrite <-app_assoc in H. rewrite length_app in Hfu.
    destruct fuel as [|fuel]; [lia|]. cbn [parseline].
    destruct (IH Hok fuel s (replicate n (TSym 38) ++ ts)) as (c & s1 & E1 & H1 & Hc); [done| |lia|].
    { destruct n; [|by simpl; set_solver]. eapply follows_mono; [|exact Hf]. set_solver. }
    mstep E1. destruct (back_loop_spec n (den_pipe p) c s1 ts (S es)) as (c' & s2 & E2 & H2 & Hc'); [done|done| | |].
    { eapply follows_peeks; [exact Hf|by repeat constructor]. }
    { apply lead_length in H1. rewrite length_app, length_replicate in H1. lia. }
    mstep E2. destruct (peek_spec [59] _ _ H2) as (s3 & E3 & H3). mstep E3.
    rewrite (follows_peeks [41] [59]) by (done || by repeat constructor). by exists c', s3.
  - intros p IHp n l IHl [Hokp Hokl] fuel s ts H Hf Hfu. cbn [line_toks] in *.
    rewrite <-!app_assoc in H. rewrite !length_app, length_replicate in Hfu. simpl in Hfu.
    destruct fuel as [|fuel]; [lia|]. cbn [parseline].
    destruct (IHp Hokp fuel s (replicate n (TSym 38) ++ (TSym 59 :: line_toks l) ++ ts)) as (c & s1 & E1 & H1 & Hc);
      [done| |lia|].
    { destruct n; simpl; set_solver. }
    mstep E1. destruct (back_loop_spec n (den_pipe p) c s1 ((TSym 59 :: line_toks l) ++ ts) (S es)) as (c' & s2 & E2 & H2 & Hc');
      [done|done|done| |].
    { apply lead_length in H1. rewrite length_app, length_replicate in H1. lia. }
    mstep E2. destruct (peek_spec [59] _ _ H2) as (s3 & E3 & H3). mstep E3. cbn [peeks app first].
    destruct (gettoken_spec _ _ _ H3) as (sp & s4 & E4 & H4 & _). simpl. mstep E4.
    destruct (IHl Hokl fuel s4 ts) as (r & s5 & E5 & H5 & Hr); [done|done|lia|].
    mstep E5. eexists _, s5. split; [done|split; [done|by constructor]].
  - intros i IH Hok fuel s ts H Hf Hfu. cbn [pipe_toks pipe_ok den_pipe] in *.
    destruct fuel as [|fuel]; [lia|]. cbn [parsepipe].
    destruct (IH Hok fuel s ts) as (c & s1 & E1 & H1 & Hc); [done| |lia|].
    { eapply follows_mono; [|exact Hf]. set_solver. }
    mstep E1. destruct (peek_spec [124] _ _ H1) as (s2 & E2 & H2). mstep E2.
    rewrite (follows_peeks [41; 38; 59] [124]) by (done || by repeat constructor). by exists c, s2.
  - intros i IHi p IHp [Hoki Hokp] fuel s ts H Hf Hfu. cbn [pipe_toks] in *. rewrite <-app_assoc in H.
    rewrite length_app in Hfu. simpl in Hfu. destruct fuel as [|fuel]; [lia|]. cbn [parsepipe].
    destruct (IHi Hoki fuel s ((TSym 124 :: pipe_toks p) ++ ts)) as (c & s1 & E1 & H1 & Hc); [done| |lia|].
    { simpl. set_solver. }
    mstep E1. destruct (peek_spec [124] _ _ H1) as (s2 & E2 & H2). mstep E2. cbn [peeks app first].
    destruct (gettoken_spec _ _ _ H2) as (sp & s3 & E3 & H3 & _). simpl. mstep E3.
    destruct (IHp Hokp fuel s3 ts) as (r & s4 & E4 & H4 & Hr); [done|done|lia|].
    mstep E4. eexists _, s4. split; [done|split; [done|by constructor]].
  - intros l IH rs [Hok _] fuel s ts H Hf Hfu. cbn [item_toks] in *. simpl in H. rewrite <-app_assoc in H.
    rewrite length_cons, length_app in Hfu. simpl in Hfu. destruct fuel as [|[|fuel]]; [lia..|].
    cbn [parseexec parseblock]. destruct (peek_spec [40] _ _ H) as (s1 & E1 & H1). mstep E1. cbn [peeks first].
    destruct (peek_spec [40] _ _ H1) as (s2 & E2 & H2). change (in_set [40] 40) with true. cbn iota. mstep E2.
    cbn [peeks first]. change (in_set [40] 40) with true. cbn [negb].
    destruct (gettoken_spec _ _ _ H2) as (sp & s3 & E3 & H3 & _). mstep E3.
    destruct (IH Hok fuel s3 ((TSym 41 :: redirs_toks rs) ++ ts)) as (c & s4 & E4 & H4 & Hc); [done| |lia|].
    { simpl. set_solver. }
    mstep E4. destruct (peek_spec [41] _ _ H4) as (s5 & E5 & H5). mstep E5. cbn [peeks app first]. change (in_set [41] 41) with true. cbn [negb].
    destruct (gettoken_spec _ _ _ H5) as (sp2 & s6 & E6 & H6 & _). mstep E6.
    apply (parseredirs_spec rs (den_line l) c s6 ts); [done|done| |by eapply redirs_room].
    eapply follows_peeks; [exact Hf|by repeat constructor].
  - intros rs args (Hrs & Hargs & Hmax) fuel s ts H Hf Hfu. cbn [item_toks] in *. rewrite <-app_assoc in H.
    destruct fuel as [|fuel]; [lia|]. cbn [parseexec]. pose proof (lead_ok _ _ H) as Hok.
    destruct (simple_peeks rs args ts Hok Hf) as [Hp1 Hp2].
    destruct (peek_spec [40] _ _ H) as (s1 & E1 & H1). mstep E1. rewrite Hp1.
    destruct (parseredirs_spec rs (EXEC []) (EXEC []) s1 (args_toks args ++ ts) (S es)) as (c & s2 & E2 & H2 & Hc);
      [done|by constructor|done|by eapply redirs_room|].
    mstep E2. apply (exec_loop_spec args [] rs c s2 ts (S es)); [done|done|done|done|].
    apply lead_length in H2. rewrite length_app in H2.
    assert (length args ≤ length (args_toks args))%nat; [|lia].
    clear. induction args as [|a args IH]; [done|].
    change (args_toks (a :: args)) with ((TWord a.1 :: redirs_toks a.2) ++ args_toks args). rewrite length_app. simpl. lia.
Qed.

(** *** The strings of the command *)

Lemma left_at_inj s t1 t2 : left_at s t1 → left_at s t2 → t1 = t2.
Proof.
  intros (p1 & E1 & H1) (p2 & E2 & H2). rewrite E1 in E2. apply app_inj_1 in E2 as [_ ?]; [done|lia].
Qed.

Definition zero_ends (b : list Z) (ws : list span) : list Z := foldl (λ b w, <[w.2 := 0]> b) b ws.

Lemma zero_ends_lookup ws b i :
  zero_ends b ws !! i = if decide (i ∈ ws.*2 ∧ (i < length b)%nat) then Some 0 else b !! i.
Proof.
  revert b. induction ws as [|w ws IH]; intros b.
  - rewrite decide_False; [done|]. by intros [?%elem_of_nil _].
  - change (zero_ends b (w :: ws)) with (zero_ends (<[w.2 := 0]> b) ws). rewrite fmap_cons, IH, length_insert. destruct (decide (i = w.2)) as [->|Hn].
    + destruct (decide (w.2 < length b)%nat) as [Hl|Hl].
      * rewrite list_lookup_insert_eq by done. repeat case_decide; try done; set_solver.
      * rewrite !decide_False by tauto. by rewrite list_insert_ge by lia.
    + rewrite list_lookup_insert_ne by done.
      assert (i ∈ w.2 :: ws.*2 ↔ i ∈ ws.*2) as Hi by (rewrite elem_of_cons; naive_solver).
      destruct (decide (i ∈ ws.*2 ∧ (i < length b)%nat)) as [[H1 H2]|H].
      * by rewrite decide_True by (by rewrite Hi).
      * by rewrite decide_False by (by rewrite Hi).
Qed.

Lemma cstring_at v b s :
  (∀ i c, v !! i = Some c → b !! (s + i)%nat = Some c) → b !! (s + length v)%nat = Some 0 →
  Forall (λ c, c ≠ 0) v → string_at b s = v.
Proof.
  intros Hv H0 Hnzv. revert s Hv H0. unfold string_at.
  induction Hnzv as [|c v Hc _ IH]; intros s Hv H0.
  - simpl in H0. rewrite Nat.add_0_r in H0. by rewrite (drop_S _ _ _ H0).
  - assert (b !! s = Some c) as Hs by (rewrite <-(Hv 0%nat c eq_refl); f_equal; lia).
    rewrite (drop_S _ _ _ Hs). simpl. destruct (Z.eqb_spec c 0); [done|]. f_equal. apply IH.
    + intros i d Hd. rewrite <-(Hv (S i) d Hd). f_equal. lia.
    + rewrite <-H0. f_equal. simpl. lia.
Qed.

Lemma word_string v w L :
  Forall (λ w', ∃ v', word_at v' w') L → w ∈ L → word_at v w → string_at (zero_ends buf L) w.1 = v.
Proof.
  intros HL Hw (post & Hl & Ee & [Hne Hc] & _). destruct w as [s e]. simpl in *. subst e.
  apply cstring_at.
  - intros i c Hi. rewrite zero_ends_lookup, decide_False.
    + destruct Hl as (pre & E & ->). rewrite E, <-app_assoc, lookup_app_r by lia.
      rewrite <-app_assoc, lookup_app_l by (apply lookup_lt_Some in Hi; lia). rewrite <-Hi. f_equal. lia.
    + intros [Hin _]. apply list_elem_of_fmap in Hin as (w' & Ew & Hin').
      eapply Forall_forall in HL as (v' & post' & Hl' & Ee' & _ & Hst); [|exact Hin'].
      rewrite <-Ew in Ee'. apply left_at_app in Hl'. rewrite <-Ee' in Hl'.
      assert (left_at (s + i) (c :: drop (S i) v ++ post)) as Hl2.
      { rewrite <-(take_drop_middle v i c Hi) in Hl. rewrite <-app_assoc in Hl. apply left_at_app in Hl.
        rewrite length_take_le in Hl by (apply lookup_lt_Some in Hi; lia). exact Hl. }
      pose proof (Hst c _ (left_at_inj _ _ _ Hl' Hl2)) as Hw'.
      eapply Forall_lookup_1 in Hc as [Hc _]; [|exact Hi]. congruence.
  - rewrite zero_ends_lookup, decide_True; [done|]. split.
    + apply list_elem_of_fmap. by exists (s, (s + length v)%nat).
    + destruct Hl as (pre & E & ->). rewrite E, !length_app. simpl. lia.
  - eapply Forall_impl; [exact Hc|]. by intros c [_ ?].
Qed.

Fixpoint spans (c : cmd span) : list span :=
  match c with
  | EXEC argv => argv
  | REDIR c file _ _ => spans c ++ [file]
  | PIPE l r => spans l ++ spans r
  | LIST l r => spans l ++ spans r
  | BACK c => spans c
  end.

Lemma nulterminate_spans c b : nulterminate c b = zero_ends b (spans c).
Proof.
  unfold zero_ends. revert b.
  induction c as [argv|c IH file mode fd|l IHl r IHr|l IHl r IHr|c IH]; intros b; simpl; rewrite ?foldl_app.
  - done.
  - by rewrite IH.
  - by rewrite IHl, IHr.
  - by rewrite IHl, IHr.
  - apply IH.
Qed.

Lemma rel_spans d c : cmd_rel word_at d c → Forall (λ w, ∃ v, word_at v w) (spans c).
Proof.
  induction 1 as [args ws H| | | |]; simpl; rewrite ?Forall_app; try done.
  - induction H; constructor; eauto.
  - rewrite Forall_singleton. eauto.
Qed.

Lemma rel_strings d c L :
  cmd_rel word_at d c → Forall (λ w, ∃ v, word_at v w) L → spans c ⊆ L →
  cmd_map (λ w, string_at (zero_ends buf L) w.1) c = d.
Proof.
  intros H HL. induction H as [args ws H|c d v w mode fd _ IH Hw|c1 c2 d1 d2 _ IH1 _ IH2|c1 c2 d1 d2 _ IH1 _ IH2|c d _ IH];
    simpl; intros Hs.
  - f_equal. clear -H HL Hs Hnz. induction H as [|v w args ws Hw _ IH]; [done|]. simpl. f_equal.
    + by apply word_string; [|apply Hs; left|].
    + apply IH. intros x Hx. apply Hs. by right.
  - f_equal; [apply IH; intros x Hx; apply Hs; set_solver|]. apply word_string; [done|apply Hs; set_solver|done].
  - f_equal; [apply IH1|apply IH2]; intros x Hx; apply Hs; set_solver.
  - f_equal; [apply IH1|apply IH2]; intros x Hx; apply Hs; set_solver.
  - f_equal. by apply IH.
Qed.

Lemma parse_text_spec l :
  line_ok l → lead 0 (line_toks l) →
  ∃ c s', parse_text buf es 0%nat = Ok c s' ∧ cmd_rel word_at (den_line l) c.
Proof.
  intros Hok Hl. destruct (proj1 parse_spec l Hok (4 * es + 4)%nat 0%nat []) as (c & s1 & E1 & H1 & Hc);
    [by rewrite app_nil_r|done| |].
  { apply lead_length in Hl. lia. }
  unfold parse_text. mstep E1. destruct (lead_skip _ _ H1) as (txt & Hl1 & Hs & _). inversion Hs; subst.
  assert (skip buf es white s1 = es) as Es.
  { pose proof (left_at_room _ _ Hl1) as Hr. destruct Hl1 as (pre & E & ->). rewrite E, length_app in *. simpl in *. lia. }
  assert (∃ b, peek buf es [] s1 = Ok b es) as [b E2].
  { set (s2 := skip buf es white s1) in *. exists (negb (at_ buf s2 =? 0) && in_set [] (at_ buf s2)).
    rewrite <-Es at 2. reflexivity. }
  exists c, es. split; [|done]. mstep E2. mrun. unfold id. by rewrite Nat.eqb_refl.
Qed.
End text.

(** The tokens of a well-formed line can be spelled. *)
Lemma redirs_toks_ok rs : redirs_wf rs → Forall tok_ok (redirs_toks rs).
Proof.
  induction 1 as [|[d w] rs Hw _ IH]; [constructor|].
  change (redirs_toks ((d, w) :: rs)) with (redir_toks (d, w) ++ redirs_toks rs). apply Forall_app. split; [|done].
  constructor; [|constructor; [exact Hw|constructor]]. destruct d; simpl; [set_solver|set_solver|done].
Qed.
Lemma args_toks_ok args : args_wf args → Forall tok_ok (args_toks args).
Proof.
  induction 1 as [|[w rs] args [Hw Hr] _ IH]; [constructor|].
  change (args_toks ((w, rs) :: args)) with ((TWord w :: redirs_toks rs) ++ args_toks args).
  apply Forall_app. split; [|done]. constructor; [done|]. by apply redirs_toks_ok.
Qed.
Lemma toks_ok :
  (∀ l, line_ok l → Forall tok_ok (line_toks l)) ∧ (∀ p, pipe_ok p → Forall tok_ok (pipe_toks p)) ∧
  (∀ i, item_ok i → Forall tok_ok (item_toks i)).
Proof.
  assert (∀ n, Forall tok_ok (replicate n (TSym 38))) as Hb by (intros n; apply Forall_replicate; simpl; set_solver).
  apply grammar_ind; simpl; intros; rewrite ?Forall_app, ?Forall_cons, ?Forall_app, ?Forall_cons; simpl; intuition;
    try set_solver; auto using redirs_toks_ok, args_toks_ok.
Qed.

Lemma white_nonzero c : white c = true → c ≠ 0.
Proof. by intros H ->. Qed.
Lemma spells_nonzero ts txt : spells ts txt → Forall tok_ok ts → Forall (λ c, c ≠ 0) txt.
Proof.
  induction 1 as [|t ts ws txt Hw _ IH _]; [done|]. intros [Ht Hts]%Forall_cons. rewrite !Forall_app. split_and!.
  - destruct t as [w|c|]; simpl; [|constructor; [|done]; apply symbol_cases in Ht; lia|by repeat constructor].
    destruct Ht as [_ Ht]. eapply Forall_impl; [exact Ht|]. by intros c [_ ?].
  - eapply Forall_impl; [exact Hw|]. intros c. apply white_nonzero.
  - by apply IH.
Qed.

Lemma cstring_nonzero txt junk : Forall (λ c, c ≠ 0) txt → cstring (txt ++ 0 :: junk) = txt.
Proof. induction 1 as [|c txt Hc _ IH]; [done|]. simpl. destruct (Z.eqb_spec c 0); [done|]. by rewrite IH. Qed.

Lemma parsecmd_spec l ws txt junk :
  line_ok l → Forall (λ c, white c = true) ws → spells (line_toks l) txt →
  ∃ c b, parsecmd ((ws ++ txt) ++ 0 :: junk) = Ok c b ∧ cmd_map (λ w, string_at b w.1) c = den_line l.
Proof.
  intros Hok Hw Hs. pose proof (proj1 toks_ok l Hok) as Ht.
  assert (Forall (λ c, c ≠ 0) (ws ++ txt)) as Hnz.
  { apply Forall_app. split; [|by eapply spells_nonzero].
    eapply Forall_impl; [exact Hw|]. intros c. apply white_nonzero. }
  destruct (parse_text_spec (ws ++ txt) junk Hnz l Hok) as (c & s' & E & Hr).
  { exists ws, txt. split; [by exists []|done]. }
  unfold parsecmd, string_at. rewrite drop_0, (cstring_nonzero _ _ Hnz), E. eexists _, _. split; [done|].
  rewrite nulterminate_spans. apply (rel_strings (ws ++ txt) junk Hnz); [done|by eapply rel_spans|done].
Qed.

(** ** Termination and bounds *)

(** An outcome that is a result satisfying [P] or a message. *)
Definition safe {S A} (P : A → S → Prop) (o : outcome S A) : Prop :=
  match o with Ok a s => P a s | Panic _ => True | _ => False end.

Lemma safe_bind {S A B} (m : M S A) (f : A → M S B) s P Q :
  safe P (m s) → (∀ a s', P a s' → safe Q (f a s')) → safe Q ((m ≫= f) s).
Proof. unfold mbind, M_bind. intros Hm Hf. destruct (m s); simpl in *; try done. by apply Hf. Qed.
Lemma safe_weaken {S A} (P Q : A → S → Prop) o : safe P o → (∀ a s, P a s → Q a s) → safe Q o.
Proof. destruct o; simpl; auto. Qed.

Section any.
Context (buf : list Z) (es : nat).
Context (Hin : ∀ i, (i < es)%nat → at_ buf i ≠ 0) (Hend : at_ buf es = 0).

Lemma skip_while_le f n s : (s ≤ skip_while buf f n s ≤ s + n)%nat.
Proof. revert s. induction n as [|n IH]; intros s; simpl; [lia|]. destruct (f _); [|lia]. specialize (IH (S s)). lia. Qed.
Lemma skip_le f s : (s ≤ es)%nat → (s ≤ skip buf es f s ≤ es)%nat.
Proof. intros H. unfold skip. pose proof (skip_while_le f (es - s) s). lia. Qed.
Lemma skip_stop f s : (s ≤ es)%nat → (skip buf es f s < es)%nat → f (at_ buf (skip buf es f s)) = false.
Proof.
  unfold skip. intros H. remember (es - s)%nat as n eqn:En. revert s H En.
  induction n as [|n IH]; intros s H En; simpl; [lia|].
  destruct (f (at_ buf s)) eqn:E; [|done]. apply IH; lia.
Qed.
Lemma skip_once f s : (s < es)%nat → f (at_ buf s) = true → (s < skip buf es f s)%nat.
Proof.
  intros H Hf. unfold skip. destruct (es - s)%nat as [|n] eqn:E; [lia|]. simpl. rewrite Hf.
  pose proof (skip_while_le f n (S s)). lia.
Qed.

Lemma token_le q : (q ≤ es)%nat → (q < es → white (at_ buf q) = false)%nat →
  (q ≤ (token buf es q).2 ≤ es)%nat ∧ ((token buf es q).1 = 0 ↔ q = es) ∧ (q < es → q < (token buf es q).2)%nat.
Proof.
  intros Hq Hw. unfold token. destruct (decide (q = es)) as [->|Hn]; [rewrite Hend; simpl; lia|].
  pose proof (Hin q ltac:(lia)) as H0. specialize (Hw ltac:(lia)). destruct (Z.eqb_spec (at_ buf q) 0); [done|].
  destruct ((_ =? 124) || _ || _ || _ || _ || _) eqn:Es; [simpl; lia|]. destruct (Z.eqb_spec (at_ buf q) 62) as [E|E].
  - destruct (Z.eqb_spec (at_ buf (S q)) 62) as [E2|E2]; simpl; [|lia].
    assert (S q ≠ es) by (intros E3; rewrite E3 in E2; congruence). lia.
  - simpl. pose proof (skip_le (λ c, negb (white c) && negb (symbol c)) q ltac:(lia)).
    assert (q < skip buf es (λ c, negb (white c) && negb (symbol c)) q)%nat; [|lia].
    apply skip_once; [lia|]. rewrite Hw. simpl. rewrite !orb_false_iff, !Z.eqb_neq in Es.
    destruct (symbol (at_ buf q)) eqn:Hs; [|done]. apply in_set_spec, symbol_cases in Hs. lia.
Qed.

Lemma gettoken_safe s : (s ≤ es)%nat →
  safe (λ a s', (s ≤ s' ≤ es)%nat ∧ (a.1 ≠ 0%Z → s < s')%nat ∧ (s < es → white (at_ buf s) = false → a.1 ≠ 0%Z)%nat)
    (gettoken buf es s).
Proof.
  intros H. pose proof (skip_le white s H) as Hk. pose proof (skip_stop white s H) as Hst.
  destruct (token_le (skip buf es white s) ltac:(lia) Hst) as (H1 & H2 & H3).
  unfold gettoken. unfold mbind, M_bind, Prelude.gets, modify, mret, M_ret, id.
  destruct (token buf es (skip buf es white s)) as [t e]. simpl in *. pose proof (skip_le white e ltac:(lia)).
  split_and!; [lia|lia| |].
  - intros Ht. assert (skip buf es white s ≠ es) by naive_solver. lia.
  - intros Hlt Hw ->. assert (skip buf es white s = s) as E.
    { unfold skip. destruct (es - s)%nat; simpl; [done|]. by rewrite Hw. }
    rewrite E in *. naive_solver lia.
Qed.

Lemma peek_safe toks s : (s ≤ es)%nat →
  safe (λ b s', (s ≤ s' ≤ es)%nat ∧ (b = true → s' < es ∧ white (at_ buf s') = false)%nat) (peek buf es toks s).
Proof.
  intros H. pose proof (skip_le white s H) as Hk. pose proof (skip_stop white s H) as Hst.
  unfold peek. unfold mbind, M_bind, Prelude.gets, modify, mret, M_ret, id. simpl. split; [lia|].
  intros [Hb _]%andb_true_iff. apply negb_true_iff, Z.eqb_neq in Hb.
  assert (skip buf es white s ≠ es) by (intros E; rewrite E in Hb; done). split; [lia|]. apply Hst. lia.
Qed.

(** One step of a loop: a peek that finds something, and the token there. *)
Lemma peek_token toks s {B} (f : Z * span → M nat B) (g : M nat B) Q :
  (s ≤ es)%nat →
  (∀ a s', (s < s' ≤ es)%nat → safe Q (f a s')) → (∀ s', (s ≤ s' ≤ es)%nat → safe Q (g s')) →
  safe Q ((b ← peek buf es toks; if b : bool then a ← gettoken buf es; f a else g) s).
Proof.
  intros H Hf Hg. eapply safe_bind; [by apply peek_safe|]. intros [] s1 [H1 H2]; [|by apply Hg].
  destruct (H2 eq_refl) as [H3 H4]. eapply safe_bind; [apply gettoken_safe; lia|].
  intros a s2 (H5 & H6 & H7). apply Hf. specialize (H7 H3 H4). specialize (H6 H7). lia.
Qed.

Definition ahead (s : nat) (c : cmd span) (s' : nat) : Prop := (s ≤ s' ≤ es)%nat.

Lemma parseredirs_safe fuel c s : (s ≤ es)%nat → (es - s < fuel)%nat → safe (ahead s) (parseredirs buf es fuel c s).
Proof.
  revert c s. induction fuel as [|fuel IH]; intros c s H Hf; [lia|]. cbn [parseredirs].
  apply peek_token; [done| |by intros s' ?]. intros [tok sp] s1 H1.
  eapply safe_bind; [apply gettoken_safe; lia|]. intros [t w] s2 (H2 & _). destruct (negb _); [done|].
  eapply safe_weaken; [apply IH; lia|]. unfold ahead. intros; lia.
Qed.

Lemma exec_loop_safe fuel argc c s :
  (s ≤ es)%nat → (es - s < fuel)%nat → (argc < MAXARGS)%nat → safe (ahead s) (exec_loop buf es fuel argc c s).
Proof.
  revert argc c s. induction fuel as [|fuel IH]; intros argc c s H Hf Ha; [lia|]. cbn [exec_loop].
  eapply safe_bind; [by apply peek_safe|]. intros [] s1 [H1 _]; [done|].
  eapply safe_bind; [apply gettoken_safe; lia|]. intros [tok w] s2 (H2 & H3 & _). simpl in H3.
  destruct (Z.eqb_spec tok 0) as [->|Ht]; [unfold ahead; simpl; lia|]. specialize (H3 Ht).
  destruct (negb _); [done|]. destruct (Nat.leb_spec MAXARGS argc) as [Hx|_]; [lia|].
  destruct (Nat.leb_spec MAXARGS (S argc)) as [_|Hx]; [done|].
  eapply safe_bind; [apply parseredirs_safe; lia|]. unfold ahead. intros c' s3 H4.
  eapply safe_weaken; [apply IH; lia|]. unfold ahead. intros; lia.
Qed.

Lemma back_loop_safe fuel c s : (s ≤ es)%nat → (es - s < fuel)%nat → safe (ahead s) (back_loop buf es fuel c s).
Proof.
  revert c s. induction fuel as [|fuel IH]; intros c s H Hf; [lia|]. cbn [back_loop].
  apply peek_token; [done| |by intros s' ?]. intros _ s1 H1.
  eapply safe_weaken; [apply IH; lia|]. unfold ahead. intros; lia.
Qed.

Lemma parse_safe fuel :
  (∀ s, (s ≤ es)%nat → (4 * (es - s) + 4 ≤ fuel)%nat → safe (ahead s) (parseline buf es fuel s)) ∧
  (∀ s, (s ≤ es)%nat → (4 * (es - s) + 3 ≤ fuel)%nat → safe (ahead s) (parsepipe buf es fuel s)) ∧
  (∀ s, (s ≤ es)%nat → (4 * (es - s) + 2 ≤ fuel)%nat → safe (ahead s) (parseexec buf es fuel s)) ∧
  (∀ s, (s ≤ es)%nat → (4 * (es - s) + 1 ≤ fuel)%nat → safe (ahead s) (parseblock buf es fuel s)).
Proof.
  induction fuel as [|fuel (IHl & IHp & IHe & IHb)]; [split_and!; intros; lia|]. split_and!; intros s H Hf.
  - cbn [parseline]. eapply safe_bind; [apply IHp; lia|]. unfold ahead. intros c s1 H1.
    eapply safe_bind; [apply back_loop_safe; lia|]. unfold ahead. intros c2 s2 H2.
    apply peek_token; [lia| |intros s3 H3; simpl; lia]. intros _ s3 H3.
    eapply safe_bind; [apply IHl; lia|]. unfold ahead. intros c4 s4 H4. simpl. lia.
  - cbn [parsepipe]. eapply safe_bind; [apply IHe; lia|]. unfold ahead. intros c s1 H1.
    apply peek_token; [lia| |intros s3 H3; simpl; lia]. intros _ s3 H3.
    eapply safe_bind; [apply IHp; lia|]. unfold ahead. intros c4 s4 H4. simpl. lia.
  - cbn [parseexec]. eapply safe_bind; [by apply peek_safe|]. intros [] s1 [H1 _].
    + eapply safe_weaken; [apply IHb; lia|]. unfold ahead. intros; lia.
    + eapply safe_bind; [apply parseredirs_safe; lia|]. unfold ahead. intros c s2 H2.
      eapply safe_weaken; [apply exec_loop_safe; [lia|lia|unfold MAXARGS; lia]|]. unfold ahead. intros; lia.
  - cbn [parseblock]. eapply safe_bind; [by apply peek_safe|]. intros b s1 [H1 H2]. destruct b; [|done]. cbn [negb].
    destruct (H2 eq_refl) as [H3 H4]. eapply safe_bind; [apply gettoken_safe; lia|].
    intros a s2 (H5 & H6 & H7). specialize (H6 (H7 H3 H4)).
    eapply safe_bind; [apply IHl; lia|]. unfold ahead. intros c s3 H8.
    eapply safe_bind; [apply peek_safe; lia|]. intros b s4 [H9 _]. destruct b; [|done]. cbn [negb].
    eapply safe_bind; [apply gettoken_safe; lia|]. intros _ s5 (H10 & _).
    eapply safe_weaken; [apply parseredirs_safe; lia|]. unfold ahead. intros; lia.
Qed.

Lemma parse_text_safe : safe (λ _ _, True) (parse_text buf es 0%nat).
Proof.
  unfold parse_text. eapply safe_bind; [apply (proj1 (parse_safe (4 * es + 4))); lia|]. intros c s H.
  unfold ahead in H. eapply safe_bind; [apply peek_safe; lia|]. intros b s1 _.
  unfold mbind, M_bind, Prelude.gets. by destruct (negb _).
Qed.
End any.

Lemma cstring_bytes bs i : (i < length (cstring bs))%nat → at_ bs i ≠ 0.
Proof.
  revert i. induction bs as [|c bs IH]; intros i; simpl; [lia|]. destruct (Z.eqb_spec c 0); simpl; [lia|].
  intros H. destruct i as [|i]; [done|]. apply IH. lia.
Qed.
Lemma cstring_end bs : at_ bs (length (cstring bs)) = 0.
Proof. induction bs as [|c bs IH]; [done|]. simpl. by destruct (Z.eqb_spec c 0). Qed.

(** ** Running a line *)

Lemma den_redirs_ok c rs : redirs_ok c = true → redirs_ok (den_redirs c rs) = true.
Proof.
  unfold den_redirs. revert c. induction rs as [|[[] w] rs IH]; intros c H; simpl; [done|..]; by apply IH.
Qed.
Lemma den_ok :
  (∀ l, redirs_ok (den_line l) = true) ∧ (∀ p, redirs_ok (den_pipe p) = true) ∧ (∀ i, redirs_ok (den_item i) = true).
Proof.
  assert (Hb : ∀ n c, redirs_ok c = true → redirs_ok (Nat.iter n BACK c) = true).
  { intros n c H. by induction n. }
  apply grammar_ind; simpl; intros; rewrite ?andb_true_iff; auto using den_redirs_ok.
Qed.

Lemma run_line_wiring can_open l ws txt id a b e :
  line_ok l → Forall (λ c, white c = true) ws → spells (line_toks l) txt →
  (length (ws ++ txt) < 100)%nat → is_cd (ws ++ txt) = false →
  launches can_open (run_line (ws ++ txt)) (PState id (std a b e) None) =
  wiring can_open (0%nat :: id) (den_line l) a b e.
Proof.
  intros Hok Hw Hs Hlen Hcd. unfold run_line. rewrite Hcd, launches_fork. cbn [Z.eqb].
  destruct (100 - length (ws ++ txt))%nat as [|n] eqn:En; [lia|]. cbn [replicate].
  destruct (parsecmd_spec l ws txt (replicate n 0) Hok Hw Hs) as (c & bf & -> & ->).
  rewrite launches_never by apply never_runcmd.
  change (set_id 0 (PState id (std a b e) None)) with (PState (0%nat :: id) (std a b e) None).
  rewrite runs_wiring by apply (proj1 den_ok).
  change (mret tt ≫= ?f) with (f tt). cbn beta. erewrite launches_sys by reflexivity.
  rewrite talks_quiet by (done || constructor). apply app_nil_r.
Qed.

(** ** An example: the line [cat f | wc > out] *)

Definition demo_line : line :=
  LEnd (PCons (Simple [] [(bytes "cat", []); (bytes "f", [])])
         (POne (Simple [] [(bytes "wc", [(Out, bytes "out")])]))) 0.
Definition demo_text : list Z := bytes "cat f|wc >out" ++ [10].

Lemma demo_line_ok : line_ok demo_line.
Proof. vm_compute. repeat (split || constructor || discriminate || lia). Qed.
Lemma demo_spells : spells (line_toks demo_line) demo_text.
Proof.
  assert (∀ t ts ws txt all, all = spell t ++ ws ++ txt → Forall (λ c, white c = true) ws → (ws = [] → apart t txt) →
    spells ts txt → spells (t :: ts) all) as Hc by (intros; subst; by constructor).
  eapply (Hc _ _ [32]); [reflexivity|by repeat constructor|done|].
  eapply (Hc _ _ []); [reflexivity|by repeat constructor|done|].
  eapply (Hc _ _ []); [reflexivity|by repeat constructor|done|].
  eapply (Hc _ _ [32]); [reflexivity|by repeat constructor|done|].
  eapply (Hc _ _ []); [reflexivity|by repeat constructor|done|].
  eapply (Hc _ _ [10]); [reflexivity|by repeat constructor|done|constructor].
Qed.

(** ** Claims *)

(** C34. Parsing a command line terminates on every input, and never writes
    outside [argv]: the result is a command, or one of the shell's messages. *)
Theorem parsecmd_total buf : safe (λ _ _, True) (parsecmd buf).
Proof.
  unfold parsecmd. pose proof (parse_text_safe buf (length (string_at buf 0))) as H.
  unfold string_at in *. rewrite drop_0 in *.
  specialize (H (cstring_bytes buf) (cstring_end buf)). by destruct (parse_text _ _ _).
Qed.

(** C11. The parser is right on every well-formed line: however the tokens of
    the line are spelled, with any white space around them and none where they
    cannot merge, [parsecmd] returns the command the line means, and after its
    writes to the buffer each pointer of the command is the string it stands
    for. *)
Theorem parsecmd_parses l ws txt junk :
  line_ok l → Forall (λ c, white c = true) ws → spells (line_toks l) txt →
  ∃ c b, parsecmd ((ws ++ txt) ++ 0 :: junk) = Ok c b ∧ cmd_map (λ w, string_at b w.1) c = den_line l.
Proof. apply parsecmd_spec. Qed.

Lemma parsecmd_parses_witness : ∃ c b,
  parsecmd (([32] ++ demo_text) ++ 0 :: [0]) = Ok c b ∧ cmd_map (λ w, string_at b w.1) c = den_line demo_line.
Proof.
  apply (parsecmd_parses demo_line [32] demo_text [0]).
  - exact demo_line_ok.
  - repeat constructor.
  - exact demo_spells.
Defined.

(** C12. From the text of a line to the processes: the shell starts exactly the
    programs the line names, with standard input and output redirected or
    joined by pipes as the line says, and no other descriptor open. *)
Theorem shell_runs_line can_open l ws txt id a b e :
  line_ok l → Forall (λ c, white c = true) ws → spells (line_toks l) txt →
  (length (ws ++ txt) < 100)%nat → is_cd (ws ++ txt) = false →
  launches can_open (run_line (ws ++ txt)) (PState id (std a b e) None) =
  wiring can_open (0%nat :: id) (den_line l) a b e.
Proof. apply run_line_wiring. Qed.

Lemma shell_runs_line_witness :
  launches (λ _ _, true) (run_line ([] ++ demo_text)) (PState [] (std (Inherited 0) (Inherited 1) (Inherited 2)) None) =
  [([bytes "cat"; bytes "f"], std (Inherited 0) (OPipe [0%nat] true) (Inherited 2));
   ([bytes "wc"], std (OPipe [0%nat] false) (OFile (bytes "out") 513) (Inherited 2))].
Proof.
  apply (shell_runs_line (λ _ _, true) demo_line [] demo_text [] (Inherited 0) (Inherited 1) (Inherited 2)).
  - exact demo_line_ok.
  - constructor.
  - exact demo_spells.
  - vm_compute. lia.
  - reflexivity.
Defined.
