(* ===== verification/Utils.v ===== *)
(** * Small user programs (cat.c, wc.c, echo.c, kill.c, ln.c, mkdir.c, rm.c, ls.c, init.c, zombie.c)

    Each program is a tree of system calls ([User.v]); [argv] is the list of
    its arguments, the program name first.  Loops over input take fuel. *)

From Stdlib Require Import ZArith Lia.
From stdpp Require Import base numbers strings list.
From S2P Require Import Prelude Bytes Disk Fs User Syscall Sh.

Definition nl (s : string) : list Z := bytes s ++ [10].

(** A program for each argument, up to the first that ends the loop. *)
Fixpoint for_args (f : list Z → U bool) (args : list (list Z)) : U unit :=
  match args with
  | [] => mret tt
  | a :: args => b ← f a; if b : bool then for_args f args else mret tt
  end.

(** ** cat *)

Fixpoint cat (fuel : nat) (fd : Z) : U unit :=
  match fuel with
  | O => Stuck
  | S fuel =>
      '(n, buf) ← sys (Read fd 512);
      if n >? 0 then
        w ← sys (Write 1 (take (Z.to_nat n) buf));
        if negb (w =? n) then printf 1 (nl "cat: write error") [];; Exit
        else cat fuel fd
      else if n <? 0 then printf 1 (nl "cat: read error") [];; Exit
      else mret tt
  end.

Definition cat_main (fuel : nat) (argv : list (list Z)) : U unit :=
  if (length argv <=? 1)%nat then cat fuel 0;; Exit
  else
    for_args (λ a,
      fd ← sys (Open a 0);
      if fd <? 0 then printf 1 (nl "cat: cannot open %s") [Str (Some a)];; Exit
      else cat fuel fd;; _ ← sys (Close fd); mret true) (tail argv);;
    Exit.

(** ** wc *)

Record counts := Counts { c_l : Z; c_w : Z; c_c : Z; c_inword : bool }.

(** The body of the loop over the buffer. *)
Definition wc_byte (k : counts) (b : Z) : counts :=
  let c := s32 (c_c k + 1) in
  let l := if b =? 10 then s32 (c_l k + 1) else c_l k in
  if in_set [32; 13; 9; 10; 11] b then Counts l (c_w k) c false
  else if negb (c_inword k) then Counts l (s32 (c_w k + 1)) c true
  else Counts l (c_w k) c true.

Fixpoint wc_loop (fuel : nat) (fd : Z) (k : counts) : U counts :=
  match fuel with
  | O => Stuck
  | S fuel =>
      '(n, buf) ← sys (Read fd 512);
      if n >? 0 then wc_loop fuel fd (foldl wc_byte k (take (Z.to_nat n) buf))
      else if n <? 0 then printf 1 (nl "wc: read error") [];; Exit
      else mret k
  end.
Definition wc (fuel : nat) (fd : Z) (name : list Z) : U unit :=
  k ← wc_loop fuel fd (Counts 0 0 0 false);
  printf 1 (nl "%d %d %d %s") [Int (c_l k); Int (c_w k); Int (c_c k); Str (Some name)].

Definition wc_main (fuel : nat) (argv : list (list Z)) : U unit :=
  if (length argv <=? 1)%nat then wc fuel 0 [];; Exit
  else
    for_args (λ a,
      fd ← sys (Open a 0);
      if fd <? 0 then printf 1 (nl "wc: cannot open %s") [Str (Some a)];; Exit
      else wc fuel fd a;; _ ← sys (Close fd); mret true) (tail argv);;
    Exit.

(** ** echo, kill, ln, mkdir, rm *)

Fixpoint echo_loop (args : list (list Z)) : U unit :=
  match args with
  | [] => mret tt
  | a :: args =>
      printf 1 (bytes "%s%s") [Str (Some a); Str (Some (match args with [] => [10] | _ => [32] end))];;
      echo_loop args
  end.
Definition echo_main (argv : list (list Z)) : U unit := echo_loop (tail argv);; Exit.

Definition kill_main (argv : list (list Z)) : U unit :=
  if (length argv <? 2)%nat then printf 2 (nl "usage: kill pid...") [];; Exit
  else for_args (λ a, _ ← sys (Kill (atoi a)); mret true) (tail argv);; Exit.

Definition ln_main (argv : list (list Z)) : U unit :=
  match argv with
  | [_; old; new] =>
      r ← sys (Link old new);
      (if r <? 0 then printf 2 (nl "link %s %s: failed") [Str (Some old); Str (Some new)] else mret tt);;
      Exit
  | _ => printf 2 (nl "Usage: ln old new") [];; Exit
  end.

Definition mkdir_main (argv : list (list Z)) : U unit :=
  if (length argv <? 2)%nat then printf 2 (nl "Usage: mkdir files...") [];; Exit
  else
    for_args (λ a,
      r ← sys (Mkdir a);
      if r <? 0 then printf 2 (nl "mkdir: %s failed to create") [Str (Some a)];; mret false
      else mret true) (tail argv);;
    Exit.

Definition rm_main (argv : list (list Z)) : U unit :=
  if (length argv <? 2)%nat then printf 2 (nl "Usage: rm files...") [];; Exit
  else
    for_args (λ a,
      r ← sys (Unlink a);
      if r <? 0 then printf 2 (nl "rm: %s failed to delete") [Str (Some a)];; mret false
      else mret true) (tail argv);;
    Exit.

(** ** ls *)

(** The part of a path behind its last slash. *)
Fixpoint base_name (path p : list Z) : list Z :=
  match path with
  | [] => p
  | c :: path => if c =? 47 then base_name path path else base_name path p
  end.
Definition fmtname (path : list Z) : list Z :=
  let p := base_name path path in
  if Z.of_nat (length p) >=? DIRSIZ then p else p ++ replicate (Z.to_nat DIRSIZ - length p) 32.

Definition ls_print (path : list Z) (st : stat) : U unit :=
  printf 1 (nl "%s %d %d %d") [Str (Some (fmtname path)); Int (st_type st); Int (st_ino st); Int (st_size st)].

(** The loop over the entries of a directory. *)
Fixpoint ls_dir (fuel : nat) (fd : Z) (path : list Z) : U unit :=
  match fuel with
  | O => Stuck
  | S fuel =>
      '(n, de) ← sys (Read fd 16);
      if negb (n =? 16) then mret tt
      else if get16 de 0 =? 0 then ls_dir fuel fd path
      else
        let buf := path ++ [47] ++ cstring (take (Z.to_nat DIRSIZ) (drop 2 de)) in
        st ← stat_of buf;
        match st with
        | None => printf 1 (nl "ls: cannot stat %s") [Str (Some buf)];; ls_dir fuel fd path
        | Some st => ls_print buf st;; ls_dir fuel fd path
        end
  end.

Definition ls (fuel : nat) (path : list Z) : U unit :=
  fd ← sys (Open path 0);
  if fd <? 0 then printf 2 (nl "ls: cannot open %s") [Str (Some path)]
  else
    st ← sys (Fstat fd);
    match st with
    | None => printf 2 (nl "ls: cannot stat %s") [Str (Some path)];; _ ← sys (Close fd); mret tt
    | Some st =>
        (if st_type st =? T_FILE then ls_print path st
         else if st_type st =? T_DIR then
           if Z.of_nat (length path) + 1 + DIRSIZ + 1 >? 512 then printf 1 (nl "ls: path too long") []
           else ls_dir fuel fd path
         else mret tt);;
        _ ← sys (Close fd);
        mret tt
    end.

Definition ls_main (fuel : nat) (argv : list (list Z)) : U unit :=
  if (length argv <? 2)%nat then ls fuel (bytes ".");; Exit
  else for_args (λ a, ls fuel a;; mret true) (tail argv);; Exit.

(** ** init, zombie *)

(** [while((wpid=wait()) >= 0 && wpid != pid)]. *)
Fixpoint reap_loop (fuel : nat) (pid : Z) : U unit :=
  match fuel with
  | O => Stuck
  | S fuel =>
      wpid ← sys Wait;
      if (wpid >=? 0) && negb (wpid =? pid) then printf 1 (nl "zombie!") [];; reap_loop fuel pid
      else mret tt
  end.

Fixpoint init_loop (fuel : nat) : U unit :=
  match fuel with
  | O => Stuck
  | S fuel' =>
      printf 1 (nl "init: starting sh") [];;
      pid ← sys Fork;
      if pid <? 0 then printf 1 (nl "init: fork failed") [];; Exit
      else
        (if pid =? 0 then
           _ ← sys (Exec (bytes "sh") [bytes "sh"]);
           printf 1 (nl "init: exec sh failed") [];;
           Exit
         else mret tt);;
        reap_loop fuel pid;;
        init_loop fuel'
  end.


Definition init_main (fuel : nat) : U unit :=
  fd ← sys (Open (bytes "console") O_RDWR);
  (if fd <? 0 then
     _ ← sys (Mknod (bytes "console") 1 1);
     _ ← sys (Open (bytes "console") O_RDWR);
     mret tt
   else mret tt);;
  _ ← sys (Dup 0);
  _ ← sys (Dup 0);
  init_loop fuel.

Definition zombie_main : U unit :=
  pid ← sys Fork;
  (if pid >? 0 then _ ← sys (SleepTicks 5); mret tt else mret tt);;
  Exit.
