(* ===== verification/UtilsSpec.v ===== *)
(** * Correctness of the user library and programs

    [printf] writes the text its format describes, decimal output is read back
    by [atoi], [cat] copies its files and [wc] counts lines, words and bytes,
    however the reads are cut into pieces. *)

From Stdlib Require Import ZArith Lia.
From stdpp Require Import base numbers strings list.
From S2P Require Import Prelude Bytes Disk Fs User Syscall Sh Utils.

(** ** A world with files *)

(** The files by path, what is left to read at each descriptor, the sizes the
    next reads are cut to, and what was written to descriptor 1. *)
Record world := World {
  w_file : list Z → option (list Z);
  w_fd : list (option (list Z));
  w_chunk : list nat;
  w_out : list Z;
}.
Definition set_wfd (t : list (option (list Z))) (w : world) : world :=
  World (w_file w) t (w_chunk w) (w_out w).
Definition put_out (bs : list Z) (w : world) : world :=
  World (w_file w) (w_fd w) (w_chunk w) (w_out w ++ bs).

(** A read returns at least one byte unless the file is at its end. *)
Definition cut (n : Z) (chunk : list nat) (r : list Z) : nat :=
  Nat.max 1 (Nat.min (Nat.min (Z.to_nat n) (length r)) (default (Z.to_nat n) (head chunk))).

Definition file_call (X : Type) (c : call X) (w : world) : X * world :=
  match c in call X return X * world with
  | Read fd n =>
      match w_fd w !! Z.to_nat fd with
      | Some (Some []) => ((0, []), w)
      | Some (Some r) =>
          let k := cut n (w_chunk w) r in
          ((Z.of_nat k, take k r),
           World (w_file w) (<[Z.to_nat fd := Some (drop k r)]> (w_fd w)) (tail (w_chunk w)) (w_out w))
      | _ => ((-1, []), w)
      end
  | Write fd bs => (Z.of_nat (length bs), if fd =? 1 then put_out bs w else w)
  | Open path _ =>
      match w_file w path, free_fd (w_fd w) 0%nat with
      | Some r, Some fd => (Z.of_nat fd, set_wfd (<[fd := Some r]> (w_fd w)) w)
      | _, _ => (-1, w)
      end
  | Close fd => (0, set_wfd (<[Z.to_nat fd := None]> (w_fd w)) w)
  | Pipe => (None, w)
  | Fstat _ => (None, w)
  | Fork | Wait | Kill _ | Exec _ _ | Mknod _ _ _ | Unlink _ | Link _ _ => (-1, w)
  | Mkdir _ | Chdir _ | Dup _ | Sbrk _ | SleepTicks _ => (-1, w)
  end.
Local Abbreviation go := (run file_call).

Lemma put_out_out a b w : put_out b (put_out a w) = put_out (a ++ b) w.
Proof. unfold put_out. simpl. by rewrite app_assoc. Qed.
Lemma put_out_nil w : put_out [] w = w.
Proof. destruct w. unfold put_out. simpl. by rewrite app_nil_r. Qed.

Tactic Notation "ustep" uconstr(H) := rewrite (run_bind_done _ _ _ _ _ _ H).

(** ** printf *)

Lemma putc_ok c w : 0 ≤ c < 256 → go (putc 1 c) w = (Done tt, put_out [c] w).
Proof. intros H. simpl. by rewrite u8_small. Qed.
Lemma putcs_ok s w : Forall (λ c, 0 ≤ c < 256) s → go (putcs 1 s) w = (Done tt, put_out s w).
Proof.
  intros H. revert w. induction H as [|c s Hc _ IH]; intros w; simpl; [by rewrite put_out_nil|].
  rewrite IH, put_out_out. by rewrite u8_small.
Qed.

(** The digits of [x], least significant first. *)
Fixpoint digits_of (fuel : nat) (x base : Z) : list Z :=
  match fuel with
  | O => []
  | S fuel =>
      default 0 (digits !! Z.to_nat (x mod base)) :: (if x / base =? 0 then [] else digits_of fuel (x / base) base)
  end.

Lemma digits_of_length fuel x base : (length (digits_of fuel x base) ≤ fuel)%nat.
Proof. revert x. induction fuel as [|n IH]; intros x; simpl; [lia|]. destruct (_ =? 0); simpl; [lia|]. specialize (IH (x / base)). lia. Qed.

Lemma print_digits_ok n k x base buf :
  2 ≤ base → 0 ≤ x < base ^ Z.of_nat n → (1 ≤ n ≤ k)%nat → (length buf + n ≤ 16)%nat →
  print_digits k x base buf = Ret (buf ++ digits_of n x base).
Proof.
  intros Hb. revert k x buf. induction n as [|n IH]; intros k x buf Hx Hk Hl; [lia|].
  destruct k as [|k]; [lia|]. cbn [print_digits digits_of]. destruct (Nat.ltb_spec (length buf) 16); [|lia].
  destruct (Z.eqb_spec (x / base) 0) as [E|E]; cbn [negb]; [done|].
  assert (0 ≤ x / base < base ^ Z.of_nat n) as Hd.
  { split; [apply Z.div_pos; lia|]. apply Z.div_lt_upper_bound; [lia|].
    rewrite Nat2Z.inj_succ, Z.pow_succ_r in Hx by lia. lia. }
  assert (n ≠ 0%nat) by (intros ->; simpl in Hd; lia).
  rewrite IH; [|done|lia|rewrite length_app; simpl; lia]. by rewrite <-app_assoc.
Qed.

(** The text of a number in base 10 or 16. *)
Definition int_text (x base : Z) (sgn : bool) : list Z :=
  if sgn && (x <? 0) then 45 :: rev (digits_of 10 (u32 (- x)) base) else rev (digits_of 10 (u32 x) base).

Lemma digits_of_bytes n x base : 0 < base → Forall (λ c, 0 ≤ c < 256) (digits_of n x base).
Proof.
  intros Hb. revert x. induction n as [|n IH]; intros x; [constructor|]. simpl. constructor; [|destruct (_ =? 0); [constructor|apply IH]].
  destruct (digits !! Z.to_nat (x mod base)) as [d|] eqn:E; simpl; [|lia].
  eapply (Forall_lookup_1 (λ c, 0 ≤ c < 256)); [|exact E].
  apply (bool_decide_unpack _). by vm_compute.
Qed.

Lemma printint_ok x base sgn w : base = 10 ∨ base = 16 → go (printint 1 x base sgn) w = (Done tt, put_out (int_text x base sgn) w).
Proof.
  intros Hb. unfold printint, int_text. set (y := if sgn && (x <? 0) then u32 (- x) else u32 x).
  assert (print_digits 33 y base [] = Ret (digits_of 10 y base)) as E.
  { rewrite (print_digits_ok 10 33 y base []); [done|lia| |lia|simpl; lia].
    assert (0 ≤ y < 4294967296) by (unfold y; destruct (_ && _); apply u32_range). destruct Hb; subst base; simpl; lia. }
  rewrite E. change (Ret ?a ≫= ?f) with (f a). cbn beta.
  pose proof (digits_of_length 10 y base). destruct (Nat.ltb_spec (length (digits_of 10 y base)) 16); [|lia].
  rewrite andb_false_r. change (mret tt ≫= ?f) with (f tt). cbn beta. rewrite putcs_ok.
  - unfold y. destruct (sgn && (x <? 0)); [|done]. by rewrite rev_app_distr.
  - apply Forall_rev. pose proof (digits_of_bytes 10 y base ltac:(lia)).
    destruct (_ && _); [apply Forall_app; split; [done|]; constructor; [lia|constructor]|done].
Qed.

(** The text of a format. *)
Fixpoint format (fmt : list Z) (ap : list arg) (state : bool) : option (list Z) :=
  match fmt with
  | [] => Some []
  | c :: fmt =>
      if state then
        if c =? 100 then
          match ap with Int x :: ap => (int_text (s32 x) 10 true ++.) <$> format fmt ap false | _ => None end
        else if (c =? 120) || (c =? 112) then
          match ap with Int x :: ap => (int_text (s32 x) 16 false ++.) <$> format fmt ap false | _ => None end
        else if c =? 115 then
          match ap with Str s :: ap => (default null_text s ++.) <$> format fmt ap false | _ => None end
        else if c =? 99 then
          match ap with Int x :: ap => (u8 x ::.) <$> format fmt ap false | _ => None end
        else if c =? 37 then (37 ::.) <$> format fmt ap false
        else (λ t, 37 :: c :: t) <$> format fmt ap false
      else if c =? 37 then format fmt ap true
      else (c ::.) <$> format fmt ap false
  end.

Definition arg_ok (a : arg) : Prop :=
  match a with Int _ => True | Str s => Forall (λ c, 0 ≤ c < 256) (default null_text s) end.

Lemma printf_loop_ok fmt ap st t w :
  Forall (λ c, 0 ≤ c < 256) fmt → Forall arg_ok ap → format fmt ap st = Some t →
  go (printf_loop 1 fmt ap st) w = (Done tt, put_out t w).
Proof.
  intros Hf. revert ap st t w. induction Hf as [|c fmt Hc _ IH]; intros ap st t w Ha H; cbn [printf_loop format] in *.
  { simplify_eq. simpl. by rewrite put_out_nil. }
  assert (Hput : ∀ d ap t', 0 ≤ d < 256 → Forall arg_ok ap → (d ::.) <$> format fmt ap false = Some t' →
    go (putc 1 d;; printf_loop 1 fmt ap false) w = (Done tt, put_out t' w)).
  { intros d ap' t' Hd Ha' (t1 & E & ->)%fmap_Some. ustep (putc_ok d w Hd). rewrite (IH _ _ _ _ Ha' E).
    by rewrite put_out_out. }
  destruct st; [|destruct (c =? 37); [by apply IH|by apply Hput]].
  destruct (c =? 100); [|destruct ((c =? 120) || (c =? 112)); [|destruct (c =? 115); [|destruct (c =? 99);
    [|destruct (Z.eqb_spec c 37) as [->|_]]]]].
  - destruct Ha as [|[x|s] ap _ Ha]; [done| |done]. apply fmap_Some in H as (t1 & E & ->).
    ustep (printint_ok (s32 x) 10 true w ltac:(lia)). rewrite (IH _ _ _ _ Ha E). by rewrite put_out_out.
  - destruct Ha as [|[x|s] ap _ Ha]; [done| |done]. apply fmap_Some in H as (t1 & E & ->).
    ustep (printint_ok (s32 x) 16 false w ltac:(lia)). rewrite (IH _ _ _ _ Ha E). by rewrite put_out_out.
  - destruct Ha as [|[x|s] ap Hs Ha]; [done|done|]. apply fmap_Some in H as (t1 & E & ->).
    ustep (putcs_ok (default null_text s) w Hs). rewrite (IH _ _ _ _ Ha E). by rewrite put_out_out.
  - destruct Ha as [|[x|s] ap _ Ha]; [done| |done]. apply fmap_Some in H as (t1 & E & ->).
    rewrite (run_bind_done _ _ _ _ tt (put_out [u8 x] w)) by done. rewrite (IH _ _ _ _ Ha E). by rewrite put_out_out.
  - by apply Hput.
  - apply fmap_Some in H as (t1 & E & ->). ustep (putc_ok 37 w ltac:(lia)). ustep (putc_ok c _ Hc).
    rewrite (IH _ _ _ _ Ha E). by rewrite !put_out_out.
Qed.

Lemma printf_ok fmt ap t w :
  Forall (λ c, 0 ≤ c < 256) fmt → Forall arg_ok ap → format fmt ap false = Some t →
  go (printf 1 fmt ap) w = (Done tt, put_out t w).
Proof. apply printf_loop_ok. Qed.

(** *** Decimal numbers are read back *)

Lemma atoi_loop_app s1 s2 n :
  Forall (λ c, 48 ≤ c ≤ 57) s1 → atoi_loop (s1 ++ s2) n = atoi_loop s2 (atoi_loop s1 n).
Proof.
  intros H. revert n. induction H as [|c s1 Hc _ IH]; intros n; [done|]. simpl.
  assert ((48 <=? c) && (c <=? 57) = true) as -> by lia. apply IH.
Qed.
Lemma digit_10 d : 0 ≤ d < 10 → default 0 (digits !! Z.to_nat d) = 48 + d.
Proof.
  intros H. assert (d = 0 ∨ d = 1 ∨ d = 2 ∨ d = 3 ∨ d = 4 ∨ d = 5 ∨ d = 6 ∨ d = 7 ∨ d = 8 ∨ d = 9) as Hd by lia.
  by destruct_or!; subst.
Qed.
Lemma digits_of_10 n x : 0 ≤ x → Forall (λ c, 48 ≤ c ≤ 57) (digits_of n x 10).
Proof.
  revert x. induction n as [|n IH]; intros x Hx; [constructor|]. cbn [digits_of]. rewrite digit_10 by (apply Z.mod_pos_bound; lia).
  pose proof (Z.mod_pos_bound x 10 ltac:(lia)). constructor; [lia|].
  destruct (_ =? 0); [constructor|]. apply IH, Z.div_pos; lia.
Qed.
Lemma atoi_digits n x : 0 ≤ x < 10 ^ Z.of_nat n → x < 2147483648 → (1 ≤ n)%nat → atoi (rev (digits_of n x 10)) = x.
Proof.
  unfold atoi. revert x. induction n as [|n IH]; intros x Hx Hs Hn; [lia|]. cbn [digits_of].
  pose proof (Z.mod_pos_bound x 10 ltac:(lia)) as Hm. pose proof (Z.div_mod x 10 ltac:(lia)) as Hdm.
  rewrite digit_10 by done. cbn [rev]. rewrite atoi_loop_app.
  - assert (atoi_loop (rev (if x / 10 =? 0 then [] else digits_of n (x / 10) 10)) 0 = x / 10) as ->.
    { destruct (Z.eqb_spec (x / 10) 0) as [E|E]; [by rewrite E|].
      rewrite Nat2Z.inj_succ, Z.pow_succ_r in Hx by lia.
      assert (n ≠ 0%nat) by (intros ->; simpl in Hx; zlia). apply IH; [zlia|zlia|lia]. }
    simpl. assert ((48 <=? 48 + x mod 10) && (48 + x mod 10 <=? 57) = true) as -> by lia.
    rewrite s32_small; zlia.
  - apply Forall_rev. destruct (_ =? 0); [constructor|]. apply digits_of_10, Z.div_pos; lia.
Qed.

(** ** Reading a file in pieces *)

(** The world after the rest of descriptor [fd] has been read. *)
Definition drained (fd : Z) (ch : list nat) (out : list Z) (w : world) : world :=
  World (w_file w) (<[Z.to_nat fd := Some []]> (w_fd w)) ch out.

Lemma drained_twice fd r ch ch' out out' w :
  drained fd ch out (World (w_file w) (<[Z.to_nat fd := Some r]> (w_fd w)) ch' out') = drained fd ch out w.
Proof. unfold drained. simpl. by rewrite list_insert_insert_eq. Qed.

Lemma cut_bounds n ch r : 0 < n → r ≠ [] → (1 ≤ cut n ch r ≤ length r)%nat.
Proof. intros Hn Hr. destruct r as [|b r]; [done|]. unfold cut. simpl. lia. Qed.

(** One read: the end of the file, or the next piece. *)
Lemma read_end {A} fd n w (f : Z * list Z → U A) :
  w_fd w !! Z.to_nat fd = Some (Some []) → go (sys (Read fd n) ≫= f) w = go (f (0, [])) w.
Proof. intros H. cbn. by rewrite H. Qed.
Lemma read_more {A} fd n r w (f : Z * list Z → U A) :
  w_fd w !! Z.to_nat fd = Some (Some r) → r ≠ [] →
  let k := cut n (w_chunk w) r in
  go (sys (Read fd n) ≫= f) w =
  go (f (Z.of_nat k, take k r))
    (World (w_file w) (<[Z.to_nat fd := Some (drop k r)]> (w_fd w)) (tail (w_chunk w)) (w_out w)).
Proof. intros H Hr. destruct r as [|b r]; [done|]. cbn -[cut take drop]. by rewrite H. Qed.

Lemma cat_ok fuel fd r w :
  w_fd w !! Z.to_nat fd = Some (Some r) → (length r < fuel)%nat →
  ∃ ch, go (cat fuel fd) w = (Done tt, drained fd ch (w_out w ++ r) w).
Proof.
  revert r w. induction fuel as [|fuel IH]; intros r w Hfd Hf; [lia|]. cbn [cat].
  destruct (decide (r = [])) as [->|Hr].
  - exists (w_chunk w). rewrite (read_end _ _ _ _ Hfd). simpl. unfold drained.
    rewrite list_insert_id by done. rewrite app_nil_r. by destruct w.
  - rewrite (read_more _ _ r) by done. pose proof (cut_bounds 512 (w_chunk w) r ltac:(lia) Hr) as Hk.
    set (k := cut 512 (w_chunk w) r) in *. cbn zeta. destruct (Z.gtb_spec (Z.of_nat k) 0); [|lia].
    rewrite Nat2Z.id, take_take, Nat.min_id.
    erewrite run_bind_done; [|cbn -[take drop]; rewrite length_take_le by lia; reflexivity].
    rewrite Z.eqb_refl. cbn [negb].
    destruct (IH (drop k r) (put_out (take k r) (World (w_file w) (<[Z.to_nat fd := Some (drop k r)]> (w_fd w))
      (tail (w_chunk w)) (w_out w)))) as [ch E].
    + simpl. rewrite list_lookup_insert_eq; [done|by eapply lookup_lt_Some].
    + rewrite length_drop. lia.
    + exists ch. rewrite E. f_equal. unfold put_out. cbn [w_out w_file w_fd w_chunk].
      rewrite drained_twice. by rewrite <-app_assoc, take_drop.
Qed.

Lemma wc_loop_ok fuel fd r k w :
  w_fd w !! Z.to_nat fd = Some (Some r) → (length r < fuel)%nat →
  ∃ ch, go (wc_loop fuel fd k) w = (Done (foldl wc_byte k r), drained fd ch (w_out w) w).
Proof.
  revert r k w. induction fuel as [|fuel IH]; intros r k0 w Hfd Hf; [lia|]. cbn [wc_loop].
  destruct (decide (r = [])) as [->|Hr].
  - exists (w_chunk w). rewrite (read_end _ _ _ _ Hfd). simpl. unfold drained.
    rewrite list_insert_id by done. by destruct w.
  - rewrite (read_more _ _ r) by done. pose proof (cut_bounds 512 (w_chunk w) r ltac:(lia) Hr) as Hk.
    set (k := cut 512 (w_chunk w) r) in *. cbn zeta. destruct (Z.gtb_spec (Z.of_nat k) 0); [|lia].
    rewrite Nat2Z.id, take_take, Nat.min_id.
    destruct (IH (drop k r) (foldl wc_byte k0 (take k r)) (World (w_file w) (<[Z.to_nat fd := Some (drop k r)]> (w_fd w))
      (tail (w_chunk w)) (w_out w))) as [ch E].
    + simpl. rewrite list_lookup_insert_eq; [done|by eapply lookup_lt_Some].
    + rewrite length_drop. lia.
    + exists ch. rewrite E. rewrite drained_twice. cbn [w_out]. by rewrite <-foldl_app, take_drop.
Qed.

(** ** What wc counts *)

Definition space (c : Z) : bool := in_set [32; 13; 9; 10; 11] c.

(** The words of a text: its longest pieces without white space. *)
Fixpoint words_from (cur : list Z) (s : list Z) : list (list Z) :=
  match s with
  | [] => match cur with [] => [] | _ => [cur] end
  | c :: s =>
      if space c then match cur with [] => words_from [] s | _ => cur :: words_from [] s end
      else words_from (cur ++ [c]) s
  end.
Definition words (s : list Z) : list (list Z) := words_from [] s.
Definition newlines (s : list Z) : nat := length (filter (λ c, c = 10) s).

Lemma wc_count s l w c cur :
  0 ≤ l → 0 ≤ w → 0 ≤ c → l + Z.of_nat (length s) < 2147483648 → w + Z.of_nat (length s) < 2147483648 →
  c + Z.of_nat (length s) < 2147483648 →
  let k := foldl wc_byte (Counts l w c (bool_decide (cur ≠ []))) s in
  c_l k = l + Z.of_nat (newlines s) ∧ c_c k = c + Z.of_nat (length s) ∧
  c_w k = w + Z.of_nat (length (words_from cur s)) - b2z (bool_decide (cur ≠ [])).
Proof.
  revert l w c cur. induction s as [|b s IH]; intros l w c cur Hl Hw Hc Bl Bw Bc; cbn zeta.
  { simpl. destruct cur; simpl; unfold newlines; simpl; lia. }
  cbn [foldl]. rewrite length_cons in *.
  remember (wc_byte (Counts l w c (bool_decide (cur ≠ []))) b) as k1 eqn:Ek.
  unfold wc_byte in Ek. cbn [c_c c_l c_w c_inword] in Ek. rewrite (s32_small (c + 1)) in Ek by lia.
  assert ((if b =? 10 then s32 (l + 1) else l) = l + (if b =? 10 then 1 else 0)) as El
    by (destruct (b =? 10); [apply s32_small|]; lia).
  rewrite El in Ek.
  assert (Z.of_nat (newlines (b :: s)) = (if b =? 10 then 1 else 0) + Z.of_nat (newlines s)) as En.
  { unfold newlines. rewrite filter_cons. destruct (Z.eqb_spec b 10); [rewrite decide_True by done|rewrite decide_False by done];
      simpl; lia. }
  rewrite En. cbn [words_from]. fold (space b) in Ek. set (d := if b =? 10 then 1 else 0) in *.
  assert (0 ≤ d ≤ 1) by (unfold d; destruct (b =? 10); lia).
  destruct (space b); subst k1.
  - specialize (IH (l + d) w (c + 1) []). cbn zeta in IH. rewrite bool_decide_eq_false_2 in IH by auto.
    destruct IH as (H1 & H2 & H3); try lia. rewrite H1, H2, H3. destruct cur; simpl; lia.
  - assert (bool_decide (cur ++ [b] ≠ []) = true) as Eb by (apply bool_decide_eq_true_2; by destruct cur).
    destruct (decide (cur = [])) as [->|Hn].
    + rewrite (bool_decide_eq_false_2 ([] ≠ [])) by auto. cbn [negb b2z]. rewrite (s32_small (w + 1)) by lia.
      specialize (IH (l + d) (w + 1) (c + 1) ([] ++ [b])). cbn zeta in IH. rewrite Eb in IH. cbn [b2z] in IH.
      destruct IH as (H1 & H2 & H3); lia.
    + rewrite bool_decide_eq_true_2 by done. cbn [negb].
      specialize (IH (l + d) w (c + 1) (cur ++ [b])). cbn zeta in IH. rewrite Eb in IH. cbn [b2z] in *.
      destruct IH as (H1 & H2 & H3); lia.
Qed.

(** ** Whole programs *)

Lemma free_fd_None {A} (t : list (option A)) n fd :
  free_fd t n = Some fd → (n ≤ fd)%nat ∧ t !! (fd - n)%nat = Some None.
Proof.
  revert n. induction t as [|[x|] t IH]; intros n H; simpl in H; [done| |].
  - apply IH in H as [H1 H2]. split; [lia|]. replace (fd - n)%nat with (S (fd - S n)) by lia. done.
  - simplify_eq. by rewrite Nat.sub_diag.
Qed.

(** Only the cuts and the output of a world differ. *)
Definition wrote (ch : list nat) (out : list Z) (w : world) : world := World (w_file w) (w_fd w) ch out.

(** Open a file, read it to its end with [m], close it. *)
Lemma with_file (m : Z → U unit) (k : U bool) a r fd out w :
  w_file w a = Some r → free_fd (w_fd w) 0%nat = Some fd →
  (∀ w0, w_fd w0 !! Z.to_nat (Z.of_nat fd) = Some (Some r) → w_out w0 = w_out w →
     ∃ ch, go (m (Z.of_nat fd)) w0 = (Done tt, drained (Z.of_nat fd) ch out w0)) →
  ∃ ch, go (d ← sys (Open a 0); if d <? 0 then k else m d;; _ ← sys (Close d); mret true) w =
    (Done true, wrote ch out w).
Proof.
  intros Ha Hfd Hm. pose proof (free_fd_None _ _ _ Hfd) as [_ Hn]. rewrite Nat.sub_0_r in Hn.
  pose proof (lookup_lt_Some _ _ _ Hn) as Hlt.
  destruct (Hm (set_wfd (<[fd := Some r]> (w_fd w)) w)) as [ch E].
  { simpl. rewrite Nat2Z.id. by apply list_lookup_insert_eq. }
  { done. }
  exists ch. erewrite run_bind_done; [|cbn; rewrite Ha, Hfd; reflexivity].
  destruct (Z.ltb_spec (Z.of_nat fd) 0); [lia|]. rewrite (run_bind_done _ _ _ _ _ _ E). cbn.
  unfold drained, set_wfd, wrote. cbn. rewrite !Nat2Z.id, !list_insert_insert_eq. by rewrite list_insert_id.
Qed.

(** Run such a body for each file. *)
Lemma for_files (f : list Z → U bool) (text : list Z → list Z → list Z) args contents w :
  Forall2 (λ a r, ∀ ch out, ∃ ch', go (f a) (wrote ch out w) = (Done true, wrote ch' (out ++ text a r) w)) args contents →
  ∀ ch out, ∃ ch', go (for_args f args) (wrote ch out w) =
    (Done tt, wrote ch' (out ++ mjoin (zip_with text args contents)) w).
Proof.
  induction 1 as [|a r args contents Ha _ IH]; intros ch out; cbn [for_args].
  - exists ch. simpl. by rewrite app_nil_r.
  - destruct (Ha ch out) as [ch1 E1]. destruct (IH ch1 (out ++ text a r)) as [ch2 E2].
    exists ch2. rewrite (run_bind_done _ _ _ _ _ _ E1), E2. simpl. by rewrite app_assoc.
Qed.

Lemma zip_with_second (l k : list (list Z)) : length l = length k → zip_with (λ _ r, r) l k = k.
Proof. revert k. induction l as [|x l IH]; intros [|y k] H; simplify_eq/=; [done|]. by rewrite IH. Qed.

(** The line [wc] prints for a file. *)
Definition wc_line (name r : list Z) : list Z :=
  int_text (Z.of_nat (newlines r)) 10 true ++ [32] ++ int_text (Z.of_nat (length (words r))) 10 true ++ [32] ++
  int_text (Z.of_nat (length r)) 10 true ++ [32] ++ name ++ [10].

Lemma words_from_length s cur : (length (words_from cur s) ≤ length s + match cur with [] => 0 | _ => 1 end)%nat.
Proof.
  revert cur. induction s as [|c s IH]; intros cur; simpl; [destruct cur; simpl; lia|].
  destruct (space c); [destruct cur; simpl; specialize (IH []); simpl in IH; lia|].
  specialize (IH (cur ++ [c])). destruct cur; simpl in *; lia.
Qed.

Lemma wc_ok fuel fd name r w :
  w_fd w !! Z.to_nat fd = Some (Some r) → (length r < fuel)%nat → Z.of_nat (length r) < 2147483648 →
  Forall (λ c, 0 ≤ c < 256) name →
  ∃ ch, go (wc fuel fd name) w = (Done tt, drained fd ch (w_out w ++ wc_line name r) w).
Proof.
  intros Hfd Hf Hr Hn. destruct (wc_loop_ok fuel fd r (Counts 0 0 0 false) w Hfd Hf) as [ch E].
  exists ch. unfold wc. rewrite (run_bind_done _ _ _ _ _ _ E).
  pose proof (wc_count r 0 0 0 []) as Hk. cbn zeta in Hk. rewrite (bool_decide_eq_false_2 ([] ≠ [])) in Hk by auto.
  set (k := foldl wc_byte (Counts 0 0 0 false) r) in *. destruct Hk as (H1 & H2 & H3); try lia.
  pose proof (words_from_length r []) as Hw. cbn iota in Hw.
  assert (newlines r ≤ length r)%nat as Hl by (unfold newlines; apply length_filter).
  rewrite (printf_ok _ _ (wc_line name r)).
  - unfold put_out, drained. simpl. done.
  - apply (bool_decide_unpack _). by vm_compute.
  - repeat constructor. exact Hn.
  - rewrite H1, H2, H3. cbn [b2z]. rewrite !Z.add_0_l, Z.sub_0_r. unfold wc_line, words.
    replace (nl "%d %d %d %s") with [37; 100; 32; 37; 100; 32; 37; 100; 32; 37; 115; 10] by (by vm_compute).
    cbn -[int_text s32]. by rewrite !s32_small by lia.
Qed.

(** ** Claims *)

(** [cat] copies: it writes the contents of its files, in order, to its
    output, whatever sizes its reads return, and leaves no descriptor open. *)
Theorem cat_copies_files fuel name args contents fd w :
  Forall2 (λ a r, w_file w a = Some r ∧ (length r < fuel)%nat) args contents → args ≠ [] →
  free_fd (w_fd w) 0%nat = Some fd →
  ∃ ch, run file_call (cat_main fuel (name :: args)) w = (Exited, wrote ch (w_out w ++ mjoin contents) w).
Proof.
  intros Hf Hne Hfd. unfold cat_main. destruct args as [|a args]; [done|]. cbn [length Nat.leb tail].
  destruct (for_files (λ a, d ← sys (Open a 0); if d <? 0 then printf 1 (nl "cat: cannot open %s") [Str (Some a)];; Exit
    else cat fuel d;; _ ← sys (Close d); mret true) (λ _ r, r) (a :: args) contents w) with (ch := w_chunk w) (out := w_out w)
    as [ch E].
  - eapply Forall2_impl; [exact Hf|]. intros b r [Hb Hl] ch out.
    apply (with_file _ _ b r fd (out ++ r) (wrote ch out w) Hb Hfd).
    intros w0 Hw0 Ho. simpl in Ho. destruct (cat_ok fuel _ _ _ Hw0 Hl) as [ch' E]. exists ch'. by rewrite <-Ho.
  - assert (wrote (w_chunk w) (w_out w) w = w) as Ew by (by destruct w). rewrite Ew in E.
    exists ch. rewrite (run_bind_done _ _ _ _ _ _ E). cbn [run].
    by rewrite (zip_with_second _ _ (Forall2_length _ _ _ Hf)).
Qed.

Definition demo_world : world :=
  World (λ p, if bool_decide (p = bytes "f") then Some (bytes "ab cd" ++ [10]) else None)
    [Some []; Some []; Some []; None] [2%nat; 1%nat] [].

Lemma cat_copies_files_witness : ∃ ch,
  run file_call (cat_main 10 [bytes "cat"; bytes "f"]) demo_world = (Exited, wrote ch (bytes "ab cd" ++ [10]) demo_world).
Proof.
  apply (cat_copies_files 10 (bytes "cat") [bytes "f"] [bytes "ab cd" ++ [10]] 3 demo_world).
  - repeat constructor.
  - discriminate.
  - reflexivity.
Defined.

(** C35. [wc] counts: for each file it prints the number of its newlines, of its
    words (longest pieces without white space, also where a read ends inside
    one) and of its bytes, in decimal, and the name. *)
Theorem wc_counts_files fuel name args contents fd w :
  Forall2 (λ a r, w_file w a = Some r ∧ (length r < fuel)%nat ∧ Z.of_nat (length r) < 2147483648 ∧
    Forall (λ c, 0 ≤ c < 256) a) args contents → args ≠ [] →
  free_fd (w_fd w) 0%nat = Some fd →
  ∃ ch, run file_call (wc_main fuel (name :: args)) w =
    (Exited, wrote ch (w_out w ++ mjoin (zip_with wc_line args contents)) w).
Proof.
  intros Hf Hne Hfd. unfold wc_main. destruct args as [|a args]; [done|]. cbn [length Nat.leb tail].
  destruct (for_files (λ a, d ← sys (Open a 0); if d <? 0 then printf 1 (nl "wc: cannot open %s") [Str (Some a)];; Exit
    else wc fuel d a;; _ ← sys (Close d); mret true) wc_line (a :: args) contents w) with (ch := w_chunk w) (out := w_out w)
    as [ch E].
  - eapply Forall2_impl; [exact Hf|]. intros b r (Hb & Hl & Hr & Hn) ch out.
    apply (with_file (λ d, wc fuel d b) _ b r fd (out ++ wc_line b r) (wrote ch out w) Hb Hfd).
    intros w0 Hw0 Ho. simpl in Ho. destruct (wc_ok fuel _ b _ _ Hw0 Hl Hr Hn) as [ch' E]. exists ch'. by rewrite <-Ho.
  - assert (wrote (w_chunk w) (w_out w) w = w) as Ew by (by destruct w). rewrite Ew in E.
    exists ch. by rewrite (run_bind_done _ _ _ _ _ _ E).
Qed.

Lemma wc_counts_files_witness : ∃ ch,
  run file_call (wc_main 10 [bytes "wc"; bytes "f"]) demo_world = (Exited, wrote ch (bytes "1 2 6 f" ++ [10]) demo_world).
Proof.
  apply (wc_counts_files 10 (bytes "wc") [bytes "f"] [bytes "ab cd" ++ [10]] 3 demo_world).
  - repeat constructor; vm_compute; discriminate || reflexivity.
  - discriminate.
  - reflexivity.
Defined.

(** C36. What [printf] prints for [%d] is read back by [atoi], for every
    number that is not negative. *)
Theorem printf_atoi_roundtrip x w :
  0 ≤ x < 2147483648 →
  ∃ t, run file_call (printf 1 (bytes "%d") [Int x]) w = (Done tt, put_out t w) ∧ atoi t = x.
Proof.
  intros Hx. exists (int_text x 10 true). split.
  - apply printf_ok.
    + apply (bool_decide_unpack _). by vm_compute.
    + by repeat constructor.
    + replace (bytes "%d") with [37; 100] by (by vm_compute). cbn -[int_text s32].
      rewrite s32_small by lia. by rewrite app_nil_r.
  - unfold int_text. destruct (Z.ltb_spec x 0); [lia|]. rewrite andb_false_r, u32_small by lia.
    apply atoi_digits; [simpl; lia|lia|lia].
Qed.

Lemma printf_atoi_roundtrip_witness :
  ∃ t, run file_call (printf 1 (bytes "%d") [Int 40]) demo_world = (Done tt, put_out t demo_world) ∧ atoi t = 40.
Proof. apply (printf_atoi_roundtrip 40 demo_world). lia. Defined.
