(* ===== verification/Umalloc.v ===== *)
(** * The user-level allocator (umalloc.c)

    Free blocks form a circular list in the order of their addresses, starting
    at the static header [base]; a block is a header of 8 bytes, the address of
    the next free block and the size in units of 8 bytes, followed by what the
    program uses.  The kernel's answer to [sbrk] is a parameter.  [malloc] is
    shown to hand out blocks that overlap nothing in use and [free] to give them
    back, for any sequence of calls of a program that keeps to its blocks. *)

From Stdlib Require Import ZArith Lia.
From stdpp Require Import base numbers strings gmap list.
From S2P Require Import Prelude Memory.

Record heap := Heap { h_mem : memory; h_freep : Z; h_brk : Z }.
Definition set_mem (m : memory) (h : heap) : heap := Heap m (h_freep h) (h_brk h).
Definition set_freep (p : Z) (h : heap) : heap := Heap (h_mem h) p (h_brk h).
Definition set_brk (b : Z) (h : heap) : heap := Heap (h_mem h) (h_freep h) b.

(** [sizeof(Header)]; pointers to headers count in these units. *)
Definition HEADER : Z := 8.
Definition plus (p n : Z) : Z := u32 (p + HEADER * n).

Definition ptr (p : Z) : M heap Z := gets (λ h, load32 (h_mem h) p).
Definition size (p : Z) : M heap Z := gets (λ h, load32 (h_mem h) (u32 (p + 4))).
Definition put_ptr (p v : Z) : M heap unit := modify (λ h, set_mem (store32 (h_mem h) p v) h).
Definition put_size (p v : Z) : M heap unit := modify (λ h, set_mem (store32 (h_mem h) (u32 (p + 4)) v) h).

Section umalloc.
Context (base : Z) (grow : Z → Z → bool).

Definition sbrk (n : Z) : M heap Z :=
  b ← gets h_brk;
  if grow b n then modify (set_brk (u32 (b + n)));; mret b else mret (-1).

(** The loop of [free]: the free block before [bp]. *)
Fixpoint free_find (fuel : nat) (p bp : Z) : M heap Z :=
  match fuel with
  | O => nofuel
  | S fuel =>
      n ← ptr p;
      if (bp >? p) && (bp <? n) then mret p
      else if (p >=? n) && ((bp >? p) || (bp <? n)) then mret p
      else free_find fuel n bp
  end.

(** Join [bp] to the free block [n] behind it. *)
Definition join_next (bp n : Z) : M heap unit :=
  bs ← size bp;
  if plus bp bs =? n then
    ns ← size n;
    put_size bp (u32 (bs + ns));;
    nn ← ptr n;
    put_ptr bp nn
  else put_ptr bp n.

(** Join [bp] to the free block [p] before it. *)
Definition join_prev (p bp : Z) : M heap unit :=
  ps ← size p;
  if plus p ps =? bp then
    bs ← size bp;
    put_size p (u32 (ps + bs));;
    bn ← ptr bp;
    put_ptr p bn
  else put_ptr p bp.

Definition free (fuel : nat) (ap : Z) : M heap unit :=
  let bp := plus ap (-1) in
  f ← gets h_freep;
  p ← free_find fuel f bp;
  n ← ptr p;
  join_next bp n;;
  join_prev p bp;;
  modify (set_freep p).

Definition morecore (fuel : nat) (nu : Z) : M heap Z :=
  let nu := if nu <? 4096 then 4096 else nu in
  p ← sbrk (s32 (nu * HEADER));
  if p =? -1 then mret 0
  else
    put_size p nu;;
    free fuel (plus p 1);;
    gets h_freep.

(** Take [nunits] units of the block [p], which [prevp] points to. *)
Definition take_units (nunits prevp p : Z) : M heap Z :=
  s ← size p;
  p ← (if s =? nunits then
         n ← ptr p;
         put_ptr prevp n;;
         mret p
       else
         put_size p (u32 (s - nunits));;
         let p := plus p (u32 (s - nunits)) in
         put_size p nunits;;
         mret p);
  modify (set_freep prevp);;
  mret (plus p 1).

(** The loop of [malloc]; [fuel] bounds the blocks it visits, and [k] those of
    each [free]. *)
Fixpoint malloc_loop (k fuel : nat) (nunits prevp p : Z) : M heap Z :=
  match fuel with
  | O => nofuel
  | S fuel =>
      s ← size p;
      if s >=? nunits then take_units nunits prevp p
      else
        f ← gets h_freep;
        if p =? f then
          p ← morecore k nunits;
          if p =? 0 then mret 0
          else q ← ptr p; malloc_loop k fuel nunits p q
        else q ← ptr p; malloc_loop k fuel nunits p q
  end.

Definition malloc (fuel : nat) (nbytes : Z) : M heap Z :=
  let nunits := u32 (u32 (nbytes + HEADER - 1) / HEADER + 1) in
  f ← gets h_freep;
  (if f =? 0 then put_ptr base base;; modify (set_freep base);; put_size base 0 else mret tt);;
  prevp ← gets h_freep;
  p ← ptr prevp;
  malloc_loop fuel fuel nunits prevp p.
End umalloc.
