(* ===== verification/UmallocSpec.v ===== *)
(** * Correctness of the user-level allocator (umalloc.c)

    [heap_ok] relates the memory to the list of free blocks, sorted by address,
    and to the blocks in use.  [free] finds the place of a block in the circular
    list from wherever the last search ended, and merges it with its neighbours;
    [malloc] goes once around the list, asks for more memory if nothing fits,
    and then finds it.  Addresses and sizes stay below [MMAPBASE], where the
    kernel stops giving memory to [sbrk]. *)

From Stdlib Require Import ZArith Lia.
From stdpp Require Import base numbers strings gmap list sorting.
From S2P Require Import Prelude Mmu Memory Umalloc.

(** A block: its address and its size in units; the static header has size 0
    but takes a unit. *)
Abbreviation blk := (Z * Z)%type.
Definition hi (b : blk) : Z := b.1 + 8 * Z.max 1 b.2.
Definition before (b c : blk) : Prop := hi b ≤ c.1.
Definition disjoint (b c : blk) : Prop := before b c ∨ before c b.

#[global] Instance disjoint_dec b c : Decision (disjoint b c).
Proof. unfold disjoint, before. apply _. Defined.

(** The blocks are linked in order, the last to [e]. *)
Definition hda (l : list blk) (e : Z) : Z := match l with [] => e | b :: _ => b.1 end.
Fixpoint chain (m : memory) (l : list blk) (e : Z) : Prop :=
  match l with
  | [] => True
  | b :: t => load32 m b.1 = hda t e ∧ load32 m (b.1 + 4) = b.2 ∧ chain m t e
  end.

Lemma hda_app l1 l2 e : hda (l1 ++ l2) e = hda l1 (hda l2 e).
Proof. by destruct l1. Qed.
Lemma chain_app m l1 l2 e : chain m (l1 ++ l2) e ↔ chain m l1 (hda l2 e) ∧ chain m l2 e.
Proof. induction l1 as [|b l1 IH]; simpl; [naive_solver|]. rewrite IH, hda_app. naive_solver. Qed.

(** Memory outside the headers does not matter. *)
Lemma header_frame m m' a :
  (∀ x, a ≤ x < a + 8 → rd8 m' x = rd8 m x) → load32 m' a = load32 m a ∧ load32 m' (a + 4) = load32 m (a + 4).
Proof. intros H. split; apply load32_ext; intros i Hi; apply H; lia. Qed.
Lemma chain_frame m m' l e :
  (∀ b x, b ∈ l → b.1 ≤ x < b.1 + 8 → rd8 m' x = rd8 m x) → chain m l e → chain m' l e.
Proof.
  induction l as [|b l IH]; simpl; [done|]. intros H (H1 & H2 & H3).
  destruct (header_frame m m' b.1) as [-> ->]; [intros x Hx; by apply (H b); [left|]|].
  split_and!; [done|done|]. apply IH; [|done]. intros c x Hc. apply H. by right.
Qed.

Section spec.
Context (base : Z) (Hbase : 0 < base).

(** *** Finding the place of a block *)

Lemma ptr_is h a v : load32 (h_mem h) a = v → ptr a h = Ok v h.
Proof. by intros <-. Qed.
Lemma size_is h a v : 0 ≤ a < 1610612736 → load32 (h_mem h) (a + 4) = v → size a h = Ok v h.
Proof. intros Ha <-. unfold size, gets. by rewrite u32_small by lia. Qed.

Lemma find_before bp h mid p (R : list blk) fuel :
  chain (h_mem h) (mid ++ [p]) (hda R base) → StronglySorted before (mid ++ [p]) →
  Forall (λ b, base ≤ b.1 ∧ b.1 < bp) (mid ++ [p]) → Forall (λ b, bp < b.1) R → (length mid < fuel)%nat →
  free_find fuel (hda (mid ++ [p]) base) bp h = Ok p.1 h.
Proof.
  revert fuel. induction mid as [|q mid IH]; intros fuel Hc Hs HL HR Hf;
    (destruct fuel as [|fuel]; [simpl in Hf; lia|]); cbn [free_find].
  - destruct Hc as (E & _). apply Forall_cons in HL as [HL _]. simpl. mstep (ptr_is _ _ _ E).
    destruct R as [|r R]; simpl.
    + assert ((bp >? p.1) && (bp <? base) = false) as -> by lia.
      by assert ((p.1 >=? base) && ((bp >? p.1) || (bp <? base)) = true) as -> by lia.
    + apply Forall_cons in HR as [HR _]. by assert ((bp >? p.1) && (bp <? r.1) = true) as -> by lia.
  - simpl in Hc. destruct Hc as (E & _ & Hc). apply StronglySorted_inv in Hs as [Hs Hq].
    apply Forall_cons in HL as [HLq HL]. simpl. mstep (ptr_is _ _ _ E). simpl in Hf.
    assert (∃ c, hda (mid ++ [p]) (hda R base) = c.1 ∧ before q c ∧ c.1 < bp) as (c & Ec & Hqc & Hcb).
    { destruct mid as [|c mid]; simpl in *; apply Forall_cons in Hq as [Hq _], HL as [HL _]; naive_solver. }
    assert (hda (mid ++ [p]) base = c.1) as Ec' by (by destruct mid).
    rewrite Ec. unfold before, hi in Hqc.
    assert ((bp >? q.1) && (bp <? c.1) = false) as -> by lia.
    assert ((q.1 >=? c.1) && ((bp >? q.1) || (bp <? c.1)) = false) as -> by lia.
    rewrite <-Ec'. apply IH; [done..|lia].
Qed.

Lemma find_after bp h q suf (L : list blk) p fuel :
  chain (h_mem h) (q :: suf) base → StronglySorted before (q :: suf) → Forall (λ b, bp < b.1) (q :: suf) →
  (∀ n, (length L < n)%nat → free_find n base bp h = Ok p h) → base < bp → (length L + S (length suf) < fuel)%nat →
  free_find fuel q.1 bp h = Ok p h.
Proof.
  revert q fuel. induction suf as [|c suf IH]; intros q fuel Hc Hs HR HL Hb Hf;
    (destruct fuel as [|fuel]; [simpl in Hf; lia|]); cbn [free_find].
  - destruct Hc as (E & _). mstep (ptr_is _ _ _ E). apply Forall_cons in HR as [HR _]. simpl in *.
    assert ((bp >? q.1) && (bp <? base) = false) as -> by lia.
    assert ((q.1 >=? base) && ((bp >? q.1) || (bp <? base)) = false) as -> by lia. apply HL. lia.
  - destruct Hc as (E & _ & Hc). mstep (ptr_is _ _ _ E). simpl. apply StronglySorted_inv in Hs as [Hs Hq].
    apply Forall_cons in Hq as [Hq _]. pose proof HR as [HR1 HR2]%Forall_cons.
    unfold before, hi in Hq. assert ((bp >? q.1) && (bp <? c.1) = false) as -> by lia.
    assert ((q.1 >=? c.1) && ((bp >? q.1) || (bp <? c.1)) = false) as -> by lia.
    simpl in Hf. apply IH; [done..|lia].
Qed.

(** From any block of the list to the last one before [bp]. *)
Lemma find_place bp h n1 p R f fuel :
  let nodes := (n1 ++ [p]) ++ R in
  chain (h_mem h) nodes base → StronglySorted before nodes → hda nodes base = base →
  Forall (λ b, base ≤ b.1 ∧ b.1 < bp) (n1 ++ [p]) → Forall (λ b, bp < b.1) R → f ∈ nodes →
  (length nodes < fuel)%nat →
  free_find fuel f.1 bp h = Ok p.1 h.
Proof.
  intros nodes Hc Hs Hh HL HR Hf Hfu. unfold nodes in *. apply chain_app in Hc as [Hc1 Hc2].
  assert (StronglySorted before (n1 ++ [p]) ∧ StronglySorted before R) as [Hs1 Hs2].
  { clear -Hs. split; [by eapply StronglySorted_app_1_l|by eapply StronglySorted_app_1_r]. }
  rewrite !length_app in Hfu. simpl in Hfu.
  apply elem_of_app in Hf as [Hf|Hf].
  - apply list_elem_of_split in Hf as (pre & suf & E).
    assert (∃ mid, f :: suf = mid ++ [p]) as [mid Em].
    { destruct suf as [|x suf] using rev_ind; [|clear IHsuf].
      - exists []. assert (pre ++ [f] = n1 ++ [p]) as E' by done. apply app_inj_2 in E' as [_ ?]; [|done]. done.
      - exists (f :: suf). rewrite app_comm_cons, app_assoc in E. apply app_inj_2 in E as [_ [= ->]]; done. }
    rewrite E, Em in Hc1, Hs1, HL. apply chain_app in Hc1 as [_ Hc1]. apply Forall_app in HL as [_ HL].
    apply StronglySorted_app_1_r in Hs1. replace f.1 with (hda (mid ++ [p]) base) by (by rewrite <-Em).
    apply (find_before bp h mid p R); try done. apply (f_equal length) in Em, E. rewrite !length_app in *. simpl in *. lia.
  - apply list_elem_of_split in Hf as (pre & suf & E). subst R. apply chain_app in Hc2 as [_ Hc2].
    apply StronglySorted_app_1_r in Hs2. pose proof HR as [_ HR2]%Forall_app.
    rewrite length_app in Hfu. simpl in Hfu.
    apply (find_after bp h f suf (n1 ++ [p])); try done.
    + intros n Hn. rewrite <-Hh at 1. rewrite hda_app.
      replace (hda (n1 ++ [p]) (hda (pre ++ f :: suf) base)) with (hda (n1 ++ [p]) base) by (by destruct n1).
      apply (find_before bp h n1 p (pre ++ f :: suf)); try done. rewrite length_app in Hn. simpl in Hn. lia.
    + apply Forall_app in HL as [_ [HL _]%Forall_cons]. lia.
    + rewrite length_app. simpl. lia.
Qed.

(** ** The state of the allocator *)

Definition inside (h : heap) (b : blk) : Prop := 1 ≤ b.2 ∧ base + 8 ≤ b.1 ∧ b.1 + 8 * b.2 ≤ h_brk h.
Definition covers (l : list blk) (x : Z) : Prop := ∃ b, b ∈ l ∧ b.1 ≤ x < hi b.

Lemma covers_app l1 l2 x : covers (l1 ++ l2) x ↔ covers l1 x ∨ covers l2 x.
Proof. unfold covers. setoid_rewrite elem_of_app. naive_solver. Qed.
Lemma covers_cons b l x : covers (b :: l) x ↔ b.1 ≤ x < hi b ∨ covers l x.
Proof. unfold covers. setoid_rewrite elem_of_cons. naive_solver. Qed.

Record heap_ok (h : heap) (fl al : list blk) : Prop := {
  ho_chain : chain (h_mem h) ((base, 0) :: fl) base;
  ho_sorted : StronglySorted before ((base, 0) :: fl);
  ho_freep : ∃ s, (h_freep h, s) ∈ (base, 0) :: fl;
  ho_use : Forall (λ b, load32 (h_mem h) (b.1 + 4) = b.2) al;
  ho_free_in : Forall (inside h) fl;
  ho_use_in : Forall (inside h) al;
  ho_free_use : ∀ b c, b ∈ fl → c ∈ al → disjoint b c;
  ho_use_use : ∀ i j b c, al !! i = Some b → al !! j = Some c → i ≠ j → disjoint b c;
  ho_brk : base + 8 ≤ h_brk h ≤ MMAPBASE;
}.

Lemma sorted_split l b :
  StronglySorted before l → Forall (λ c, disjoint c b) l →
  ∃ L R, l = L ++ R ∧ Forall (λ c, before c b) L ∧ Forall (before b) R.
Proof.
  induction 1 as [|c l Hs IH Hc]; intros Hd; [by exists [], []|]. apply Forall_cons in Hd as [[Hcb|Hbc] Hd].
  - destruct (IH Hd) as (L & R & -> & HL & HR). exists (c :: L), R. split_and!; [done|by constructor|done].
  - exists [], (c :: l). split_and!; [done|done|]. constructor; [done|]. eapply Forall_impl; [exact Hc|].
    intros d Hd'. unfold before, hi in *. lia.
Qed.

Lemma plus_small a n : 0 ≤ a + 8 * n < 4294967296 → plus a n = a + 8 * n.
Proof. intros H. unfold plus, HEADER. by apply u32_small. Qed.

(** A header written at [a]. *)
Definition header (m : memory) (a : Z) (nxt sz : Z) : Prop := load32 m a = nxt ∧ load32 m (a + 4) = sz.
Definition only (a : Z) (m m' : memory) : Prop := ∀ x, ¬ (a ≤ x < a + 8) → rd8 m' x = rd8 m x.

Lemma only_header a b m m' nxt sz : only a m m' → b + 8 ≤ a ∨ a + 8 ≤ b → header m b nxt sz → header m' b nxt sz.
Proof. intros Ho Hd [H1 H2]. destruct (header_frame m m' b) as [E1 E2]; [intros x Hx; apply Ho; lia|]. by rewrite <-H1, <-H2. Qed.
Lemma only_ptr m a v : only a m (store32 m a v).
Proof. intros x Hx. apply rd8_store32_ne. lia. Qed.
Lemma only_size m a v : only a m (store32 m (a + 4) v).
Proof. intros x Hx. apply rd8_store32_ne. lia. Qed.
Lemma only_trans a m1 m2 m3 : only a m1 m2 → only a m2 m3 → only a m1 m3.
Proof. intros H1 H2 x Hx. by rewrite H2, H1. Qed.

Lemma put_ptr_ok a v h : put_ptr a v h = Ok tt (set_mem (store32 (h_mem h) a v) h).
Proof. done. Qed.
Lemma put_size_ok a v h : 0 ≤ a < 1610612736 → put_size a v h = Ok tt (set_mem (store32 (h_mem h) (a + 4) v) h).
Proof. intros Ha. unfold put_size, modify. by rewrite u32_small by lia. Qed.

(** Enlarge a block, or only link it. *)
Lemma write_header m a nxt sz : 0 ≤ nxt < 4294967296 → 0 ≤ sz < 4294967296 →
  let m' := store32 (store32 m (a + 4) sz) a nxt in header m' a nxt sz ∧ only a m m'.
Proof.
  intros Hn Hs m'. split; [split|].
  - unfold m'. by rewrite load32_store32_eq, u32_small.
  - unfold m'. by rewrite load32_store32_ne, load32_store32_eq, u32_small by lia.
  - unfold m'. eapply only_trans; [apply only_size|apply only_ptr].
Qed.
Lemma write_link m a nxt sz : 0 ≤ nxt < 4294967296 → load32 m (a + 4) = sz →
  let m' := store32 m a nxt in header m' a nxt sz ∧ only a m m'.
Proof.
  intros Hn Hs m'. split; [split|].
  - unfold m'. by rewrite load32_store32_eq, u32_small.
  - unfold m'. by rewrite load32_store32_ne by lia.
  - apply only_ptr.
Qed.

(** The ends of the joined block: what [join_next] and [join_prev] leave. *)
Lemma join_next_ok h bp sz R :
  let n := hda R base in
  load32 (h_mem h) (bp + 4) = sz → chain (h_mem h) R base → StronglySorted before R →
  Forall (before (bp, sz)) R → 1 ≤ sz → base + 8 ≤ bp → bp + 8 * sz ≤ h_brk h →
  Forall (inside h) R → h_brk h ≤ MMAPBASE →
  ∃ sz' R' m', join_next bp n h = Ok tt (set_mem m' h) ∧ header m' bp (hda R' base) sz' ∧ only bp (h_mem h) m' ∧
    StronglySorted before ((bp, sz') :: R') ∧ (∃ R0, R = R0 ++ R' ∧ (length R0 ≤ 1)%nat) ∧ sz ≤ sz' ∧ bp + 8 * sz' ≤ h_brk h ∧
    (∀ x, covers ((bp, sz') :: R') x ↔ covers ((bp, sz) :: R) x).
Proof.
  intros n Hsz Hc Hs Hb H1 Hbp Hend Hin Hbrk. unfold MMAPBASE in Hbrk. unfold join_next.
  mstep (size_is h bp sz ltac:(lia) Hsz). rewrite plus_small by lia.
  assert (n < 4294967296 ∧ 0 ≤ n) as [Hn1 Hn2].
  { unfold n. destruct Hin as [|r R Hr _]; simpl; [lia|]. destruct Hr as (? & ? & ?). lia. }
  destruct (Z.eqb_spec (bp + 8 * sz) n) as [E|E].
  - destruct R as [|[a ns] R]; simpl in n; subst n; [lia|]. simpl in E. simpl in Hc. destruct Hc as (Hc1 & Hc2 & Hc3).
    apply Forall_cons in Hin as [(Hi1 & Hi2 & Hi3) Hin]. simpl in *. apply StronglySorted_inv in Hs as [Hs Hs'].
    mstep (size_is h a ns ltac:(lia) Hc2). mstep (put_size_ok bp (u32 (sz + ns)) h ltac:(lia)).
    assert (0 ≤ hda R base < 4294967296) as Hr.
    { destruct Hin as [|r R Hr _]; simpl; [lia|]. destruct Hr as (? & ? & ?). lia. }
    mstep (ptr_is (set_mem (store32 (h_mem h) (bp + 4) (u32 (sz + ns))) h) a (hda R base)
      ltac:(simpl; by rewrite load32_store32_ne by lia)). rewrite put_ptr_ok.
    destruct (write_header (h_mem h) bp (hda R base) (u32 (sz + ns)) Hr (u32_range _)) as [Hh Ho].
    eexists (sz + ns), R, _. rewrite (u32_small (sz + ns)) in * by lia. split; [done|]. split; [done|]. split; [done|].
    split; [|split; [by exists [(a, ns)]|split; [lia|split; [lia|]]]].
    + constructor; [done|]. eapply Forall_impl; [exact Hs'|]. intros c. unfold before, hi. simpl. lia.
    + intros x. unfold covers. split.
      * intros (c & [->|Hx]%elem_of_cons & Hxc); [|exists c; split; [by right; right|done]]. unfold hi in *. simpl in *.
        destruct (decide (x < bp + 8 * sz)); [exists (bp, sz); split; [by left|unfold hi; simpl; lia]|].
        exists (a, ns). split; [by right; left|unfold hi; simpl; lia].
      * intros (c & [->|[->|Hx]%elem_of_cons]%elem_of_cons & Hxc); [..|exists c; split; [by right|done]];
          (exists (bp, sz + ns); split; [by left|unfold hi in *; simpl in *; lia]).
  - rewrite put_ptr_ok. destruct (write_link (h_mem h) bp n sz ltac:(lia) Hsz) as [Hh Ho].
    eexists sz, R, _. split; [done|]. split; [done|]. split; [done|]. split; [by constructor|].
    split; [by exists []; split; [|simpl; lia]|]. split; [lia|]. split; [lia|]. done.
Qed.

Lemma join_prev_ok h pa ps bp bs T :
  load32 (h_mem h) (pa + 4) = ps → header (h_mem h) bp (hda T base) bs → before (pa, ps) (bp, bs) →
  0 ≤ pa → 0 ≤ ps → 1 ≤ bs → bp + 8 * bs ≤ MMAPBASE → 0 ≤ hda T base < MMAPBASE →
  ∃ ps' T' m', join_prev pa bp h = Ok tt (set_mem m' h) ∧ header m' pa (hda T' base) ps' ∧ only pa (h_mem h) m' ∧
    (pa + 8 * ps = bp ∧ 1 ≤ ps ∧ ps' = ps + bs ∧ T' = T ∨ ps' = ps ∧ T' = (bp, bs) :: T).
Proof.
  intros Hps [Hb1 Hb2] Hpb Hpa0 Hps0 Hbs0 Hend HT. unfold MMAPBASE, before, hi in *. simpl in Hpb. unfold join_prev.
  mstep (size_is h pa ps ltac:(lia) Hps). rewrite plus_small by lia. destruct (Z.eqb_spec (pa + 8 * ps) bp) as [E|E].
  - mstep (size_is h bp bs ltac:(lia) Hb2). mstep (put_size_ok pa (u32 (ps + bs)) h ltac:(lia)).
    mstep (ptr_is (set_mem (store32 (h_mem h) (pa + 4) (u32 (ps + bs))) h) bp (hda T base)
      ltac:(simpl; by rewrite load32_store32_ne by lia)). rewrite put_ptr_ok.
    destruct (write_header (h_mem h) pa (hda T base) (u32 (ps + bs)) ltac:(lia) (u32_range _)) as [Hh Ho].
    eexists (ps + bs), T, _. rewrite (u32_small (ps + bs)) in * by lia. split; [done|]. split; [done|]. split; [done|].
    left. split; [done|]. split; [lia|done].
  - rewrite put_ptr_ok. destruct (write_link (h_mem h) pa bp ps ltac:(lia) Hps) as [Hh Ho].
    eexists ps, ((bp, bs) :: T), _. split; [done|]. split; [done|]. split; [done|]. by right.
Qed.

Lemma overlap_point b c : ¬ disjoint b c → ∃ x, b.1 ≤ x < hi b ∧ c.1 ≤ x < hi c.
Proof. unfold disjoint, before, hi. intros H. exists (Z.max b.1 c.1). lia. Qed.
Lemma disjoint_sym b c : disjoint b c → disjoint c b.
Proof. unfold disjoint. tauto. Qed.
Lemma disjoint_point b c x : disjoint b c → b.1 ≤ x < hi b → c.1 ≤ x < hi c → False.
Proof. unfold disjoint, before. lia. Qed.

(** Where memory is the same: outside the headers of [l]. *)
Definition kept (l : list blk) (m m' : memory) : Prop :=
  ∀ x, (∀ b, b ∈ l → ¬ (b.1 ≤ x < b.1 + 8)) → rd8 m' x = rd8 m x.

(** The list after the block has been linked in: [p] is the block before it,
    [T'] what follows [p] now. *)
Definition relinked (pa ps bp bs : Z) (R' : list blk) (ps' : Z) (T' : list blk) : Prop :=
  pa + 8 * ps = bp ∧ 1 ≤ ps ∧ ps' = ps + bs ∧ T' = R' ∨ ps' = ps ∧ T' = (bp, bs) :: R'.

Lemma relinked_chain m m2 n1 p bp bs R' ps' T' :
  relinked p.1 p.2 bp bs R' ps' T' → chain m n1 p.1 → chain m R' base →
  (∀ x, ¬ (bp ≤ x < bp + 8) → ¬ (p.1 ≤ x < p.1 + 8) → rd8 m2 x = rd8 m x) →
  header m2 p.1 (hda T' base) ps' → header m2 bp (hda R' base) bs →
  (∀ b, b ∈ n1 → before b p) → (∀ b, b ∈ R' → before (bp, bs) b) → before p (bp, bs) →
  chain m2 (n1 ++ (p.1, ps') :: T') base.
Proof.
  intros Hr H1 H2 Ho [Hp1 Hp2] [Hb1 Hb2] Hn HR Hpb. apply chain_app. simpl.
  assert (chain m2 R' base) as HcR.
  { eapply chain_frame; [|exact H2]. intros b x Hb Hx. apply HR in Hb. unfold before, hi in *. simpl in *. apply Ho; lia. }
  split_and!; [|done|done|].
  - eapply chain_frame; [|exact H1]. intros b x Hb Hx. apply Hn in Hb. unfold before, hi in *. simpl in *. apply Ho; lia.
  - destruct Hr as [(_ & _ & _ & ->)|[_ ->]]; [done|]. done.
Qed.

Lemma relinked_sorted n1 p bp bs R' ps' T' :
  relinked p.1 p.2 bp bs R' ps' T' → StronglySorted before (n1 ++ [p]) → StronglySorted before ((bp, bs) :: R') →
  (∀ c, c ∈ n1 ++ [p] → before c (bp, bs)) → 1 ≤ bs → StronglySorted before (n1 ++ (p.1, ps') :: T').
Proof.
  intros Hr Hs1 Hs2 Hb Hbs. apply StronglySorted_app in Hs1 as (H1 & H2 & _). pose proof Hs2 as [H3 H4]%StronglySorted_inv.
  assert (Hpb : before p (bp, bs)) by (apply Hb; apply elem_of_app; right; by left).
  assert (HT : ∀ c, c ∈ T' → before (p.1, ps') c ∧ bp ≤ c.1).
  { intros c Hc. unfold before, hi in *. destruct Hr as [(E & Hps & -> & ->)|[-> ->]]; simpl in *.
    - eapply Forall_forall in H4; [|exact Hc]. simpl in H4. lia.
    - apply elem_of_cons in Hc as [->|Hc]; [simpl; lia|]. eapply Forall_forall in H4; [|exact Hc]. simpl in H4. lia. }
  apply StronglySorted_app_2; [|done|].
  - intros c d Hc [->|Hd]%elem_of_cons.
    + specialize (H1 c p Hc ltac:(by left)). done.
    + apply HT in Hd as [_ Hd]. specialize (Hb c ltac:(apply elem_of_app; by left)). unfold before, hi in *. simpl in Hb. lia.
  - constructor; [|apply Forall_forall; intros c Hc; by apply HT].
    destruct Hr as [(_ & _ & _ & ->)|[_ ->]]; done.
Qed.

Lemma relinked_covers n1 p bp bs R' ps' T' x :
  relinked p.1 p.2 bp bs R' ps' T' → 1 ≤ bs →
  covers (n1 ++ (p.1, ps') :: T') x ↔ covers (n1 ++ [p]) x ∨ covers ((bp, bs) :: R') x.
Proof.
  intros Hr Hbs. unfold covers. setoid_rewrite elem_of_app. setoid_rewrite elem_of_cons. unfold hi.
  destruct Hr as [(E & Hps & -> & ->)|[-> ->]].
  - split.
    + intros (b & [Hb|[->|Hb]] & Hx); [left; exists b; tauto| |right; exists b; tauto]. simpl in Hx.
      destruct (decide (x < bp)); [left; exists p; split; [right; by left|lia]|].
      right. exists (bp, bs). split; [by left|simpl; lia].
    + intros [(b & [Hb|[->|[]%elem_of_nil]] & Hx)|(b & [->|Hb] & Hx)]; [exists b; tauto| | |exists b; tauto];
        (exists (p.1, p.2 + bs); split; [right; by left|simpl in *; lia]).
  - replace (p.1, p.2) with p by (by destruct p). split.
    + intros (b & [Hb|[->|[->|Hb]%elem_of_cons]] & Hx).
      * left. exists b. tauto.
      * left. exists p. split; [right; by left|done].
      * right. exists (bp, bs). split; [by left|done].
      * right. exists b. tauto.
    + intros [(b & [Hb|[->|[]%elem_of_nil]] & Hx)|(b & Hb & Hx)].
      * exists b. tauto.
      * exists p. split; [right; by left|done].
      * exists b. split; [right; right; by apply elem_of_cons|done].
Qed.

Lemma relinked_inside h n1 p bp bs R' ps' T' c :
  relinked p.1 p.2 bp bs R' ps' T' → 1 ≤ bs → base + 8 ≤ bp → bp + 8 * bs ≤ h_brk h →
  (∀ d, d ∈ (n1 ++ [p]) ++ R' → d = (base, 0) ∨ inside h d) → c ∈ n1 ++ (p.1, ps') :: T' → c = (base, 0) ∨ inside h c.
Proof.
  intros Hr H1 H2 H3 Hd [Hc|[->|Hc]%elem_of_cons]%elem_of_app.
  - apply Hd. apply elem_of_app. left. apply elem_of_app. by left.
  - assert (p ∈ (n1 ++ [p]) ++ R') as Hp by (apply elem_of_app; left; apply elem_of_app; right; by left).
    destruct Hr as [(E & Hps & -> & _)|[-> _]]; [right|by destruct p; apply Hd].
    destruct (Hd p Hp) as [->|(? & ? & ?)]; [simpl in Hps; lia|]. unfold inside. simpl. lia.
  - assert (c = (bp, bs) ∨ c ∈ R') as [->|Hc'] by (destruct Hr as [(_ & _ & _ & ->)|[_ ->]]; [by right|by apply elem_of_cons]).
    + right. unfold inside. simpl. lia.
    + apply Hd. apply elem_of_app. by right.
Qed.

(** The list part of [free]. *)
Lemma free_list h nodes b fuel f :
  chain (h_mem h) nodes base → StronglySorted before nodes → (∃ fl, nodes = (base, 0) :: fl ∧ Forall (inside h) fl) →
  Forall (λ c, disjoint c b) nodes → inside h b → load32 (h_mem h) (b.1 + 4) = b.2 → h_brk h ≤ MMAPBASE →
  f ∈ nodes → h_freep h = f.1 → (length nodes < fuel)%nat →
  ∃ fl' m' p, free fuel (b.1 + 8) h = Ok tt (set_freep p.1 (set_mem m' h)) ∧ p ∈ (base, 0) :: fl' ∧
    chain m' ((base, 0) :: fl') base ∧ StronglySorted before ((base, 0) :: fl') ∧
    kept (b :: nodes) (h_mem h) m' ∧ (length fl' ≤ length nodes)%nat ∧ Forall (inside h) fl' ∧
    (∀ x, covers ((base, 0) :: fl') x ↔ covers (b :: nodes) x) ∧
    (∃ c, c ∈ fl' ∧ b.2 ≤ c.2).
Proof.
  intros Hc Hs (fl & -> & Hin) Hd Hb Hbs Hbrk Hf Hfp Hfu. destruct b as [bp sz]. destruct (id Hb) as (Hb1 & Hb2 & Hb3).
  simpl in Hb1, Hb2, Hb3, Hbs. unfold MMAPBASE in *.
  destruct (sorted_split _ _ Hs Hd) as (L & R & E & HL & HR).
  assert (∃ n1 p, L = n1 ++ [p]) as (n1 & p & ->).
  { destruct L as [|q L] using rev_ind; [|by exists L, q]. simpl in E. rewrite <-E in HR.
    apply Forall_cons in HR as [HR _]. unfold before, hi in HR. simpl in HR. lia. }
  rewrite E in Hc, Hs, Hf, Hfu. pose proof Hc as [HcL HcR]%chain_app. pose proof HcL as [Hc1 Hcp]%chain_app.
  destruct Hcp as (Hp1 & Hp2 & _). simpl in Hp1.
  assert (Hnode : ∀ c, c ∈ (n1 ++ [p]) ++ R → c = (base, 0) ∨ c ∈ fl ∧ inside h c).
  { intros c Hx. rewrite <-E in Hx. apply elem_of_cons in Hx as [->|Hx]; [by left|]. right. split; [done|].
    by eapply Forall_forall in Hin. }
  assert (Hrange : ∀ c, c ∈ (n1 ++ [p]) ++ R → base ≤ c.1 ∧ 0 ≤ c.2 ∧ c.1 + 8 * c.2 ≤ h_brk h).
  { intros c [->|[_ Hi]]%Hnode; [simpl; lia|]. destruct Hi as (? & ? & ?). lia. }
  assert (Hord : ∀ c d, c ∈ n1 ++ [p] → d ∈ R → before c d) by (intros c d; by apply StronglySorted_app_1_elem_of).
  pose proof (StronglySorted_app_1_l _ _ _ Hs) as HsL. pose proof (StronglySorted_app_1_r _ _ _ Hs) as HsR.
  assert (Hp : p ∈ n1 ++ [p]) by (apply elem_of_app; right; by left).
  assert (Hp' : p ∈ (n1 ++ [p]) ++ R) by (apply elem_of_app; by left).
  assert (Hpb : before p (bp, sz)) by (by eapply Forall_forall in HL).
  destruct (Hrange p Hp') as (Hpr1 & Hpr2 & Hpr3).
  assert (HinR : Forall (inside h) R).
  { apply Forall_forall. intros c Hx. destruct (Hnode c) as [->|[_ ?]]; [apply elem_of_app; by right| |done].
    eapply Forall_forall in HR; [|exact Hx]. unfold before, hi in HR. simpl in HR. lia. }
  assert (Hfind : free_find fuel f.1 bp h = Ok p.1 h).
  { apply (find_place bp h n1 p R f fuel); try done.
    - by rewrite <-E.
    - apply Forall_forall. intros c Hx. eapply Forall_forall in HL; [|exact Hx]. unfold before, hi in HL. simpl in HL.
      destruct (Hrange c) as (? & ? & ?); [apply elem_of_app; by left|]. lia.
    - eapply Forall_impl; [exact HR|]. intros c. unfold before, hi. simpl. lia. }
  destruct (join_next_ok h bp sz R Hbs HcR HsR HR Hb1 Hb2 Hb3 HinR Hbrk)
    as (sz' & R' & m1 & E1 & Hh1 & Ho1 & HsR' & (R0 & ER & HR0) & Hsz' & Hend' & Hcov1).
  assert (HR' : ∀ c, c ∈ R' → c ∈ R) by (intros c Hx; rewrite ER; apply elem_of_app; by right).
  destruct (join_prev_ok (set_mem m1 h) p.1 p.2 bp sz' R') as (ps' & T' & m2 & E2 & Hh2 & Ho2 & Hcase); try (simpl; lia).
  { destruct (only_header bp p.1 (h_mem h) m1 (hda R base) p.2 Ho1) as [_ ?]; [|done|done].
    unfold before, hi in Hpb. simpl in Hpb. lia. }
  { done. }
  { unfold before, hi in *. simpl in *. lia. }
  { unfold MMAPBASE. lia. }
  { unfold MMAPBASE. destruct R' as [|r R']; simpl; [lia|]. assert (r ∈ R) as Hr by (apply HR'; by left).
    eapply Forall_forall in HinR as (? & ? & ?); [|exact Hr]. lia. }
  assert (Hn1 : ∀ c, c ∈ n1 → before c p).
  { intros c Hx. by apply (StronglySorted_app_1_elem_of _ _ _ c p HsL Hx ltac:(by left)). }
  assert (HLb : ∀ c, c ∈ n1 ++ [p] → before c (bp, sz')) by (intros c Hx; by eapply Forall_forall in HL).
  assert (Hnodes' : ∃ fl', n1 ++ (p.1, ps') :: T' = (base, 0) :: fl').
  { destruct n1 as [|c n1]; simpl in E; [|exists (n1 ++ (p.1, ps') :: T'); by injection E as <- _].
    injection E as <- _. destruct Hcase as [(_ & H1 & _)|[-> _]]; [simpl in H1; lia|by eexists]. }
  destruct Hnodes' as [fl' Efl].
  assert (Hk : ∀ x, ¬ (bp ≤ x < bp + 8) → ¬ (p.1 ≤ x < p.1 + 8) → rd8 m2 x = rd8 (h_mem h) x).
  { intros x H1 H2. rewrite Ho2, Ho1 by done. done. }
  exists fl', m2, (p.1, ps'). rewrite <-Efl. split; [|split; [|split; [|split; [|split; [|split; [|split; [|split]]]]]]].
  - unfold free. cbn [fst]. replace (plus (bp + 8) (-1)) with bp by (rewrite plus_small; lia). cbn zeta. mrun. rewrite Hfp.
    mstep Hfind. mstep (ptr_is _ _ _ Hp1). mstep E1. mstep E2. done.
  - apply elem_of_app. right. by left.
  - eapply relinked_chain; try done.
    + rewrite ER in HcR. by apply chain_app in HcR as [_ ?].
    + destruct (only_header p.1 bp m1 m2 (hda R' base) sz' Ho2) as [? ?]; [|done|done].
      unfold before, hi in Hpb. simpl in Hpb. lia.
    + intros c Hx. apply StronglySorted_inv in HsR' as [_ HsR']. by eapply Forall_forall in HsR'.
  - eapply relinked_sorted; try done. lia.
  - intros x Hx. apply Hk.
    + apply (Hx (bp, sz)). by left.
    + apply (Hx p). apply elem_of_cons. right. by rewrite E.
  - rewrite E. apply (f_equal length) in Efl. rewrite !length_app in *. simpl in *.
    assert (length T' ≤ S (length R'))%nat by (destruct Hcase as [(_ & _ & _ & ->)|[_ ->]]; simpl; lia).
    rewrite ER, length_app. lia.
  - assert (StronglySorted before ((base, 0) :: fl')) as [_ Hsf]%StronglySorted_inv
      by (rewrite <-Efl; by eapply relinked_sorted; try done; lia).
    apply Forall_forall. intros c Hx. assert (c = (base, 0) ∨ inside h c) as [->|]; [|exfalso|done].
    { apply (relinked_inside h n1 p bp sz' R' ps' T' c Hcase ltac:(lia) Hb2 Hend');
        [|rewrite Efl; apply elem_of_cons; by right].
      intros d [Hd'|Hd']%elem_of_app; [|right; eapply Forall_forall in HinR; [exact HinR|by apply HR']].
      destruct (Hnode d) as [?|[_ ?]]; [apply elem_of_app; by left|by left|by right]. }
    eapply Forall_forall in Hsf; [|exact Hx]. unfold before, hi in Hsf. simpl in Hsf. lia.
  - intros x. rewrite (relinked_covers _ _ _ _ _ _ _ _ Hcase) by lia. rewrite Hcov1, E, !covers_cons, !covers_app. tauto.
  - destruct Hcase as [(_ & H1 & -> & ->)|[-> ->]].
    + exists (p.1, p.2 + sz'). split; [|simpl; lia].
      assert ((p.1, p.2 + sz') ∈ (base, 0) :: fl') as [Hx|Hx]%elem_of_cons by (rewrite <-Efl; apply elem_of_app; right; by left); [|done].
      injection Hx as _ Hx. lia.
    + exists (bp, sz'). split; [|done].
      assert ((bp, sz') ∈ (base, 0) :: fl') as [Hx|Hx]%elem_of_cons by (rewrite <-Efl; apply elem_of_app; right; right; by left); [|done].
      injection Hx as _ Hx. lia.
Qed.

(** The blocks in use keep their contents. *)
Definition intact (al : list blk) (m m' : memory) : Prop :=
  ∀ c x, c ∈ al → c.1 ≤ x < hi c → rd8 m' x = rd8 m x.

(** [free] of a block that is not in use any more. *)
Lemma release_ok h fl al b fuel :
  heap_ok h fl al → inside h b → load32 (h_mem h) (b.1 + 4) = b.2 →
  (∀ c, c ∈ fl ++ al → disjoint c b) → (S (length fl) < fuel)%nat →
  ∃ fl' h', free fuel (b.1 + 8) h = Ok tt h' ∧ heap_ok h' fl' al ∧
    intact al (h_mem h) (h_mem h') ∧ h_brk h' = h_brk h ∧ (length fl' ≤ S (length fl))%nat ∧
    (∃ c, c ∈ fl' ∧ b.2 ≤ c.2).
Proof.
  intros [Hc Hs [s Hf] Hu Hfi Hui Hfu Huu Hbrk] Hb Hbs Hd Hfuel.
  destruct (free_list h ((base, 0) :: fl) b fuel (h_freep h, s)) as (fl' & m' & p & E & Hp & Hc' & Hs' & Hk & Hl & Hin & Hcov & Hbig);
    try done; try lia.
  { by exists fl. }
  { constructor; [|apply Forall_forall; intros c Hx; apply Hd, elem_of_app; by left].
    left. unfold before, hi. destruct Hb as (? & ? & ?). simpl. lia. }
  assert (Hcov' : ∀ x, base + 8 ≤ x → covers fl' x ↔ covers (b :: fl) x).
  { intros x Hx. specialize (Hcov x). rewrite !covers_cons in *. unfold hi in Hcov at 1. unfold hi in Hcov at 2.
    simpl in Hcov. split; intros H; [destruct (proj1 Hcov (or_intror H)) as [|[|]]|destruct (proj2 Hcov) as [|]]; try lia; tauto. }
  assert (Hapart : ∀ c, c ∈ al → ∀ x, c.1 ≤ x < hi c → ¬ covers (b :: fl) x).
  { intros c Hx x Hxc (d & [->|Hd']%elem_of_cons & Hxd).
    - by eapply (disjoint_point c b x); [apply Hd, elem_of_app; right|..].
    - by eapply (disjoint_point d c x); [apply Hfu|..]. }
  exists fl', (set_freep p.1 (set_mem m' h)). split; [done|].
  assert (Hint : intact al (h_mem h) m').
  { intros c x Hx Hxc. eapply Forall_forall in Hui as (Hi1 & Hi2 & Hi3); [|exact Hx].
    apply Hk. intros d Hd' Hxd. apply elem_of_cons in Hd' as [->|[->|Hd']%elem_of_cons].
    - apply (Hapart c Hx x Hxc). exists b. split; [by left|unfold hi; lia].
    - simpl in Hxd. lia.
    - apply (Hapart c Hx x Hxc). exists d. split; [by right|unfold hi; lia]. }
  split; [|done].
  split; try done.
  - exists p.2. by destruct p.
  - apply Forall_forall. intros c Hx. eapply Forall_forall in Hu; [|exact Hx].
    eapply Forall_forall in Hui as (Hi1 & Hi2 & Hi3); [|exact Hx].
    destruct (header_frame (h_mem h) m' c.1) as [_ E2]; [|simpl in *; by rewrite E2].
    intros x Hxc. apply (Hint c); [done|unfold hi; lia].
  - intros d c Hd' Hx. destruct (decide (disjoint d c)) as [|Hn]; [done|exfalso].
    apply overlap_point in Hn as (x & Hx1 & Hx2). apply (Hapart c Hx x Hx2). apply Hcov'.
    + eapply Forall_forall in Hui as (? & ? & ?); [|exact Hx]. lia.
    + by exists d.
Qed.

(** ** malloc *)

(** A block of [n] units has been taken out of the free blocks. *)
Definition claimed (h : heap) (fl al : list blk) (n r : Z) (h' : heap) : Prop :=
  ∃ fl' a, r = a + 8 ∧ heap_ok h' fl' ((a, n) :: al) ∧ intact al (h_mem h) (h_mem h') ∧ h_brk h' = h_brk h ∧
    (length fl' ≤ length fl)%nat.

Lemma node_cases h fl al c : heap_ok h fl al → c ∈ (base, 0) :: fl → c = (base, 0) ∨ c ∈ fl ∧ inside h c.
Proof.
  intros Ho [->|Hc]%elem_of_cons; [by left|]. right. split; [done|]. pose proof (ho_free_in _ _ _ Ho) as Hi.
  by eapply Forall_forall in Hi.
Qed.
Lemma node_range h fl al c : heap_ok h fl al → c ∈ (base, 0) :: fl → base ≤ c.1 ∧ 0 ≤ c.2 ∧ c.1 + 8 * Z.max 1 c.2 ≤ h_brk h ∧ c.1 < MMAPBASE.
Proof.
  intros Ho Hc. pose proof (ho_brk _ _ _ Ho). destruct (node_cases _ _ _ _ Ho Hc) as [->|[_ (? & ? & ?)]]; simpl; unfold MMAPBASE in *; lia.
Qed.
(** Free blocks and the static header are apart from those in use. *)
Lemma node_use h fl al c d : heap_ok h fl al → c ∈ (base, 0) :: fl → d ∈ al → disjoint c d.
Proof.
  intros Ho Hc Hd. destruct (node_cases _ _ _ _ Ho Hc) as [->|[Hf _]]; [|by eapply ho_free_use].
  left. unfold before, hi. pose proof (ho_use_in _ _ _ Ho) as Hu. eapply Forall_forall in Hu as (? & ? & ?); [|exact Hd].
  simpl. lia.
Qed.

(** What has to be shown of the list of free blocks. *)
Lemma claim_ok h fl al b fl' m' f a n :
  heap_ok h fl al → b ∈ fl → chain m' ((base, 0) :: fl') base → StronglySorted before ((base, 0) :: fl') →
  f ∈ (base, 0) :: fl' → load32 m' (a + 4) = n → 1 ≤ n → b.1 ≤ a → a + 8 * n ≤ b.1 + 8 * b.2 →
  (∀ c, c ∈ fl' → 1 ≤ c.2 ∧ disjoint c (a, n) ∧ ∃ d, d ∈ fl ∧ d.1 ≤ c.1 ∧ hi c ≤ hi d) →
  (∀ x, ¬ covers ((base, 0) :: fl) x → rd8 m' x = rd8 (h_mem h) x) → (length fl' ≤ length fl)%nat →
  claimed h fl al n (a + 8) (set_freep f.1 (set_mem m' h)).
Proof.
  intros Ho Hb Hc' Hs' Hf Hn Hn1 Ha1 Ha2 Hsub Hmem Hlen.
  assert (Hint : intact al (h_mem h) m').
  { intros c x Hc Hx. apply Hmem. intros (d & Hd & Hxd). eapply (disjoint_point d c x); [|done|done].
    by eapply node_use. }
  assert (Hbi : inside h b) by (pose proof (ho_free_in _ _ _ Ho) as Hi; by eapply Forall_forall in Hi).
  destruct (id Hbi) as (Hb1 & Hb2 & Hb3).
  assert (Hab : ∀ c, c ∈ al → disjoint (a, n) c).
  { intros c Hc. destruct (ho_free_use _ _ _ Ho b c Hb Hc) as [H|H]; [left|right]; unfold before, hi in *; simpl; lia. }
  exists fl', a. split; [done|]. split; [|done]. split; try done.
  - exists f.2. by destruct f.
  - constructor; [done|]. apply Forall_forall. intros c Hc. pose proof (ho_use _ _ _ Ho) as Hu.
    eapply Forall_forall in Hu; [|exact Hc]. destruct (header_frame (h_mem h) m' c.1) as [_ E2]; [|simpl in *; by rewrite E2].
    intros x Hx. apply (Hint c); [done|unfold hi; lia].
  - apply Forall_forall. intros c Hc. destruct (Hsub c Hc) as (H1 & _ & d & Hd & H2 & H3).
    pose proof (ho_free_in _ _ _ Ho) as Hi. eapply Forall_forall in Hi as (? & ? & ?); [|exact Hd].
    unfold inside, hi in *. simpl in *. lia.
  - constructor; [unfold inside; simpl; lia|]. exact (ho_use_in _ _ _ Ho).
  - intros c d Hc [->|Hd]%elem_of_cons; destruct (Hsub c Hc) as (_ & H1 & e & He & H2 & H3); [done|].
    destruct (ho_free_use _ _ _ Ho e d He Hd) as [H|H]; [left|right]; unfold before, hi in *; lia.
  - intros [|i] [|j] c d Hi Hj Hij; simpl in *; [done| | |].
    + simplify_eq. apply Hab. by eapply list_elem_of_lookup_2.
    + simplify_eq. apply disjoint_sym, Hab. by eapply list_elem_of_lookup_2.
    + eapply (ho_use_use _ _ _ Ho i j); [done|done|lia].
  - exact (ho_brk _ _ _ Ho).
Qed.

(** Facts about a free block and the one before it. *)
Lemma node_split h fl al k1 pv b k2 :
  heap_ok h fl al → (base, 0) :: fl = k1 ++ pv :: b :: k2 →
  (∀ c, c ∈ k1 → before c pv ∧ before c b) ∧ before pv b ∧ (∀ c, c ∈ k2 → before pv c ∧ before b c) ∧
  StronglySorted before k1 ∧ StronglySorted before k2 ∧ chain (h_mem h) k1 pv.1 ∧ chain (h_mem h) k2 base ∧
  header (h_mem h) pv.1 b.1 pv.2 ∧ header (h_mem h) b.1 (hda k2 base) b.2 ∧ b ∈ fl ∧
  0 ≤ hda k2 base < MMAPBASE ∧ (∀ c, c ∈ k1 → ∀ d, d ∈ k2 → before c d).
Proof.
  intros Ho E. pose proof (ho_chain _ _ _ Ho) as Hc. pose proof (ho_sorted _ _ _ Ho) as Hs. rewrite E in Hc, Hs.
  apply chain_app in Hc as [Hc1 (Hp1 & Hp2 & Hq1 & Hq2 & Hc2)].
  apply StronglySorted_app in Hs as (Hs1 & Hs2 & Hs3). apply StronglySorted_inv in Hs3 as [Hs4 Hs5].
  apply StronglySorted_inv in Hs4 as [Hs6 Hs7]. apply Forall_cons in Hs5 as [Hpb Hpk].
  assert (pv ∈ pv :: b :: k2 ∧ b ∈ pv :: b :: k2) as [I1 I2] by (split; [by left|right; by left]).
  assert (∀ c, c ∈ k2 → c ∈ pv :: b :: k2) as I3 by (intros c Hx; right; by right).
  split; [by intros c Hx; split; apply Hs1|]. split; [done|].
  split; [intros c Hx; split; [by eapply Forall_forall in Hpk|by eapply Forall_forall in Hs7]|].
  split; [done|]. split; [done|]. split; [done|]. split; [done|]. split; [done|]. split; [done|].
  split; [|split; [|intros c Hx d Hd; apply Hs1; auto]].
  - destruct k1 as [|c k1]; simpl in E; injection E as _ ->; [by left|]. apply elem_of_app. by right; right; left.
  - pose proof (ho_brk _ _ _ Ho). unfold MMAPBASE in *. destruct k2 as [|c k2]; simpl; [lia|].
    destruct (node_range _ _ _ c Ho) as (? & _ & _ & ?); [|unfold MMAPBASE in *; lia].
    rewrite E. apply elem_of_app. right. apply I3. by left.
Qed.

(** Taking a whole block: it is unlinked from the one before it. *)
Lemma take_whole h fl al k1 pv b k2 :
  heap_ok h fl al → (base, 0) :: fl = k1 ++ pv :: b :: k2 → 1 ≤ b.2 →
  ∃ h', take_units b.2 pv.1 b.1 h = Ok (b.1 + 8) h' ∧ claimed h fl al b.2 (b.1 + 8) h'.
Proof.
  intros Ho E Hb1. destruct (node_split _ _ _ _ _ _ _ Ho E) as
    (H1 & Hpb & H2 & Hs1 & Hs2 & Hc1 & Hc2 & [Hp1 Hp2] & [Hq1 Hq2] & Hb & Hk2 & H3).
  assert (Hpv : pv ∈ (base, 0) :: fl) by (rewrite E; apply elem_of_app; right; by left).
  assert (Hbn : b ∈ (base, 0) :: fl) by (by right).
  destruct (node_range _ _ _ _ Ho Hpv) as (P1 & P2 & P3 & P4), (node_range _ _ _ _ Ho Hbn) as (B1 & B2 & B3 & B4).
  pose proof (ho_brk _ _ _ Ho) as Hbrk. unfold MMAPBASE in *.
  destruct (write_link (h_mem h) pv.1 (hda k2 base) pv.2 ltac:(lia) Hp2) as [[Hh1 Hh2] Hon].
  set (m' := store32 (h_mem h) pv.1 (hda k2 base)) in *.
  exists (set_freep pv.1 (set_mem m' h)). split.
  { unfold take_units. mstep (size_is h b.1 b.2 ltac:(lia) Hq2). rewrite Z.eqb_refl.
    erewrite bind_ok; [|mstep (ptr_is h b.1 _ Hq1); reflexivity]. mrun. rewrite plus_small by lia. reflexivity. }
  assert (∃ fl', k1 ++ pv :: k2 = (base, 0) :: fl' ∧ (length fl' ≤ length fl)%nat ∧ ∀ c, c ∈ fl' → c ∈ fl) as (fl' & E' & Hl' & Hsub).
  { destruct k1 as [|c k1]; simpl in E; injection E as E1 E2.
    - exists k2. subst. simpl. split; [done|]. split; [lia|]. intros c Hc. by right.
    - exists (k1 ++ pv :: k2). subst. rewrite !length_app. simpl. split; [done|]. split; [lia|].
      intros d. rewrite !elem_of_app, !elem_of_cons. tauto. }
  apply (claim_ok h fl al b fl' m' pv b.1 b.2); try done; try lia.
  - rewrite <-E'. apply chain_app. simpl. split; [|split; [done|split; [done|]]].
    + eapply chain_frame; [|exact Hc1]. intros c x Hc Hx. apply Hon. destruct (H1 c Hc) as [Hcp _]. unfold before, hi in Hcp. lia.
    + eapply chain_frame; [|exact Hc2]. intros c x Hc Hx. apply Hon. destruct (H2 c Hc) as [Hcp _]. unfold before, hi in Hcp. lia.
  - rewrite <-E'. apply StronglySorted_app_2; [|done|constructor; [done|]].
    + intros c d Hc [->|Hd]%elem_of_cons; [by apply H1|by apply H3].
    + apply Forall_forall. intros c Hc. by apply H2.
  - rewrite <-E'. apply elem_of_app. right. by left.
  - destruct (header_frame (h_mem h) m' b.1) as [_ ->]; [|done]. intros x Hx. apply Hon. unfold before, hi in Hpb. lia.
  - intros c Hc. assert (inside h c) as (? & ? & ?).
    { pose proof (ho_free_in _ _ _ Ho) as Hi. eapply Forall_forall in Hi; [exact Hi|by apply Hsub]. }
    split; [done|]. split; [|exists c; split; [by apply Hsub|lia]].
    assert (c ∈ k1 ++ pv :: k2) as [Hx|[->|Hx]%elem_of_cons]%elem_of_app by (rewrite E'; by right).
    + left. by apply H1.
    + by left.
    + right. by apply H2.
  - intros x Hx. apply Hon. intros Hpx. apply Hx. exists pv. split; [done|]. unfold hi. lia.
Qed.

(** Taking the end of a larger block. *)
Lemma take_end h fl al k1 pv b k2 n :
  heap_ok h fl al → (base, 0) :: fl = k1 ++ pv :: b :: k2 → 1 ≤ n < b.2 →
  ∃ h' a, take_units n pv.1 b.1 h = Ok (a + 8) h' ∧ claimed h fl al n (a + 8) h'.
Proof.
  intros Ho E Hn. destruct (node_split _ _ _ _ _ _ _ Ho E) as
    (H1 & Hpb & H2 & Hs1 & Hs2 & Hc1 & Hc2 & [Hp1 Hp2] & [Hq1 Hq2] & Hb & Hk2 & H3).
  assert (Hpv : pv ∈ (base, 0) :: fl) by (rewrite E; apply elem_of_app; right; by left).
  assert (Hbn : b ∈ (base, 0) :: fl) by (by right).
  destruct (node_range _ _ _ _ Ho Hpv) as (P1 & P2 & P3 & P4), (node_range _ _ _ _ Ho Hbn) as (B1 & B2 & B3 & B4).
  pose proof (ho_brk _ _ _ Ho) as Hbrk. unfold MMAPBASE in *.
  set (r := b.2 - n). set (a := b.1 + 8 * r). set (b' := (b.1, r)).
  set (m1 := store32 (h_mem h) (b.1 + 4) r). set (m2 := store32 m1 (a + 4) n).
  exists (set_freep pv.1 (set_mem m2 h)), a. split.
  { unfold take_units. mstep (size_is h b.1 b.2 ltac:(lia) Hq2). destruct (Z.eqb_spec b.2 n); [lia|].
    rewrite (u32_small (b.2 - n)) by lia. fold r. rewrite (plus_small b.1 r) by (unfold r; lia). fold a.
    erewrite bind_ok; [|mstep (put_size_ok b.1 r h ltac:(lia)); mstep (put_size_ok a n (set_mem m1 h) ltac:(unfold a, r; lia)); reflexivity].
    mrun. rewrite plus_small by (unfold a, r; lia). reflexivity. }
  assert (Hon : ∀ x, ¬ (b.1 + 4 ≤ x < b.1 + 8) → ¬ (a + 4 ≤ x < a + 8) → rd8 m2 x = rd8 (h_mem h) x).
  { intros x Hx1 Hx2. unfold m2, m1. rewrite !rd8_store32_ne by lia. done. }
  assert (∃ fl', k1 ++ pv :: b' :: k2 = (base, 0) :: fl' ∧ length fl' = length fl ∧
    ∀ c, c ∈ fl' → c = b' ∨ c ∈ fl) as (fl' & E' & Hl' & Hsub).
  { destruct k1 as [|c k1]; simpl in E; injection E as E1 E2.
    - exists (b' :: k2). subst. simpl. split; [done|]. split; [done|]. intros c [?|Hc]%elem_of_cons; [by left|right; by right].
    - exists (k1 ++ pv :: b' :: k2). subst. rewrite !length_app. simpl. split; [done|]. split; [done|].
      intros d. rewrite !elem_of_app, !elem_of_cons. tauto. }
  assert (Ha : b.1 + 8 ≤ a) by (unfold a, r; lia). assert (Ha2 : a + 8 * n = b.1 + 8 * b.2) by (unfold a, r; lia).
  apply (claim_ok h fl al b fl' m2 pv a n); try done; try lia.
  - rewrite <-E'. apply chain_app. simpl. split; [|split; [|split; [|split; [|split]]]].
    + eapply chain_frame; [|exact Hc1]. intros c x Hc Hx. destruct (H1 c Hc) as [_ Hcp]. unfold before, hi in Hcp. apply Hon; lia.
    + rewrite <-Hp1. apply load32_ext. intros i Hi. unfold before, hi in Hpb. apply Hon; lia.
    + rewrite <-Hp2. apply load32_ext. intros i Hi. unfold before, hi in Hpb. apply Hon; lia.
    + rewrite <-Hq1. apply load32_ext. intros i Hi. apply Hon; lia.
    + unfold m2, m1. rewrite load32_store32_ne by lia. rewrite load32_store32_eq, u32_small; [done|unfold r; lia].
    + eapply chain_frame; [|exact Hc2]. intros c x Hc Hx. destruct (H2 c Hc) as [_ Hcp]. unfold before, hi in Hcp. apply Hon; lia.
  - rewrite <-E'. apply StronglySorted_app_2; [|done|constructor; [constructor; [done|]|]].
    + intros c d Hc [->|[->|Hd]%elem_of_cons]%elem_of_cons; [by apply H1| |by apply H3].
      destruct (H1 c Hc) as [_ Hcp]. exact Hcp.
    + apply Forall_forall. intros c Hc. destruct (H2 c Hc) as [_ Hcp]. unfold before, hi, b', r in *. simpl. lia.
    + constructor; [exact Hpb|]. apply Forall_forall. intros c Hc. by apply H2.
  - rewrite <-E'. apply elem_of_app. right. by left.
  - unfold m2. rewrite load32_store32_eq, u32_small; [done|lia].
  - intros c Hc. assert (c ∈ k1 ++ pv :: b' :: k2) as Hin by (rewrite E'; by right).
    destruct (decide (c = b')) as [->|Hnb].
    { unfold b', r, disjoint, before, hi, a, r. simpl. split; [lia|]. split; [left; lia|]. exists b. split; [done|]. lia. }
    destruct (Hsub c Hc) as [?|Hcf]; [done|]. assert (inside h c) as (? & ? & ?).
    { pose proof (ho_free_in _ _ _ Ho) as Hi. by eapply Forall_forall in Hi. }
    split; [done|]. split; [|exists c; split; [done|lia]].
    apply elem_of_app in Hin as [Hx|[->|[->|Hx]%elem_of_cons]%elem_of_cons]; [| |done|].
    + left. destruct (H1 c Hx) as [_ Hcp]. unfold before, hi in *. simpl. lia.
    + left. unfold before, hi in *. simpl. lia.
    + right. destruct (H2 c Hx) as [_ Hcp]. unfold before, hi in *. simpl. lia.
  - intros x Hx. apply Hon; intros Hbx; apply Hx; exists b; (split; [done|]); unfold hi; lia.
Qed.

Lemma take_ok h fl al k1 pv b k2 n :
  heap_ok h fl al → (base, 0) :: fl = k1 ++ pv :: b :: k2 → 1 ≤ n ≤ b.2 →
  ∃ h' r, take_units n pv.1 b.1 h = Ok r h' ∧ claimed h fl al n r h'.
Proof.
  intros Ho E Hn. destruct (decide (n = b.2)) as [->|].
  - destruct (take_whole h fl al k1 pv b k2) as (h' & ? & ?); [done|done|lia|eauto].
  - destruct (take_end h fl al k1 pv b k2 n) as (h' & a & ? & ?); [done|done|lia|eauto].
Qed.

(** *** Going around the list *)

Section loop.
Context (grow : Z → Z → bool) (k : nat) (n : Z) (Hn : 1 ≤ n).
Abbreviation loop := (malloc_loop grow k).

Lemma node_at h fl al k1 b k2 : heap_ok h fl al → (base, 0) :: fl = k1 ++ b :: k2 →
  ptr b.1 h = Ok (hda k2 base) h ∧ size b.1 h = Ok b.2 h.
Proof.
  intros Ho E. pose proof (ho_chain _ _ _ Ho) as Hc. rewrite E in Hc. apply chain_app in Hc as [_ (E1 & E2 & _)].
  assert (Hb : b ∈ (base, 0) :: fl) by (rewrite E; apply elem_of_app; right; by left).
  destruct (node_range _ _ _ _ Ho Hb) as (? & _ & _ & ?). unfold MMAPBASE in *.
  split; [by apply ptr_is|apply size_is; [lia|done]].
Qed.

(** What happens when nothing fits. *)
Definition enlarge (fuel : nat) : M heap Z :=
  p ← morecore grow k n;
  if p =? 0 then mret 0 else q ← ptr p; malloc_loop grow k fuel n p q.

Lemma loop_step h fl al k1 b k2 fuel pv : heap_ok h fl al → (base, 0) :: fl = k1 ++ b :: k2 → b.2 < n →
  loop (S fuel) n pv b.1 h = if b.1 =? h_freep h then enlarge fuel h else loop fuel n b.1 (hda k2 base) h.
Proof.
  intros Ho E Hb. destruct (node_at _ _ _ _ _ _ Ho E) as [E1 E2]. cbn [malloc_loop]. mstep E2.
  destruct (Z.geb_spec b.2 n); [lia|]. mrun. destruct (b.1 =? h_freep h); [done|]. by mstep E1.
Qed.
Lemma loop_take h fl al k1 pv b k2 fuel : heap_ok h fl al → (base, 0) :: fl = k1 ++ pv :: b :: k2 → n ≤ b.2 →
  ∃ h' r, loop (S fuel) n pv.1 b.1 h = Ok r h' ∧ claimed h fl al n r h'.
Proof.
  intros Ho E Hb. destruct (take_ok h fl al k1 pv b k2 n) as (h' & r & Ht & Hc); [done|done|lia|].
  exists h', r. split; [|done]. destruct (node_at h fl al (k1 ++ [pv]) b k2 Ho) as [E1 E2]; [by rewrite <-app_assoc|].
  cbn [malloc_loop]. mstep E2. by destruct (Z.geb_spec b.2 n); [|lia].
Qed.

(** Along a part of the list that the last search did not end in. *)
Lemma walk h fl al mid k1 pv rest : heap_ok h fl al → (base, 0) :: fl = k1 ++ pv :: mid ++ rest →
  Forall (λ b, b.1 ≠ h_freep h) mid →
  (∀ fuel, ∃ h' r, loop (length mid + fuel) n pv.1 (hda (mid ++ rest) base) h = Ok r h' ∧ claimed h fl al n r h') ∨
  Forall (λ b, b.2 < n) mid ∧ ∃ k1' pv', k1 ++ pv :: mid = k1' ++ [pv'] ∧
    ∀ fuel, loop (length mid + fuel) n pv.1 (hda (mid ++ rest) base) h = loop fuel n pv'.1 (hda rest base) h.
Proof.
  intros Ho. revert k1 pv. induction mid as [|b mid IH]; intros k1 pv E Hm; [right; split; [done|]; by exists k1, pv|].
  apply Forall_cons in Hm as [Hb Hm]. simpl hda. simpl length. destruct (decide (n ≤ b.2)).
  { left. intros fuel. eapply (loop_take h fl al k1 pv b (mid ++ rest)); done. }
  assert (Hs : ∀ fuel, loop (S (length mid + fuel)) n pv.1 b.1 h = loop (length mid + fuel) n b.1 (hda (mid ++ rest) base) h).
  { intros fuel. rewrite (loop_step h fl al (k1 ++ [pv]) b (mid ++ rest)); [|done|by rewrite <-app_assoc|lia].
    by destruct (Z.eqb_spec b.1 (h_freep h)). }
  destruct (IH (k1 ++ [pv]) b) as [Ht|(Hf & k1' & pv' & E' & Ht)]; [by rewrite <-app_assoc|done| |].
  - left. intros fuel. rewrite Nat.add_succ_l, Hs. apply Ht.
  - right. split; [constructor; [lia|done]|]. exists k1', pv'. rewrite <-E', <-app_assoc. split; [done|].
    intros fuel. by rewrite Nat.add_succ_l, Hs.
Qed.

Lemma sorted_apart l1 f l2 c : StronglySorted before (l1 ++ f :: l2) → c ∈ l1 ++ l2 → c.1 ≠ f.1.
Proof.
  intros (Hs1 & _ & Hs2)%StronglySorted_app [Hc|Hc]%elem_of_app.
  - assert (before c f) by (apply Hs1; [done|by left]). unfold before, hi in *. lia.
  - apply StronglySorted_inv in Hs2 as [_ Hs2]. eapply Forall_forall in Hs2; [|exact Hc]. unfold before, hi in *. lia.
Qed.

(** Once around: something fits, or everything is too small and the loop is back
    where it began. *)
Lemma circle h fl al l1 f l2 fuel : heap_ok h fl al → (base, 0) :: fl = l1 ++ f :: l2 → f.1 = h_freep h →
  (∃ h' r, loop (S (length fl) + fuel) n f.1 (hda l2 base) h = Ok r h' ∧ claimed h fl al n r h') ∨
  Forall (λ b, b.2 < n) fl ∧ loop (S (length fl) + fuel) n f.1 (hda l2 base) h = enlarge fuel h.
Proof.
  intros Ho E Hf. pose proof (ho_sorted _ _ _ Ho) as Hs. rewrite E in Hs.
  assert (Hap : ∀ c, c ∈ l1 ++ l2 → c.1 ≠ h_freep h) by (intros c Hc; rewrite <-Hf; by eapply sorted_apart).
  destruct (walk h fl al l2 l1 f [] Ho) as [Ht|(H2 & k1' & pv' & E' & Ht)]; [by rewrite app_nil_r|..].
  { apply Forall_forall. intros c Hc. apply Hap, elem_of_app. by right. }
  { left. rewrite app_nil_r in Ht. apply (f_equal length) in E. rewrite length_app in E. simpl in E.
    destruct (Ht (S (length l1) + fuel)%nat) as (h' & r & Hl & Hc). exists h', r. split; [|done]. rewrite <-Hl.
    f_equal. lia. }
  rewrite app_nil_r in Ht. simpl hda in Ht.
  destruct l1 as [|b0 l1]; simpl in E; injection E as E1 E2; [subst f fl|subst b0].
  - right. split; [done|]. replace (S (length l2) + fuel)%nat with (length l2 + S fuel)%nat by lia. rewrite Ht.
    change base with (base, 0).1 at 1. rewrite (loop_step h l2 al [] (base, 0) l2); [|done|done|simpl; lia].
    by rewrite <-Hf, Z.eqb_refl.
  - assert (El : (S (length fl) = length l2 + S (length l1 + 1))%nat).
    { rewrite E2, length_app. simpl. lia. }
    rewrite El, <-Nat.add_assoc, Ht. clear Ht.
    change base with (base, 0).1 at 1 2. rewrite Nat.add_succ_l, (loop_step h fl al [] (base, 0) fl); [|done|done|simpl; lia].
    destruct (Z.eqb_spec (base, 0).1 (h_freep h)) as [Eb|_]; [destruct (Hap (base, 0)); [by left|done]|].
    replace (hda fl base) with (hda (l1 ++ f :: l2) base) by (by rewrite E2).
    destruct (walk h fl al l1 [] (base, 0) (f :: l2) Ho) as [Ht|(H1 & k1 & pv & E3 & Ht)].
    { by rewrite E2. }
    { apply Forall_forall. intros c Hc. apply Hap. right. apply elem_of_app. by left. }
    { left. rewrite <-Nat.add_assoc. apply Ht. }
    rewrite <-Nat.add_assoc, Ht. simpl hda. destruct (decide (n ≤ f.2)).
    + left. apply (loop_take h fl al k1 pv f l2); [done| |done]. rewrite E2. simpl in E3.
      change ((base, 0) :: l1 ++ f :: l2) with (((base, 0) :: l1) ++ f :: l2). by rewrite E3, <-app_assoc.
    + right. split; [rewrite E2; apply Forall_app; split; [done|]; constructor; [lia|done]|].
      rewrite Nat.add_1_l, (loop_step h fl al ((base, 0) :: l1) f l2); [|done|by rewrite E2|lia]. by rewrite Hf, Z.eqb_refl.
Qed.
End loop.

(** *** More memory *)

Context (grow : Z → Z → bool) (Hgrow : ∀ b n, 0 ≤ n → grow b n = true → b + n ≤ MMAPBASE).

Lemma morecore_ok h fl al n k : heap_ok h fl al → 1 ≤ n → 8 * n < 2147483648 → (S (length fl) < k)%nat →
  morecore grow k n h = Ok 0 h ∧ (∃ u, n ≤ u ∧ grow (h_brk h) (8 * u) = false) ∨
  ∃ fl' h', morecore grow k n h = Ok (h_freep h') h' ∧ heap_ok h' fl' al ∧ intact al (h_mem h) (h_mem h') ∧
    (length fl' ≤ S (length fl))%nat ∧ ∃ c, c ∈ fl' ∧ n ≤ c.2.
Proof.
  intros Ho Hn Hn2 Hk. unfold morecore. set (nu := if n <? 4096 then 4096 else n).
  assert (Hnu : n ≤ nu ∧ 8 * nu < 2147483648 ∧ 4096 ≤ nu) by (unfold nu; destruct (Z.ltb_spec n 4096); lia).
  assert (s32 (nu * HEADER) = 8 * nu) as -> by (unfold HEADER; rewrite s32_small; lia).
  pose proof (ho_brk _ _ _ Ho) as Hbrk. unfold MMAPBASE in *.
  assert (Es : sbrk grow (8 * nu) h = if grow (h_brk h) (8 * nu) then Ok (h_brk h) (set_brk (u32 (h_brk h + 8 * nu)) h) else Ok (-1) h).
  { unfold sbrk. mrun. by destruct (grow (h_brk h) (8 * nu)). }
  destruct (grow (h_brk h) (8 * nu)) eqn:Eg; [right|left; split; [by mstep Es|exists nu; split; [lia|done]]].
  pose proof (Hgrow (h_brk h) (8 * nu) ltac:(lia) Eg) as Hb.
  rewrite (u32_small (h_brk h + 8 * nu)) in Es by lia. mstep Es.
  destruct (Z.eqb_spec (h_brk h) (-1)); [lia|]. mstep (put_size_ok (h_brk h) nu (set_brk (h_brk h + 8 * nu) h) ltac:(lia)).
  set (h1 := set_mem _ _). rewrite plus_small by lia. change (8 * 1) with 8.
  assert (Hfr : ∀ x, x < h_brk h → rd8 (h_mem h1) x = rd8 (h_mem h) x) by (intros x Hx; simpl; rewrite rd8_store32_ne; [done|lia]).
  assert (Hin : ∀ c, inside h c → inside h1 c) by (intros c (? & ? & ?); split_and!; simpl; lia).
  pose proof (ho_free_in _ _ _ Ho) as Hfi. pose proof (ho_use_in _ _ _ Ho) as Hui. rewrite Forall_forall in Hfi, Hui.
  assert (Hint : intact al (h_mem h) (h_mem h1)).
  { intros c x Hc Hx. apply Hfr. destruct (Hui c Hc) as (? & ? & ?). unfold hi in Hx. lia. }
  assert (Ho1 : heap_ok h1 fl al).
  { destruct Ho as [Hc Hs Hf Hu _ _ Hfu Huu _]. split; try done.
    - eapply chain_frame; [|exact Hc]. intros b x [->|Hbf]%elem_of_cons Hx; apply Hfr; simpl in *; [lia|].
      destruct (Hfi b Hbf) as (? & ? & ?). lia.
    - rewrite Forall_forall in Hu |- *. intros c Hc'. destruct (Hui c Hc') as (? & ? & ?).
      destruct (header_frame (h_mem h) (h_mem h1) c.1) as [_ ->]; [intros x Hx; apply Hfr; lia|by apply Hu].
    - rewrite Forall_forall. auto.
    - rewrite Forall_forall. auto.
    - simpl. unfold MMAPBASE. lia. }
  destruct (release_ok h1 fl al (h_brk h, nu) k) as (fl' & h' & E & Ho' & Hi' & _ & Hl' & c & Hc & Hc2); [done|..|done|].
  - split_and!; simpl; lia.
  - simpl. rewrite load32_store32_eq, u32_small; [done|lia].
  - intros c [Hc|Hc]%elem_of_app; left; [apply Hfi in Hc|apply Hui in Hc]; destruct Hc as (? & ? & ?); unfold before, hi; simpl; lia.
  - exists fl', h'. simpl in E. mstep E. split; [done|]. split; [done|]. split; [|split; [done|]].
    + intros d x Hd Hx. rewrite (Hi' d x Hd Hx). by apply (Hint d).
    + exists c. split; [done|]. simpl in Hc2. lia.
Qed.

(** The units of a request. *)
Definition units (nbytes : Z) : Z := (nbytes + 7) / 8 + 1.

Lemma freep_split h fl al : heap_ok h fl al → ∃ l1 f l2, (base, 0) :: fl = l1 ++ f :: l2 ∧ f.1 = h_freep h ∧
  ptr (h_freep h) h = Ok (hda l2 base) h ∧ 0 < h_freep h.
Proof.
  intros Ho. destruct (ho_freep _ _ _ Ho) as [s Hs]. pose proof Hs as (l1 & l2 & E)%list_elem_of_split.
  exists l1, (h_freep h, s), l2. split; [done|]. split; [done|].
  destruct (node_at h fl al l1 _ l2 Ho E) as [E1 _]. split; [done|].
  destruct (node_range _ _ _ _ Ho Hs) as (? & _). simpl in *. lia.
Qed.

Lemma malloc_loop_ok h fl al n k fuel p q : heap_ok h fl al → 1 ≤ n → 8 * n < 2147483648 → (S (length fl) < k)%nat →
  (2 * length fl + 4 < fuel)%nat → p = h_freep h → ptr p h = Ok q h →
  ∃ r h', malloc_loop grow k fuel n p q h = Ok r h' ∧ intact al (h_mem h) (h_mem h') ∧
    (r = 0 ∧ heap_ok h' fl al ∧ (∃ u, n ≤ u ∧ grow (h_brk h) (8 * u) = false) ∨
     ∃ fl' a, r = a + 8 ∧ heap_ok h' fl' ((a, n) :: al) ∧ (length fl' ≤ S (length fl))%nat).
Proof.
  intros Ho Hn Hn2 Hk Hfu -> Hq. destruct (freep_split _ _ _ Ho) as (l1 & f & l2 & E & Ef & Ep & _).
  rewrite Ep in Hq. injection Hq as <-.
  replace fuel with (S (length fl) + (fuel - S (length fl)))%nat by lia. set (fuel' := (fuel - S (length fl))%nat).
  rewrite <-Ef. destruct (circle grow k n Hn h fl al l1 f l2 fuel' Ho E Ef) as [(h' & r & -> & Hc)|[Hsm ->]].
  { exists r, h'. destruct Hc as (fl' & a & ? & ? & ? & _ & ?). split; [done|]. split; [done|]. right. exists fl', a. split; [done|]. split; [done|lia]. }
  unfold enlarge. destruct (morecore_ok h fl al n k Ho Hn Hn2 Hk) as [[Em Hg]|(fl1 & h1 & Em & Ho1 & Hi1 & Hl1 & c & Hc1 & Hc2)].
  { exists 0, h. mstep Em. split; [done|]. split; [done|]. by left. }
  mstep Em. destruct (freep_split _ _ _ Ho1) as (j1 & g & j2 & E1 & Eg & Ep1 & Hpos).
  destruct (Z.eqb_spec (h_freep h1) 0); [lia|]. mstep Ep1. rewrite <-Eg.
  assert (∃ f2, fuel' = (S (length fl1) + f2)%nat) as [f2 ->] by (exists (fuel' - S (length fl1))%nat; unfold fuel'; lia).
  destruct (circle grow k n Hn h1 fl1 al j1 g j2 f2 Ho1 E1 Eg) as [(h' & r & -> & Hc)|[Hsm1 _]].
  - exists r, h'. destruct Hc as (fl' & a & ? & ? & Hi2 & _ & ?). split; [done|]. split.
    + intros d x Hd Hx. rewrite (Hi2 d x Hd Hx). by apply (Hi1 d).
    + right. exists fl', a. split; [done|]. split; [done|lia].
  - exfalso. eapply Forall_forall in Hsm1; [|exact Hc1]. simpl in Hsm1. lia.
Qed.

(** Before the first call there is no list. *)
Definition state_ok (h : heap) (fl al : list blk) : Prop :=
  h_freep h = 0 ∧ fl = [] ∧ al = [] ∧ base + 8 ≤ h_brk h ≤ MMAPBASE ∨ heap_ok h fl al.

Lemma first_ok h : base + 8 ≤ h_brk h ≤ MMAPBASE →
  heap_ok (set_mem (store32 (store32 (h_mem h) base base) (base + 4) 0) (set_freep base h)) [] [].
Proof.
  intros Hb. unfold MMAPBASE in *. split; simpl; try done.
  - rewrite load32_store32_ne, !load32_store32_eq, !u32_small by lia. done.
  - by repeat constructor.
  - exists 0. by left.
  - intros b c Hc. by apply elem_of_nil in Hc.
Qed.

Lemma malloc_ok h fl al nbytes fuel : state_ok h fl al → 0 ≤ nbytes < 2147483632 → (2 * length fl + 4 < fuel)%nat →
  ∃ r h', malloc base grow fuel nbytes h = Ok r h' ∧ intact al (h_mem h) (h_mem h') ∧
    (r = 0 ∧ heap_ok h' fl al ∧ (∃ u, units nbytes ≤ u ∧ grow (h_brk h) (8 * u) = false) ∨
     ∃ fl' a, r = a + 8 ∧ heap_ok h' fl' ((a, units nbytes) :: al) ∧ (length fl' ≤ S (length fl))%nat).
Proof.
  intros Hst Hnb Hfu. unfold malloc. set (nu := u32 (u32 (nbytes + HEADER - 1) / HEADER + 1)).
  assert (nu = units nbytes ∧ 1 ≤ nu ∧ 8 * nu < 2147483648) as (En & Hn1 & Hn2).
  { unfold nu, units, HEADER. rewrite (u32_small (nbytes + 8 - 1)) by lia. replace (nbytes + 8 - 1) with (nbytes + 7) by lia.
    assert (0 ≤ (nbytes + 7) / 8 ∧ 8 * ((nbytes + 7) / 8) ≤ nbytes + 7) by (pose proof (Z.mod_pos_bound (nbytes + 7) 8 ltac:(lia)); pose proof (Z.div_mod (nbytes + 7) 8 ltac:(lia)); lia).
    rewrite u32_small by lia. lia. }
  rewrite <-En. assert (∃ h1, (f ← Prelude.gets h_freep; (if f =? 0 then put_ptr base base;; modify (set_freep base);; put_size base 0 else mret tt)) h = Ok tt h1 ∧
    heap_ok h1 fl al ∧ intact al (h_mem h) (h_mem h1) ∧ h_brk h1 = h_brk h) as (h1 & E1 & Ho1 & Hi1 & Hb1).
  { destruct Hst as [(Hf & -> & -> & Hb)|Ho].
    - eexists. split; [|split; [by apply first_ok|split; [|done]]].
      + mrun. rewrite Hf, Z.eqb_refl. mstep (put_ptr_ok base base h). mrun. rewrite put_size_ok by (unfold MMAPBASE in *; lia). done.
      + intros c x Hc. by apply elem_of_nil in Hc.
    - exists h. split; [|split; [done|by split]]. mrun. destruct (freep_split _ _ _ Ho) as (? & ? & ? & _ & _ & _ & Hp).
      by destruct (Z.eqb_spec (h_freep h) 0); [lia|]. }
  destruct (freep_split _ _ _ Ho1) as (l1 & f & l2 & _ & _ & Ep & _).
  destruct (malloc_loop_ok h1 fl al nu fuel fuel (h_freep h1) (hda l2 base)) as (r & h' & El & Hi' & Hr); [done|lia|lia|lia|lia|done|done|].
  exists r, h'. split; [|split; [|by rewrite <-Hb1]].
  - revert E1. mrun. intros E1. mstep E1. mrun. injection Ep as ->. exact El.
  - intros c x Hc Hx. rewrite (Hi' c x Hc Hx). by apply (Hi1 c).
Qed.

(** ** A program that keeps to its blocks *)

(** It asks for a number of bytes, gives a block back, or stores a byte at an
    offset of a block; of each block it knows the address, the size it asked for
    and what it has stored. *)
Inductive act := AMalloc (nbytes : Z) | AFree (i : nat) | AStore (i : nat) (off v : Z).
Record owned := Owned { o_ptr : Z; o_size : Z; o_data : gmap Z Z }.

Fixpoint program (fuel : nat) (acts : list act) (os : list owned) : M heap (list owned) :=
  match acts with
  | [] => mret os
  | AMalloc nbytes :: acts =>
      p ← malloc base grow fuel nbytes;
      program fuel acts (if p =? 0 then os else Owned p nbytes ∅ :: os)
  | AFree i :: acts =>
      match os !! i with
      | Some o => free fuel (o_ptr o);; program fuel acts (delete i os)
      | None => program fuel acts os
      end
  | AStore i off v :: acts =>
      match os !! i with
      | Some o =>
          if (0 <=? off) && (off <? o_size o) then
            modify (λ h, set_mem (wr8 (h_mem h) (o_ptr o + off) v) h);;
            program fuel acts (<[i := Owned (o_ptr o) (o_size o) (<[off := u8 v]> (o_data o))]> os)
          else program fuel acts os
      | None => program fuel acts os
      end
  end.

Definition sizes_ok (acts : list act) : Prop :=
  Forall (λ a, match a with AMalloc n => 0 ≤ n < 2147483632 | _ => True end) acts.

(** The block behind what the program owns. *)
Definition block_of (o : owned) : blk := (o_ptr o - 8, units (o_size o)).
Definition holds (m : memory) (o : owned) : Prop :=
  0 ≤ o_size o ∧ ∀ off v, o_data o !! off = Some v → 0 ≤ off < o_size o ∧ rd8 m (o_ptr o + off) = v.
Definition own_ok (h : heap) (fl : list blk) (os : list owned) : Prop :=
  state_ok h fl (block_of <$> os) ∧ Forall (holds (h_mem h)) os.

Lemma units_room n : 0 ≤ n → n + 8 ≤ 8 * units n ∧ 1 ≤ units n.
Proof.
  intros Hn. unfold units. pose proof (Z.mod_pos_bound (n + 7) 8 ltac:(lia)). pose proof (Z.div_mod (n + 7) 8 ltac:(lia)). lia.
Qed.

Lemma holds_intact m m' os : intact (block_of <$> os) m m' → Forall (holds m) os → Forall (holds m') os.
Proof.
  rewrite !Forall_forall. intros Hi Ho o Hx. destruct (Ho o Hx) as [H1 H2]. split; [done|]. intros off v Hv.
  destruct (H2 off v Hv) as [H3 H4]. split; [done|]. rewrite <-H4. apply (Hi (block_of o)).
  - apply list_elem_of_fmap. eauto.
  - pose proof (units_room (o_size o) H1). unfold block_of, hi. simpl. lia.
Qed.

Lemma own_heap h fl os i o : own_ok h fl os → os !! i = Some o → heap_ok h fl (block_of <$> os) ∧
  inside h (block_of o) ∧ 0 ≤ o_size o.
Proof.
  intros [[(_ & _ & E & _)|Ho] Hh] Hi.
  - by destruct os.
  - split; [done|]. split; [|by eapply Forall_lookup_1 in Hh as [? _]]. pose proof (ho_use_in _ _ _ Ho) as Hu.
    eapply Forall_lookup_1; [exact Hu|]. by rewrite list_lookup_fmap, Hi.
Qed.

Lemma malloc_own h fl os n fuel : own_ok h fl os → 0 ≤ n < 2147483632 → (2 * length fl + 4 < fuel)%nat →
  ∃ p h' fl', malloc base grow fuel n h = Ok p h' ∧ (length fl' ≤ S (length fl))%nat ∧
    own_ok h' fl' (if p =? 0 then os else Owned p n ∅ :: os).
Proof.
  intros [Hst Hh] Hn Hfu.
  destruct (malloc_ok h fl _ n fuel Hst Hn Hfu) as (r & h' & E & Hi & [(-> & Ho & _)|(fl' & a & -> & Ho & Hl)]).
  - exists 0, h', fl. split; [done|]. split; [lia|]. split; [by right|]. by eapply holds_intact.
  - exists (a + 8), h', fl'. split; [done|]. split; [done|].
    assert (inside h' (a, units n)) as (_ & ? & _) by (pose proof (ho_use_in _ _ _ Ho) as Hu; by apply Forall_cons in Hu as [? _]).
    simpl in *. destruct (Z.eqb_spec (a + 8) 0); [lia|]. split.
    + right. simpl. unfold block_of at 1. simpl. by replace (a + 8 - 8) with a by lia.
    + constructor; [split; [simpl; lia|intros off v Hv; simpl in Hv; by rewrite lookup_empty in Hv]|by eapply holds_intact].
Qed.

Lemma free_own h fl os i o fuel : own_ok h fl os → os !! i = Some o → (S (length fl) < fuel)%nat →
  ∃ h' fl', free fuel (o_ptr o) h = Ok tt h' ∧ (length fl' ≤ S (length fl))%nat ∧ own_ok h' fl' (delete i os).
Proof.
  intros Hw Hi Hfu. destruct (own_heap h fl os i o Hw Hi) as (Ho & Hin & Hsz). destruct Hw as [_ Hh].
  assert (Hbi : (block_of <$> os) !! i = Some (block_of o)) by (by rewrite list_lookup_fmap, Hi).
  assert (Hdel : block_of <$> delete i os = delete i (block_of <$> os)) by (by rewrite list_fmap_delete).
  assert (Hsub : ∀ c, c ∈ delete i (block_of <$> os) → c ∈ block_of <$> os).
  { intros c (j & Hj)%list_elem_of_lookup. rewrite list_lookup_delete in Hj. by eapply list_elem_of_lookup_2. }
  assert (Hdis : ∀ c, c ∈ delete i (block_of <$> os) → disjoint c (block_of o)).
  { intros c (j & Hj)%list_elem_of_lookup. destruct (decide (j < i)%nat).
    - rewrite list_lookup_delete_lt in Hj by lia. eapply (ho_use_use _ _ _ Ho j i); [done|done|lia].
    - rewrite list_lookup_delete_ge in Hj by lia. eapply (ho_use_use _ _ _ Ho (S j) i); [done|done|lia]. }
  assert (Ho' : heap_ok h fl (delete i (block_of <$> os))).
  { destruct Ho as [? ? ? Hu ? Hui Hfu' Huu ?]. split; try done.
    - rewrite Forall_forall in Hu |- *. auto.
    - rewrite Forall_forall in Hui |- *. auto.
    - auto.
    - intros j k b c Hj Hk Hjk. rewrite list_lookup_delete in Hj, Hk.
      eapply (Huu (if decide (j < i)%nat then j else S j) (if decide (k < i)%nat then k else S k));
        repeat case_decide; try done; lia. }
  destruct (release_ok h fl _ (block_of o) fuel Ho' Hin) as (fl' & h' & E & Ho2 & Hint & _ & Hl & _); [| |done|].
  - pose proof (ho_use _ _ _ Ho) as Hu. by eapply Forall_lookup_1 in Hu.
  - intros c [Hc|Hc]%elem_of_app; [|by apply Hdis]. eapply (ho_free_use _ _ _ Ho); [done|by eapply list_elem_of_lookup_2].
  - exists h', fl'. unfold block_of in E. simpl in E. replace (o_ptr o - 8 + 8) with (o_ptr o) in E by lia.
    split; [done|]. split; [done|]. split; [right; by rewrite Hdel|].
    apply (holds_intact (h_mem h)); [by rewrite Hdel|]. by apply Forall_delete.
Qed.

Lemma store_own h fl os i o off v : own_ok h fl os → os !! i = Some o → 0 ≤ off < o_size o →
  own_ok (set_mem (wr8 (h_mem h) (o_ptr o + off) v) h) fl
    (<[i := Owned (o_ptr o) (o_size o) (<[off := u8 v]> (o_data o))]> os).
Proof.
  intros Hw Hi Hoff. destruct (own_heap h fl os i o Hw Hi) as (Ho & Hin & Hsz). destruct Hw as [_ Hh].
  pose proof (units_room (o_size o) Hsz) as Hroom. set (x := o_ptr o + off). set (m' := wr8 (h_mem h) x v).
  assert (Hx : (block_of o).1 + 8 ≤ x < hi (block_of o)) by (unfold block_of, hi, x; simpl; lia).
  assert (Hbi : (block_of <$> os) !! i = Some (block_of o)) by (by rewrite list_lookup_fmap, Hi).
  assert (Hm : ∀ y, y ≠ x → rd8 m' y = rd8 (h_mem h) y) by (intros y Hy; apply rd8_wr8_ne; congruence).
  assert (Hother : ∀ c, disjoint c (block_of o) → ∀ y, c.1 ≤ y < hi c → rd8 m' y = rd8 (h_mem h) y).
  { intros c Hc y Hy. apply Hm. intros ->. eapply (disjoint_point c (block_of o) x); [done|done|lia]. }
  split.
  - right. rewrite list_fmap_insert. rewrite list_insert_id by (rewrite Hbi; done).
    destruct Ho as [Hc Hs Hf Hu Hfi Hui Hfu Huu Hb]. split; try done; cbn [h_mem set_mem].
    + eapply chain_frame; [|exact Hc]. intros b y [->|Hbf]%elem_of_cons Hy.
      * apply Hm. destruct Hin as (_ & ? & _). simpl in *. lia.
      * apply (Hother b); [apply Hfu; [done|by eapply list_elem_of_lookup_2]|unfold hi; lia].
    + apply Forall_lookup. intros j c Hj. pose proof (Forall_lookup_1 _ _ _ _ Hu Hj) as E. simpl in E. rewrite <-E.
      destruct (header_frame (h_mem h) m' c.1) as [_ ->]; [|done]. intros y Hy. destruct (decide (j = i)) as [->|].
      * apply Hm. rewrite Hbi in Hj. injection Hj as <-. lia.
      * apply (Hother c); [by eapply (Huu j i)|unfold hi; lia].
  - apply Forall_lookup. intros j o' [(<- & <- & _)|[Hji Hj]]%list_lookup_insert_Some.
    + eapply Forall_lookup_1 in Hh as [_ Hd]; [|exact Hi]. split; [done|]. simpl. intros off' w.
      destruct (decide (off = off')) as [<-|Hne].
      * rewrite lookup_insert_eq. intros [= <-]. split; [done|]. apply rd8_wr8_eq.
      * rewrite lookup_insert_ne by done. intros Hw. destruct (Hd _ _ Hw) as [? <-]. split; [done|]. apply Hm. unfold x. lia.
    + pose proof (Forall_lookup_1 _ _ _ _ Hh Hj) as [Hsz' Hd]. split; [done|]. intros off' w Hw.
      destruct (Hd off' w Hw) as [? <-]. split; [done|]. pose proof (units_room (o_size o') Hsz').
      apply (Hother (block_of o')); [|unfold block_of, hi; simpl; lia].
      eapply (ho_use_use _ _ _ Ho j i); [by rewrite list_lookup_fmap, Hj|done|done].
Qed.

Lemma program_ok acts : ∀ h fl os fuel, own_ok h fl os → sizes_ok acts →
  (2 * (length fl + length acts) + 4 < fuel)%nat →
  ∃ os' h' fl', program fuel acts os h = Ok os' h' ∧ own_ok h' fl' os'.
Proof.
  induction acts as [|a acts IH]; intros h fl os fuel Hw Hs Hfu; [by exists os, h, fl|].
  apply Forall_cons in Hs as [Ha Hs]. cbn [length] in Hfu. cbn [program]. destruct a as [n|i|i off v].
  - destruct (malloc_own h fl os n fuel Hw Ha) as (p & h' & fl' & E & Hl & Hw'); [lia|]. mstep E. eapply IH; [done|done|lia].
  - destruct (os !! i) as [o|] eqn:Ei; [|eapply IH; [done|done|lia]].
    destruct (free_own h fl os i o fuel Hw Ei) as (h' & fl' & E & Hl & Hw'); [lia|]. mstep E. eapply IH; [done|done|lia].
  - destruct (os !! i) as [o|] eqn:Ei; [|eapply IH; [done|done|lia]].
    destruct ((0 <=? off) && (off <? o_size o)) eqn:Eo; [|eapply IH; [done|done|lia]].
    mrun. eapply IH; [apply store_own; [done|done|lia]|done|lia].
Qed.

(** What the program can see of the blocks it owns: each lies between the static
    header and the break, no two share a byte, and each byte stored is still there. *)
Definition in_heap (h : heap) (o : owned) : Prop := base + 16 ≤ o_ptr o ∧ o_ptr o + o_size o ≤ h_brk h.
Definition apart (o o' : owned) : Prop := o_ptr o + o_size o ≤ o_ptr o' ∨ o_ptr o' + o_size o' ≤ o_ptr o.

Lemma own_view h fl os : own_ok h fl os →
  Forall (in_heap h) os ∧ Forall (holds (h_mem h)) os ∧
  ∀ i j o o', os !! i = Some o → os !! j = Some o' → i ≠ j → apart o o'.
Proof.
  intros Hw. split; [|split; [by apply Hw|]].
  - apply Forall_lookup. intros i o Hi. destruct (own_heap _ _ _ _ _ Hw Hi) as (_ & (_ & ? & ?) & Hsz).
    pose proof (units_room _ Hsz). unfold in_heap, block_of in *. simpl in *. lia.
  - intros i j o o' Hi Hj Hij. destruct (own_heap _ _ _ _ _ Hw Hi) as (Ho & _ & Hs), (own_heap _ _ _ _ _ Hw Hj) as (_ & _ & Hs').
    pose proof (units_room _ Hs). pose proof (units_room _ Hs').
    destruct (ho_use_use _ _ _ Ho i j (block_of o) (block_of o')) as [H1|H1]; rewrite ?list_lookup_fmap, ?Hi, ?Hj; try done;
      unfold before, hi, block_of, apart in *; simpl in *; lia.
Qed.
End spec.

(** C13. A program that starts with an untouched allocator, and only stores into
    blocks it got from [malloc] and has not given back, runs through any sequence
    of requests, releases and stores, each request for less than 2147483632 bytes
    (larger sizes overflow, see [malloc_size_wraps]): [malloc] and [free] return,
    each block it owns is inside the heap the kernel granted, no two of them
    overlap, and every byte reads back as last stored, whatever blocks were split,
    merged or handed out in between.  The kernel is assumed to grant no memory
    beyond [MMAPBASE], as [allocuvm] does. *)
Theorem malloc_program_safe base grow acts h fuel :
  0 < base → (∀ b n, 0 ≤ n → grow b n = true → b + n ≤ MMAPBASE) → h_freep h = 0 → base + 8 ≤ h_brk h ≤ MMAPBASE →
  sizes_ok acts → (2 * length acts + 4 < fuel)%nat →
  ∃ os h', program base grow fuel acts [] h = Ok os h' ∧
    Forall (in_heap base h') os ∧ Forall (holds (h_mem h')) os ∧
    ∀ i j o o', os !! i = Some o → os !! j = Some o' → i ≠ j → apart o o'.
Proof.
  intros Hb Hg Hf Hbrk Hs Hfu.
  destruct (program_ok base Hb grow Hg acts h [] [] fuel) as (os & h' & fl' & E & Hw); [split; [by left|done]|done|simpl; lia|].
  exists os, h'. split; [done|]. by eapply own_view.
Qed.

Definition demo_acts : list act :=
  [AMalloc 24; AMalloc 100; AStore 0 99 65; AMalloc 8; AFree 1; AStore 0 7 66; AMalloc 40000; AFree 2; AMalloc 104].
Definition demo_heap : heap := Heap ∅ 0 0x3000.
Definition demo_grow (b n : Z) : bool := b + n <=? MMAPBASE.

Lemma malloc_program_safe_witness :
  ∃ os h', program 0x2000 demo_grow 30 demo_acts [] demo_heap = Ok os h' ∧
    Forall (in_heap 0x2000 h') os ∧ Forall (holds (h_mem h')) os ∧
    (∀ i j o o', os !! i = Some o → os !! j = Some o' → i ≠ j → apart o o').
Proof.
  apply (malloc_program_safe 0x2000 demo_grow demo_acts demo_heap 30).
  - lia.
  - unfold demo_grow. intros b n _ H. lia.
  - reflexivity.
  - vm_compute. split; discriminate.
  - unfold sizes_ok, demo_acts. repeat (constructor; [simpl; lia || exact I|]). constructor.
  - vm_compute. lia.
Defined.

(** A request close to 4 GB is granted: [nbytes + 7] wraps around, so the
    program is given a block of one unit, with no room behind the header at all. *)
Theorem malloc_size_wraps :
  ∃ h', malloc 0x2000 demo_grow 30 0xFFFFFFFC demo_heap = Ok (0x3000 + 8 * 4096) h' ∧
    load32 (h_mem h') (0x3000 + 8 * 4096 - 4) = 1 ∧ h_brk h' = 0x3000 + 8 * 4096.
Proof. eexists. split; [vm_compute; reflexivity|]. by vm_compute. Qed.
