(* ===== verification/Apic.v ===== *)
(** * Interrupt controllers (ioapic.c, picirq.c, lapic.c)

    The I/O APIC is a window of two registers onto a table; what an interrupt
    line does is read off that table.  The local APIC is an array of registers
    whose writes are kept in order, since some of them send interrupts to other
    processors.  The clock of the CMOS is read through its index port; it may
    change between any two reads. *)

From Stdlib Require Import ZArith Lia.
From stdpp Require Import base numbers strings gmap list.
From S2P Require Import Prelude Mmu.

Definition IRQ0 : Z := 32.          (* T_IRQ0 *)

(** ** I/O APIC *)

(** The register selected by the last write to [reg], the registers behind
    [data], and what was printed on the console. *)
Record ioapic := IoApic { io_reg : Z; io_regs : gmap Z Z; io_msgs : list string }.
Definition io_at (s : ioapic) (r : Z) : Z := default 0 (io_regs s !! r).
Definition io_select (reg : Z) : M ioapic unit := modify (λ s, IoApic reg (io_regs s) (io_msgs s)).

Definition REG_ID : Z := 0x00.
Definition REG_VER : Z := 0x01.
Definition REG_TABLE : Z := 0x10.
Definition INT_DISABLED : Z := 0x00010000.

Definition ioapicread (reg : Z) : M ioapic Z :=
  io_select reg;;
  gets (λ s, io_at s (io_reg s)).
Definition ioapicwrite (reg data : Z) : M ioapic unit :=
  io_select reg;;
  modify (λ s, IoApic (io_reg s) (<[io_reg s := u32 data]> (io_regs s)) (io_msgs s)).

(** The loop over the table from entry [i], [n] entries. *)
Fixpoint ioapicinit_loop (n : nat) (i : Z) : M ioapic unit :=
  match n with
  | O => mret tt
  | S n =>
      ioapicwrite (REG_TABLE + 2 * i) (Z.lor INT_DISABLED (IRQ0 + i));;
      ioapicwrite (REG_TABLE + 2 * i + 1) 0;;
      ioapicinit_loop n (i + 1)
  end.

(** [ioapicid] is what [mpinit] found. *)
Definition ioapicinit (ioapicid : Z) : M ioapic unit :=
  v ← ioapicread REG_VER;
  let maxintr := Z.land (Z.shiftr v 16) 0xFF in
  i ← ioapicread REG_ID;
  let id := Z.shiftr i 24 in
  (if negb (id =? ioapicid) then
     modify (λ s, IoApic (io_reg s) (io_regs s) ("ioapicinit: id isn't equal to ioapicid; not a MP" :: io_msgs s))
   else mret tt);;
  ioapicinit_loop (Z.to_nat (maxintr + 1)) 0.

Definition ioapicenable (irq cpunum : Z) : M ioapic unit :=
  ioapicwrite (REG_TABLE + 2 * irq) (IRQ0 + irq);;
  ioapicwrite (REG_TABLE + 2 * irq + 1) (Z.shiftl cpunum 24).

(** ** The two 8259A controllers

    The bytes written to each port, the last one first. *)
Definition IO_PIC1 : Z := 0x20.
Definition IO_PIC2 : Z := 0xA0.
Definition picinit : M (list (Z * Z)) unit :=
  modify (cons (IO_PIC1 + 1, 0xFF));;
  modify (cons (IO_PIC2 + 1, 0xFF)).

(** ** Local APIC *)

(** The registers, and their places in the array. *)
Inductive lreg : Type :=
| ID | VER | TPR | EOI | SVR | ESR | ICRLO | ICRHI | TIMER | PCINT | LINT0 | LINT1 | ERROR | TICR | TCCR | TDCR.
Definition lreg_index (r : lreg) : Z :=
  match r with
  | ID => 0x0020 | VER => 0x0030 | TPR => 0x0080 | EOI => 0x00B0 | SVR => 0x00F0 | ESR => 0x0280
  | ICRLO => 0x0300 | ICRHI => 0x0310 | TIMER => 0x0320 | PCINT => 0x0340 | LINT0 => 0x0350 | LINT1 => 0x0360
  | ERROR => 0x0370 | TICR => 0x0380 | TCCR => 0x0390 | TDCR => 0x03E0
  end / 4.
(** The values written to them. *)
Inductive lbit : Type :=
| ENABLE | INIT | STARTUP | DELIVS | ASSERT | LEVEL | BCAST | X1 | PERIODIC | MASKED.
Definition lbits (b : lbit) : Z :=
  match b with
  | ENABLE => 0x00000100 | INIT => 0x00000500 | STARTUP => 0x00000600 | DELIVS => 0x00001000
  | ASSERT => 0x00004000 | LEVEL => 0x00008000 | BCAST => 0x00080000 | X1 => 0x0000000B
  | PERIODIC => 0x00020000 | MASKED => 0x00010000
  end.

(** What the processor does to devices and to the memory they share. *)
Inductive hwop : Type :=
| Reg (index value : Z)
| Port (port value : Z)
| Mem16 (addr value : Z).

(** [lapic] is null or mapped; the operations are kept in order; [la_ro] are the
    registers that are only read; the command register is delivered after the
    values [la_icr] have been read from it; [la_port70] is the register of the
    clock that was selected and [la_reads] counts the reads of the clock. *)
Record lapic := Lapic {
  la_mapped : bool;
  la_ro : lreg → Z;
  la_ops : list hwop;
  la_icr : list Z;
  la_port70 : Z;
  la_reads : nat;
}.
Definition add_op (o : hwop) (s : lapic) : lapic :=
  Lapic (la_mapped s) (la_ro s) (la_ops s ++ [o]) (la_icr s) (la_port70 s) (la_reads s).
Definition emit (o : hwop) : M lapic unit := modify (add_op o).

Definition lapicw (r : lreg) (value : Z) : M lapic unit := emit (Reg (lreg_index r) (u32 value)).
Definition lapicr (r : lreg) : M lapic Z := gets (λ s, la_ro s r).

(** [while(lapic[ICRLO] & DELIVS)]. *)
Fixpoint icr_wait (l : list Z) : list Z :=
  match l with
  | [] => []
  | v :: l => if nz (Z.land v (lbits DELIVS)) then icr_wait l else l
  end.

Definition IRQ_TIMER : Z := 0.
Definition IRQ_ERROR : Z := 19.
Definition IRQ_SPURIOUS : Z := 31.

Definition lapicinit : M lapic unit :=
  m ← gets la_mapped;
  if negb m then mret tt
  else
    lapicw SVR (Z.lor (lbits ENABLE) (IRQ0 + IRQ_SPURIOUS));;
    lapicw TDCR (lbits X1);;
    lapicw TIMER (Z.lor (lbits PERIODIC) (IRQ0 + IRQ_TIMER));;
    lapicw TICR 10000000;;
    lapicw LINT0 (lbits MASKED);;
    lapicw LINT1 (lbits MASKED);;
    v ← lapicr VER;
    (if Z.land (Z.shiftr v 16) 0xFF >=? 4 then lapicw PCINT (lbits MASKED) else mret tt);;
    lapicw ERROR (IRQ0 + IRQ_ERROR);;
    lapicw ESR 0;;
    lapicw ESR 0;;
    lapicw EOI 0;;
    lapicw ICRHI 0;;
    lapicw ICRLO (Z.lor (lbits BCAST) (Z.lor (lbits INIT) (lbits LEVEL)));;
    modify (λ s, Lapic (la_mapped s) (la_ro s) (la_ops s) (icr_wait (la_icr s)) (la_port70 s) (la_reads s));;
    lapicw TPR 0.

Definition lapicid : M lapic Z :=
  m ← gets la_mapped;
  if negb m then mret 0 else v ← lapicr ID; mret (Z.shiftr v 24).

Definition lapiceoi : M lapic unit :=
  m ← gets la_mapped;
  if m : bool then lapicw EOI 0 else mret tt.

Definition CMOS_PORT : Z := 0x70.

Definition lapicstartap (apicid addr : Z) : M lapic unit :=
  emit (Port CMOS_PORT 0xF);;
  emit (Port (CMOS_PORT + 1) 0x0A);;
  let wrv := P2V (Z.lor (Z.shiftl 0x40 4) 0x67) in
  emit (Mem16 wrv 0);;
  emit (Mem16 (wrv + 2) (u16 (Z.shiftr addr 4)));;
  lapicw ICRHI (Z.shiftl apicid 24);;
  lapicw ICRLO (Z.lor (lbits INIT) (Z.lor (lbits LEVEL) (lbits ASSERT)));;
  lapicw ICRLO (Z.lor (lbits INIT) (lbits LEVEL));;
  lapicw ICRHI (Z.shiftl apicid 24);;
  lapicw ICRLO (Z.lor (lbits STARTUP) (Z.shiftr addr 12));;
  lapicw ICRHI (Z.shiftl apicid 24);;
  lapicw ICRLO (Z.lor (lbits STARTUP) (Z.shiftr addr 12)).

(** ** The clock *)

Record rtcdate := RtcDate { r_second : Z; r_minute : Z; r_hour : Z; r_day : Z; r_month : Z; r_year : Z }.
#[global] Instance rtcdate_eq_dec : EqDecision rtcdate.
Proof. solve_decision. Defined.

Section cmos.
(** What the n-th read of port 0x71 gives when the index is [reg]. *)
Context (rtc : nat → Z → Z).

Definition cmos_read (reg : Z) : M lapic Z :=
  modify (λ s, Lapic (la_mapped s) (la_ro s) (la_ops s) (la_icr s) reg (la_reads s));;
  v ← gets (λ s, rtc (la_reads s) (la_port70 s));
  modify (λ s, Lapic (la_mapped s) (la_ro s) (la_ops s) (la_icr s) (la_port70 s) (S (la_reads s)));;
  mret v.

Definition fill_rtcdate : M lapic rtcdate :=
  second ← cmos_read 0x00;
  minute ← cmos_read 0x02;
  hour ← cmos_read 0x04;
  day ← cmos_read 0x07;
  month ← cmos_read 0x08;
  year ← cmos_read 0x09;
  mret (RtcDate second minute hour day month year).

Definition CMOS_STATA : Z := 0x0a.
Definition CMOS_STATB : Z := 0x0b.
Definition CMOS_UIP : Z := Z.shiftl 1 7.

(** Read until two dates in a row agree. *)
Fixpoint cmos_loop (fuel : nat) : M lapic rtcdate :=
  match fuel with
  | O => nofuel
  | S fuel =>
      t1 ← fill_rtcdate;
      a ← cmos_read CMOS_STATA;
      if nz (Z.land a CMOS_UIP) then cmos_loop fuel
      else
        t2 ← fill_rtcdate;
        if decide (t1 = t2) then mret t1 else cmos_loop fuel
  end.

Definition CONV (x : Z) : Z := u32 (u32 (Z.shiftr x 4 * 10) + Z.land x 0xf).

Definition cmostime (fuel : nat) : M lapic rtcdate :=
  sb ← cmos_read CMOS_STATB;
  let bcd := Z.land sb (Z.shiftl 1 2) =? 0 in
  t1 ← cmos_loop fuel;
  let t1 := if bcd then RtcDate (CONV (r_second t1)) (CONV (r_minute t1)) (CONV (r_hour t1))
                                (CONV (r_day t1)) (CONV (r_month t1)) (CONV (r_year t1)) else t1 in
  mret (RtcDate (r_second t1) (r_minute t1) (r_hour t1) (r_day t1) (r_month t1) (u32 (r_year t1 + 2000))).
End cmos.

(** * What the controllers do *)

(** ** Routing of interrupts *)

(** The redirection entry of a line: nothing, or a vector for a processor. *)
Definition route (s : ioapic) (irq : Z) : option (Z * Z) :=
  let low := io_at s (REG_TABLE + 2 * irq) in
  if nz (Z.land low INT_DISABLED) then None
  else Some (Z.land low 0xFF, Z.shiftr (io_at s (REG_TABLE + 2 * irq + 1)) 24).

Lemma ioapicwrite_ok reg v s :
  ioapicwrite reg v s = Ok tt (IoApic reg (<[reg := u32 v]> (io_regs s)) (io_msgs s)).
Proof. reflexivity. Qed.

(** Entries of the table do not overlap. *)
Lemma route_other s reg m irq irq' : irq ≠ irq' →
  route (IoApic reg (<[REG_TABLE + 2 * irq + 1 := m.2]> (<[REG_TABLE + 2 * irq := m.1]> (io_regs s))) (io_msgs s)) irq' = route s irq'.
Proof. intros Hne. unfold route, io_at, REG_TABLE. simpl. by rewrite !lookup_insert_ne by lia. Qed.

Lemma enable_ok irq cpu s : 0 ≤ irq < 224 → 0 ≤ cpu < 256 →
  ∃ s', ioapicenable irq cpu s = Ok tt s' ∧ route s' irq = Some (IRQ0 + irq, cpu) ∧
    ∀ irq', irq' ≠ irq → route s' irq' = route s irq'.
Proof.
  intros Hi Hc. eexists. split; [reflexivity|]. simpl. split.
  - unfold route, io_at, REG_TABLE. simpl. rewrite lookup_insert_ne, !lookup_insert_eq by lia. simpl.
    unfold IRQ0. assert (Hl : Z.land (32 + irq) INT_DISABLED = 0).
    { apply Z.bits_inj'. intros k Hk. rewrite Z.land_spec, Z.bits_0. destruct (decide (k < 16)).
      - change INT_DISABLED with (2 ^ 16). rewrite Z.pow2_bits_false by lia. apply andb_false_r.
      - rewrite (Z.bits_above_log2 (32 + irq)); [done|lia|]. apply Z.log2_lt_pow2; [lia|].
        apply Z.lt_le_trans with (2 ^ 16); [lia|]. apply Z.pow_le_mono_r; lia. }
    rewrite (u32_small (32 + irq)) by lia. rewrite Hl. simpl. rewrite Z.shiftl_mul_pow2, u32_small by lia.
    rewrite Z.shiftr_div_pow2, Z.div_mul by lia. f_equal. f_equal.
    change 0xFF with (Z.ones 8). rewrite Z.land_ones, Z.mod_small by lia. lia.
  - intros irq' Hne. apply (route_other s _ (u32 (IRQ0 + irq), u32 (Z.shiftl cpu 24))). congruence.
Qed.

Lemma disable_loop n : ∀ i s, 0 ≤ i → ∃ s', ioapicinit_loop n i s = Ok tt s' ∧
  (∀ irq, i ≤ irq < i + Z.of_nat n → route s' irq = None) ∧ (∀ irq, irq < i → route s' irq = route s irq) ∧
  io_at s' REG_VER = io_at s REG_VER.
Proof.
  induction n as [|n IH]; intros i s Hi; [exists s; split_and!; [done|lia|done|done]|]. cbn [ioapicinit_loop].
  mstep (ioapicwrite_ok (REG_TABLE + 2 * i) _ s). mstep (ioapicwrite_ok (REG_TABLE + 2 * i + 1) 0 _).
  match goal with |- context [ioapicinit_loop n (i + 1) ?x] => set (s1 := x) end.
  destruct (IH (i + 1) s1 ltac:(lia)) as (s' & E & H1 & H2 & H3). exists s'. split; [done|]. split_and!.
  - intros irq Hr. destruct (decide (irq = i)) as [->|]; [|apply H1; lia]. rewrite H2 by lia.
    unfold route, io_at, s1, REG_TABLE. simpl. rewrite lookup_insert_ne, lookup_insert_eq by lia. simpl.
    unfold nz. destruct (Z.eqb_spec (Z.land (u32 (Z.lor INT_DISABLED (IRQ0 + i))) INT_DISABLED) 0) as [E0|]; [|done].
    exfalso. assert (Hb : Z.testbit (Z.land (u32 (Z.lor INT_DISABLED (IRQ0 + i))) INT_DISABLED) 16 = true); [|by rewrite E0 in Hb].
    rewrite Z.land_spec. unfold u32.
    change 4294967296 with (2 ^ 32). rewrite Z.mod_pow2_bits_low by lia. by rewrite Z.lor_spec.
  - intros irq Hr. rewrite H2 by lia. apply (route_other s _ (u32 (Z.lor INT_DISABLED (IRQ0 + i)), u32 0)). lia.
  - rewrite H3. unfold s1, io_at, REG_VER, REG_TABLE. simpl. by rewrite !lookup_insert_ne by lia.
Qed.

Fixpoint enable_all (es : list (Z * Z)) : M ioapic unit :=
  match es with
  | [] => mret tt
  | (irq, cpu) :: es => ioapicenable irq cpu;; enable_all es
  end.
(** What the last request for a line asked for. *)
Fixpoint asked (es : list (Z * Z)) (irq : Z) : option (Z * Z) :=
  match es with
  | [] => None
  | (i, cpu) :: es =>
      match asked es irq with
      | Some r => Some r
      | None => if i =? irq then Some (IRQ0 + irq, cpu) else None
      end
  end.

Lemma enable_all_ok es : ∀ s, Forall (λ e, 0 ≤ e.1 < 224 ∧ 0 ≤ e.2 < 256) es →
  ∃ s', enable_all es s = Ok tt s' ∧ ∀ irq, route s' irq = match asked es irq with Some r => Some r | None => route s irq end.
Proof.
  induction es as [|[i cpu] es IH]; intros s He; [by exists s|]. apply Forall_cons in He as [[Hi Hc] He].
  destruct (enable_ok i cpu s Hi Hc) as (s1 & E1 & H1 & H2). destruct (IH s1 He) as (s' & E & H3).
  exists s'. cbn [enable_all asked]. mstep E1. split; [done|]. intros irq. rewrite H3. destruct (asked es irq); [done|].
  destruct (Z.eqb_spec i irq) as [<-|]; [done|]. apply H2. congruence.
Qed.

(** After [ioapicinit] and any sequence of [ioapicenable] calls, a line of the
    controller is delivered exactly when a driver asked for it: to the processor
    that the last call for this line named, with vector T_IRQ0 plus the line; all
    other lines stay masked. *)
Theorem ioapic_routes_requested s ioapicid es irq :
  Forall (λ e, 0 ≤ e.1 < 224 ∧ 0 ≤ e.2 < 256) es →
  0 ≤ irq ≤ Z.land (Z.shiftr (io_at s REG_VER) 16) 0xFF →
  ∃ s', (ioapicinit ioapicid;; enable_all es) s = Ok tt s' ∧ route s' irq = asked es irq.
Proof.
  intros He Hirq. set (mx := Z.land (Z.shiftr (io_at s REG_VER) 16) 0xFF) in *.
  assert (∃ s1, ioapicinit ioapicid s = ioapicinit_loop (Z.to_nat (mx + 1)) 0 s1) as [s1 E1].
  { unfold ioapicinit, ioapicread. mrun. fold mx. destruct (negb _); eexists; reflexivity. }
  destruct (disable_loop (Z.to_nat (mx + 1)) 0 s1 ltac:(lia)) as (s2 & E2 & H2 & _).
  destruct (enable_all_ok es s2 He) as (s' & E3 & H3). exists s'. rewrite E2 in E1. mstep E1. split; [done|].
  rewrite H3, H2 by lia. by destruct (asked es irq).
Qed.

Lemma ioapic_routes_requested_witness :
  ∃ s', (ioapicinit 0;; enable_all [(1, 0); (14, 3)]) (IoApic 0 {[1 := 0x170011]} []) = Ok tt s' ∧
    route s' 14 = Some (46, 3).
Proof.
  apply (ioapic_routes_requested (IoApic 0 {[1 := 0x170011]} []) 0 [(1, 0); (14, 3)] 14).
  - apply (bool_decide_unpack _). by vm_compute.
  - vm_compute. split; discriminate.
Defined.

(** ** Starting another processor *)

(** A processor reacts to the commands addressed to it: INIT puts it into the
    state in which it waits for STARTUP, and STARTUP makes it run at a page of
    the first megabyte; a second STARTUP has no effect. *)
Inductive cpu_state := Other | WaitSipi | RunsAt (addr : Z).

Definition command (v : Z) (c : cpu_state) : cpu_state :=
  let mode := Z.land (Z.shiftr v 8) 7 in
  if mode =? 5 then if Z.testbit v 14 then WaitSipi else c
  else if mode =? 6 then match c with WaitSipi => RunsAt (Z.shiftl (Z.land v 0xFF) 12) | _ => c end
  else c.
(** A write to the low command register sends to the processor in the high one,
    or to all if bit 19 is set or that one is 0xFF. *)
Definition addressed (hi id : Z) : bool := (Z.shiftr hi 24 =? id) || (Z.shiftr hi 24 =? 0xFF).
Definition send (id : Z) (st : Z * cpu_state) (o : hwop) : Z * cpu_state :=
  match o with
  | Reg r v =>
      if r =? lreg_index ICRHI then (v, st.2)
      else if r =? lreg_index ICRLO then
        if Z.testbit v 19 || addressed st.1 id then (st.1, command v st.2) else st
      else st
  | _ => st
  end.

Lemma shift_id a : 0 ≤ a < 256 → Z.shiftr (u32 (Z.shiftl a 24)) 24 = a.
Proof.
  intros Ha. rewrite Z.shiftl_mul_pow2, u32_small by lia. by rewrite Z.shiftr_div_pow2, Z.div_mul by lia.
Qed.

Lemma startup_value k : 0 ≤ k < 256 →
  let v := u32 (Z.lor (lbits STARTUP) k) in
  Z.testbit v 19 = false ∧ Z.land (Z.shiftr v 8) 7 = 6 ∧ Z.land v 0xFF = k.
Proof.
  intros Hk. assert (Z.lor (lbits STARTUP) k = 1536 + k) as ->.
  { symmetry. rewrite <-Z.lxor_lor, <-Z.add_nocarry_lxor; [done|..]; apply Z.bits_inj'; intros i Hi; rewrite Z.land_spec, Z.bits_0;
      (destruct (decide (i < 8)); [change (lbits STARTUP) with (Z.shiftl 6 8); rewrite Z.shiftl_spec_low by lia; done|
        rewrite (Z.bits_above_log2 k); [apply andb_false_r|lia|]; destruct (decide (k = 0)) as [->|]; [simpl; lia|];
        apply Z.log2_lt_pow2; [lia|]; apply Z.lt_le_trans with (2 ^ 8); [lia|apply Z.pow_le_mono_r; lia]]). }
  rewrite u32_small by lia. cbv zeta. split; [|split].
  - apply Z.bits_above_log2; [lia|]. apply Z.log2_lt_pow2; lia.
  - rewrite Z.shiftr_div_pow2 by lia. replace (1536 + k) with (k + 6 * 2 ^ 8) by lia. rewrite Z.div_add by lia.
    by rewrite (Z.div_small k) by lia.
  - change 0xFF with (Z.ones 8). rewrite Z.land_ones by lia. replace (1536 + k) with (k + 6 * 2 ^ 8) by lia.
    rewrite Z.mod_add, Z.mod_small by lia. done.
Qed.

Lemma send_hi id st v : send id st (Reg (lreg_index ICRHI) v) = (v, st.2).
Proof. reflexivity. Qed.
Lemma send_lo id d c v : send id (d, c) (Reg (lreg_index ICRLO) v) =
  (d, if Z.testbit v 19 || addressed d id then command v c else c).
Proof.
  unfold send. change (lreg_index ICRLO =? lreg_index ICRHI) with false. change (lreg_index ICRLO =? lreg_index ICRLO) with true.
  cbn [fst snd]. by destruct (_ || _).
Qed.
Lemma send_port id st p v : send id st (Port p v) = st.
Proof. reflexivity. Qed.
Lemma send_mem id st a v : send id st (Mem16 a v) = st.
Proof. reflexivity. Qed.

Definition add_ops (l : list hwop) (s : lapic) : lapic :=
  Lapic (la_mapped s) (la_ro s) (la_ops s ++ l) (la_icr s) (la_port70 s) (la_reads s).
Lemma emit_ops o l s : emit o (add_ops l s) = Ok tt (add_ops (l ++ [o]) s).
Proof. unfold emit, modify, add_op, add_ops. simpl. by rewrite app_assoc. Qed.
Lemma add_ops_nil s : add_ops [] s = s.
Proof. unfold add_ops. rewrite app_nil_r. by destruct s. Qed.

Lemma startap_ops apicid addr s : lapicstartap apicid addr s =
  Ok tt (add_ops [Port 0x70 0xF; Port 0x71 0x0A; Mem16 0x80000467 0; Mem16 0x80000469 (u16 (Z.shiftr addr 4));
    Reg (lreg_index ICRHI) (u32 (Z.shiftl apicid 24)); Reg (lreg_index ICRLO) 0xC500; Reg (lreg_index ICRLO) 0x8500;
    Reg (lreg_index ICRHI) (u32 (Z.shiftl apicid 24)); Reg (lreg_index ICRLO) (u32 (Z.lor (lbits STARTUP) (Z.shiftr addr 12)));
    Reg (lreg_index ICRHI) (u32 (Z.shiftl apicid 24)); Reg (lreg_index ICRLO) (u32 (Z.lor (lbits STARTUP) (Z.shiftr addr 12)))] s).
Proof.
  rewrite <-(add_ops_nil s) at 1. unfold lapicstartap, lapicw. cbv zeta. repeat mstep (emit_ops _ _ s). by rewrite emit_ops.
Qed.

(** C37. [lapicstartap] starts the processor it names at the code it is given,
    wherever that processor was, and no other (0xFF names all of them); the two STARTUP commands have the
    effect of one, and the warm reset vector points to the same code. *)
Theorem lapicstartap_starts s apicid addr id c0 d0 :
  0 ≤ apicid < 256 → 0 ≤ addr < 0x100000 → addr mod 4096 = 0 → 0 ≤ id < 256 →
  ∃ s' ops, lapicstartap apicid addr s = Ok tt s' ∧ la_ops s' = la_ops s ++ ops ∧
    (foldl (send id) (d0, c0) ops).2 = (if (id =? apicid) || (apicid =? 0xFF) then RunsAt addr else c0) ∧
    ∃ seg, Mem16 0x80000467 0 ∈ ops ∧ Mem16 0x80000469 seg ∈ ops ∧ seg * 16 = addr.
Proof.
  intros Ha Hd Hal Hid. eexists _, _. split; [apply startap_ops|]. split; [reflexivity|].
  assert (Hk : 0 ≤ Z.shiftr addr 12 < 256).
  { rewrite Z.shiftr_div_pow2 by lia. split; [apply Z.div_pos; lia|apply Z.div_lt_upper_bound; lia]. }
  assert (Hpage : Z.shiftl (Z.shiftr addr 12) 12 = addr).
  { rewrite Z.shiftl_mul_pow2, Z.shiftr_div_pow2 by lia. change (2 ^ 12) with 4096. pose proof (Z.div_mod addr 4096 ltac:(lia)). lia. }
  destruct (startup_value _ Hk) as (V1 & V2 & V3). split.
  - cbn [foldl]. rewrite !send_port, !send_mem, !send_hi, !send_lo. cbn [fst snd]. unfold addressed. rewrite !(shift_id apicid Ha), V1.
    rewrite (Z.eqb_sym id apicid). cbn [orb]. destruct ((apicid =? id) || (apicid =? 255)).
    + cbn [fst snd]. change (command 0xC500 _) with WaitSipi. change (command 0x8500 WaitSipi) with WaitSipi.
      unfold command. rewrite V2, V3. cbn [Z.eqb Pos.eqb].
      by rewrite Hpage.
    + done.
  - exists (u16 (Z.shiftr addr 4)). split; [set_solver|]. split; [set_solver|].
    rewrite Z.shiftr_div_pow2 by lia. unfold u16. rewrite Z.mod_small.
    + change (2 ^ 4) with 16. pose proof (Z.div_mod addr 16 ltac:(lia)). assert (addr mod 16 = 0); [|lia].
      apply Z.mod_divide; [lia|]. apply Z.mod_divide in Hal; [|lia]. destruct Hal as [q ->]. exists (q * 256). lia.
    + split; [apply Z.div_pos; lia|]. apply Z.div_lt_upper_bound; lia.
Qed.

Definition demo_lapic : lapic := Lapic true (λ _, 0) [] [] 0 0.
Lemma lapicstartap_starts_witness :
  ∃ s' ops, lapicstartap 1 0x7000 demo_lapic = Ok tt s' ∧ la_ops s' = la_ops demo_lapic ++ ops ∧
    (foldl (send 1) (0, Other) ops).2 = (if (1 =? 1) || (1 =? 0xFF) then RunsAt 0x7000 else Other) ∧
    ∃ seg, Mem16 0x80000467 0 ∈ ops ∧ Mem16 0x80000469 seg ∈ ops ∧ seg * 16 = 0x7000.
Proof. apply (lapicstartap_starts demo_lapic 1 0x7000 1 Other 0); vm_compute; intuition discriminate. Defined.

(** [lapicinit] disturbs no processor: its broadcast INIT is a deassert. *)
Lemma lapicinit_keeps_processors s id c0 d0 : la_mapped s = true →
  ∃ s' ops, lapicinit s = Ok tt s' ∧ la_ops s' = la_ops s ++ ops ∧ (foldl (send id) (d0, c0) ops).2 = c0 ∧
    Reg (lreg_index TIMER) (0x20000 + IRQ0) ∈ ops.
Proof.
  intros Hm. replace (lapicinit s) with (lapicinit (add_ops [] s)) by (by rewrite add_ops_nil).
  unfold lapicinit, lapicr, lapicw.
  erewrite bind_ok; [|reflexivity]. cbn [la_mapped add_ops]. rewrite Hm. cbn [negb].
  repeat mstep (emit_ops _ _ s). erewrite bind_ok; [|reflexivity].
  destruct (_ >=? 4).
  all: repeat first [mstep (emit_ops _ _ s) | erewrite bind_ok by reflexivity].
  all: eexists _, _; split; [reflexivity|]; split; [cbn [la_ops add_op add_ops]; rewrite <-!app_assoc; reflexivity|].
  all: split; [by vm_compute|]; cbn [app]; rewrite !elem_of_cons; tauto.
Qed.

(** ** Reading the clock *)

Section clock.
Context (rtc : nat → Z → Z).

(** The date that reads [k] to [k + 5] show. *)
Definition shown (k : nat) : rtcdate :=
  RtcDate (rtc k 0) (rtc (k + 1) 2) (rtc (k + 2) 4) (rtc (k + 3) 7) (rtc (k + 4) 8) (rtc (k + 5) 9).

Lemma cmos_read_ok reg s : ∃ s', cmos_read rtc reg s = Ok (rtc (la_reads s) reg) s' ∧ la_reads s' = S (la_reads s).
Proof. eexists. split; reflexivity. Qed.

Lemma fill_ok s : ∃ s', fill_rtcdate rtc s = Ok (shown (la_reads s)) s' ∧ la_reads s' = (la_reads s + 6)%nat.
Proof.
  unfold fill_rtcdate, shown.
  destruct (cmos_read_ok 0x00 s) as (s1 & E1 & H1). mstep E1.
  destruct (cmos_read_ok 0x02 s1) as (s2 & E2 & H2). mstep E2.
  destruct (cmos_read_ok 0x04 s2) as (s3 & E3 & H3). mstep E3.
  destruct (cmos_read_ok 0x07 s3) as (s4 & E4 & H4). mstep E4.
  destruct (cmos_read_ok 0x08 s4) as (s5 & E5 & H5). mstep E5.
  destruct (cmos_read_ok 0x09 s5) as (s6 & E6 & H6). mstep E6.
  exists s6. split; [|lia]. unfold mret, M_ret. do 2 f_equal; f_equal; lia.
Qed.

End clock.

Definition date_map (f : Z → Z) (d : rtcdate) : rtcdate :=
  RtcDate (f (r_second d)) (f (r_minute d)) (f (r_hour d)) (f (r_day d)) (f (r_month d)) (f (r_year d)).
Definition to_bcd (x : Z) : Z := 16 * (x / 10) + x mod 10.
Definition two_digits (x : Z) : Prop := 0 ≤ x < 100.
Definition date_ok (d : rtcdate) : Prop :=
  two_digits (r_second d) ∧ two_digits (r_minute d) ∧ two_digits (r_hour d) ∧ two_digits (r_day d) ∧
  two_digits (r_month d) ∧ two_digits (r_year d).

Lemma land_bit_2 x : (Z.land x (Z.shiftl 1 2) =? 0) = negb (Z.testbit x 2).
Proof.
  change (Z.shiftl 1 2) with (2 ^ 2). destruct (Z.testbit x 2) eqn:Et; [apply Z.eqb_neq|apply Z.eqb_eq].
  - intros E0. assert (Z.testbit (Z.land x (2 ^ 2)) 2 = true); [|by rewrite E0 in *]. by rewrite Z.land_spec, Et.
  - apply Z.bits_inj'. intros i Hi. rewrite Z.land_spec, Z.bits_0. destruct (decide (i = 2)) as [->|]; [by rewrite Et|].
    rewrite Z.pow2_bits_false by lia. apply andb_false_r.
Qed.
Lemma conv_bcd x : two_digits x → CONV (to_bcd x) = x.
Proof.
  intros Hx. unfold CONV, to_bcd, two_digits in *. pose proof (Z.div_mod x 10 ltac:(lia)).
  pose proof (Z.mod_pos_bound x 10 ltac:(lia)). assert (0 ≤ x / 10 < 10) by lia.
  rewrite Z.shiftr_div_pow2 by lia. change (2 ^ 4) with 16. change 0xf with (Z.ones 4). rewrite Z.land_ones by lia.
  change (2 ^ 4) with 16. replace (16 * (x / 10) + x mod 10) with (x mod 10 + (x / 10) * 16) by lia.
  rewrite Z.div_add by lia. rewrite Z.mod_add by lia. rewrite (Z.div_small (x mod 10) 16) by lia. rewrite (Z.mod_small (x mod 10) 16) by lia.
  rewrite (u32_small ((0 + x / 10) * 10)) by lia. rewrite u32_small; lia.
Qed.

(** *** A clock

    The date it has at each read, and whether it is updating its registers then,
    when they may show anything. *)
Record clock := Clock { ck_date : nat → rtcdate; ck_updating : nat → bool }.
Definition uip (rtc : nat → Z → Z) (n : nat) : bool := nz (Z.land (rtc n CMOS_STATA) CMOS_UIP).
(** The registers of [d] at one read, in binary or in decimal digits. *)
Definition registers (binary : bool) (d : rtcdate) (f : Z → Z) : Prop :=
  let d := if binary then d else date_map to_bcd d in
  f 0 = r_second d ∧ f 2 = r_minute d ∧ f 4 = r_hour d ∧ f 7 = r_day d ∧ f 8 = r_month d ∧ f 9 = r_year d.
(** Reads [k] to [k + 12] see at most one update, from [a] to [b]. *)
Definition one_update (ck : clock) (k : nat) : Prop :=
  ∃ a b, ∀ n, (k ≤ n ≤ k + 12)%nat →
    (ck_updating ck n = false ∧ ck_date ck n = ck_date ck k ∧ n < a)%nat ∨
    (ck_updating ck n = true ∧ a ≤ n < b)%nat ∨
    (ck_updating ck n = false ∧ ck_date ck n = ck_date ck (k + 12) ∧ a ≤ n ∧ b ≤ n)%nat.
(** The device shows the clock: the date when it is not updating, and while it is,
    at least that. *)
Record shows (rtc : nat → Z → Z) (binary : bool) (ck : clock) : Prop := {
  sh_uip : ∀ n, ck_updating ck n = true → uip rtc n = true;
  sh_regs : ∀ n, ck_updating ck n = false → registers binary (ck_date ck n) (rtc n);
  sh_date : ∀ n, date_ok (ck_date ck n);
  sh_once : ∀ k, one_update ck k;
}.
(** Nothing happens for 26 reads from [N] on. *)
Definition quiet (rtc : nat → Z → Z) (ck : clock) (N : nat) : Prop :=
  ∀ n, (N ≤ n < N + 26)%nat → uip rtc n = false ∧ ck_updating ck n = false ∧ ck_date ck n = ck_date ck N.

Section clock.
Context (rtc : nat → Z → Z) (binary : bool) (ck : clock) (Hsh : shows rtc binary ck).
Let enc (d : rtcdate) : rtcdate := if binary then d else date_map to_bcd d.

Lemma shown_date k d : (∀ n, (k ≤ n ≤ k + 5)%nat → ck_updating ck n = false ∧ ck_date ck n = d) → shown rtc k = enc d.
Proof.
  intros H. assert (HR : ∀ n, (k ≤ n ≤ k + 5)%nat → registers binary d (rtc n)).
  { intros n Hn. destruct (H n Hn) as [Hu <-]. by apply Hsh. }
  unfold shown. destruct (HR k ltac:(lia)) as (-> & _), (HR (k + 1)%nat ltac:(lia)) as (_ & -> & _),
    (HR (k + 2)%nat ltac:(lia)) as (_ & _ & -> & _), (HR (k + 3)%nat ltac:(lia)) as (_ & _ & _ & -> & _),
    (HR (k + 4)%nat ltac:(lia)) as (_ & _ & _ & _ & -> & _), (HR (k + 5)%nat ltac:(lia)) as (_ & _ & _ & _ & _ & ->).
  unfold enc. destruct binary; by destruct d.
Qed.

(** Two readings that agree around a moment without an update show a date the
    clock had: the update, if there was one, is within one of them. *)
Lemma agreeing_readings k : shown rtc k = shown rtc (k + 7) → uip rtc (k + 6) = false →
  ∃ m, (k ≤ m ≤ k + 12)%nat ∧ ck_updating ck m = false ∧ shown rtc k = enc (ck_date ck m).
Proof.
  intros Heq Hu. destruct (sh_once _ _ _ Hsh k) as (a & b & Hab). destruct (Hab (k + 6)%nat ltac:(lia)) as [(_ & _ & Ha)|[[Hup _]|(_ & _ & Ha & Hb)]].
  - exists k. split; [lia|]. split; [destruct (Hab k ltac:(lia)) as [?|[?|?]]; intuition lia|].
    apply shown_date. intros n Hn. destruct (Hab n ltac:(lia)) as [?|[?|?]]; intuition lia.
  - apply (sh_uip _ _ _ Hsh) in Hup. congruence.
  - exists (k + 12)%nat. split; [lia|]. split; [destruct (Hab (k + 12)%nat ltac:(lia)) as [?|[?|?]]; intuition lia|].
    rewrite Heq. apply shown_date. intros n Hn. destruct (Hab n ltac:(lia)) as [?|[?|?]]; intuition lia.
Qed.

Lemma cmos_loop_ok N : quiet rtc ck N → ∀ fuel s, (la_reads s ≤ N + 12)%nat → (N < la_reads s + fuel)%nat → (0 < fuel)%nat →
  ∃ m s', cmos_loop rtc fuel s = Ok (enc (ck_date ck m)) s' ∧ (la_reads s ≤ m < la_reads s')%nat ∧ ck_updating ck m = false.
Proof.
  intros Hq. induction fuel as [|fuel IH]; intros s HN Hf Hp; [lia|]. cbn [cmos_loop].
  destruct (fill_ok rtc s) as (s1 & E1 & H1). mstep E1. destruct (cmos_read_ok rtc CMOS_STATA s1) as (s2 & E2 & H2). mstep E2.
  assert (Hnext : ∀ s', (la_reads s + 7 ≤ la_reads s' ≤ la_reads s + 13)%nat → (N ≤ la_reads s)%nat ∨
    ∃ m s'', cmos_loop rtc fuel s' = Ok (enc (ck_date ck m)) s'' ∧ (la_reads s ≤ m < la_reads s'')%nat ∧ ck_updating ck m = false).
  { intros s' Hs'. destruct (decide (N ≤ la_reads s)%nat); [by left|right].
    destruct (IH s') as (m & s'' & E & Hm & Hu); [lia..|]. exists m, s''. split; [done|]. split; [lia|done]. }
  fold (uip rtc (la_reads s1)). destruct (uip rtc (la_reads s1)) eqn:Eu.
  - destruct (Hnext s2 ltac:(lia)) as [Hn|?]; [|done]. destruct (Hq (la_reads s1) ltac:(lia)) as [Hu _]. congruence.
  - destruct (fill_ok rtc s2) as (s3 & E3 & H3). mstep E3. rewrite H2, H1.
    replace (S (la_reads s + 6)) with (la_reads s + 7)%nat by lia. case_decide as Hd.
    + rewrite H1 in Eu. destruct (agreeing_readings _ Hd Eu) as (m & Hm & Hmu & ->). exists m, s3.
      split; [done|]. split; [lia|done].
    + destruct (Hnext s3 ltac:(lia)) as [Hn|?]; [|done]. destruct Hd.
      rewrite !(shown_date _ (ck_date ck N)); [done|..]; intros n Hl; destruct (Hq n ltac:(lia)) as (_ & ? & ?); done.
Qed.
End clock.

(** C38. [cmostime] gives the right time although the clock runs on while it is
    read: it returns once the clock has been quiet for 26 reads of its registers
    (two rounds of the loop), and the date it returns is the one the clock had at
    some moment of the call, also when an update began or ended among the reads
    and the registers showed anything meanwhile.  The clock is one of this century
    in 24-hour mode, its registers in the format that status register B says,
    that sets the update bit while it updates and does not update twice within
    13 reads. *)
Theorem cmostime_reads_clock rtc ck N s fuel :
  shows rtc (Z.testbit (rtc (la_reads s) CMOS_STATB) 2) ck → quiet rtc ck N →
  (la_reads s ≤ N + 11)%nat → (N ≤ la_reads s + fuel)%nat → (0 < fuel)%nat →
  ∃ m s', let d := ck_date ck m in
    cmostime rtc fuel s = Ok (RtcDate (r_second d) (r_minute d) (r_hour d) (r_day d) (r_month d) (2000 + r_year d)) s' ∧
    (la_reads s < m < la_reads s')%nat ∧ ck_updating ck m = false.
Proof.
  intros Hs Hq Hr Hf Hp. unfold cmostime. destruct (cmos_read_ok rtc CMOS_STATB s) as (s1 & E1 & H1). mstep E1.
  destruct (cmos_loop_ok rtc _ ck Hs N Hq fuel s1) as (m & s2 & E2 & Hm & Hu); [lia..|done|]. mstep E2.
  exists m, s2. cbv zeta. split; [|split; [lia|done]].
  destruct (sh_date _ _ _ Hs m) as (D1 & D2 & D3 & D4 & D5 & D6). unfold mret, M_ret. f_equal.
  rewrite land_bit_2. destruct (Z.testbit _ 2); cbn [negb date_map r_second r_minute r_hour r_day r_month r_year].
  - unfold two_digits in *. rewrite u32_small by lia. f_equal. lia.
  - rewrite !conv_bcd by done. unfold two_digits in *. rewrite u32_small by lia. f_equal. lia.
Qed.

(** A clock that ticks every thousand reads, of which the update takes twenty,
    with nonsense in the registers. *)
Definition demo_clock : clock :=
  Clock (λ n, RtcDate (Z.of_nat (n / 1000) mod 60) 59 23 31 12 26) (λ n, n mod 1000 <? 20)%nat.
Definition demo_rtc (n : nat) (reg : Z) : Z :=
  if reg =? CMOS_STATA then if ck_updating demo_clock n then 0x80 else 0
  else if reg =? CMOS_STATB then 0
  else if ck_updating demo_clock n then 0xEE
  else if reg =? 0 then to_bcd (r_second (ck_date demo_clock n))
  else if reg =? 2 then 0x59 else if reg =? 4 then 0x23
  else if reg =? 7 then 0x31 else if reg =? 8 then 0x12 else 0x26.

Lemma demo_shows : shows demo_rtc false demo_clock.
Proof.
  split.
  - intros n Hn. unfold uip, demo_rtc. cbn -[ck_updating]. by rewrite Hn.
  - intros n Hn. unfold registers, demo_rtc. cbn -[ck_updating ck_date to_bcd]. rewrite Hn. done.
  - intros n. unfold date_ok, two_digits. cbn [r_second r_minute r_hour r_day r_month r_year ck_date demo_clock]. pose proof (Z.mod_pos_bound (Z.of_nat (n / 1000)) 60 ltac:(lia)) as H. lia.
  - intros k. assert (Hd : ∀ n, (n / 1000 = k / 1000)%nat → ck_date demo_clock n = ck_date demo_clock k) by (intros n E; cbn [ck_date demo_clock]; by rewrite E).
    pose proof (Nat.div_mod_eq k 1000) as Hk. pose proof (Nat.mod_upper_bound k 1000 ltac:(lia)) as Hk'.
    destruct (Nat.lt_ge_cases (k mod 1000) 20) as [Hc|Hc].
    + exists k, (1000 * (k / 1000) + 20)%nat. intros n Hn.
      assert (En : (n / 1000 = k / 1000)%nat) by (symmetry; apply (Nat.div_unique n 1000 _ (n - 1000 * (k / 1000))); lia).
      pose proof (Nat.div_mod_eq n 1000). assert (Ek : ((k + 12) / 1000 = k / 1000)%nat).
      { symmetry; apply (Nat.div_unique (k + 12) 1000 _ (k + 12 - 1000 * (k / 1000))); lia. }
      destruct (Nat.lt_ge_cases (n mod 1000) 20).
      * right. left. split; [cbn [ck_updating demo_clock]; apply Nat.ltb_lt; lia|lia].
      * right. right. split; [cbn [ck_updating demo_clock]; apply Nat.ltb_ge; lia|]. split; [by rewrite (Hd n En), (Hd _ Ek)|]. lia.
    + exists (1000 * (k / 1000) + 1000)%nat, (1000 * (k / 1000) + 1020)%nat. intros n Hn.
      pose proof (Nat.div_mod_eq n 1000). pose proof (Nat.mod_upper_bound n 1000 ltac:(lia)).
      destruct (Nat.lt_ge_cases n (1000 * (k / 1000) + 1000)).
      * assert (En : (n / 1000 = k / 1000)%nat) by (symmetry; apply (Nat.div_unique n 1000 _ (n - 1000 * (k / 1000))); lia).
        left. split; [cbn [ck_updating demo_clock]; apply Nat.ltb_ge; lia|]. split; [by apply Hd|lia].
      * assert (En : (n / 1000 = S (k / 1000))%nat) by (symmetry; apply (Nat.div_unique n 1000 _ (n - 1000 * S (k / 1000))); lia).
        right. left. split; [cbn [ck_updating demo_clock]; apply Nat.ltb_lt; lia|lia].
Qed.

Lemma cmostime_reads_clock_witness :
  ∃ m s', let d := ck_date demo_clock m in
    cmostime demo_rtc 30 demo_lapic = Ok (RtcDate (r_second d) (r_minute d) (r_hour d) (r_day d) (r_month d) (2000 + r_year d)) s' ∧
    (0 < m < la_reads s')%nat ∧ ck_updating demo_clock m = false.
Proof.
  apply (cmostime_reads_clock demo_rtc demo_clock 20 demo_lapic 30).
  - exact demo_shows.
  - intros n Hn. assert (Hu : ck_updating demo_clock n = false).
    { cbn [ck_updating demo_clock]. rewrite Nat.mod_small by lia. apply Nat.ltb_ge. lia. }
    split; [unfold uip, demo_rtc; cbn -[ck_updating]; by rewrite Hu|]. split; [done|]. cbn [ck_date demo_clock]. by rewrite !Nat.div_small by lia.
  - vm_compute. lia.
  - vm_compute. lia.
  - lia.
Defined.
