(* ===== verification/Ide.v ===== *)
(** * The IDE disk driver (ide.c)

    Buffers that wait for the disk are chained through [qnext], the first one is
    being transferred.  The driver talks to the disk through ports; the disk
    itself follows the documented protocol: a command acts on the sector that
    the registers select, takes or provides one sector of data, and raises an
    interrupt when it is done.  Requests of processes, the disk and its
    interrupts are interleaved freely. *)

From Stdlib Require Import ZArith Lia.
From stdpp Require Import base numbers strings gmap list relations.
From S2P Require Import Prelude Mmu Locks Disk Bio Apic.

Definition SECTOR_SIZE : Z := 512.
Definition IDE_BSY : Z := 0x80.
Definition IDE_DRDY : Z := 0x40.
Definition IDE_DF : Z := 0x20.
Definition IDE_ERR : Z := 0x01.
Definition IDE_CMD_READ : Z := 0x20.
Definition IDE_CMD_WRITE : Z := 0x30.
Definition IDE_CMD_RDMUL : Z := 0xc4.
Definition IDE_CMD_WRMUL : Z := 0xc5.

(** The part of [struct buf] the driver uses; buffers are known by address. *)
Record ibuf := IBuf {
  q_flags : Z;
  q_dev : Z;
  q_blockno : Z;
  q_held : bool;        (* [holdingsleep(&b->lock)] *)
  q_next : Z;
  q_data : list Z;
}.
Definition set_qflags (f : Z) (b : ibuf) : ibuf := IBuf f (q_dev b) (q_blockno b) (q_held b) (q_next b) (q_data b).
Definition set_qnext (n : Z) (b : ibuf) : ibuf := IBuf (q_flags b) (q_dev b) (q_blockno b) (q_held b) n (q_data b).
Definition set_qdata (d : list Z) (b : ibuf) : ibuf := IBuf (q_flags b) (q_dev b) (q_blockno b) (q_held b) (q_next b) d.

(** The disk: its registers, the command it works on, the sector it takes or
    provides, the status bytes that the next reads of the status register give
    (ready when there are none left), the interrupt line, and its sectors. *)
Record drive := Drive {
  r_count : Z; r_lba0 : Z; r_lba1 : Z; r_lba2 : Z; r_head : Z;
  r_cmd : option Z;
  r_data : list Z;
  r_status : list Z;
  r_intr : bool;
  d_blocks : gmap (Z * Z) (list Z);
}.

Record ide := Ide {
  i_lock : spinlock;
  i_bufs : gmap Z ibuf;
  idequeue : Z;
  havedisk1 : bool;
  i_drive : drive;
  i_asleep : list Z;      (* processes that sleep in [iderw], by channel *)
  i_apic : ioapic;
}.
Definition set_ilock (l : spinlock) (s : ide) : ide := Ide l (i_bufs s) (idequeue s) (havedisk1 s) (i_drive s) (i_asleep s) (i_apic s).
Definition set_ibufs (m : gmap Z ibuf) (s : ide) : ide := Ide (i_lock s) m (idequeue s) (havedisk1 s) (i_drive s) (i_asleep s) (i_apic s).
Definition set_queue (q : Z) (s : ide) : ide := Ide (i_lock s) (i_bufs s) q (havedisk1 s) (i_drive s) (i_asleep s) (i_apic s).
Definition set_disk1 (d : bool) (s : ide) : ide := Ide (i_lock s) (i_bufs s) (idequeue s) d (i_drive s) (i_asleep s) (i_apic s).
Definition set_drive (d : drive) (s : ide) : ide := Ide (i_lock s) (i_bufs s) (idequeue s) (havedisk1 s) d (i_asleep s) (i_apic s).
Definition set_asleep (l : list Z) (s : ide) : ide := Ide (i_lock s) (i_bufs s) (idequeue s) (havedisk1 s) (i_drive s) l (i_apic s).
Definition set_apic (a : ioapic) (s : ide) : ide := Ide (i_lock s) (i_bufs s) (idequeue s) (havedisk1 s) (i_drive s) (i_asleep s) a.
Definition l_idelock : lens ide spinlock := Lens i_lock set_ilock.
Definition l_ioapic : lens ide ioapic := Lens i_apic set_apic.

(** ** Ports *)

Definition out_reg (port v : Z) (d : drive) : drive :=
  let '(Drive c l0 l1 l2 h cmd dat st i bl) := d in
  if port =? 0x1f2 then Drive v l0 l1 l2 h cmd dat st i bl
  else if port =? 0x1f3 then Drive c v l1 l2 h cmd dat st i bl
  else if port =? 0x1f4 then Drive c l0 v l2 h cmd dat st i bl
  else if port =? 0x1f5 then Drive c l0 l1 v h cmd dat st i bl
  else if port =? 0x1f6 then Drive c l0 l1 l2 v cmd dat st i bl
  else if port =? 0x1f7 then Drive c l0 l1 l2 h (Some v) dat st i bl
  else d.
Definition outb (port v : Z) : M ide unit := modify (λ s, set_drive (out_reg port (u8 v) (i_drive s)) s).
Definition put_data (dat : list Z) (d : drive) : drive :=
  Drive (r_count d) (r_lba0 d) (r_lba1 d) (r_lba2 d) (r_head d) (r_cmd d) dat (r_status d) (r_intr d) (d_blocks d).
Definition put_status (st : list Z) (d : drive) : drive :=
  Drive (r_count d) (r_lba0 d) (r_lba1 d) (r_lba2 d) (r_head d) (r_cmd d) (r_data d) st (r_intr d) (d_blocks d).
Definition outsl (dat : list Z) : M ide unit := modify (λ s, set_drive (put_data dat (i_drive s)) s).
Definition insl : M ide (list Z) := gets (λ s, r_data (i_drive s)).
Definition inb_status : M ide Z :=
  st ← gets (λ s, r_status (i_drive s));
  modify (λ s, set_drive (put_status (tail st) (i_drive s)) s);;
  mret (hd IDE_DRDY st).

(** The loop of [idewait]: the last status byte and those after it. *)
Fixpoint wait_ready (st : list Z) : Z * list Z :=
  match st with
  | [] => (IDE_DRDY, [])
  | r :: st => if Z.land r (Z.lor IDE_BSY IDE_DRDY) =? IDE_DRDY then (r, st) else wait_ready st
  end.
Definition idewait (checkerr : bool) : M ide Z :=
  '(r, st) ← gets (λ s, wait_ready (r_status (i_drive s)));
  modify (λ s, set_drive (put_status st (i_drive s)) s);;
  if checkerr && nz (Z.land r (Z.lor IDE_DF IDE_ERR)) then mret (-1) else mret 0.

(** ** The driver *)

Definition getq (a : Z) : M ide ibuf := λ s,
  match i_bufs s !! a with Some b => Ok b s | None => Undef "buffer" end.
Definition updq (a : Z) (f : ibuf → ibuf) : M ide unit :=
  b ← getq a;
  modify (λ s, set_ibufs (<[a := f b]> (i_bufs s)) s).

(** Is disk 1 present?  The status register is read up to [n] times. *)
Fixpoint probe (n : nat) : M ide unit :=
  match n with
  | O => mret tt
  | S n => r ← inb_status; if nz r then modify (set_disk1 true) else probe n
  end.
Definition ideinit (ncpu : Z) : M ide unit :=
  modify (set_ilock (Spinlock false));;
  zoom l_ioapic (ioapicenable 14 (ncpu - 1));;
  _ ← idewait false;
  outb 0x1f6 (Z.lor 0xe0 (Z.shiftl 1 4));;
  probe 1000;;
  outb 0x1f6 (Z.lor 0xe0 (Z.shiftl 0 4)).

Definition idestart (a : Z) : M ide unit :=
  if a =? 0 then panic "idestart"
  else
    b ← getq a;
    if q_blockno b >=? FSSIZE then panic "incorrect blockno"
    else
      let sector_per_block := BSIZE / SECTOR_SIZE in
      let sector := s32 (q_blockno b * sector_per_block) in
      let read_cmd := if sector_per_block =? 1 then IDE_CMD_READ else IDE_CMD_RDMUL in
      let write_cmd := if sector_per_block =? 1 then IDE_CMD_WRITE else IDE_CMD_WRMUL in
      if sector_per_block >? 7 then panic "idestart"
      else
        _ ← idewait false;
        outb 0x3f6 0;;
        outb 0x1f2 sector_per_block;;
        outb 0x1f3 (Z.land sector 0xff);;
        outb 0x1f4 (Z.land (Z.shiftr sector 8) 0xff);;
        outb 0x1f5 (Z.land (Z.shiftr sector 16) 0xff);;
        outb 0x1f6 (Z.lor 0xe0 (Z.lor (Z.shiftl (Z.land (q_dev b) 1) 4) (Z.land (Z.shiftr sector 24) 0x0f)));;
        if nz (Z.land (q_flags b) B_DIRTY) then
          outb 0x1f7 write_cmd;;
          outsl (q_data b)
        else outb 0x1f7 read_cmd.

(** [wakeup]: the processes on the channel sleep no more. *)
Definition wakeup (a : Z) : M ide unit := modify (λ s, set_asleep (filter (λ c, c ≠ a) (i_asleep s)) s).

Definition ideintr : M ide unit :=
  acquire l_idelock;;
  a ← gets idequeue;
  if a =? 0 then release l_idelock
  else
    b ← getq a;
    modify (set_queue (q_next b));;
    (if nz (Z.land (q_flags b) B_DIRTY) then mret tt
     else
       r ← idewait true;
       if r >=? 0 then d ← insl; updq a (set_qdata d) else mret tt);;
    updq a (λ b, set_qflags (Z.lor (q_flags b) B_VALID) b);;
    updq a (λ b, set_qflags (Z.land (q_flags b) (Z.lnot B_DIRTY)) b);;
    wakeup a;;
    n ← gets idequeue;
    (if negb (n =? 0) then idestart n else mret tt);;
    release l_idelock.

(** The end of the queue: the last buffer, 0 for [idequeue] itself. *)
Fixpoint queue_end (fuel : nat) (pp p : Z) : M ide Z :=
  match fuel with
  | O => nofuel
  | S fuel => if p =? 0 then mret pp else b ← getq p; queue_end fuel p (q_next b)
  end.

(** The loop of [iderw]: done, or asleep until the channel is woken up. *)
Definition iderw_wait (a : Z) : M ide unit :=
  b ← getq a;
  if Z.land (q_flags b) (Z.lor B_VALID B_DIRTY) =? B_VALID then release l_idelock
  else
    release l_idelock;;
    modify (λ s, set_asleep (a :: i_asleep s) s);;
    sleep_on a.
(** After [sleep] has taken the lock again. *)
Definition iderw_resume (a : Z) : M ide unit :=
  acquire l_idelock;;
  iderw_wait a.

Definition iderw (fuel : nat) (a : Z) : M ide unit :=
  b ← getq a;
  if negb (q_held b) then panic "iderw: buf not locked"
  else if Z.land (q_flags b) (Z.lor B_VALID B_DIRTY) =? B_VALID then panic "iderw: nothing to do"
  else
    h ← gets havedisk1;
    if negb (q_dev b =? 0) && negb h then panic "iderw: ide disk 1 not present"
    else
      acquire l_idelock;;
      updq a (set_qnext 0);;
      q ← gets idequeue;
      pp ← queue_end fuel 0 q;
      (if pp =? 0 then modify (set_queue a) else updq pp (set_qnext a));;
      q ← gets idequeue;
      (if q =? a then idestart a else mret tt);;
      iderw_wait a.

(** * Correctness *)

(** ** The disk *)

(** The drive and sector that the registers select. *)
Definition sel (d : drive) : Z * Z :=
  (Z.land (Z.shiftr (r_head d) 4) 1, r_lba0 d + 256 * r_lba1 d + 65536 * r_lba2 d + 16777216 * Z.land (r_head d) 0xf).
Definition sector_of (m : gmap (Z * Z) (list Z)) (k : Z * Z) : list Z := default zero_block (m !! k).

(** How a command ends: with the status bytes the disk shows from then on and,
    if it fails, with what is left in the sector, or in the data register. *)
Inductive result := Success (st : list Z) | Failure (st junk : list Z).
Definition failed (st : list Z) : bool := nz (Z.land (wait_ready st).1 (Z.lor IDE_DF IDE_ERR)).
Definition fair (r : result) : Prop :=
  match r with Success st => failed st = false | Failure st _ => failed st = true end.
Definition moved (r : result) (dat : list Z) : list Z := match r with Success _ => dat | Failure _ junk => junk end.
Definition status_of (r : result) : list Z := match r with Success st | Failure st _ => st end.
Definition finish (r : result) (d : drive) : drive :=
  let '(Drive c l0 l1 l2 h cmd dat st i bl) := d in
  match cmd with
  | None => d
  | Some cmd =>
      if cmd =? IDE_CMD_WRITE then Drive c l0 l1 l2 h None dat (status_of r) true (<[sel d := moved r dat]> bl)
      else if cmd =? IDE_CMD_READ then Drive c l0 l1 l2 h None (moved r (sector_of bl (sel d))) (status_of r) true bl
      else d
  end.
Definition ack (d : drive) : drive :=
  Drive (r_count d) (r_lba0 d) (r_lba1 d) (r_lba2 d) (r_head d) (r_cmd d) (r_data d) (r_status d) false (d_blocks d).

Definition key (b : ibuf) : Z * Z := (Z.land (q_dev b) 1, q_blockno b).
Definition dirty (b : ibuf) : bool := nz (Z.land (q_flags b) B_DIRTY).
Definition pending (b : ibuf) : bool := negb (Z.land (q_flags b) (Z.lor B_VALID B_DIRTY) =? B_VALID).

(** The disk works on the request of [b], or has ended a command. *)
Definition working (d : drive) (b : ibuf) : Prop :=
  r_intr d = false ∧ sel d = key b ∧
  if dirty b then r_cmd d = Some IDE_CMD_WRITE ∧ r_data d = q_data b else r_cmd d = Some IDE_CMD_READ.
Definition finished (d : drive) : Prop := r_intr d = true ∧ r_cmd d = None.

(** The registers that [idestart] writes select the block of the buffer. *)
Lemma sel_block n dev c cmd dat st i bl : 0 ≤ n < 1000 →
  sel (Drive c (u8 (Z.land n 0xff)) (u8 (Z.land (Z.shiftr n 8) 0xff)) (u8 (Z.land (Z.shiftr n 16) 0xff))
    (u8 (Z.lor 0xe0 (Z.lor (Z.shiftl (Z.land dev 1) 4) (Z.land (Z.shiftr n 24) 0x0f)))) cmd dat st i bl) = (Z.land dev 1, n).
Proof.
  intros Hn. unfold sel. cbn [r_lba0 r_lba1 r_lba2 r_head]. change 0xff with (Z.ones 8). rewrite !Z.land_ones by lia.
  rewrite !Z.shiftr_div_pow2 by lia. rewrite (Z.div_small n (2 ^ 16)), (Z.div_small n (2 ^ 24)) by lia.
  assert (Hd : Z.land dev 1 = 0 ∨ Z.land dev 1 = 1) by (pose proof (Z.land_ones dev 1 ltac:(lia)) as E; change (Z.ones 1) with 1 in E; rewrite E; pose proof (Z.mod_pos_bound dev (2 ^ 1) ltac:(lia)); lia).
  unfold u8. change (2 ^ 8) with 256. rewrite !(Z.mod_mod _ 256) by lia. change (0 mod 256) with 0.
  destruct Hd as [-> | ->]; f_equal.
  - change (Z.land (Z.lor 224 (Z.lor (Z.shiftl 0 4) (Z.land 0 15)) mod 256) 15) with 0. Z.to_euclidean_division_equations; lia.
  - change (Z.land (Z.lor 224 (Z.lor (Z.shiftl 1 4) (Z.land 0 15)) mod 256) 15) with 0. Z.to_euclidean_division_equations; lia.
Qed.

Lemma getq_ok s a b : i_bufs s !! a = Some b → getq a s = Ok b s.
Proof. intros H. unfold getq. by rewrite H. Qed.
Lemma updq_ok s a b f : i_bufs s !! a = Some b → updq a f s = Ok tt (set_ibufs (<[a := f b]> (i_bufs s)) s).
Proof. intros H. unfold updq. by mstep (getq_ok s a b H). Qed.

Lemma outb_ok p v d s : outb p v (set_drive d s) = Ok tt (set_drive (out_reg p (u8 v) d) s).
Proof. reflexivity. Qed.
Lemma outsl_ok dat d s : outsl dat (set_drive d s) = Ok tt (set_drive (put_data dat d) s).
Proof. reflexivity. Qed.
Lemma idewait_ok e d s :
  ∃ st, idewait e (set_drive d s) = Ok (if e && failed (r_status d) then -1 else 0) (set_drive (put_status st d) s).
Proof.
  exists (wait_ready (r_status d)).2. unfold idewait, failed. erewrite bind_ok; [|reflexivity]. cbn [i_drive set_drive].
  destruct (wait_ready (r_status d)) as [r st]. erewrite bind_ok; [|reflexivity]. cbn [fst snd]. by destruct (e && _).
Qed.
Lemma set_drive_id s : set_drive (i_drive s) s = s.
Proof. by destruct s. Qed.

Lemma idestart_ok s a b : a ≠ 0 → i_bufs s !! a = Some b → 0 ≤ q_blockno b < FSSIZE → r_intr (i_drive s) = false →
  ∃ d, idestart a s = Ok tt (set_drive d s) ∧ working d b ∧ d_blocks d = d_blocks (i_drive s).
Proof.
  intros Ha Hb Hn Hi. unfold idestart. destruct (Z.eqb_spec a 0) as [|_]; [done|]. mstep (getq_ok s a b Hb).
  destruct (Z.geb_spec (q_blockno b) FSSIZE); [lia|]. change (BSIZE / SECTOR_SIZE) with 1. cbv zeta.
  change (1 =? 1) with true. change (1 >? 7) with false. cbv iota. unfold FSSIZE in *. rewrite Z.mul_1_r, s32_small by lia.
  set (n := q_blockno b) in *. rewrite <-(set_drive_id s). cbn [i_drive set_drive].
  destruct (idewait_ok false (i_drive s) s) as (st' & Ew). cbn [andb] in Ew.
  mstep Ew. repeat mstep (outb_ok _ _ _ s).
  pose proof (λ c cmd dat st i bl, sel_block n (q_dev b) c cmd dat st i bl Hn) as Hsel.
  destruct (i_drive s) as [c l0 l1 l2 hd cmd dat st i bl]. cbn [r_intr] in Hi. subst i.
  destruct (nz (Z.land (q_flags b) B_DIRTY)) eqn:Ed.
  - mstep (outb_ok _ _ _ s). rewrite outsl_ok. eexists. split; [reflexivity|]. unfold working, dirty. rewrite Ed.
    split; [split; [done|split; [apply Hsel|done]]|done].
  - rewrite outb_ok. eexists. split; [reflexivity|]. unfold working, dirty. rewrite Ed.
    split; [split; [done|split; [apply Hsel|done]]|done].
Qed.

(** ** The queue *)

Definition wants (b : ibuf) : Prop := pending b = true ∧ 0 ≤ q_blockno b < FSSIZE.
Fixpoint qchain (m : gmap Z ibuf) (q : list Z) (p : Z) : Prop :=
  match q with
  | [] => p = 0
  | a :: q => p = a ∧ a ≠ 0 ∧ ∃ b, m !! a = Some b ∧ wants b ∧ qchain m q (q_next b)
  end.

Lemma qchain_frame m m' q : ∀ p, (∀ a, a ∈ q → m' !! a = m !! a) → qchain m q p → qchain m' q p.
Proof.
  induction q as [|a q IH]; intros p Hm; [done|]. intros (-> & Ha & b & Hb & Hw & Hc). split; [done|]. split; [done|].
  exists b. rewrite Hm by (by left). split; [done|]. split; [done|]. apply IH; [|done]. intros c Hc'. apply Hm. by right.
Qed.

Lemma queue_end_ok s q : ∀ p pp fuel, qchain (i_bufs s) q p → (length q < fuel)%nat →
  queue_end fuel pp p s = Ok (default pp (last q)) s.
Proof.
  induction q as [|a q IH]; intros p pp fuel Hc Hf; (destruct fuel as [|fuel]; [simpl in Hf; lia|]); cbn [queue_end].
  - simpl in Hc. subst p. done.
  - destruct Hc as (-> & Ha & b & Hb & _ & Hc). destruct (Z.eqb_spec a 0); [done|]. mstep (getq_ok s a b Hb). simpl in Hf.
    rewrite (IH (q_next b) a fuel Hc) by lia. by destruct q as [|c q]; [|rewrite last_cons_cons; destruct (last (c :: q)) eqn:El; [|apply last_None in El]].
Qed.

Lemma qchain_snoc m q z bz a ba : ∀ p, qchain m (q ++ [z]) p → NoDup (q ++ [z]) → m !! z = Some bz → a ∉ q ++ [z] → a ≠ 0 →
  m !! a = Some ba → wants ba → q_next ba = 0 → qchain (<[z := set_qnext a bz]> m) ((q ++ [z]) ++ [a]) p.
Proof.
  induction q as [|c q IH]; intros p Hc Hn Hz Ha Ha0 Hba Hw Hnx.
  - destruct Hc as (-> & Hz0 & b & Hb & Hwb & Hc). simplify_eq. split; [done|]. split; [done|].
    exists (set_qnext a b). rewrite lookup_insert_eq. split; [done|]. split; [exact Hwb|]. split; [done|]. split; [done|].
    exists ba. rewrite lookup_insert_ne; [|intros ->; apply Ha; by left]. split; [done|]. split; [done|]. by rewrite Hnx.
  - destruct Hc as (-> & Hc0 & b & Hb & Hwb & Hc). apply NoDup_cons in Hn as [Hcn Hn]. split; [done|]. split; [done|].
    exists b. rewrite lookup_insert_ne; [|intros ->; apply Hcn, elem_of_app; right; by left]. split; [done|]. split; [done|].
    apply (IH (q_next b)); try done. intros Hx. apply Ha. by right.
Qed.

Record inv (s : ide) (q : list Z) : Prop := {
  iv_lock : i_lock s = Spinlock false;
  iv_chain : qchain (i_bufs s) q (idequeue s);
  iv_nodup : NoDup q;
  iv_drive : match q with
             | [] => r_intr (i_drive s) = false ∧ r_cmd (i_drive s) = None
             | a :: _ => ∃ b, i_bufs s !! a = Some b ∧ (working (i_drive s) b ∨ finished (i_drive s))
             end;
  iv_asleep : ∀ a, a ∈ i_asleep s ↔ a ∈ q;
}.

(** What a caller of [iderw] guarantees: it holds the lock of the buffer, so no
    one else is waiting for it, and there is something to do on a disk that is
    there. *)
Definition requestable (s : ide) (a : Z) : Prop :=
  a ≠ 0 ∧ ∃ b, i_bufs s !! a = Some b ∧ q_held b = true ∧ wants b ∧ (q_dev b = 0 ∨ havedisk1 s = true).

Lemma pending_pos b : wants b → (Z.land (q_flags b) (Z.lor B_VALID B_DIRTY) =? B_VALID) = false.
Proof. intros [Hp _]. unfold pending in Hp. by destruct (_ =? B_VALID). Qed.

Lemma wait_sleeps s a b : i_bufs s !! a = Some b → wants b → locked (i_lock s) = true →
  iderw_wait a s = Sleep a (set_asleep (a :: i_asleep s) (set_ilock (Spinlock false) s)).
Proof.
  intros Hb Hw Hl. unfold iderw_wait. mstep (getq_ok s a b Hb). rewrite pending_pos by done.
  mstep (release_held l_idelock s Hl). reflexivity.
Qed.

Lemma iderw_ok s q a fuel : inv s q → requestable s a → a ∉ q → (length q < fuel)%nat →
  ∃ s', iderw fuel a s = Sleep a s' ∧ inv s' (q ++ [a]) ∧ d_blocks (i_drive s') = d_blocks (i_drive s) ∧
    ∀ c, set_qnext 0 <$> i_bufs s' !! c = set_qnext 0 <$> i_bufs s !! c.
Proof.
  intros [Hl Hc Hn Hd Has] (Ha0 & b & Hb & Hheld & Hw & Hdev) Ha Hf. unfold iderw. mstep (getq_ok s a b Hb).
  rewrite Hheld, pending_pos by done. cbn [negb]. erewrite bind_ok; [|reflexivity].
  assert (negb (q_dev b =? 0) && negb (havedisk1 s) = false) as -> by (destruct Hdev as [-> | ->]; [done|by rewrite andb_false_r]).
  assert (Hlk : locked (lget l_idelock s) = false) by (simpl; by rewrite Hl). mstep (acquire_free _ _ Hlk).
  set (s1 := lset l_idelock (Spinlock true) s). mstep (updq_ok s1 a b (set_qnext 0) Hb). set (s2 := set_ibufs _ s1).
  erewrite bind_ok; [|reflexivity].
  assert (Hc2 : qchain (i_bufs s2) q (idequeue s2)).
  { eapply qchain_frame; [|exact Hc]. intros c Hcq. simpl. by rewrite lookup_insert_ne by (intros ->; done). }
  mstep (queue_end_ok s2 q (idequeue s2) 0 fuel Hc2 Hf).
  assert (Hba : i_bufs s2 !! a = Some (set_qnext 0 b)) by apply lookup_insert_eq.
  destruct q as [|z q _] using rev_ind.
  - simpl default. change (0 =? 0) with true. cbv iota. erewrite bind_ok; [|reflexivity]. erewrite bind_ok; [|reflexivity].
    cbn [idequeue set_queue]. rewrite Z.eqb_refl. destruct Hd as [Hi Hcmd].
    destruct (idestart_ok (set_queue a s2) a (set_qnext 0 b) Ha0 Hba) as (d & Ed & Hwd & Hbl); [apply Hw|done|].
    mstep Ed. rewrite (wait_sleeps _ a (set_qnext 0 b)); [|exact Hba|exact Hw|done]. eexists. split; [reflexivity|]. split.
    + split; simpl; try done.
      * split; [done|]. split; [done|]. exists (set_qnext 0 b). rewrite lookup_insert_eq. done.
      * apply NoDup_singleton.
      * exists (set_qnext 0 b). rewrite lookup_insert_eq. split; [done|by left].
      * intros c. rewrite elem_of_cons, Has, list_elem_of_singleton, elem_of_nil. tauto.
    + split; [done|]. intros c. simpl. destruct (decide (a = c)) as [<-|]; [by rewrite lookup_insert_eq, Hb|by rewrite lookup_insert_ne].
  - rewrite last_snoc. simpl default.
    assert (Hz : ∃ bz, i_bufs s2 !! z = Some bz ∧ z ≠ 0).
    { clear -Hc2. revert Hc2. generalize (idequeue s2). induction q as [|c q IH]; intros p.
      - intros (_ & ? & bz & ? & _). eauto.
      - intros (_ & _ & b0 & _ & _ & H). by eapply IH. }
    destruct Hz as (bz & Hbz & Hz0). destruct (Z.eqb_spec z 0); [done|].
    mstep (updq_ok s2 z bz (set_qnext a) Hbz). erewrite bind_ok; [|reflexivity]. cbn [idequeue set_ibufs].
    assert (Hqa : idequeue s2 ≠ a).
    { intros E. destruct q as [|c q]; destruct Hc2 as (E2 & _); rewrite E in E2; apply Ha; rewrite E2; by left. }
    destruct (Z.eqb_spec (idequeue s2) a); [done|]. erewrite bind_ok; [|reflexivity].
    assert (Haz : a ≠ z) by (intros ->; apply Ha, elem_of_app; right; by left).
    rewrite (wait_sleeps _ a (set_qnext 0 b)); [|simpl; by rewrite lookup_insert_ne by done|exact Hw|done].
    eexists. split; [reflexivity|]. split.
    + split; simpl; try done.
      * by eapply (qchain_snoc _ q z bz a (set_qnext 0 b)).
      * apply NoDup_app. split; [done|]. split; [|apply NoDup_singleton]. intros c Hcq ->%list_elem_of_singleton. done.
      * destruct q as [|c q]; simpl in *.
        -- destruct Hd as (b' & Hb' & Hd). exists (set_qnext a bz). rewrite lookup_insert_eq. split; [done|].
           rewrite lookup_insert_ne in Hbz by done. by simplify_eq.
        -- destruct Hd as (b' & Hb' & Hd). exists b'. apply NoDup_cons in Hn as [Hcn _].
           rewrite !lookup_insert_ne; [done| |]; intros ->; [apply Ha; by left|apply Hcn, elem_of_app; right; by left].
      * intros c. rewrite elem_of_cons, Has, (elem_of_app _ [a]), list_elem_of_singleton. tauto.
    + split; [done|]. intros c. simpl. destruct (decide (z = c)) as [<-|].
      * rewrite lookup_insert_eq. simpl in Hbz. rewrite lookup_insert_ne in Hbz by done. by rewrite Hbz.
      * rewrite lookup_insert_ne by done. destruct (decide (a = c)) as [<-|]; [by rewrite lookup_insert_eq, Hb|by rewrite lookup_insert_ne].
Qed.

(** ** Serving the queue *)

(** What it means to serve a request with a given result: a dirty buffer is
    written to its block, another one is filled from it, and the buffer is
    valid.  If the disk reports an error the block has what the disk left
    there, or the buffer what it had. *)
Definition served_flags (f : Z) : Z := Z.land (Z.lor f B_VALID) (Z.lnot B_DIRTY).
Definition synced (st dat : list Z) (b : ibuf) : ibuf :=
  set_qflags (served_flags (q_flags b)) (if dirty b || failed st then b else set_qdata dat b).
Definition serve (st : gmap Z ibuf * gmap (Z * Z) (list Z)) (ar : Z * result) : gmap Z ibuf * gmap (Z * Z) (list Z) :=
  match st.1 !! ar.1 with
  | None => st
  | Some b => (<[ar.1 := synced (status_of ar.2) (sector_of st.2 (key b)) b]> st.1,
               if dirty b then <[key b := moved ar.2 (q_data b)]> st.2 else st.2)
  end.

Lemma finish_ok s q r : inv s q → inv (set_drive (finish r (i_drive s)) s) q.
Proof.
  intros [Hl Hc Hn Hd Has]. destruct s as [l m p h [c l0 l1 l2 hd cmd dat st0 i bl] as_ ap]. split; simpl in *; try done.
  destruct q as [|a q]; [by destruct Hd as [-> ->]|]. destruct Hd as (b & Hb & [(Hi & Hsel & Hw)|(Hi & Hcmd)]).
  - exists b. split; [done|right]. simpl in *. destruct (dirty b); [destruct Hw as [-> _]|subst cmd]; done.
  - simpl in Hcmd. subst cmd. exists b. split; [done|by right].
Qed.

(** The interrupt handler fills or keeps the buffer and marks it valid. *)
Lemma sync_ok s a b : i_bufs s !! a = Some b →
  ∃ st, ((if dirty b then mret tt else r ← idewait true; if r >=? 0 then d ← insl; updq a (set_qdata d) else mret tt);;
   updq a (λ b, set_qflags (Z.lor (q_flags b) B_VALID) b);;
   updq a (λ b, set_qflags (Z.land (q_flags b) (Z.lnot B_DIRTY)) b)) s =
   Ok tt (set_drive (put_status st (i_drive s))
     (set_ibufs (<[a := synced (r_status (i_drive s)) (r_data (i_drive s)) b]> (i_bufs s)) s)).
Proof.
  intros Hb. unfold synced. destruct (dirty b) eqn:Ed.
  - exists (r_status (i_drive s)). erewrite bind_ok; [|reflexivity]. mstep (updq_ok s a b _ Hb).
    rewrite (updq_ok _ a (set_qflags (Z.lor (q_flags b) B_VALID) b)); [|apply lookup_insert_eq].
    cbn [i_bufs set_ibufs]. rewrite insert_insert_eq. destruct s as [? ? ? ? []]. reflexivity.
  - destruct (idewait_ok true (i_drive s) s) as (st & Ew). rewrite set_drive_id in Ew. cbn [andb orb] in Ew |- *.
    exists st. set (s1 := set_drive (put_status st (i_drive s)) s) in *. destruct (failed (r_status (i_drive s))).
    + erewrite bind_ok; [|mstep Ew; reflexivity]. mstep (updq_ok s1 a b _ Hb).
      rewrite (updq_ok _ a (set_qflags (Z.lor (q_flags b) B_VALID) b)); [|apply lookup_insert_eq].
      cbn [i_bufs set_ibufs]. rewrite insert_insert_eq. reflexivity.
    + erewrite bind_ok; [|mstep Ew; change (0 >=? 0) with true; cbv iota; erewrite bind_ok; [|reflexivity]; apply (updq_ok s1 a b); exact Hb].
      mstep (updq_ok (set_ibufs (<[a := set_qdata (r_data (i_drive s1)) b]> (i_bufs s1)) s1) a _ _ (lookup_insert_eq _ _ _)).
      rewrite (updq_ok _ a (set_qflags (Z.lor (q_flags b) B_VALID) (set_qdata (r_data (i_drive s1)) b))); [|apply lookup_insert_eq].
      cbn [i_bufs set_ibufs]. rewrite !insert_insert_eq. reflexivity.
Qed.

Lemma bind_assoc_3 {S A B C D} (m : M S A) (f : M S B) (g : M S C) (k : M S D) s :
  ((m;; f;; g);; k) s = (m;; f;; g;; k) s.
Proof. unfold mbind, M_bind. destruct (m s); try done. by destruct (f s0). Qed.

(** The interrupt of a command that has ended. *)
Lemma ideintr_ok s a q b : inv s (a :: q) → finished (i_drive s) → i_bufs s !! a = Some b →
  ∃ s', ideintr (set_drive (ack (i_drive s)) s) = Ok tt s' ∧ inv s' q ∧
    i_bufs s' = <[a := synced (r_status (i_drive s)) (r_data (i_drive s)) b]> (i_bufs s) ∧
    d_blocks (i_drive s') = d_blocks (i_drive s) ∧ (r_intr (i_drive s') = false).
Proof.
  intros [Hl Hc Hn Hd Has] [Hi Hcmd] Hb. destruct Hc as (Hq & Ha0 & b' & Hb' & Hw & Hc). assert (b' = b) as -> by congruence.
  set (s1 := set_drive (ack (i_drive s)) s).
  unfold ideintr. assert (Hlk : locked (lget l_idelock s1) = false) by (simpl; by rewrite Hl). mstep (acquire_free _ _ Hlk).
  set (s2 := lset l_idelock (Spinlock true) s1). erewrite bind_ok; [|reflexivity].
  change (idequeue s2) with (idequeue s). rewrite Hq. destruct (Z.eqb_spec a 0) as [|_]; [done|].
  assert (Hb2 : i_bufs s2 !! a = Some b) by exact Hb. mstep (getq_ok s2 a b Hb2). erewrite bind_ok; [|reflexivity].
  set (s3 := set_queue (q_next b) s2). destruct (sync_ok s3 a b Hb2) as (st' & Es).
  rewrite <-bind_assoc_3. fold (dirty b). mstep Es. clear Es. set (s4 := set_drive _ _). erewrite bind_ok; [|reflexivity]. erewrite bind_ok; [|reflexivity].
  set (s5 := set_asleep _ s4). change (idequeue s5) with (q_next b).
  assert (Hsync : i_bufs s5 = <[a := synced (r_status (i_drive s)) (r_data (i_drive s)) b]> (i_bufs s)) by done.
  apply NoDup_cons in Hn as [Han Hn].
  assert (Hc6 : qchain (i_bufs s5) q (q_next b)).
  { eapply qchain_frame; [|exact Hc]. intros c Hcq. simpl. by rewrite lookup_insert_ne by (intros ->; done). }
  assert (Has5 : ∀ c, c ∈ i_asleep s5 ↔ c ∈ q).
  { intros c. simpl. rewrite list_elem_of_filter, Has, elem_of_cons. split; [tauto|]. intros Hcq. split; [intros ->; done|by right]. }
  destruct q as [|z q].
  - simpl in Hc. rewrite Hc. change (negb (0 =? 0)) with false. cbv iota. erewrite bind_ok; [|reflexivity].
    rewrite release_held by done. eexists. split; [reflexivity|]. split; [|split; [exact Hsync|done]].
    split; simpl; try done.
  - destruct Hc6 as (Ez & Hz0 & bz & Hbz & Hwz & Hcz). rewrite Ez. destruct (Z.eqb_spec z 0) as [|_]; [done|]. cbn [negb].
    destruct (idestart_ok s5 z bz Hz0 Hbz) as (d & Ed & Hwd & Hbl); [apply Hwz|done|].
    mstep Ed. rewrite release_held by done. eexists. split; [reflexivity|]. split; [|split; [exact Hsync|]].
    + split; try done.
      * split; [exact Ez|]. split; [done|]. exists bz. done.
      * exists bz. split; [exact Hbz|]. by left.
    + split; [exact Hbl|apply Hwd].
Qed.

(** One round: the disk finishes and the interrupt is handled. *)
Definition round (r : result) : M ide unit :=
  modify (λ s, set_drive (ack (finish r (i_drive s))) s);;
  ideintr.

Lemma round_ok s a q r : inv s (a :: q) → r_intr (i_drive s) = false → fair r →
  ∃ s', round r s = Ok tt s' ∧ inv s' q ∧ r_intr (i_drive s') = false ∧
    (i_bufs s', d_blocks (i_drive s')) = serve (i_bufs s, d_blocks (i_drive s)) (a, r).
Proof.
  intros Hinv Hi Hr. pose proof (finish_ok s (a :: q) r Hinv) as Hinv1.
  destruct (iv_drive _ _ Hinv) as (b & Hb & [(_ & Hsel & Hw)|(Hi' & _)]); [|congruence].
  assert (Hfin : finished (finish r (i_drive s)) ∧ r_status (finish r (i_drive s)) = status_of r ∧
    (dirty b = false → r_data (finish r (i_drive s)) = moved r (sector_of (d_blocks (i_drive s)) (key b))) ∧
    d_blocks (finish r (i_drive s)) = (if dirty b then <[key b := moved r (q_data b)]> (d_blocks (i_drive s)) else d_blocks (i_drive s))).
  { destruct (i_drive s) as [c l0 l1 l2 hd cmd dat st0 i bl]. simpl in *. destruct (dirty b).
    - destruct Hw as [-> ->]. simpl. by rewrite Hsel.
    - subst cmd. simpl. by rewrite Hsel. }
  destruct Hfin as (Hf & Hst & Hda & Hbl).
  destruct (ideintr_ok _ a q b Hinv1 Hf Hb) as (s' & E & Hinv' & Hbufs & Hblocks & Hi'). exists s'. split; [exact E|].
  split; [done|]. split; [done|]. rewrite Hbufs, Hblocks. cbn [i_drive set_drive i_bufs]. rewrite Hst, Hbl.
  unfold serve. cbn [fst snd]. rewrite Hb. f_equal. f_equal. unfold synced. destruct (dirty b) eqn:Ed; [done|]. cbn [orb].
  destruct r as [st|st junk]; simpl in *; rewrite Hr; [|done]. by rewrite Hda.
Qed.

(** ** Requests, the disk and its interrupts, interleaved *)

(** A run from [s0], with the requests that were made, in order, and the number
    of interrupts handled: a process asks for a buffer that nobody waits for; the
    disk finishes; its interrupt is handled; a process changes a buffer that is
    not queued. *)
Definition unqueued (s : ide) (a : Z) : Prop := ∀ q, qchain (i_bufs s) q (idequeue s) → a ∉ q.
Inductive ide_run (s0 : ide) : list Z → nat → ide → Prop :=
| run_start : ide_run s0 [] 0 s0
| run_request reqs n s a fuel s' :
    ide_run s0 reqs n s → requestable s a → unqueued s a → iderw fuel a s = Sleep a s' →
    ide_run s0 (reqs ++ [a]) n s'
| run_finish reqs n s r :
    ide_run s0 reqs n s → fair r → ide_run s0 reqs n (set_drive (finish r (i_drive s)) s)
| run_interrupt reqs n s s' :
    ide_run s0 reqs n s → r_intr (i_drive s) = true → ideintr (set_drive (ack (i_drive s)) s) = Ok tt s' →
    ide_run s0 reqs (S n) s'
| run_caller reqs n s a b :
    ide_run s0 reqs n s → unqueued s a → ide_run s0 reqs n (set_ibufs (<[a := b]> (i_bufs s)) s).

Lemma qchain_unique m q : ∀ q' p, qchain m q p → qchain m q' p → q = q'.
Proof.
  induction q as [|a q IH]; intros [|a' q'] p; simpl.
  - done.
  - intros -> (E & ? & _). by rewrite E in *.
  - intros (-> & ? & _) ?. done.
  - intros (-> & _ & b & Hb & _ & Hc) (-> & _ & b' & Hb' & _ & Hc'). simplify_eq. f_equal. by eapply IH.
Qed.

(** The length of the queue bounds the fuel of [iderw]. *)
Lemma queue_end_fuel s q : ∀ p pp fuel, qchain (i_bufs s) q p → (fuel ≤ length q)%nat → queue_end fuel pp p s = NoFuel.
Proof.
  induction q as [|a q IH]; intros p pp fuel Hc Hf; (destruct fuel as [|fuel]; [done|]); [simpl in Hf; lia|].
  destruct Hc as (-> & Ha & b & Hb & _ & Hc). cbn [queue_end]. destruct (Z.eqb_spec a 0); [done|]. mstep (getq_ok s a b Hb).
  apply IH; [done|]. simpl in Hf. lia.
Qed.
Lemma iderw_fuel s q a fuel s' : inv s q → requestable s a → a ∉ q → iderw fuel a s = Sleep a s' → (length q < fuel)%nat.
Proof.
  intros [Hl Hc Hn Hd Has] (Ha0 & b & Hb & Hheld & Hw & Hdev) Ha E.
  destruct (decide (length q < fuel)%nat); [done|exfalso]. revert E. unfold iderw. mstep (getq_ok s a b Hb).
  rewrite Hheld, pending_pos by done. cbn [negb]. erewrite bind_ok; [|reflexivity].
  assert (negb (q_dev b =? 0) && negb (havedisk1 s) = false) as -> by (destruct Hdev as [-> | ->]; [done|by rewrite andb_false_r]).
  assert (Hlk : locked (lget l_idelock s) = false) by (simpl; by rewrite Hl). mstep (acquire_free _ _ Hlk).
  set (s1 := lset l_idelock (Spinlock true) s). mstep (updq_ok s1 a b (set_qnext 0) Hb). erewrite bind_ok; [|reflexivity].
  rewrite bind_nofuel; [done|]. apply (queue_end_fuel _ q); [|lia]. eapply qchain_frame; [|exact Hc].
  intros c Hcq. simpl. by rewrite lookup_insert_ne by (intros ->; done).
Qed.

(** An idle driver. *)
Definition idle (s : ide) : Prop :=
  i_lock s = Spinlock false ∧ idequeue s = 0 ∧ i_asleep s = [] ∧ r_intr (i_drive s) = false ∧ r_cmd (i_drive s) = None.

Lemma idle_inv s : idle s → inv s [].
Proof. intros (? & ? & E & ? & ?). split; try done; [constructor|]. intros a. by rewrite E. Qed.

(** The queue has the requests that were made and not yet served, in order. *)
Lemma run_inv s0 reqs n s : idle s0 → ide_run s0 reqs n s → (n ≤ length reqs)%nat ∧ inv s (drop n reqs).
Proof.
  intros H0. induction 1 as [|reqs n s a fuel s' _ [Hn Hinv] Hr Hu E|reqs n s r _ [Hn Hinv] Hr
    |reqs n s s' _ [Hn Hinv] Hi E|reqs n s a b _ [Hn Hinv] Hu].
  - split; [simpl; lia|]. by apply idle_inv.
  - assert (a ∉ drop n reqs) as Ha by (by apply Hu, iv_chain). pose proof (iderw_fuel s _ a fuel s' Hinv Hr Ha E) as Hf.
    destruct (iderw_ok s _ a fuel Hinv Hr Ha Hf) as (s1 & E1 & Hinv' & _). assert (s' = s1) as -> by congruence.
    rewrite length_app. split; [lia|]. by rewrite drop_app_le by lia.
  - split; [done|]. by apply finish_ok.
  - destruct (drop n reqs) as [|a q] eqn:Eq; [destruct (iv_drive _ _ Hinv); congruence|].
    assert (Hlen : length (drop n reqs) = S (length q)) by (by rewrite Eq). rewrite length_drop in Hlen. split; [lia|].
    assert (Eq' : drop (S n) reqs = q).
    { replace (S n) with (n + 1)%nat by lia. by rewrite <-drop_drop, Eq. }
    rewrite Eq'. destruct (iv_drive _ _ Hinv) as (b & Hb & [(Hi' & _)|Hf]); [congruence|].
    destruct (ideintr_ok s a q b Hinv Hf Hb) as (s1 & E1 & Hinv' & _). rewrite E in E1. by injection E1 as <-.
  - split; [done|]. assert (a ∉ drop n reqs) as Ha by (by apply Hu, iv_chain). destruct Hinv as [Hl Hc Hnd Hd Has]. split; simpl; try done.
    + eapply qchain_frame; [|exact Hc]. intros c Hcq. by rewrite lookup_insert_ne by (intros ->; done).
    + destruct (drop n reqs) as [|z q]; [done|]. destruct Hd as (bz & Hbz & Hd). exists bz. rewrite lookup_insert_ne; [done|].
      intros ->. apply Ha. by left.
Qed.

Fixpoint rounds (rs : list result) : M ide unit :=
  match rs with
  | [] => mret tt
  | r :: rs => round r;; rounds rs
  end.

Lemma rounds_ok q : ∀ s rs, inv s q → r_intr (i_drive s) = false → Forall fair rs → length rs = length q →
  ∃ s', rounds rs s = Ok tt s' ∧ inv s' [] ∧
    (i_bufs s', d_blocks (i_drive s')) = foldl serve (i_bufs s, d_blocks (i_drive s)) (zip q rs).
Proof.
  induction q as [|a q IH]; intros s rs Hinv Hi Hs Hl; (destruct rs as [|r rs]; try done); [by exists s|].
  apply Forall_cons in Hs as [H1 H2]. destruct (round_ok s a q r Hinv Hi H1) as (s1 & E1 & Hinv1 & Hi1 & Hs1).
  destruct (IH s1 rs Hinv1 Hi1 H2) as (s2 & E2 & Hinv2 & Hs2); [by injection Hl|]. exists s2. cbn [rounds]. mstep E1.
  split; [done|]. split; [done|]. cbn [zip zip_with foldl]. by rewrite Hs2, Hs1.
Qed.

(** C14. However requests of processes, the disk and its interrupts interleave
    from an idle driver on, the queue holds exactly the requests that were made
    and not yet served, in the order in which they were made: after [n]
    interrupts the first [n] are gone.  The processes asleep in [iderw] are those
    whose buffers are queued; a further request goes to the end of the queue and
    sleeps (it does not panic).  And the queue is served: once the disk has
    finished that many commands, nobody is asleep, and memory and disk are as if
    the requests had been carried out one after the other, in order, each with
    the result the disk gave it.  A command that fails is not reported: the
    buffer is marked valid all the same, with the data it had before if it was a
    read, and not dirty if it was a write. *)
Theorem ide_serves_requests s0 reqs n s :
  idle s0 → ide_run s0 reqs n s →
  let q := drop n reqs in
  (n ≤ length reqs)%nat ∧ qchain (i_bufs s) q (idequeue s) ∧ (∀ a, a ∈ i_asleep s ↔ a ∈ q) ∧
  (∀ a, requestable s a → a ∉ q →
     ∃ s', iderw (S (length q)) a s = Sleep a s' ∧ qchain (i_bufs s') (q ++ [a]) (idequeue s')) ∧
  ∀ rs, r_intr (i_drive s) = false → Forall fair rs → length rs = length q →
    ∃ s', rounds rs s = Ok tt s' ∧ idequeue s' = 0 ∧ i_asleep s' = [] ∧
      (i_bufs s', d_blocks (i_drive s')) = foldl serve (i_bufs s, d_blocks (i_drive s)) (zip q rs).
Proof.
  intros Hi Hr q. destruct (run_inv s0 reqs n s Hi Hr) as [Hn Hinv]. fold q in Hinv.
  split; [done|]. split; [apply Hinv|]. split; [apply Hinv|]. split.
  - intros a Ha Hna. destruct (iderw_ok s q a (S (length q)) Hinv Ha Hna ltac:(lia)) as (s' & E & Hinv' & _).
    exists s'. split; [done|apply Hinv'].
  - intros rs Hin Hs Hl. destruct (rounds_ok q s rs Hinv Hin Hs Hl) as (s' & E & Hinv' & Heq). exists s'. split; [done|].
    split; [apply (iv_chain _ _ Hinv')|]. split; [|done]. destruct (i_asleep s') as [|a l] eqn:Ea; [done|].
    assert (a ∈ @nil Z) as Hx%elem_of_nil; [|done]. apply (iv_asleep _ _ Hinv'). rewrite Ea. by left.
Qed.

Definition demo_ide : ide :=
  Ide (Spinlock false) {[8 := IBuf B_DIRTY 0 5 true 0 [1; 2]; 16 := IBuf 0 0 5 true 0 []]} 0 false
    (Drive 0 0 0 0 0 None [] [] false ∅) [] (IoApic 0 ∅ []).
Definition after {A} (m : M ide A) (s : ide) : ide := match m s with Ok _ s' | Sleep _ s' => s' | _ => s end.
Definition demo_two : ide := after (iderw 5 16) (after (iderw 5 8) demo_ide).

Lemma ide_serves_requests_witness :
  ∃ s', rounds [Success [0x50]; Failure [0x80; 0x51] []] demo_two = Ok tt s' ∧ idequeue s' = 0 ∧ i_asleep s' = [] ∧
    (i_bufs s', d_blocks (i_drive s')) =
      foldl serve (i_bufs demo_two, d_blocks (i_drive demo_two)) [(8, Success [0x50]); (16, Failure [0x80; 0x51] [])].
Proof.
  assert (Hreq : ∀ reqs s a b s', ide_run demo_ide reqs 0 s → i_bufs s !! a = Some b → a ≠ 0 → q_held b = true → wants b → q_dev b = 0 →
    idequeue s = 0 ∨ (∃ z bz, idequeue s = z ∧ z ≠ a ∧ i_bufs s !! z = Some bz ∧ q_next bz = 0) →
    iderw 5 a s = Sleep a s' → ide_run demo_ide (reqs ++ [a]) 0 s').
  { intros reqs s a b s' Hrun Hb Ha Hh Hw Hd Hq E. apply (run_request demo_ide reqs 0 s a 5 s'); [done| |intros q Hc|done].
    - split; [done|]. exists b. split_and!; try done. by left.
    - destruct Hq as [Hq|(z & bz & Hq & Hza & Hbz & Hn)]; rewrite Hq in Hc.
      + destruct q as [|c q]; [apply not_elem_of_nil|]. by destruct Hc as (? & ? & _).
      + destruct q as [|c q]; [apply not_elem_of_nil|]. destruct Hc as (<- & _ & b' & Hb' & _ & Hc). rewrite Hbz in Hb'.
        injection Hb' as <-. rewrite Hn in Hc. destruct q as [|c q]; [|by destruct Hc as (? & ? & _)].
        rewrite list_elem_of_singleton. congruence. }
  assert (H1 : ide_run demo_ide ([] ++ [8]) 0 (after (iderw 5 8) demo_ide)).
  { apply (Hreq [] demo_ide 8 (IBuf B_DIRTY 0 5 true 0 [1; 2])).
    1: constructor.
    1: vm_compute; reflexivity.
    1: discriminate.
    1: reflexivity.
    1: split; [reflexivity|unfold FSSIZE; simpl; lia].
    1: reflexivity.
    1: left; reflexivity.
    vm_compute. reflexivity. }
  assert (H2 : ide_run demo_ide (([] ++ [8]) ++ [16]) 0 demo_two).
  { apply (Hreq ([] ++ [8]) (after (iderw 5 8) demo_ide) 16 (IBuf 0 0 5 true 0 [])).
    1: exact H1.
    1: vm_compute; reflexivity.
    1: discriminate.
    1: reflexivity.
    1: split; [reflexivity|unfold FSSIZE; simpl; lia].
    1: reflexivity.
    1: right; exists 8; eexists; split; [vm_compute; reflexivity|]; split; [discriminate|]; split; [vm_compute; reflexivity|reflexivity].
    vm_compute. reflexivity. }
  assert (H0 : idle demo_ide) by (unfold idle; simpl; split_and!; done).
  destruct (ide_serves_requests demo_ide [8; 16] 0 demo_two H0 H2) as (_ & _ & _ & _ & H).
  apply (H [Success [0x50]; Failure [0x80; 0x51] []]).
  - vm_compute. reflexivity.
  - constructor; [reflexivity|]. constructor; [reflexivity|constructor].
  - reflexivity.
Defined.

(** A read that fails is reported as success: when the disk shows an error,
    [ideintr] skips the transfer but still marks the buffer valid, so the caller
    of [iderw] goes on with what the buffer happened to contain. *)
Theorem ide_read_error_ignored :
  let s := after (iderw 5 16) (set_drive (Drive 0 0 0 0 0 None [] [] false {[(0, 5) := [7; 7]]}) demo_ide) in
  ∃ s', round (Failure [IDE_DRDY + IDE_ERR] []) s = Ok tt s' ∧
    i_bufs s' !! 16 = Some (IBuf B_VALID 0 5 true 0 []) ∧ i_asleep s' = [] ∧ iderw_resume 16 s' = Ok tt s'.
Proof. eexists. split; [vm_compute; reflexivity|]. split_and!; by vm_compute. Qed.
