(* ===== verification/Mkfs.v ===== *)
(** * The image builder (mkfs.c)

    mkfs writes the initial file system: an empty image, a superblock, a root
    directory and the files given on the command line, whose blocks it takes one
    after the other.  The image is a map of sectors, a sector that was never
    written cannot be read.  The files of the host are given by what [read]
    returns for them. *)

From Stdlib Require Import ZArith Lia.
From stdpp Require Import base numbers strings gmap list.
From S2P Require Import Prelude Memory Bytes Disk Fs.

Definition NINODES : Z := 200.
Definition nbitmap : Z := FSSIZE / (BSIZE * 8) + 1.
Definition ninodeblocks : Z := NINODES / IPB + 1.
Definition nlog : Z := LOGSIZE.
Definition nmeta : Z := 2 + nlog + ninodeblocks + nbitmap.
Definition nblocks : Z := FSSIZE - nmeta.

(** [struct superblock] as [main] fills it. *)
Definition mk_sb : superblock :=
  Superblock FSSIZE nblocks NINODES nlog 2 (2 + nlog) (2 + nlog + ninodeblocks).

(** The image, [freeinode] and [freeblock]. *)
Record mk := Mk { m_img : gmap Z (list Z); m_freeinode : Z; m_freeblock : Z }.
Definition set_img (i : gmap Z (list Z)) (s : mk) : mk := Mk i (m_freeinode s) (m_freeblock s).

(** The bytes of a number in the order of the disk. *)
Definition xshort (x : Z) : list Z := [u8 x; u8 (Z.shiftr x 8)].
Definition xint (x : Z) : list Z := [u8 x; u8 (Z.shiftr x 8); u8 (Z.shiftr x 16); u8 (Z.shiftr x 24)].

Definition wsect (sec : Z) (buf : list Z) : M mk unit := modify (λ s, set_img (<[sec := buf]> (m_img s)) s).
Definition rsect (sec : Z) : M mk (list Z) := λ s,
  match m_img s !! sec with Some b => Ok b s | None => Panic "read" end.

Definition winode (inum : Z) (ip : dinode) : M mk unit :=
  let bn := IBLOCK inum mk_sb in
  buf ← rsect bn;
  wsect bn (splice (ioff inum) (enc_dinode ip) buf).
Definition rinode (inum : Z) : M mk dinode :=
  let bn := IBLOCK inum mk_sb in
  buf ← rsect bn;
  mret (dec_dinode buf (ioff inum)).

Definition ialloc (type : Z) : M mk Z :=
  inum ← gets m_freeinode;
  modify (λ s, Mk (m_img s) (u32 (inum + 1)) (m_freeblock s));;
  winode inum (Dinode type 0 0 1 0 (replicate 13 0));;
  mret inum.

(** [freeblock++]. *)
Definition take_block : M mk Z :=
  b ← gets m_freeblock;
  modify (λ s, Mk (m_img s) (m_freeinode s) (u32 (b + 1)));;
  mret b.

(** Sector [fbn] of a file, with the inode that may have changed. *)
Definition get_sector (fbn : Z) (din : dinode) : M mk (Z * dinode) :=
  let addr k := default 0 (d_addrs din !! Z.to_nat k) in
  let set k a := Dinode (d_type din) (d_major din) (d_minor din) (d_nlink din) (d_size din) (<[Z.to_nat k := a]> (d_addrs din)) in
  if fbn <? NDIRECT then
    if addr fbn =? 0 then x ← take_block; mret (x, set fbn x) else mret (addr fbn, din)
  else
    '(ind, din) ← (if addr NDIRECT =? 0 then x ← take_block; mret (x, set NDIRECT x) else mret (addr NDIRECT, din));
    indirect ← rsect ind;
    let k := Z.to_nat (4 * (fbn - NDIRECT)) in
    if get32 indirect k =? 0 then
      x ← take_block;
      wsect ind (splice k (xint x) indirect);;
      mret (x, din)
    else mret (get32 indirect k, din).

Fixpoint iappend_loop (fuel : nat) (p : list Z) (off : Z) (din : dinode) : M mk (Z * dinode) :=
  match fuel with
  | O => nofuel
  | S fuel =>
      match p with
      | [] => mret (off, din)
      | _ =>
          let fbn := off / BSIZE in
          if fbn >=? MAXFILE then panic "fbn < MAXFILE"
          else
            '(x, din) ← get_sector fbn din;
            let n1 := Z.min (Z.of_nat (length p)) ((fbn + 1) * BSIZE - off) in
            buf ← rsect x;
            wsect x (splice (Z.to_nat (off - fbn * BSIZE)) (take (Z.to_nat n1) p) buf);;
            iappend_loop fuel (drop (Z.to_nat n1) p) (u32 (off + n1)) din
      end
  end.
Definition iappend (inum : Z) (p : list Z) : M mk unit :=
  din ← rinode inum;
  '(off, din) ← iappend_loop (S (length p)) p (d_size din) din;
  winode inum (Dinode (d_type din) (d_major din) (d_minor din) (d_nlink din) off (d_addrs din)).

(** Mark the first blocks, [i] to [i + n - 1], in the bitmap. *)
Fixpoint balloc_loop (n : nat) (i : Z) (buf : list Z) : list Z :=
  match n with
  | O => buf
  | S n =>
      let k := Z.to_nat (i / 8) in
      balloc_loop n (i + 1) (splice k [u8 (Z.lor (byte_at buf k) (Z.shiftl 1 (i mod 8)))] buf)
  end.
Definition balloc (used : Z) : M mk unit :=
  if used <? BSIZE * 8 then wsect (sb_bmapstart mk_sb) (balloc_loop (Z.to_nat used) 0 zero_block)
  else panic "used < BSIZE*8".

(** The loop that zeroes the image. *)
Fixpoint zero_image (n : nat) (i : Z) : M mk unit :=
  match n with
  | O => mret tt
  | S n => wsect i zero_block;; zero_image n (i + 1)
  end.

(** A directory entry. *)
Definition dirent (inum : Z) (name : list Z) : list Z := xshort inum ++ strncpy (cstr_of name) DIRSIZ.

(** [while((cc = read(fd, buf, sizeof(buf))) > 0)]: what [read] returns. *)
Fixpoint append_chunks (inum : Z) (chunks : list (list Z)) : M mk unit :=
  match chunks with
  | [] => mret tt
  | c :: chunks => if (length c =? 0)%nat then mret tt else iappend inum c;; append_chunks inum chunks
  end.

(** A file of the command line; [None] cannot be opened. *)
Definition add_file (rootino : Z) (f : list Z * option (list (list Z))) : M mk unit :=
  if bool_decide (47 ∈ f.1) then panic "index(argv[i], '/') == 0"
  else
    match f.2 with
    | None => panic "open"
    | Some chunks =>
        let name := match f.1 with 95 :: name => name | name => name end in
        inum ← ialloc T_FILE;
        iappend rootino (dirent inum name);;
        append_chunks inum chunks
    end.
Fixpoint add_files (rootino : Z) (fs : list (list Z * option (list (list Z)))) : M mk unit :=
  match fs with
  | [] => mret tt
  | f :: fs => add_file rootino f;; add_files rootino fs
  end.

Definition enc_sb (sb : superblock) : list Z :=
  xint (sb_size sb) ++ xint (sb_nblocks sb) ++ xint (sb_ninodes sb) ++ xint (sb_nlog sb) ++
  xint (sb_logstart sb) ++ xint (sb_inodestart sb) ++ xint (sb_bmapstart sb).

Definition mkfs (fs : list (list Z * option (list (list Z)))) : M mk unit :=
  modify (λ s, Mk (m_img s) (m_freeinode s) nmeta);;
  zero_image (Z.to_nat FSSIZE) 0;;
  wsect 1 (splice 0 (enc_sb mk_sb) zero_block);;
  rootino ← ialloc T_DIR;
  if negb (rootino =? ROOTINO) then panic "rootino == ROOTINO"
  else
    iappend rootino (dirent rootino [46]);;
    iappend rootino (dirent rootino [46; 46]);;
    add_files rootino fs;;
    din ← rinode rootino;
    let off := u32 (u32 (d_size din / BSIZE + 1) * BSIZE) in
    winode rootino (Dinode (d_type din) (d_major din) (d_minor din) (d_nlink din) off (d_addrs din));;
    used ← gets m_freeblock;
    balloc used.

(** [freeinode] starts at 1, [freeblock] at 0, and the image is empty. *)
Definition mkfs_start : mk := Mk ∅ 1 0.
