(* ===== verification/MkfsSpec.v ===== *)
(** * What mkfs builds (mkfs.c)

    The image of [mkfs] is a file system in the sense of the kernel: the
    superblock decodes to the layout, the bitmap marks what is used, and each
    file of the command line is an inode that satisfies [file_ok], named in the
    root directory, from which [readi] returns the bytes of the file. *)

From Stdlib Require Import ZArith Lia.
From stdpp Require Import base numbers strings gmap list.
From S2P Require Import Prelude Memory Locks Bytes Disk Fs FsBlocks FsInode FsFile FsRw FsDir Mkfs.

(** ** Sectors *)

Definition sec (m : gmap Z (list Z)) (b : Z) : list Z := default zero_block (m !! b).
Definition block (l : list Z) : Prop := length l = 512%nat ∧ Forall is_byte l.
(** All sectors of the image are there, those from [fb] on untouched. *)
Record img_ok (m : gmap Z (list Z)) (fb : Z) : Prop := {
  im_all : ∀ b, 0 ≤ b < FSSIZE → ∃ d, m !! b = Some d ∧ block d;
  im_fresh : ∀ b, fb ≤ b < FSSIZE → m !! b = Some zero_block;
  im_range : 59 ≤ fb ≤ FSSIZE;
  im_block : ∀ b d, m !! b = Some d → block d;
}.

Lemma zero_is_block : block zero_block.
Proof. split; [done|]. apply Forall_replicate. by unfold is_byte. Qed.
Lemma img_sec m fb b : img_ok m fb → 0 ≤ b < FSSIZE → m !! b = Some (sec m b) ∧ block (sec m b).
Proof. intros [H _ _ _] Hb. destruct (H b Hb) as (d & E & Hd). unfold sec. by rewrite E. Qed.
Lemma sec_insert m b d c : sec (<[b := d]> m) c = if decide (b = c) then d else sec m c.
Proof. unfold sec. rewrite lookup_insert. by case_decide. Qed.
Lemma img_insert m fb fb' b d : img_ok m fb → block d → fb ≤ fb' ≤ FSSIZE → b < fb' → img_ok (<[b := d]> m) fb'.
Proof.
  intros [Ha Hf Hr Hl] Hd Hb Hx. split; [| |lia|].
  - intros c Hc. rewrite lookup_insert. case_decide; [eauto|by apply Ha].
  - intros c Hc. rewrite lookup_insert_ne by lia. apply Hf. lia.
  - intros c x. rewrite lookup_insert. case_decide; [by intros [= <-]|apply Hl].
Qed.
Lemma img_weaken m fb fb' : img_ok m fb → fb ≤ fb' ≤ FSSIZE → img_ok m fb'.
Proof. intros [Ha Hf Hr Hl] Hb. split; [done| |lia|done]. intros c Hc. apply Hf. lia. Qed.

Lemma rsect_ok s fb b : img_ok (m_img s) fb → 0 ≤ b < FSSIZE → rsect b s = Ok (sec (m_img s) b) s.
Proof. intros Hi Hb. unfold rsect. by destruct (img_sec _ _ _ Hi Hb) as [-> _]. Qed.

Lemma xint_le32 x : xint x = le32 x.
Proof. unfold xint, le32. by rewrite !Z.shiftr_div_pow2 by lia. Qed.
Lemma xshort_le16 x : xshort x = le16 x.
Proof. unfold xshort, le16. by rewrite Z.shiftr_div_pow2 by lia. Qed.

(** ** The blocks of a file *)

(** As [slot] of the kernel, for the addresses [A] of an inode. *)
Definition mslot (m : gmap Z (list Z)) (A : list Z) (k : Z) : Z :=
  if k <? 13 then default 0 (A !! Z.to_nat k)
  else if default 0 (A !! 12%nat) =? 0 then 0
  else get32 (sec m (default 0 (A !! 12%nat))) (Z.to_nat (4 * (k - 13))).

(** The first [nb] blocks of the file are there, and all are its own. *)
Record layout (m : gmap Z (list Z)) (fb : Z) (A : list Z) (nb : Z) : Prop := {
  ly_len : length A = 13%nat;
  ly_range : ∀ k, 0 ≤ k < 141 → mslot m A k ≠ 0 → 59 ≤ mslot m A k < fb;
  ly_inj : ∀ k k', 0 ≤ k < 141 → 0 ≤ k' < 141 → mslot m A k ≠ 0 → mslot m A k = mslot m A k' → k = k';
  ly_data : ∀ bn, 0 ≤ bn < 140 → mslot m A (bslot bn) ≠ 0 ↔ bn < nb;
  ly_ind : mslot m A 12 ≠ 0 ↔ 12 < nb;
  ly_nb : 0 ≤ nb ≤ 140;
}.
Definition owns (m : gmap Z (list Z)) (A : list Z) (b : Z) : Prop := b ≠ 0 ∧ ∃ k, 0 ≤ k < 141 ∧ mslot m A k = b.
(** Blocks for the data and the indirect block. *)
Definition need (nb : Z) : Z := nb + if 12 <? nb then 1 else 0.

Lemma mslot_ind m A : mslot m A 12 = default 0 (A !! 12%nat).
Proof. reflexivity. Qed.
Lemma mslot_frame m m' A k : (∀ b, owns m A b → sec m' b = sec m b) → mslot m' A k = mslot m A k.
Proof.
  intros H. unfold mslot at 1 2. rewrite <-(mslot_ind m A). destruct (Z.eqb_spec (mslot m A 12) 0) as [|E]; [done|].
  rewrite H; [done|]. split; [done|]. exists 12. split; [lia|done].
Qed.
Lemma layout_frame m m' fb fb' A nb : layout m fb A nb → fb ≤ fb' → (∀ b, owns m A b → sec m' b = sec m b) → layout m' fb' A nb.
Proof.
  intros [H1 H2 H3 H4 H5 H6] Hfb Hs. pose proof (λ k, mslot_frame m m' A k Hs) as E.
  split; [done|..]; intros; rewrite ?E in *; auto.
  - pose proof (H2 k). lia.
Qed.

Lemma bslot_not12 bn : 0 ≤ bn < 140 → 0 ≤ bslot bn < 141 ∧ bslot bn ≠ 12.
Proof. unfold bslot. intros. destruct (Z.ltb_spec bn 12); lia. Qed.
Lemma slot_cases k : 0 ≤ k < 141 → k = 12 ∨ ∃ bn, 0 ≤ bn < 140 ∧ k = bslot bn.
Proof.
  intros Hk. destruct (decide (k = 12)); [by left|right]. destruct (decide (k < 12)); [exists k|exists (k - 1)]; (split; [lia|]);
    unfold bslot; match goal with |- context [?a <? 12] => destruct (Z.ltb_spec a 12); lia end.
Qed.

(** One more block [v] of data, and an indirect block [w] if it is the first one
    that needs it. *)
Lemma layout_add m fb A nb m1 fb1 A1 v w :
  layout m fb A nb → 59 ≤ fb → nb < 140 → length A1 = 13%nat → fb ≤ v < fb1 →
  (w = mslot m A 12 ∧ nb ≠ 12 ∨ nb = 12 ∧ fb ≤ w < fb1 ∧ w ≠ v) →
  (∀ j, 0 ≤ j < 141 → mslot m1 A1 j = if decide (j = bslot nb) then v else if decide (j = 12) then w else mslot m A j) →
  layout m1 fb1 A1 (nb + 1) ∧ (∀ b, owns m1 A1 b → owns m A b ∨ fb ≤ b < fb1).
Proof.
  intros [L1 L2 L3 L4 L5 L6] Hfb Hnb Hlen Hv Hw Hj. destruct (bslot_not12 nb ltac:(lia)) as [Hs1 Hs2].
  assert (Hold0 : mslot m A (bslot nb) = 0).
  { destruct (decide (mslot m A (bslot nb) = 0)) as [|H]; [done|]. apply L4 in H; lia. }
  assert (Hw' : ∀ j, 0 ≤ j < 141 → mslot m1 A1 j ≠ 0 →
    (j = bslot nb ∧ mslot m1 A1 j = v) ∨ (j = 12 ∧ nb = 12 ∧ mslot m1 A1 j = w ∧ fb ≤ w < fb1 ∧ w ≠ v) ∨
    (j ≠ bslot nb ∧ mslot m1 A1 j = mslot m A j ∧ 59 ≤ mslot m A j < fb)).
  { intros j Hjr. rewrite Hj by done. case_decide; [by left|]. right. case_decide; [|right; split; [done|split; [done|by apply L2]]].
    subst j. destruct Hw as [[-> _]|(-> & ? & ?)]; [right; split; [done|split; [done|by apply L2]]|left; done]. }
  split; [split|].
  - done.
  - intros k Hk Hne. destruct (Hw' k Hk Hne) as [(_ & ->)|[(_ & _ & -> & ? & _)|(_ & -> & ?)]]; lia.
  - intros k k' Hk Hk' Hne E. assert (Hne' : mslot m1 A1 k' ≠ 0) by congruence.
    destruct (Hw' k Hk Hne) as [(-> & Ek)|[(-> & _ & Ek & ? & ?)|(Hb & Ek & ?)]], (Hw' k' Hk' Hne') as [(-> & Ek')|[(-> & _ & Ek' & ? & ?)|(Hb' & Ek' & ?)]];
      try reflexivity; rewrite Ek, Ek' in E; try lia. apply L3; [done|done|lia|done].
  - intros bn Hbn. rewrite Hj by (by apply bslot_not12). destruct (bslot_not12 bn Hbn). case_decide as E; [apply bslot_inj in E; lia|].
    rewrite decide_False by done. rewrite L4 by done. assert (bn ≠ nb) by (intros ->; done). lia.
  - rewrite Hj by lia. rewrite decide_False by done. rewrite decide_True by done. destruct Hw as [[-> ?]|(-> & ? & ?)]; [rewrite L5; lia|lia].
  - lia.
  - intros b [Hb0 (k & Hk & <-)]. destruct (Hw' k Hk Hb0) as [(_ & ->)|[(_ & _ & -> & ? & _)|(_ & E & _)]]; [right; lia|right; lia|].
    left. rewrite E in *. split; [done|]. by exists k.
Qed.

Definition with_addrs (A : list Z) (din : dinode) : dinode :=
  Dinode (d_type din) (d_major din) (d_minor din) (d_nlink din) (d_size din) A.
Lemma with_addrs_id din : with_addrs (d_addrs din) din = din.
Proof. by destruct din. Qed.

(** What [get_sector] leaves behind. *)
Record sector_post (m : gmap Z (list Z)) (fb : Z) (A : list Z) (nb bn : Z) (m1 : gmap Z (list Z)) (fb1 : Z) (A1 : list Z) : Prop := {
  sp_img : img_ok m1 fb1;
  sp_layout : layout m1 fb1 A1 (Z.max nb (bn + 1));
  sp_same : ∀ j, 0 ≤ j < nb → mslot m1 A1 (bslot j) = mslot m A (bslot j);
  sp_sec : ∀ b, b ≠ mslot m1 A1 12 → sec m1 b = sec m b;
  sp_new : bn = nb → sec m (mslot m1 A1 (bslot bn)) = zero_block;
  sp_owns : ∀ b, owns m1 A1 b → owns m A b ∨ fb ≤ b < fb1;
  sp_frame : ∀ b, b < fb → ¬ owns m A b → sec m1 b = sec m b;
  sp_fb : fb1 = fb + need (Z.max nb (bn + 1)) - need nb;
}.

Lemma sector_old m fb A nb bn : img_ok m fb → layout m fb A nb → 0 ≤ bn < nb → sector_post m fb A nb bn m fb A.
Proof.
  intros Hi Hl Hb. assert (E : Z.max nb (bn + 1) = nb) by lia. split; rewrite ?E; try done; auto; lia.
Qed.

Lemma take_block_ok m fi fb : 0 ≤ fb < 1000 → take_block (Mk m fi fb) = Ok fb (Mk m fi (fb + 1)).
Proof. intros H. unfold take_block. mrun. cbn [m_img m_freeinode m_freeblock]. by rewrite u32_small by lia. Qed.

Lemma mslot_insert m A k a j : length A = 13%nat → 0 ≤ k < 12 → 0 ≤ j < 141 →
  mslot m (<[Z.to_nat k := a]> A) j = if decide (j = k) then a else mslot m A j.
Proof.
  intros Hl Hk Hj. unfold mslot. rewrite (list_lookup_insert_ne A _ 12) by lia. destruct (Z.ltb_spec j 13).
  - destruct (decide (j = k)) as [->|]; [by rewrite list_lookup_insert_eq by lia|]. by rewrite list_lookup_insert_ne by lia.
  - by rewrite decide_False by lia.
Qed.

Lemma get32_zero k : get32 zero_block k = 0.
Proof.
  assert (H : ∀ i, byte_at zero_block i = 0).
  { intros i. unfold byte_at, zero_block. destruct (decide (i < 512)%nat); [by rewrite lookup_replicate_2|by rewrite lookup_ge_None_2 by (rewrite length_replicate; lia)]. }
  unfold get32. by rewrite !H.
Qed.

Lemma sector_direct m fi fb A nb din : img_ok m fb → layout m fb A nb → d_addrs din = A → nb < 12 → fb < FSSIZE →
  get_sector nb din (Mk m fi fb) = Ok (fb, with_addrs (<[Z.to_nat nb := fb]> A) din) (Mk m fi (fb + 1)) ∧
  sector_post m fb A nb nb m (fb + 1) (<[Z.to_nat nb := fb]> A) ∧ mslot m (<[Z.to_nat nb := fb]> A) (bslot nb) = fb.
Proof.
  intros Hi Hl HA Hnb Hfb. pose proof Hl as [L1 L2 L3 L4 L5 L6]. pose proof (im_range _ _ Hi) as Hr. unfold FSSIZE in *.
  assert (Hbs : bslot nb = nb) by (unfold bslot; destruct (Z.ltb_spec nb 12); lia).
  assert (H0 : mslot m A nb = 0) by (destruct (decide (mslot m A nb = 0)) as [|H]; [done|]; rewrite <-Hbs in H; pose proof (proj1 (L4 nb ltac:(lia)) H); lia).
  assert (Ha : default 0 (A !! Z.to_nat nb) = 0) by (unfold mslot in H0; destruct (Z.ltb_spec nb 13); [done|lia]).
  assert (Hj : ∀ j, 0 ≤ j < 141 → mslot m (<[Z.to_nat nb := fb]> A) j =
    if decide (j = bslot nb) then fb else if decide (j = 12) then mslot m A 12 else mslot m A j).
  { intros j Hj. rewrite Hbs, mslot_insert by (done || lia). case_decide; [done|]. case_decide; [by subst|done]. }
  split; [|split].
  - unfold get_sector. unfold NDIRECT. destruct (Z.ltb_spec nb 12); [|lia]. rewrite HA, Ha. cbn [Z.eqb]. mstep (take_block_ok m fi fb ltac:(lia)). done.
  - destruct (layout_add m fb A nb m (fb + 1) (<[Z.to_nat nb := fb]> A) fb (mslot m A 12) Hl) as [Hl1 Hown]; [lia|lia|by rewrite length_insert|lia|left; lia|done|].
    assert (E : Z.max nb (nb + 1) = nb + 1) by lia. split; rewrite ?E; try done.
    + apply (img_weaken m fb); [done|unfold FSSIZE; lia].
    + intros j Hj'. rewrite Hj by (apply bslot_not12; lia). rewrite decide_False; [|intros Ej%bslot_inj; lia].
      rewrite decide_False; [done|]. apply bslot_not12. lia.
    + intros _. rewrite Hj by (apply bslot_not12; lia). rewrite decide_True by done. unfold sec. by rewrite (im_fresh _ _ Hi) by (unfold FSSIZE; lia).
    + unfold need. destruct (Z.ltb_spec 12 (nb + 1)), (Z.ltb_spec 12 nb); lia.
  - rewrite Hj by (apply bslot_not12; lia). by rewrite decide_True.
Qed.

(** An entry of the indirect block [ind] changed to [v]. *)
Lemma mslot_put m A ind bn v j : default 0 (A !! 12%nat) = ind → ind ≠ 0 → 12 ≤ bn < 140 → 0 ≤ j < 141 → length (sec m ind) = 512%nat →
  0 ≤ v < 4294967296 →
  mslot (<[ind := splice (Z.to_nat (4 * (bn - 12))) (xint v) (sec m ind)]> m) A j = if decide (j = bn + 1) then v else mslot m A j.
Proof.
  intros HA Hi Hb Hj Hl Hv. unfold mslot. rewrite HA. destruct (Z.ltb_spec j 13); [by rewrite decide_False by lia|].
  destruct (Z.eqb_spec ind 0); [done|]. rewrite sec_insert, decide_True, xint_le32 by done. case_decide as E.
  - replace (4 * (j - 13)) with (4 * (bn - 12)) by lia. rewrite get32_splice_eq by lia. by apply u32_small.
  - apply get32_splice_ne; simpl length; lia.
Qed.
(** A fresh indirect block has no entries. *)
Lemma mslot_fresh m A fb j : length A = 13%nat → default 0 (A !! 12%nat) = 0 → fb ≠ 0 → 0 ≤ j < 141 → sec m fb = zero_block →
  mslot m (<[12%nat := fb]> A) j = if decide (j = 12) then fb else mslot m A j.
Proof.
  intros Hl H0 Hfb Hj Hz. unfold mslot. rewrite list_lookup_insert_eq, H0 by lia. change (default 0 (Some fb)) with fb.
  destruct (Z.ltb_spec j 13).
  - destruct (decide (j = 12)) as [->|]; [by rewrite list_lookup_insert_eq by lia|]. by rewrite list_lookup_insert_ne by lia.
  - rewrite decide_False by lia. destruct (Z.eqb_spec fb 0); [done|]. by rewrite Hz, get32_zero.
Qed.

(** The part of [get_sector] behind the indirect block. *)
Definition get_entry (fbn ind : Z) (din : dinode) : M mk (Z * dinode) :=
  indirect ← rsect ind;
  let k := Z.to_nat (4 * (fbn - NDIRECT)) in
  if get32 indirect k =? 0 then
    x ← take_block;
    wsect ind (splice k (xint x) indirect);;
    mret (x, din)
  else mret (get32 indirect k, din).

Lemma get_sector_indirect fbn din s : 12 ≤ fbn →
  get_sector fbn din s = ('(ind, din) ← (if default 0 (d_addrs din !! 12%nat) =? 0 then x ← take_block; mret (x, with_addrs (<[12%nat := x]> (d_addrs din)) din) else mret (default 0 (d_addrs din !! 12%nat), din));
    get_entry fbn ind din) s.
Proof. intros H. unfold get_sector, NDIRECT. by destruct (Z.ltb_spec fbn 12); [lia|]. Qed.

(** A new entry in the indirect block [ind] of [A1], which may be new itself. *)
Lemma sector_entry m fi fb A nb din fb0 A1 :
  img_ok m fb0 → layout m fb0 A nb → fb0 ≤ fb < FSSIZE → 12 ≤ nb < 140 → length A1 = 13%nat →
  (nb ≠ 12 ∧ fb = fb0 ∧ A1 = A ∨ nb = 12 ∧ fb = fb0 + 1 ∧ A1 = <[12%nat := fb0]> A) →
  let ind := default 0 (A1 !! 12%nat) in
  let m1 := <[ind := splice (Z.to_nat (4 * (nb - 12))) (xint fb) (sec m ind)]> m in
  get_entry nb ind din (Mk m fi fb) = Ok (fb, din) (Mk m1 fi (fb + 1)) ∧
  sector_post m fb0 A nb nb m1 (fb + 1) A1 ∧ mslot m1 A1 (bslot nb) = fb.
Proof.
  intros Hi Hl Hfb Hnb HA1 Hcase ind m1. pose proof Hl as [L1 L2 L3 L4 L5 L6]. pose proof (im_range _ _ Hi) as Hr. unfold FSSIZE in *.
  assert (Hbs : bslot nb = nb + 1) by (unfold bslot; destruct (Z.ltb_spec nb 12); lia).
  assert (H0 : mslot m A (nb + 1) = 0) by (destruct (decide (mslot m A (nb + 1) = 0)) as [|H]; [done|]; rewrite <-Hbs in H; pose proof (proj1 (L4 nb ltac:(lia)) H); lia).
  assert (Hind : 59 ≤ ind < fb ∧ (nb ≠ 12 → ind = mslot m A 12) ∧ (nb = 12 → ind = fb0 ∧ fb0 + 1 = fb) ∧
    ∀ j, 0 ≤ j < 141 → mslot m A1 j = if decide (j = 12) then ind else mslot m A j).
  { destruct Hcase as [(Hne & -> & ->)|(-> & -> & ->)].
    - assert (mslot m A 12 ≠ 0) as Hn12 by (apply L5; lia). pose proof (L2 12 ltac:(lia) Hn12). change (mslot m A 12) with ind in *.
      split; [lia|]. split; [done|]. split; [lia|]. intros j Hj. case_decide; [by subst|done].
    - assert (mslot m A 12 = 0) as Hn12 by (destruct (decide (mslot m A 12 = 0)) as [|H]; [done|]; apply L5 in H; lia).
      assert (ind = fb0) as -> by (unfold ind; by rewrite list_lookup_insert_eq by lia).
      split; [lia|]. split; [lia|]. split; [done|]. intros j Hj. apply mslot_fresh; try done; [lia|].
      unfold sec. by rewrite (im_fresh _ _ Hi) by (unfold FSSIZE; lia). }
  destruct Hind as (Hir & Hi1 & Hi2 & Hslot). destruct (img_sec m fb0 ind Hi ltac:(unfold FSSIZE; lia)) as [Hsec [Hlen Hbyte]].
  assert (Hj : ∀ j, 0 ≤ j < 141 → mslot m1 A1 j = if decide (j = bslot nb) then fb else if decide (j = 12) then ind else mslot m A j).
  { intros j Hj. unfold m1. rewrite (mslot_put m A1 ind nb fb j) by (done || lia). rewrite Hbs. case_decide; [done|]. by apply Hslot. }
  assert (Hblk : block (splice (Z.to_nat (4 * (nb - 12))) (xint fb) (sec m ind))).
  { rewrite xint_le32. split; [rewrite length_splice; [done|simpl length; lia]|]. apply Forall_splice; [apply le32_bytes|done]. }
  split; [|split].
  - unfold get_entry. mstep (rsect_ok (Mk m fi fb) fb0 ind Hi ltac:(unfold FSSIZE; lia)). cbn [m_img].
    unfold NDIRECT. specialize (Hslot (nb + 1) ltac:(lia)). rewrite decide_False, H0 in Hslot by lia. unfold mslot in Hslot. fold ind in Hslot.
    destruct (Z.ltb_spec (nb + 1) 13); [lia|]. destruct (Z.eqb_spec ind 0); [lia|].
    replace (4 * (nb + 1 - 13)) with (4 * (nb - 12)) in Hslot by lia. rewrite Hslot. cbn [Z.eqb].
    mstep (take_block_ok m fi fb ltac:(lia)). reflexivity.
  - destruct (layout_add m fb0 A nb m1 (fb + 1) A1 fb ind Hl) as [Hl1 Hown]; [lia|lia|done|lia| |done|].
    { destruct (decide (nb = 12)) as [E|E]; [right|left]; [destruct (Hi2 E); lia|by split; [apply Hi1|]]. }
    assert (E : Z.max nb (nb + 1) = nb + 1) by lia.
    assert (H12 : mslot m1 A1 12 = ind) by (rewrite Hj by lia; rewrite decide_False, decide_True by lia; done).
    split; rewrite ?E; try done.
    + apply (img_insert m fb0); [done|done|unfold FSSIZE; lia|lia].
    + intros j Hj'. rewrite Hj by (apply bslot_not12; lia). rewrite decide_False; [|intros Ej%bslot_inj; lia].
      rewrite decide_False; [done|]. apply bslot_not12. lia.
    + intros b Hb. rewrite H12 in Hb. unfold m1. by rewrite sec_insert, decide_False by congruence.
    + intros _. rewrite Hj by (apply bslot_not12; lia). rewrite decide_True by done. unfold sec. by rewrite (im_fresh _ _ Hi) by (unfold FSSIZE; lia).
    + intros b Hb Hno. unfold m1. rewrite sec_insert. case_decide as Eb; [|done]. exfalso. subst b. destruct (decide (nb = 12)) as [E12|E12].
      * destruct (Hi2 E12). lia.
      * apply Hno. split; [lia|]. exists 12. split; [lia|]. by rewrite Hi1.
    + unfold need. destruct (Z.ltb_spec 12 (nb + 1)), (Z.ltb_spec 12 nb); destruct Hcase as [(? & ? & _)|(? & ? & _)]; lia.
  - rewrite Hj by (apply bslot_not12; lia). by rewrite decide_True.
Qed.

Lemma get_sector_ok m fi fb A nb bn din : img_ok m fb → layout m fb A nb → d_addrs din = A → 0 ≤ bn ≤ nb → bn < 140 →
  fb + need (Z.max nb (bn + 1)) - need nb ≤ FSSIZE →
  ∃ m1 fb1 A1, get_sector bn din (Mk m fi fb) = Ok (mslot m1 A1 (bslot bn), with_addrs A1 din) (Mk m1 fi fb1) ∧
    sector_post m fb A nb bn m1 fb1 A1.
Proof.
  intros Hi Hl HA Hbn Hb Hfit. pose proof Hl as [L1 L2 L3 L4 L5 L6]. pose proof (im_range _ _ Hi) as Hr.
  destruct (decide (bn = nb)) as [->|Hne].
  - rewrite Z.max_r in Hfit by lia. unfold need in Hfit. destruct (decide (nb < 12)) as [Hd|Hd].
    + destruct (sector_direct m fi fb A nb din Hi Hl HA Hd) as (E & Hp & Hx); [destruct (Z.ltb_spec 12 (nb + 1)), (Z.ltb_spec 12 nb); lia|].
      exists m, (fb + 1), (<[Z.to_nat nb := fb]> A). by rewrite Hx.
    + rewrite get_sector_indirect by lia. rewrite HA. destruct (decide (nb = 12)) as [->|H12].
      * assert (mslot m A 12 = 0) as H0 by (destruct (decide (mslot m A 12 = 0)) as [|H]; [done|]; apply L5 in H; lia).
        rewrite mslot_ind in H0. rewrite H0. simpl in Hfit. unfold FSSIZE in *. change (0 =? 0) with true. cbv iota.
        erewrite bind_ok; [|mstep (take_block_ok m fi fb ltac:(lia)); reflexivity].
        destruct (sector_entry m fi (fb + 1) A 12 (with_addrs (<[12%nat := fb]> A) din) fb (<[12%nat := fb]> A)) as (E & Hp & Hx);
          [done|done|unfold FSSIZE; lia|lia|by rewrite length_insert|right; done|].
        rewrite list_lookup_insert_eq in * by lia. eexists _, _, _. split; [|exact Hp]. rewrite Hx. exact E.
      * assert (mslot m A 12 ≠ 0) as Hn by (apply L5; lia). rewrite mslot_ind in Hn. destruct (Z.eqb_spec (default 0 (A !! 12%nat)) 0); [done|].
        erewrite bind_ok; [|reflexivity]. destruct (sector_entry m fi fb A nb din fb A) as (E & Hp & Hx);
          [done|done|unfold FSSIZE in *; destruct (Z.ltb_spec 12 (nb + 1)), (Z.ltb_spec 12 nb); lia|lia|done|left; done|].
        eexists _, _, A. split; [|exact Hp]. rewrite Hx, <-HA, with_addrs_id, HA. exact E.
  - exists m, fb, A. split; [|apply sector_old; [done|done|lia]]. assert (Hn : mslot m A (bslot bn) ≠ 0) by (apply L4; lia).
    destruct (decide (bn < 12)) as [Hd|Hd].
    + unfold bslot in *. destruct (Z.ltb_spec bn 12); [|lia]. unfold mslot in *. destruct (Z.ltb_spec bn 13); [|lia].
      unfold get_sector, NDIRECT. destruct (Z.ltb_spec bn 12); [|lia]. rewrite HA. destruct (Z.eqb_spec (default 0 (A !! Z.to_nat bn)) 0); [done|].
      by rewrite <-HA, with_addrs_id.
    + rewrite get_sector_indirect by lia. rewrite HA. assert (mslot m A 12 ≠ 0) as H12 by (apply L5; lia). pose proof (L2 12 ltac:(lia) H12) as Hr12.
      rewrite mslot_ind in H12, Hr12. destruct (Z.eqb_spec (default 0 (A !! 12%nat)) 0) as [|_]; [done|]. erewrite bind_ok; [|reflexivity].
      assert (Hri : 0 ≤ default 0 (A !! 12%nat) < FSSIZE) by lia.
      unfold get_entry. mstep (rsect_ok (Mk m fi fb) fb _ Hi Hri). cbn [m_img].
      unfold bslot in *. destruct (Z.ltb_spec bn 12); [lia|]. unfold mslot in *. destruct (Z.ltb_spec (bn + 1) 13); [lia|].
      destruct (Z.eqb_spec (default 0 (A !! 12%nat)) 0) as [|_]; [done|]. unfold NDIRECT. replace (4 * (bn + 1 - 13)) with (4 * (bn - 12)) in * by lia.
      destruct (Z.eqb_spec (get32 (sec m (default 0 (A !! 12%nat))) (Z.to_nat (4 * (bn - 12)))) 0); [done|]. by rewrite <-HA, with_addrs_id.
Qed.

(** ** The contents of a file *)

Definition zlen (l : list Z) : Z := Z.of_nat (length l).
Definition pad (l : list Z) : list Z := l ++ replicate (512 - length l) 0.
Definition nblk (n : Z) : Z := (n + 511) / 512.
Record file_at (m : gmap Z (list Z)) (fb : Z) (A c : list Z) : Prop := {
  fa_layout : layout m fb A (nblk (zlen c));
  fa_data : ∀ bn, 0 ≤ bn < nblk (zlen c) → sec m (mslot m A (bslot bn)) = pad (slice (Z.to_nat (512 * bn)) 512 c);
  fa_bytes : Forall is_byte c;
}.

Lemma slice_before (j : nat) (c x : list Z) : (j + 512 ≤ length c)%nat → slice j 512 (c ++ x) = slice j 512 c.
Proof. intros H. unfold slice. rewrite drop_app_le by lia. rewrite take_app_le; [done|]. rewrite length_drop. lia. Qed.
Lemma pad_splice (j : nat) (c x : list Z) : (j ≤ length c)%nat → (length c - j + length x ≤ 512)%nat →
  pad (slice j 512 (c ++ x)) = splice (length c - j) x (pad (slice j 512 c)).
Proof.
  intros Hj Hl. unfold slice. rewrite drop_app_le by lia. set (d := drop j c). assert (Hd : length d = (length c - j)%nat) by (unfold d; apply length_drop).
  rewrite <-Hd. rewrite (take_ge (d ++ x)) by (rewrite length_app; lia). rewrite (take_ge d) by lia.
  unfold splice, pad. rewrite take_app_length, <-app_assoc. do 2 f_equal. rewrite drop_app_ge by lia.
  rewrite drop_replicate. rewrite length_app. f_equal. lia.
Qed.
Lemma pad_block l : (length l ≤ 512)%nat → Forall is_byte l → block (pad l).
Proof.
  intros Hl Hb. unfold pad. split; [rewrite length_app, length_replicate; lia|]. apply Forall_app. split; [done|].
  apply Forall_replicate. unfold is_byte. lia.
Qed.
Lemma length_slice_le off n (l : list Z) : (length (slice off n l) ≤ n)%nat.
Proof. unfold slice. rewrite length_take. lia. Qed.

Lemma mslot_write m A x d k : x ≠ mslot m A 12 → mslot (<[x := d]> m) A k = mslot m A k.
Proof.
  intros H. unfold mslot at 1 2. rewrite <-(mslot_ind m A). by rewrite sec_insert, decide_False.
Qed.
Lemma layout_ext m m' fb A nb : (∀ k, mslot m' A k = mslot m A k) → layout m fb A nb → layout m' fb A nb.
Proof.
  intros E [H1 H2 H3 H4 H5 H6]. split; try done; intros *; rewrite ?E; auto.
Qed.
Lemma owns_ext m m' A b : (∀ k, mslot m' A k = mslot m A k) → owns m' A b ↔ owns m A b.
Proof. intros E. split; intros [Hb (k & Hk & Hs)]; (split; [done|]); exists k; rewrite E in *; done. Qed.

(** What appending [p] to a file changes. *)
Record appended (m : gmap Z (list Z)) (fb : Z) (A c p : list Z) (m' : gmap Z (list Z)) (fb' : Z) (A' : list Z) : Prop := {
  ap_img : img_ok m' fb';
  ap_file : file_at m' fb' A' (c ++ p);
  ap_fb : fb' = fb + need (nblk (zlen (c ++ p))) - need (nblk (zlen c));
  ap_owns : ∀ b, owns m' A' b → owns m A b ∨ fb ≤ b < fb';
  ap_frame : ∀ b, b < fb → ¬ owns m A b → sec m' b = sec m b;
}.

Lemma need_mono a b : a ≤ b → need a ≤ need b.
Proof. unfold need. destruct (Z.ltb_spec 12 a), (Z.ltb_spec 12 b); lia. Qed.
Lemma nblk_mono a b : a ≤ b → nblk a ≤ nblk b.
Proof. intros H. unfold nblk. apply Z.div_le_mono; lia. Qed.
Lemma zlen_app c x : zlen (c ++ x) = zlen c + zlen x.
Proof. unfold zlen. rewrite length_app. lia. Qed.

Lemma appended_trans m fb A c x m1 fb1 A1 y m2 fb2 A2 :
  appended m fb A c x m1 fb1 A1 → appended m1 fb1 A1 (c ++ x) y m2 fb2 A2 → appended m fb A c (x ++ y) m2 fb2 A2.
Proof.
  intros [I1 F1 B1 O1 S1] [I2 F2 B2 O2 S2].
  assert (fb ≤ fb1).
  { rewrite B1. assert (need (nblk (zlen c)) ≤ need (nblk (zlen (c ++ x)))); [|lia]. apply need_mono, nblk_mono. rewrite zlen_app. unfold zlen. lia. }
  assert (fb1 ≤ fb2).
  { rewrite B2. assert (need (nblk (zlen (c ++ x))) ≤ need (nblk (zlen ((c ++ x) ++ y)))); [|lia]. apply need_mono, nblk_mono. rewrite (zlen_app _ y). unfold zlen. lia. }
  split; [done|by rewrite app_assoc|rewrite app_assoc; lia|..].
  - intros b [Hb|Hb]%O2; [|right; lia]. destruct (O1 b Hb); [by left|right; lia].
  - intros b Hb Hn. rewrite S2; [by apply S1|lia|]. intros [?|?]%O1; [done|lia].
Qed.

Lemma append_write m fb A c x m1 fb1 A1 :
  file_at m fb A c → x ≠ [] → zlen x ≤ 512 - zlen c mod 512 → Forall is_byte x → zlen (c ++ x) ≤ 71680 →
  sector_post m fb A (nblk (zlen c)) (zlen c / 512) m1 fb1 A1 →
  let X := mslot m1 A1 (bslot (zlen c / 512)) in
  0 ≤ X < FSSIZE ∧
  appended m fb A c x (<[X := splice (Z.to_nat (zlen c mod 512)) x (sec m1 X)]> m1) fb1 A1.
Proof.
  intros [Hl Hdata Hbytes] Hx Hxl Hxb Hmax [Hi1 Hl1 Hsame Hsec Hnew Howns Hframe Hfb] X.
  assert (Hc0 : 0 ≤ zlen c) by (unfold zlen; lia). assert (Hx0 : 0 < zlen x) by (unfold zlen; destruct x; [done|simpl; lia]).
  set (bn := zlen c / 512) in *. rewrite zlen_app in Hmax. assert (Hbn : 0 ≤ bn < 140) by (unfold bn; zlia).
  assert (Hnb : nblk (zlen c) = bn ∨ nblk (zlen c) = bn + 1) by (unfold nblk, bn; zlia).
  assert (Hnew1 : nblk (zlen (c ++ x)) = bn + 1) by (rewrite zlen_app; unfold nblk, bn in *; zlia).
  assert (Hmx : Z.max (nblk (zlen c)) (bn + 1) = bn + 1) by lia. rewrite Hmx in Hl1, Hfb.
  pose proof Hl1 as [L1 L2 L3 L4 L5 L6]. destruct (bslot_not12 bn Hbn) as [Hbs Hbs'].
  assert (HX0 : X ≠ 0) by (apply L4; lia). pose proof (L2 _ Hbs HX0) as HXr. fold X in HXr. pose proof (im_range _ _ Hi1).
  assert (HX12 : X ≠ mslot m1 A1 12) by (intros E; apply Hbs', L3; [done|lia|done|done]).
  assert (HXold : sec m1 X = pad (slice (Z.to_nat (512 * bn)) 512 c)).
  { rewrite Hsec by done. destruct Hnb as [Hnb|Hnb].
    - rewrite (Hnew ltac:(lia) : sec m X = _). assert (Z.to_nat (512 * bn) = length c) as -> by (unfold nblk, bn, zlen in *; zlia).
      unfold slice. by rewrite drop_all.
    - unfold X. rewrite Hsame by lia. apply Hdata. lia. }
  assert (Hoff : Z.to_nat (zlen c mod 512) = (length c - Z.to_nat (512 * bn))%nat) by (unfold bn, zlen in *; zlia).
  assert (Hw : splice (Z.to_nat (zlen c mod 512)) x (sec m1 X) = pad (slice (Z.to_nat (512 * bn)) 512 (c ++ x))).
  { rewrite HXold, Hoff. symmetry. apply pad_splice; unfold bn, zlen in *; zlia. }
  rewrite Hw. set (m2 := <[X := _]> m1). assert (Hms : ∀ k, mslot m2 A1 k = mslot m1 A1 k) by (intros k; by apply mslot_write).
  assert (Hbb : Forall is_byte (c ++ x)) by (by apply Forall_app).
  split; [lia|]. split.
  - apply (img_insert m1 fb1); [done|apply pad_block; [apply length_slice_le|by apply Forall_slice]|lia|lia].
  - rewrite <-Hnew1 in Hl1. split; [by eapply layout_ext| |done]. rewrite Hnew1. intros j Hj. rewrite Hms. unfold m2. rewrite sec_insert.
    case_decide as E.
    + apply L3, bslot_inj in E; [|done|apply bslot_not12; lia|done]. by rewrite E.
    + assert (Hjb : j < bn) by (destruct (decide (j = bn)) as [->|]; [done|lia]).
      rewrite Hsec, Hsame; [|lia|]; [|intros E2; apply L3 in E2; [destruct (bslot_not12 j); lia|apply bslot_not12; lia|lia|apply L4; lia]].
      rewrite Hdata by lia. rewrite slice_before; [done|]. unfold bn, zlen in *. zlia.
  - by rewrite Hnew1.
  - intros b Hb. apply Howns. by apply (owns_ext m1 m2).
  - intros b Hb Hno. unfold m2. rewrite sec_insert. case_decide as E; [|by apply Hframe]. exfalso. subst b.
    destruct (Howns X) as [?|?]; [|done|lia]. split; [done|]. by exists (bslot bn).
Qed.

Lemma iappend_loop_ok fuel : ∀ p c m fi fb A din, img_ok m fb → file_at m fb A c → d_addrs din = A → Forall is_byte p →
  zlen (c ++ p) ≤ 71680 → fb + need (nblk (zlen (c ++ p))) - need (nblk (zlen c)) ≤ FSSIZE → (length p < fuel)%nat →
  ∃ m' fb' A', iappend_loop fuel p (zlen c) din (Mk m fi fb) = Ok (zlen (c ++ p), with_addrs A' din) (Mk m' fi fb') ∧
    appended m fb A c p m' fb' A'.
Proof.
  induction fuel as [|fuel IH]; intros p c m fi fb A din Hi Hf HA Hp Hmax Hfit Hfu; [lia|].
  destruct p as [|a p']; [|set (p := a :: p') in *].
  { exists m, fb, A. rewrite app_nil_r. split; [by rewrite <-HA, with_addrs_id|]. split; rewrite ?app_nil_r; auto. lia. }
  cbn [iappend_loop]. unfold p at 1. change (a :: p') with p. unfold BSIZE. set (bn := zlen c / 512).
  assert (Hc0 : 0 ≤ zlen c) by (unfold zlen; lia). assert (Hp0 : 0 < zlen p) by (unfold zlen, p; simpl; lia).
  rewrite zlen_app in Hmax. assert (Hbn : 0 ≤ bn < 140) by (unfold bn; zlia).
  change MAXFILE with 140. destruct (Z.geb_spec bn 140); [lia|].
  set (n1 := Z.min (Z.of_nat (length p)) ((bn + 1) * 512 - zlen c)). set (x := take (Z.to_nat n1) p). set (y := drop (Z.to_nat n1) p).
  assert (Hn1 : 0 < n1 ≤ zlen p ∧ n1 ≤ 512 - zlen c mod 512) by (unfold n1, bn, zlen in *; zlia).
  assert (Hxl : zlen x = n1) by (unfold x, zlen; rewrite length_take; unfold zlen in *; lia).
  assert (Hxy : x ++ y = p) by apply take_drop. assert (Hx : x ≠ []) by (intros E; rewrite E in Hxl; unfold zlen in Hxl; simpl in Hxl; lia).
  assert (Hxb : Forall is_byte x) by (by apply Forall_take). assert (Hyb : Forall is_byte y) by (by apply Forall_drop).
  assert (Hnb : nblk (zlen c) = bn ∨ nblk (zlen c) = bn + 1) by (unfold nblk, bn; zlia).
  assert (Hmx : Z.max (nblk (zlen c)) (bn + 1) = bn + 1) by lia.
  assert (Hcx : nblk (zlen (c ++ x)) = bn + 1) by (rewrite zlen_app, Hxl; unfold nblk, bn in *; zlia).
  assert (Hle : need (nblk (zlen (c ++ x))) ≤ need (nblk (zlen (c ++ p)))).
  { apply need_mono, nblk_mono. rewrite !zlen_app. lia. }
  destruct (get_sector_ok m fi fb A (nblk (zlen c)) bn din Hi (fa_layout _ _ _ _ Hf) HA) as (m1 & fb1 & A1 & Es & Hpost); [lia|lia|rewrite Hmx, <-Hcx; lia|].
  destruct (append_write m fb A c x m1 fb1 A1 Hf Hx) as [HXr Happ]; [lia|done|rewrite zlen_app; lia|done|].
  fold bn in HXr, Happ. mstep Es. mstep (rsect_ok (Mk m1 fi fb1) fb1 _ (sp_img _ _ _ _ _ _ _ _ Hpost) HXr). erewrite bind_ok; [|reflexivity].
  cbn [m_img set_img m_freeinode m_freeblock]. replace (Z.to_nat (zlen c - bn * 512)) with (Z.to_nat (zlen c mod 512)) by (unfold bn; zlia).
  fold x y. rewrite u32_small by lia. set (m2 := <[_ := _]> m1) in *.
  pose proof Happ as [I2 F2 B2 _ _]. replace (zlen c + n1) with (zlen (c ++ x)) by (rewrite zlen_app; lia).
  destruct (IH y (c ++ x) m2 fi fb1 A1 (with_addrs A1 din) I2 F2) as (m3 & fb3 & A3 & E3 & Happ3); [done|done|..].
  - rewrite <-app_assoc, Hxy, zlen_app. lia.
  - rewrite <-app_assoc, Hxy. lia.
  - unfold y. rewrite length_drop. unfold zlen in *. lia.
  - unfold set_img. cbn [m_freeinode m_freeblock]. rewrite E3, <-app_assoc, Hxy. exists m3, fb3, A3. split; [done|].
    rewrite <-Hxy. by eapply appended_trans.
Qed.

(** ** Inodes *)

Definition minode (m : gmap Z (list Z)) (inum : Z) : dinode := dec_dinode (sec m (IBLOCK inum mk_sb)) (ioff inum).
Definition free_inode : dinode := Dinode 0 0 0 0 0 (replicate 13 0).

Lemma iblock_range inum : 0 ≤ inum < 208 → 32 ≤ IBLOCK inum mk_sb < 58.
Proof. intros H. change (IBLOCK inum mk_sb) with (inum / 8 + 32). zlia. Qed.

Lemma winode_ok m fi fb inum d : img_ok m fb → 0 ≤ inum < 208 → dinode_ok d →
  ∃ m', winode inum d (Mk m fi fb) = Ok tt (Mk m' fi fb) ∧ img_ok m' fb ∧
    (∀ j, 0 ≤ j < 208 → minode m' j = if decide (inum = j) then d else minode m j) ∧
    (∀ b, ¬ 32 ≤ b < 58 → sec m' b = sec m b).
Proof.
  intros Hi Hn Hd. pose proof (iblock_range inum Hn) as Hb. pose proof (im_range _ _ Hi).
  assert (Hbr : 0 ≤ IBLOCK inum mk_sb < FSSIZE) by (unfold FSSIZE; lia). destruct (img_sec m fb _ Hi Hbr) as [_ [Hl Hby]].
  pose proof (ioff_bound inum ltac:(lia)) as Ho. pose proof (length_enc_dinode d (dk_addrs _ Hd)) as Hle.
  eexists. split; [unfold winode; mstep (rsect_ok (Mk m fi fb) fb _ Hi Hbr); reflexivity|]. cbn [m_img]. split; [|split].
  - apply (img_insert m fb); [done| |lia|lia]. split; [rewrite length_splice; lia|]. apply Forall_splice; [apply enc_dinode_bytes|done].
  - intros j Hj. unfold minode. rewrite sec_insert. destruct (decide (inum = j)) as [->|Hne].
    + rewrite decide_True by done. apply dec_splice_eq; [done|lia].
    + case_decide as E; [|done]. rewrite <-E. apply dec_splice_ne; [apply Hd|lia|].
      revert E. change (IBLOCK inum mk_sb) with (inum / 8 + 32). change (IBLOCK j mk_sb) with (j / 8 + 32). unfold ioff. change IPB with 8. intros E. zlia.
  - intros b Hbn. rewrite sec_insert. case_decide; [lia|done].
Qed.

Lemma rinode_ok m fi fb inum : img_ok m fb → 0 ≤ inum < 208 → rinode inum (Mk m fi fb) = Ok (minode m inum) (Mk m fi fb).
Proof.
  intros Hi Hn. pose proof (iblock_range inum Hn). unfold rinode.
  mstep (rsect_ok (Mk m fi fb) fb (IBLOCK inum mk_sb) Hi ltac:(unfold FSSIZE; lia)). reflexivity.
Qed.

Lemma owns_range m fb A nb b : layout m fb A nb → owns m A b → 59 ≤ b < fb.
Proof. intros Hl [Hb (k & Hk & <-)]. by apply (ly_range _ _ _ _ Hl). Qed.
Lemma file_at_frame m m' fb fb' A c : file_at m fb A c → fb ≤ fb' → (∀ b, owns m A b → sec m' b = sec m b) → file_at m' fb' A c.
Proof.
  intros [H1 H2 H3] Hfb Hs. split; [by eapply layout_frame| |done]. intros bn Hbn. rewrite (mslot_frame m m') by done. rewrite Hs; [by apply H2|].
  pose proof (ly_nb _ _ _ _ H1). split; [apply (ly_data _ _ _ _ H1); lia|]. exists (bslot bn). split; [|done]. apply bslot_not12. lia.
Qed.

Lemma layout_addrs m fb A nb : layout m fb A nb → 0 ≤ fb ≤ 1000 → Forall (λ a, 0 ≤ a < 4294967296) A.
Proof.
  intros Hl Hfb. apply Forall_lookup. intros k a Ha. assert (Hk : (k < 13)%nat) by (rewrite <-(ly_len _ _ _ _ Hl); by apply lookup_lt_Some in Ha).
  pose proof (ly_range _ _ _ _ Hl (Z.of_nat k) ltac:(lia)) as Hr. unfold mslot in Hr. destruct (Z.ltb_spec (Z.of_nat k) 13); [|lia].
  rewrite Nat2Z.id, Ha in Hr. simpl in Hr. lia.
Qed.

Lemma dinode_of_file m fb A c ty : file_at m fb A c → 0 ≤ fb ≤ 1000 → 0 ≤ ty < 4 → 0 ≤ zlen c < 4294967296 → dinode_ok (Dinode ty 0 0 1 (zlen c) A).
Proof.
  intros Hf Hfb Ht Hc. split; simpl; try lia; [apply (ly_len _ _ _ _ (fa_layout _ _ _ _ Hf))|]. by eapply layout_addrs; [apply (fa_layout _ _ _ _ Hf)|].
Qed.

(** ** The file system *)

(** Inode [j + 1] is a file of the given type and contents. *)
Definition cost (fs : list (Z * list Z)) : Z := foldr (λ f n, need (nblk (zlen f.2)) + n) 0 fs.
Definition addrs_at (m : gmap Z (list Z)) (j : nat) : list Z := d_addrs (minode m (Z.of_nat j + 1)).
Definition sb_block : list Z := splice 0 (enc_sb mk_sb) zero_block.
Record mk_ok (s : mk) (fs : list (Z * list Z)) : Prop := {
  mo_img : img_ok (m_img s) (m_freeblock s);
  mo_fi : m_freeinode s = Z.of_nat (length fs) + 1;
  mo_count : (length fs ≤ 207)%nat;
  mo_inode : ∀ j f, fs !! j = Some f →
    minode (m_img s) (Z.of_nat j + 1) = Dinode f.1 0 0 1 (zlen f.2) (addrs_at (m_img s) j) ∧
    file_at (m_img s) (m_freeblock s) (addrs_at (m_img s) j) f.2 ∧ 0 ≤ f.1 < 4 ∧ zlen f.2 ≤ 71680;
  mo_apart : ∀ j j' b, (j < length fs)%nat → (j' < length fs)%nat → j ≠ j' →
    owns (m_img s) (addrs_at (m_img s) j) b → owns (m_img s) (addrs_at (m_img s) j') b → False;
  mo_free : ∀ inum, Z.of_nat (length fs) < inum < 208 → minode (m_img s) inum = free_inode;
  mo_fb : m_freeblock s = 59 + cost fs;
  mo_low : ∀ b, 0 ≤ b < 32 ∨ b = 58 → sec (m_img s) b = if decide (b = 1) then sb_block else zero_block;
}.

Lemma cost_insert fs j f f' : fs !! j = Some f → cost (<[j := f']> fs) = cost fs - need (nblk (zlen f.2)) + need (nblk (zlen f'.2)).
Proof.
  revert j. induction fs as [|g fs IH]; intros [|j] H; simplify_eq/=; [lia|]. rewrite (IH j H). lia.
Qed.
Lemma cost_cons f fs : cost (f :: fs) = need (nblk (zlen f.2)) + cost fs.
Proof. done. Qed.
Lemma cost_app fs gs : cost (fs ++ gs) = cost fs + cost gs.
Proof. induction fs as [|f fs IH]; [done|]. simpl. rewrite IH. lia. Qed.

Lemma iappend_ok s fs j ty c p : mk_ok s fs → fs !! j = Some (ty, c) → Forall is_byte p → zlen (c ++ p) ≤ 71680 →
  59 + cost (<[j := (ty, c ++ p)]> fs) ≤ FSSIZE →
  ∃ s', iappend (Z.of_nat j + 1) p s = Ok tt s' ∧ mk_ok s' (<[j := (ty, c ++ p)]> fs).
Proof.
  intros [Hi Hfi Hcnt Hino Hap Hfree Hfb Hlow] Hj Hp Hmax Hfit. destruct s as [m fi fb]. cbn [m_img m_freeinode m_freeblock] in *.
  destruct (Hino j (ty, c) Hj) as (Hdin & Hfile & Hty & _). cbn [fst snd] in *. set (A := addrs_at m j) in *.
  assert (Hjl : (j < length fs)%nat) by (by apply lookup_lt_Some in Hj). pose proof (im_range _ _ Hi) as Hr. unfold FSSIZE in Hr.
  unfold iappend. mstep (rinode_ok m fi fb (Z.of_nat j + 1) Hi ltac:(lia)). rewrite Hdin. cbn [d_size].
  rewrite (cost_insert _ _ _ _ Hj) in Hfit. cbn [snd] in Hfit.
  destruct (iappend_loop_ok (S (length p)) p c m fi fb A (Dinode ty 0 0 1 (zlen c) A) Hi Hfile eq_refl Hp Hmax) as (m1 & fb1 & A1 & E1 & [I1 F1 B1 O1 S1]); [lia|lia|].
  pose proof (im_range _ _ I1) as Hr1. unfold FSSIZE in Hr1.
  mstep E1. cbn [d_type d_major d_minor d_nlink d_addrs with_addrs].
  destruct (winode_ok m1 fi fb1 (Z.of_nat j + 1) (Dinode ty 0 0 1 (zlen (c ++ p)) A1) I1) as (m2 & E2 & I2 & N2 & S2); [lia|apply (dinode_of_file m1 fb1); [done|lia|done|unfold zlen in *; lia]|].
  rewrite E2. eexists. split; [reflexivity|].
  assert (Hfb1 : fb ≤ fb1).
  { rewrite B1. assert (need (nblk (zlen c)) ≤ need (nblk (zlen (c ++ p)))); [|lia]. apply need_mono, nblk_mono. rewrite zlen_app. unfold zlen. lia. }
  assert (Hlowsec : ∀ b, b < 59 → sec m1 b = sec m b).
  { intros b Hb. apply S1; [lia|]. intros Ho. pose proof (owns_range _ _ _ _ _ (fa_layout _ _ _ _ Hfile) Ho). lia. }
  assert (Hnode : ∀ k, 0 ≤ k < 208 → minode m1 k = minode m k).
  { intros k Hk. unfold minode. rewrite Hlowsec; [done|]. pose proof (iblock_range k Hk). lia. }
  assert (Haddr : ∀ k, (k < length fs)%nat → addrs_at m2 k = if decide (k = j) then A1 else addrs_at m k).
  { intros k Hk. unfold addrs_at. rewrite N2 by lia. destruct (decide (k = j)) as [->|]; [by rewrite decide_True|].
    rewrite decide_False by lia. by rewrite Hnode by lia. }
  assert (F2 : file_at m2 fb1 A1 (c ++ p)).
  { apply (file_at_frame m1 m2 fb1); [done|lia|]. intros b Ho. pose proof (owns_range _ _ _ _ _ (fa_layout _ _ _ _ F1) Ho). apply S2. lia. }
  assert (Hother : ∀ k f, fs !! k = Some f → k ≠ j → ∀ b, owns m (addrs_at m k) b → b < fb ∧ sec m2 b = sec m b).
  { intros k f Hk Hkj b Ho. destruct (Hino k f Hk) as (_ & Hf & _). pose proof (owns_range _ _ _ _ _ (fa_layout _ _ _ _ Hf) Ho).
    split; [lia|]. rewrite S2 by lia. apply S1; [lia|]. intros Ho'. eapply (Hap k j b); [by apply lookup_lt_Some in Hk|done|done|done|done]. }
  assert (O2 : ∀ b, owns m2 A1 b → owns m A b ∨ fb ≤ b < fb1).
  { intros b Ho. apply O1. apply (owns_ext m2 m1); [|done]. intros k. apply mslot_frame. intros b' Ho'.
    pose proof (owns_range _ _ _ _ _ (fa_layout _ _ _ _ F2) Ho'). symmetry. apply S2. lia. }
  assert (Hlook : ∀ k, (k < length fs)%nat → k ≠ j → ∀ b, owns m2 (addrs_at m2 k) b → owns m (addrs_at m k) b).
  { intros k Hk Hkj b. rewrite (Haddr k Hk), decide_False by done. destruct (lookup_lt_is_Some_2 fs k Hk) as [f Hf].
    intros Ho. apply (owns_ext m m2 (addrs_at m k) b); [|done]. intros i. apply mslot_frame. intros b' Ho'. by apply (Hother k f Hf Hkj). }
  split; cbn [m_img m_freeinode m_freeblock]; rewrite ?length_insert; try done.
  - intros k f [(<- & <- & _)|[Hkj Hk]]%list_lookup_insert_Some.
    + rewrite (Haddr j Hjl), decide_True by done. rewrite N2, decide_True by (done || lia). done.
    + assert (Hkl : (k < length fs)%nat) by (by apply lookup_lt_Some in Hk). rewrite (Haddr k Hkl), decide_False by congruence.
      rewrite N2, decide_False, Hnode by lia. destruct (Hino k f Hk) as (G1 & G2 & G3 & G4). split; [done|]. split; [|done].
      apply (file_at_frame m m2 fb); [done|done|]. intros b Ho. apply (Hother k f Hk); [congruence|done].
  - intros k k' b Hk Hk' Hne Ho Ho'. destruct (decide (k = j)) as [->|Hkj].
    + rewrite (Haddr j Hjl), decide_True in Ho by done. assert (k' ≠ j) as Hk'j by congruence. destruct (lookup_lt_is_Some_2 fs k' Hk') as [f' Hf'].
      pose proof (Hlook k' Hk' Hk'j b Ho') as Ho2. destruct (Hother k' f' Hf' Hk'j b Ho2). destruct (O2 b Ho); [by eapply (Hap j k' b)|lia].
    + destruct (lookup_lt_is_Some_2 fs k Hk) as [f Hf]. pose proof (Hlook k Hk Hkj b Ho) as Ho2. destruct (Hother k f Hf Hkj b Ho2).
      destruct (decide (k' = j)) as [->|Hk'j].
      * rewrite (Haddr j Hjl), decide_True in Ho' by done. destruct (O2 b Ho'); [by eapply (Hap k j b)|lia].
      * eapply (Hap k k' b); [done|done|done|done|by apply Hlook].
  - intros inum Hn. rewrite N2, decide_False, Hnode by lia. apply Hfree. lia.
  - rewrite (cost_insert _ _ _ _ Hj). cbn [snd]. lia.
  - intros b Hb. rewrite S2 by lia. rewrite Hlowsec by lia. by apply Hlow.
Qed.

(** *** New inodes *)

Lemma mslot_empty m k : mslot m (replicate 13 0) k = 0.
Proof.
  unfold mslot. change (default 0 (replicate 13 0 !! 12%nat)) with 0. destruct (k <? 13); [|done].
  destruct (replicate 13 0 !! Z.to_nat k) as [a|] eqn:E; [|done]. by apply lookup_replicate in E as [-> _].
Qed.
Lemma empty_file m fb : file_at m fb (replicate 13 0) [].
Proof.
  split; [change (nblk (zlen [])) with 0; split|..]; intros; rewrite ?mslot_empty in *; try done; try lia.
  all: change (nblk (zlen [])) with 0 in *; lia.
Qed.

Lemma ialloc_ok s fs ty : mk_ok s fs → (length fs < 207)%nat → 0 ≤ ty < 4 →
  ∃ s', ialloc ty s = Ok (Z.of_nat (length fs) + 1) s' ∧ mk_ok s' (fs ++ [(ty, [])]).
Proof.
  intros [Hi Hfi Hcnt Hino Hap Hfree Hfb Hlow] Hl Hty. destruct s as [m fi fb]. cbn [m_img m_freeinode m_freeblock] in *. subst fi.
  unfold ialloc. mrun. cbn [m_img m_freeinode m_freeblock]. rewrite u32_small by lia. pose proof (im_range _ _ Hi).
  destruct (winode_ok m (Z.of_nat (length fs) + 1 + 1) fb (Z.of_nat (length fs) + 1) (Dinode ty 0 0 1 0 (replicate 13 0)) Hi) as (m1 & E1 & I1 & N1 & S1); [lia|apply (dinode_of_file m fb _ [] ty (empty_file m fb)); [unfold FSSIZE in *; lia|done|done]|].
  mstep E1. eexists. split; [reflexivity|].
  assert (Hsec : ∀ j f, fs !! j = Some f → ∀ b, owns m (addrs_at m j) b → sec m1 b = sec m b).
  { intros j f Hj b Ho. destruct (Hino j f Hj) as (_ & Hf & _). pose proof (owns_range _ _ _ _ _ (fa_layout _ _ _ _ Hf) Ho). apply S1. lia. }
  assert (Haddr : ∀ j, (j < length fs)%nat → addrs_at m1 j = addrs_at m j).
  { intros j Hj. unfold addrs_at. by rewrite N1, decide_False by lia. }
  assert (Hnew : addrs_at m1 (length fs) = replicate 13 0) by (unfold addrs_at; by rewrite N1, decide_True by lia).
  assert (Howns : ∀ j b, (j < length (fs ++ [(ty, [])]))%nat → owns m1 (addrs_at m1 j) b → (j < length fs)%nat ∧ owns m (addrs_at m j) b).
  { intros j b Hj Ho. rewrite length_app in Hj. simpl in Hj. destruct (decide (j = length fs)) as [->|].
    - rewrite Hnew in Ho. destruct Ho as [Hb (k & _ & Hk)]. by rewrite mslot_empty in Hk.
    - assert (Hjl : (j < length fs)%nat) by lia. split; [done|]. rewrite Haddr in Ho by done. destruct (lookup_lt_is_Some_2 fs j Hjl) as [f Hf].
      apply (owns_ext m m1 (addrs_at m j) b); [|done]. intros k. apply mslot_frame. by apply (Hsec j f). }
  split; cbn [m_img m_freeinode m_freeblock]; rewrite ?length_app; try done; try (simpl; lia).
  - intros j f [Hj|[Hj Hf]]%lookup_app_Some.
    + assert (Hjl : (j < length fs)%nat) by (by apply lookup_lt_Some in Hj). rewrite Haddr by done. rewrite N1, decide_False by lia.
      destruct (Hino j f Hj) as (G1 & G2 & G3). split; [done|]. split; [|done]. apply (file_at_frame m m1 fb); [done|lia|]. by apply (Hsec j f).
    + apply list_lookup_singleton_Some in Hf as [Hj' <-]. assert (j = length fs) as -> by lia. rewrite Hnew, N1, decide_True by lia.
      split; [done|]. split; [apply empty_file|done].
  - intros j j' b Hj Hj' Hne Ho Ho'. rewrite <-length_app in Hj, Hj'. destruct (Howns j b Hj Ho), (Howns j' b Hj' Ho'). by eapply (Hap j j' b).
  - intros inum Hn. simpl in Hn. rewrite N1, decide_False by lia. apply Hfree. lia.
  - rewrite cost_app. simpl. change (need (nblk (zlen []))) with 0. lia.
  - intros b Hb. rewrite S1 by lia. by apply Hlow.
Qed.

(** *** The files of the command line *)

Lemma append_chunks_ok chunks : ∀ s fs j ty c, mk_ok s fs → fs !! j = Some (ty, c) →
  Forall (λ x, x ≠ [] ∧ Forall is_byte x) chunks → zlen (c ++ concat chunks) ≤ 71680 →
  59 + cost (<[j := (ty, c ++ concat chunks)]> fs) ≤ FSSIZE →
  ∃ s', append_chunks (Z.of_nat j + 1) chunks s = Ok tt s' ∧ mk_ok s' (<[j := (ty, c ++ concat chunks)]> fs).
Proof.
  induction chunks as [|x chunks IH]; intros s fs j ty c Hok Hj Hc Hmax Hfit.
  { exists s. split; [done|]. cbn [concat]. rewrite app_nil_r. by rewrite list_insert_id. }
  apply Forall_cons in Hc as [[Hx Hxb] Hc]. cbn [append_chunks concat] in *. rewrite app_assoc in Hmax, Hfit |- *.
  destruct (Nat.eqb_spec (length x) 0) as [E|_]; [by destruct x|].
  assert (Hle : need (nblk (zlen (c ++ x))) ≤ need (nblk (zlen ((c ++ x) ++ concat chunks)))).
  { apply need_mono, nblk_mono. rewrite (zlen_app (c ++ x)). unfold zlen. lia. }
  rewrite (cost_insert _ _ _ _ Hj) in Hfit. cbn [snd] in Hfit. rewrite (zlen_app (c ++ x)) in Hmax.
  destruct (iappend_ok s fs j ty c x Hok Hj Hxb) as (s1 & E1 & Hok1); [unfold zlen in *; lia|rewrite (cost_insert _ _ _ _ Hj); cbn [snd]; lia|].
  assert (Hjl : (j < length fs)%nat) by (by apply lookup_lt_Some in Hj).
  assert (Hj1 : <[j := (ty, c ++ x)]> fs !! j = Some (ty, c ++ x)) by (by apply list_lookup_insert_eq).
  destruct (IH s1 _ j ty (c ++ x) Hok1 Hj1 Hc) as (s2 & E2 & Hok2); [rewrite (zlen_app (c ++ x)); lia| |].
  - rewrite list_insert_insert_eq, (cost_insert _ _ _ _ Hj). cbn [snd]. lia.
  - rewrite list_insert_insert_eq in Hok2. exists s2. mstep E1. done.
Qed.

(** What a file of the command line stands for. *)
Abbreviation argument := (list Z * option (list (list Z)))%type.
Definition file_name (f : argument) : list Z := match f.1 with 95 :: name => name | name => name end.
Definition contents (f : argument) : list Z := match f.2 with Some chunks => concat chunks | None => [] end.
Definition file_good (f : argument) : Prop :=
  ¬ (47 ∈ f.1) ∧ Forall is_byte f.1 ∧ zlen (contents f) ≤ 71680 ∧
  ∃ chunks, f.2 = Some chunks ∧ Forall (λ x, x ≠ [] ∧ Forall is_byte x) chunks.
(** Entries of the root directory, from inode [inum] on. *)
Fixpoint dirents (inum : Z) (fs : list argument) : list Z :=
  match fs with
  | [] => []
  | f :: fs => dirent inum (file_name f) ++ dirents (inum + 1) fs
  end.
Definition leaves (fs : list argument) : list (Z * list Z) := (λ f, (T_FILE, contents f)) <$> fs.

Lemma length_dirent inum name : length (dirent inum name) = 16%nat.
Proof. unfold dirent, strncpy. rewrite length_app, length_strncpy_loop. done. Qed.
Lemma zlen_dirents inum fs : zlen (dirents inum fs) = 16 * Z.of_nat (length fs).
Proof.
  revert inum. induction fs as [|f fs IH]; intros inum; [done|]. cbn [dirents length]. rewrite zlen_app, IH. unfold zlen. rewrite length_dirent. lia.
Qed.
Lemma dirent_bytes inum name : Forall is_byte name → Forall is_byte (dirent inum name).
Proof.
  intros Hn. unfold dirent. rewrite xshort_le16. apply Forall_app. split; [apply le16_bytes|]. change (strncpy (cstr_of name) DIRSIZ) with (dirent_name name).
  apply Forall_lookup. intros k b Hb. assert (Hk : (k < 14)%nat) by (rewrite <-(length_dirent_name name); by apply lookup_lt_Some in Hb).
  pose proof (byte_at_dirent_name name k Hk) as E. unfold byte_at at 1 in E. rewrite Hb in E. simpl in E. rewrite E.
  destruct (forallb _ _); [by apply byte_at_range|unfold is_byte; lia].
Qed.

Lemma name_bytes f : file_good f → Forall is_byte (file_name f).
Proof.
  intros (_ & Hb & _). unfold file_name. destruct f as [[|a name] ?]; [done|]. simpl in *.
  destruct (decide (a = 95)) as [->|]; [by apply Forall_cons in Hb as [_ ?]|].
  destruct a as [|p|p]; try done. repeat (destruct p as [p|p|]; try done).
Qed.

Lemma add_file_ok s rc done f : mk_ok s ((T_DIR, rc) :: done) → file_good f → (length done < 206)%nat → zlen rc + 16 ≤ 71680 →
  let inum := Z.of_nat (length done) + 2 in
  59 + cost ((T_DIR, rc ++ dirent inum (file_name f)) :: done ++ [(T_FILE, contents f)]) ≤ FSSIZE →
  ∃ s', add_file 1 f s = Ok tt s' ∧ mk_ok s' ((T_DIR, rc ++ dirent inum (file_name f)) :: done ++ [(T_FILE, contents f)]).
Proof.
  intros Hok Hg Hl Hrc inum Hfit. pose proof (name_bytes f Hg) as Hnb. destruct Hg as (H47 & _ & Hmax & chunks & Ef & Hch). unfold add_file.
  rewrite bool_decide_eq_false_2 by done. rewrite Ef. fold (file_name f). unfold contents in *. rewrite Ef in *.
  destruct (ialloc_ok s _ T_FILE Hok) as (s1 & E1 & Hok1); [simpl; lia|unfold T_FILE; lia|].
  replace (Z.of_nat (length ((T_DIR, rc) :: done)) + 1) with inum in E1 by (unfold inum; simpl; lia). mstep E1.
  rewrite cost_cons, cost_app in Hfit. cbn [snd] in Hfit. rewrite cost_cons in Hfit. cbn [snd] in Hfit. change (cost []) with 0 in Hfit.
  assert (Hnn : 0 ≤ need (nblk (zlen (concat chunks)))) by (apply (need_mono 0), (nblk_mono 0); unfold zlen; lia).
  destruct (iappend_ok s1 _ 0 T_DIR rc (dirent inum (file_name f)) Hok1 eq_refl) as (s2 & E2 & Hok2).
  { by apply dirent_bytes. }
  { rewrite zlen_app. unfold zlen at 2. rewrite length_dirent. lia. }
  { cbn [insert list_insert app]. rewrite cost_cons, cost_app, cost_cons. cbn [snd]. change (cost []) with 0. change (need (nblk (zlen []))) with 0. lia. }
  mstep E2. cbn [insert list_insert app] in Hok2.
  assert (Hj : ((T_DIR, rc ++ dirent inum (file_name f)) :: done ++ [(T_FILE, [])]) !! S (length done) = Some (T_FILE, [])).
  { simpl. by rewrite lookup_app_r, Nat.sub_diag by lia. }
  assert (Hins : <[S (length done) := (T_FILE, concat chunks)]> ((T_DIR, rc ++ dirent inum (file_name f)) :: done ++ [(T_FILE, [])]) =
    (T_DIR, rc ++ dirent inum (file_name f)) :: done ++ [(T_FILE, concat chunks)]).
  { simpl. by rewrite insert_app_r_alt, Nat.sub_diag by lia. }
  destruct (append_chunks_ok chunks s2 _ (S (length done)) T_FILE [] Hok2 Hj Hch) as (s3 & E3 & Hok3); [done| |].
  { rewrite app_nil_l, Hins, cost_cons, cost_app, cost_cons. cbn [snd]. change (cost []) with 0. lia. }
  rewrite app_nil_l, Hins in Hok3. exists s3. split; [|done].
  replace inum with (Z.of_nat (S (length done)) + 1) by (unfold inum; lia). done.
Qed.

Lemma cost_nonneg fs : 0 ≤ cost fs.
Proof.
  induction fs as [|f fs IH]; [done|]. rewrite cost_cons. assert (0 ≤ need (nblk (zlen f.2))); [|lia].
  apply (need_mono 0), (nblk_mono 0). unfold zlen. lia.
Qed.

Lemma add_files_ok l : ∀ s rc done, mk_ok s ((T_DIR, rc) :: done) → Forall file_good l → (length done + length l ≤ 206)%nat →
  zlen rc + 16 * Z.of_nat (length l) ≤ 71680 →
  let inum := Z.of_nat (length done) + 2 in
  59 + cost ((T_DIR, rc ++ dirents inum l) :: done ++ leaves l) ≤ FSSIZE →
  ∃ s', add_files 1 l s = Ok tt s' ∧ mk_ok s' ((T_DIR, rc ++ dirents inum l) :: done ++ leaves l).
Proof.
  induction l as [|f l IH]; intros s rc done Hok Hg Hl Hrc inum Hfit.
  { exists s. split; [done|]. cbn [dirents leaves fmap list_fmap]. by rewrite !app_nil_r. }
  apply Forall_cons in Hg as [Hf Hg]. cbn [dirents length] in *. unfold leaves in *. rewrite fmap_cons in *. fold (leaves l) in *.
  change ((T_FILE, contents f) :: leaves l) with ([(T_FILE, contents f)] ++ leaves l) in *. rewrite !app_assoc in *.
  set (rc1 := rc ++ dirent inum (file_name f)) in *. set (done1 := done ++ [(T_FILE, contents f)]) in *.
  assert (Hrc1 : zlen rc1 = zlen rc + 16) by (unfold rc1; rewrite zlen_app; unfold zlen at 2; by rewrite length_dirent).
  assert (Hl1 : length done1 = S (length done)) by (unfold done1; rewrite length_app; simpl; lia).
  assert (Hcost : cost ((T_DIR, rc1) :: done1) ≤ cost ((T_DIR, rc1 ++ dirents (inum + 1) l) :: done1 ++ leaves l)).
  { rewrite !cost_cons, cost_app. cbn [snd]. pose proof (cost_nonneg (leaves l)).
    assert (need (nblk (zlen rc1)) ≤ need (nblk (zlen (rc1 ++ dirents (inum + 1) l)))); [|lia]. apply need_mono, nblk_mono. rewrite zlen_app. unfold zlen. lia. }
  destruct (add_file_ok s rc done f Hok Hf) as (s1 & E1 & Hok1); [lia|lia|unfold rc1, done1, inum in *; lia|].
  destruct (IH s1 rc1 done1 Hok1 Hg) as (s2 & E2 & Hok2); [lia|lia|rewrite Hl1; replace (Z.of_nat (S (length done)) + 2) with (inum + 1) by (unfold inum; lia); done|].
  exists s2. cbn [add_files]. mstep E1. split; [done|]. rewrite Hl1 in Hok2.
  by replace (Z.of_nat (S (length done)) + 2) with (inum + 1) in Hok2 by (unfold inum; lia).
Qed.

(** *** The empty image and the root directory *)

Lemma zero_image_ok n : ∀ i s, 0 ≤ i → ∃ m, zero_image n i s = Ok tt (Mk m (m_freeinode s) (m_freeblock s)) ∧
  (∀ b, i ≤ b < i + Z.of_nat n → m !! b = Some zero_block) ∧ (∀ b, ¬ i ≤ b < i + Z.of_nat n → m !! b = m_img s !! b).
Proof.
  induction n as [|n IH]; intros i s Hi; [exists (m_img s); split; [by destruct s|split; [lia|done]]|].
  cbn [zero_image]. erewrite bind_ok; [|reflexivity]. destruct (IH (i + 1) (set_img (<[i := zero_block]> (m_img s)) s) ltac:(lia)) as (m & E & H1 & H2).
  exists m. rewrite E. split; [done|]. split.
  - intros b Hb. destruct (decide (b = i)) as [->|]; [|apply H1; lia]. rewrite H2 by lia. simpl. apply lookup_insert_eq.
  - intros b Hb. rewrite H2 by lia. simpl. apply lookup_insert_ne. lia.
Qed.

Lemma zero_inode i : dec_dinode zero_block i = free_inode.
Proof.
  assert (Hb : ∀ k, byte_at zero_block k = 0).
  { intros k. unfold byte_at, zero_block. destruct (decide (k < 512)%nat); [by rewrite lookup_replicate_2|by rewrite lookup_ge_None_2 by (rewrite length_replicate; lia)]. }
  unfold dec_dinode, get16. rewrite !get32_zero, !Hb. unfold free_inode. f_equal. apply list_eq. intros k. rewrite list_lookup_fmap.
  destruct (decide (k < 13)%nat); [rewrite lookup_seq_lt, lookup_replicate_2 by done; simpl; by rewrite get32_zero|].
  by rewrite lookup_seq_ge, lookup_ge_None_2 by (rewrite ?length_replicate; lia).
Qed.

Lemma empty_image_ok m : (∀ b, 0 ≤ b < FSSIZE → m !! b = Some zero_block) → (∀ b, ¬ 0 ≤ b < FSSIZE → m !! b = None) → mk_ok (Mk (<[1 := sb_block]> m) 1 59) [].
Proof.
  intros Hm Hm'. assert (Hz : ∀ b, b ≠ 1 → 0 ≤ b < FSSIZE → sec (<[1 := sb_block]> m) b = zero_block).
  { intros b Hb Hr. unfold sec. by rewrite lookup_insert_ne, Hm by congruence. }
  split; cbn [m_img m_freeinode m_freeblock length]; try done; try lia.
  - apply (img_insert m 59); [|split; [done|apply (bool_decide_unpack _); by vm_compute]|unfold FSSIZE; lia|lia].
    split; [|intros b Hb; apply Hm; lia|unfold FSSIZE; lia|].
    + intros b Hb. exists zero_block. split; [by apply Hm|apply zero_is_block].
    + intros b d Hd. destruct (decide (0 ≤ b < FSSIZE)) as [Hb|Hb]; [rewrite Hm in Hd by done; injection Hd as <-; apply zero_is_block|by rewrite Hm' in Hd].
  - intros inum Hn. unfold minode. pose proof (iblock_range inum ltac:(lia)). rewrite Hz by (unfold FSSIZE; lia). apply zero_inode.
  - intros b Hb. rewrite sec_insert. case_decide as E; [by rewrite decide_True|]. rewrite decide_False by congruence.
    unfold sec. by rewrite Hm by (unfold FSSIZE; lia).
Qed.

Definition root_data (fs : list argument) : list Z := (dirent 1 [46] ++ dirent 1 [46; 46]) ++ dirents 2 fs.
(** The inodes of the image, from inode 1 on. *)
Definition tree (fs : list argument) : list (Z * list Z) := (T_DIR, root_data fs) :: leaves fs.

(** Up to the rounding of the size of the root directory. *)
Lemma mkfs_files_ok fs : Forall file_good fs → (length fs ≤ 198)%nat → 59 + cost (tree fs) ≤ FSSIZE →
  ∃ s, mk_ok s (tree fs) ∧ mkfs fs mkfs_start =
    (din ← rinode 1;
     let off := u32 (u32 (d_size din / BSIZE + 1) * BSIZE) in
     winode 1 (Dinode (d_type din) (d_major din) (d_minor din) (d_nlink din) off (d_addrs din));;
     used ← gets m_freeblock;
     balloc used) s.
Proof.
  intros Hg Hl Hfit. unfold mkfs. erewrite bind_ok; [|reflexivity]. cbn [m_img m_freeinode mkfs_start].
  destruct (zero_image_ok (Z.to_nat FSSIZE) 0 (Mk ∅ 1 nmeta) ltac:(lia)) as (m & E0 & Hm & Hm'). mstep E0. erewrite bind_ok; [|reflexivity].
  cbn [m_img m_freeinode m_freeblock set_img]. change nmeta with 59. fold sb_block.
  assert (Hok0 : mk_ok (Mk (<[1 := sb_block]> m) 1 59) []) by (apply empty_image_ok; intros b Hb; [apply Hm|apply Hm']; unfold FSSIZE in *; lia).
  destruct (ialloc_ok _ [] T_DIR Hok0) as (s1 & E1 & Hok1); [simpl; lia|unfold T_DIR; lia|].
  assert (Hcost : 59 + cost [(T_DIR, dirent 1 [46] ++ dirent 1 [46; 46])] ≤ FSSIZE).
  { unfold tree in Hfit. rewrite cost_cons in Hfit |- *. cbn [snd] in *. change (cost []) with 0. pose proof (cost_nonneg (leaves fs)).
    assert (need (nblk (zlen (dirent 1 [46] ++ dirent 1 [46; 46]))) ≤ need (nblk (zlen (root_data fs)))); [|lia].
    apply need_mono, nblk_mono. unfold root_data. rewrite (zlen_app (_ ++ _)). unfold zlen. lia. }
  unfold set_img. cbn [m_img m_freeinode m_freeblock]. mstep E1. change (negb (Z.of_nat (length (@nil (Z * list Z))) + 1 =? ROOTINO)) with false. cbv iota.
  cbn [app] in Hok1. change (Z.of_nat (length (@nil (Z * list Z))) + 1) with (Z.of_nat 0 + 1).
  destruct (iappend_ok s1 _ 0 T_DIR [] (dirent 1 [46]) Hok1 eq_refl) as (s2 & E2 & Hok2); [apply dirent_bytes; apply (bool_decide_unpack _); by vm_compute|done|by vm_compute|].
  change (dirent (Z.of_nat 0 + 1)) with (dirent 1). mstep E2. cbn [insert list_insert app] in Hok2.
  destruct (iappend_ok s2 _ 0 T_DIR (dirent 1 [46]) (dirent 1 [46; 46]) Hok2 eq_refl) as (s3 & E3 & Hok3); [apply dirent_bytes; apply (bool_decide_unpack _); by vm_compute|done|exact Hcost|].
  mstep E3. cbn [insert list_insert] in Hok3.
  destruct (add_files_ok fs s3 (dirent 1 [46] ++ dirent 1 [46; 46]) [] Hok3 Hg) as (s4 & E4 & Hok4); [simpl; lia|change (zlen (dirent 1 [46] ++ dirent 1 [46; 46])) with 32; lia|exact Hfit|].
  change (Z.of_nat 0 + 1) with 1. mstep E4. exists s4. split; [exact Hok4|reflexivity].
Qed.

(** *** The bitmap *)

Lemma balloc_loop_ok n : ∀ i buf, block buf → 0 ≤ i → i + Z.of_nat n ≤ 4096 → block (balloc_loop n i buf) ∧
  ∀ j, 0 ≤ j < 4096 → bm_free (balloc_loop n i buf) j = if decide (i ≤ j < i + Z.of_nat n) then false else bm_free buf j.
Proof.
  induction n as [|n IH]; intros i buf Hb Hi Hn; [split; [done|]; intros j Hj; by rewrite decide_False by lia|].
  cbn [balloc_loop]. change (splice _ _ buf) with (bm_set buf i). destruct Hb as [Hl Hby].
  assert (Hb1 : block (bm_set buf i)).
  { unfold bm_set. split; [rewrite length_splice; [done|simpl length; zlia]|]. apply Forall_splice; [|done]. constructor; [apply u8_range|constructor]. }
  destruct (IH (i + 1) (bm_set buf i) Hb1) as [H1 H2]; [lia|lia|]. split; [done|]. intros j Hj. rewrite H2 by done.
  rewrite bm_set_spec by (done || (unfold BPB, BSIZE; lia)). repeat case_decide; try done; lia.
Qed.
Lemma bm_free_zero j : 0 ≤ j < 4096 → bm_free zero_block j = true.
Proof.
  intros Hj. rewrite bm_free_testbit by lia. assert (byte_at zero_block (Z.to_nat (j / 8)) = 0) as ->; [|by rewrite Z.bits_0].
  unfold byte_at, zero_block. by rewrite lookup_replicate_2 by zlia.
Qed.

(** ** The finished image *)

Definition root_size (n : Z) : Z := (n / 512 + 1) * 512.
(** The size in inode [j + 1]: that of the root directory is rounded up. *)
Definition size_of (j : nat) (c : list Z) : Z := if decide (j = O) then root_size (zlen c) else zlen c.
Record image (m : gmap Z (list Z)) (fb : Z) (fs : list (Z * list Z)) : Prop := {
  ig_img : img_ok m fb;
  ig_inode : ∀ j f, fs !! j = Some f →
    minode m (Z.of_nat j + 1) = Dinode f.1 0 0 1 (size_of j f.2) (addrs_at m j) ∧
    file_at m fb (addrs_at m j) f.2 ∧ zlen f.2 ≤ 71680;
  ig_apart : ∀ j j' b, (j < length fs)%nat → (j' < length fs)%nat → j ≠ j' →
    owns m (addrs_at m j) b → owns m (addrs_at m j') b → False;
  ig_free : ∀ inum, Z.of_nat (length fs) < inum < 208 → minode m inum = free_inode;
  ig_sb : sec m 1 = sb_block;
  ig_bitmap : ∀ b, 0 ≤ b < 4096 → bm_free (sec m 58) b = negb (b <? fb);
}.

Lemma mkfs_image_ok fs : Forall file_good fs → (length fs ≤ 198)%nat → 59 + cost (tree fs) ≤ FSSIZE →
  ∃ s, mkfs fs mkfs_start = Ok tt s ∧ image (m_img s) (59 + cost (tree fs)) (tree fs).
Proof.
  intros Hg Hl Hfit. destruct (mkfs_files_ok fs Hg Hl Hfit) as (s & [Hi Hfi Hcnt Hino Hap Hfree Hfb Hlow] & ->).
  destruct s as [m fi fb]. cbn [m_img m_freeinode m_freeblock] in *. rewrite <-Hfb. clear Hfb Hfit. pose proof (im_range _ _ Hi) as Hr. unfold FSSIZE in Hr.
  destruct (Hino O _ eq_refl) as (Hdin & Hfile & _ & Hmax). cbn [fst snd] in *. set (rd := root_data fs) in *. set (A := addrs_at m 0) in *.
  change (Z.of_nat 0 + 1) with 1 in Hdin. assert (Hrd : 0 ≤ zlen rd) by (unfold zlen; lia).
  mstep (rinode_ok m fi fb 1 Hi ltac:(lia)). rewrite Hdin. cbn [d_size d_type d_major d_minor d_nlink d_addrs]. cbv zeta.
  change BSIZE with 512. assert (u32 (u32 (zlen rd / 512 + 1) * 512) = root_size (zlen rd)) as ->.
  { unfold root_size. rewrite (u32_small (zlen rd / 512 + 1)) by zlia. rewrite u32_small; [done|zlia]. }
  destruct (winode_ok m fi fb 1 (Dinode T_DIR 0 0 1 (root_size (zlen rd)) A) Hi) as (m1 & E1 & I1 & N1 & S1); [lia| |].
  { pose proof (dinode_of_file m fb A rd T_DIR Hfile ltac:(lia) ltac:(unfold T_DIR; lia) ltac:(lia)) as []. split; simpl in *; try done. unfold root_size. zlia. }
  mstep E1. erewrite bind_ok; [|reflexivity]. cbn [m_freeblock]. unfold balloc. change BSIZE with 512. destruct (Z.ltb_spec fb (512 * 8)); [|lia].
  set (bm := balloc_loop (Z.to_nat fb) 0 zero_block). eexists. split; [reflexivity|]. cbn [m_img set_img]. change (sb_bmapstart mk_sb) with 58.
  destruct (balloc_loop_ok (Z.to_nat fb) 0 zero_block zero_is_block ltac:(lia) ltac:(lia)) as [Hbm Hbits]. fold bm in Hbm, Hbits.
  set (m2 := <[58 := bm]> m1).
  assert (Hnode : ∀ j, 0 ≤ j < 208 → minode m2 j = if decide (1 = j) then Dinode T_DIR 0 0 1 (root_size (zlen rd)) A else minode m j).
  { intros j Hj. rewrite <-N1 by done. unfold minode, m2. rewrite sec_insert, decide_False; [done|]. pose proof (iblock_range j Hj). lia. }
  assert (Hsec : ∀ b, 59 ≤ b → sec m2 b = sec m b).
  { intros b Hb. unfold m2. rewrite sec_insert, decide_False by lia. apply S1. lia. }
  assert (Haddr : ∀ j, (j < length (tree fs))%nat → addrs_at m2 j = addrs_at m j).
  { intros j Hj. unfold addrs_at. rewrite Hnode by lia. case_decide as E; [|done]. assert (j = O) as -> by lia. change (Z.of_nat 0 + 1) with 1. by rewrite Hdin. }
  assert (Hown : ∀ j b, (j < length (tree fs))%nat → owns m (addrs_at m j) b → sec m2 b = sec m b).
  { intros j b Hj Ho. destruct (lookup_lt_is_Some_2 _ _ Hj) as [f Hf]. destruct (Hino j f Hf) as (_ & Hfa & _).
    apply Hsec. pose proof (owns_range _ _ _ _ _ (fa_layout _ _ _ _ Hfa) Ho). lia. }
  assert (Howns : ∀ j b, (j < length (tree fs))%nat → owns m2 (addrs_at m2 j) b → owns m (addrs_at m j) b).
  { intros j b Hj Ho. rewrite Haddr in Ho by done. apply (owns_ext m m2 (addrs_at m j) b); [|done]. intros k. apply mslot_frame. by apply (λ b, Hown j b Hj). }
  split.
  - apply (img_insert m1 fb); [done|done|unfold FSSIZE; lia|lia].
  - intros j f Hj. assert (Hjl : (j < length (tree fs))%nat) by (by apply lookup_lt_Some in Hj). rewrite Haddr by done. rewrite Hnode by lia.
    destruct (Hino j f Hj) as (G1 & G2 & _ & G4). unfold size_of. split; [|split; [|done]].
    + destruct (decide (j = O)) as [->|]; [|by rewrite decide_False by lia]. injection Hj as <-. done.
    + apply (file_at_frame m m2 fb); [done|lia|]. by apply (λ b, Hown j b Hjl).
  - intros j j' b Hj Hj' Hne Ho Ho'. by eapply (Hap j j' b); [..|apply Howns|apply Howns].
  - intros inum Hn. rewrite Hnode, decide_False by (simpl in Hn; lia). apply Hfree. lia.
  - unfold m2. rewrite sec_insert, decide_False, S1 by lia. by rewrite Hlow, decide_True by (lia || done).
  - intros b Hb. unfold m2. rewrite sec_insert, decide_True by done. rewrite Hbits, bm_free_zero by done. case_decide; destruct (Z.ltb_spec b fb); (done || lia).
Qed.

(** ** The image as the kernel sees it *)

(** The disk when the kernel starts. *)
Definition boot_disk (s : mk) : ldisk := LDisk (m_img s) [] [] nlog 0.
(** Entry [ip] of the inode cache holds inode [inum] of [d], as [ilock] leaves it. *)
Definition loaded (d : ldisk) (st : fsst) (ip : nat) (inum : Z) : Prop :=
  (ip < length (ic_inode st))%nat ∧ fs_ld st = d ∧ fs_sb st = mk_sb ∧
  i_inum (ino st ip) = inum ∧ disk_fields (ino st ip) = disk_inode d mk_sb inum.
(** The name of file [k] is not that of an earlier entry of the root directory. *)
Definition first_named (fs : list argument) (k : nat) (f : argument) : Prop :=
  ¬ same_name (file_name f) [46] ∧ ¬ same_name (file_name f) [46; 46] ∧
  ∀ j g, (j < k)%nat → fs !! j = Some g → ¬ same_name (file_name f) (file_name g).

Record fs_image (d : ldisk) (fs : list argument) : Prop := {
  fi_sb : dec_sb (blk d 1) = mk_sb;
  fi_base : fs_base d mk_sb;
  fi_used : ∀ b, 0 ≤ b < FSSIZE → used d mk_sb b = (b <? 59 + cost (tree fs));
  fi_free : ∀ inum, Z.of_nat (length fs) + 1 < inum < NINODES → d_type (disk_inode d mk_sb inum) = 0;
  fi_file : ∀ j f st ip dev_read, tree fs !! j = Some f → loaded d st ip (Z.of_nat j + 1) →
    fstate ip st ∧ i_type (ino st ip) = f.1 ∧ i_nlink (ino st ip) = 1 ∧ i_size (ino st ip) = size_of j f.2 ∧
    readi dev_read ip 0 (zlen f.2) st = Ok (zlen f.2, f.2) st;
  fi_apart : ∀ j j' st ip st' ip' k k', (j < length (tree fs))%nat → (j' < length (tree fs))%nat → j ≠ j' →
    loaded d st ip (Z.of_nat j + 1) → loaded d st' ip' (Z.of_nat j' + 1) → 0 ≤ k < 141 → 0 ≤ k' < 141 →
    slot d (ino st ip) k ≠ 0 → slot d (ino st ip) k ≠ slot d (ino st' ip') k';
  fi_lookup : ∀ k f st dp dev_read, fs !! k = Some f → first_named fs k f → loaded d st dp 1 →
    dirlookup dev_read dp (file_name f) st =
      (ip ← iget (i_dev (ino st dp)) (Z.of_nat k + 2); mret (Some (ip, 16 * (Z.of_nat k + 2)))) st;
}.

Lemma byte_at_pad l k : byte_at (pad l) k = byte_at l k.
Proof.
  unfold pad. destruct (decide (k < length l)%nat); [by rewrite byte_at_app_l|]. rewrite byte_at_app_r by lia. unfold byte_at.
  rewrite (lookup_ge_None_2 l) by lia. destruct (replicate _ 0 !! _) as [x|] eqn:E; [|done]. by apply lookup_replicate in E as [-> _].
Qed.

Section booted.
Context (m : gmap Z (list Z)) (fb : Z) (tr : list (Z * list Z)).
Context (Him : image m fb tr).
Let d := LDisk m [] [] nlog 0.

Lemma boot_used b : 0 ≤ b < FSSIZE → used d mk_sb b = (b <? fb).
Proof.
  intros Hb. unfold FSSIZE in Hb. unfold used. rewrite BBLOCK_single by (change (sb_size mk_sb) with 1000; unfold BPB, BSIZE; lia).
  rewrite Z.mod_small by (unfold BPB, BSIZE; lia). change (blk d (sb_bmapstart mk_sb)) with (sec m 58).
  rewrite (ig_bitmap _ _ _ Him) by lia. by rewrite negb_involutive.
Qed.

Lemma boot_base : fs_base d mk_sb.
Proof.
  pose proof (im_range _ _ (ig_img _ _ _ Him)) as Hr. unfold FSSIZE in Hr.
  assert (Hblk : ∀ b, block (blk d b)).
  { intros b. unfold blk. simpl. destruct (m !! b) eqn:E; simpl; [by apply (im_block _ _ (ig_img _ _ _ Him) b)|apply zero_is_block]. }
  split; try (intros b; apply Hblk).
  - change (sb_size mk_sb) with 1000. unfold BPB, BSIZE. lia.
  - by vm_compute.
  - rewrite boot_used by (unfold FSSIZE; lia). apply Z.ltb_lt. lia.
  - change (sb_bmapstart mk_sb) with 58. rewrite boot_used by (unfold FSSIZE; lia). apply Z.ltb_lt. lia.
Qed.

(** An inode of the image, in the cache. *)
Section file.
Context (j : nat) (f : Z * list Z) (i : inode).
Context (Hj : tr !! j = Some f) (Hn : i_inum i = Z.of_nat j + 1) (Hd : disk_fields i = disk_inode d mk_sb (Z.of_nat j + 1)).

Lemma boot_fields : i_type i = f.1 ∧ i_nlink i = 1 ∧ i_size i = size_of j f.2 ∧ i_addrs i = addrs_at m j.
Proof. destruct (ig_inode _ _ _ Him j f Hj) as (E & _). change (disk_inode d mk_sb) with (minode m) in Hd. rewrite E in Hd. by injection Hd as -> _ _ -> -> ->. Qed.
Lemma boot_slot k : slot d i k = mslot m (addrs_at m j) k.
Proof. destruct boot_fields as (_ & _ & _ & <-). done. Qed.

Lemma boot_byte o : 0 ≤ o < 512 * nblk (zlen f.2) → file_byte d i o = byte_at f.2 (Z.to_nat o).
Proof.
  intros Ho. destruct (ig_inode _ _ _ Him j f Hj) as (_ & [Hl Hdata _] & _). unfold file_byte. rewrite boot_slot. change (blk d) with (sec m).
  rewrite Hdata by zlia. rewrite byte_at_pad, byte_at_slice by zlia. f_equal. zlia.
Qed.

Lemma boot_file_ok : (length tr < 208)%nat → size_of j f.2 ≤ 512 * nblk (zlen f.2) → file_ok d mk_sb i.
Proof.
  intros Hcount Hs. destruct boot_fields as (_ & _ & Ez & Ea). destruct (ig_inode _ _ _ Him j f Hj) as (_ & [[L1 L2 L3 L4 L5 L6] _ _] & Hmax).
  pose proof (im_range _ _ (ig_img _ _ _ Him)) as Hr. unfold FSSIZE in Hr. assert (Hjl : (j < length tr)%nat) by (by apply lookup_lt_Some in Hj).
  pose proof (iblock_range (i_inum i) ltac:(lia)) as Hib. assert (0 ≤ zlen f.2) by (unfold zlen; lia).
  assert (0 ≤ size_of j f.2) by (unfold size_of, root_size; case_decide; zlia).
  split; try (intros; rewrite ?boot_slot in *).
  - by rewrite Ea.
  - rewrite Ea. apply Forall_lookup. intros k x Hk. assert (Hk' : (k < 13)%nat) by (rewrite <-L1; by apply lookup_lt_Some in Hk).
    destruct (decide (x = 0)) as [->|Hx]; [lia|]. assert (E : mslot m (addrs_at m j) (Z.of_nat k) = x).
    { unfold mslot. destruct (Z.ltb_spec (Z.of_nat k) 13); [|lia]. by rewrite Nat2Z.id, Hk. }
    pose proof (L2 (Z.of_nat k) ltac:(lia)). lia.
  - lia.
  - change (sb_size mk_sb) with 1000. change (sb_bmapstart mk_sb) with 58. rewrite boot_used by (unfold FSSIZE; lia).
    destruct (Z.ltb_spec (IBLOCK (i_inum i) mk_sb) fb); [split_and!; (done || lia)|lia].
  - pose proof (L2 k ltac:(lia) ltac:(done)). change (sb_size mk_sb) with 1000. change (sb_bmapstart mk_sb) with 58.
    rewrite boot_used by (unfold FSSIZE; lia). destruct (Z.ltb_spec (mslot m (addrs_at m j) k) fb); [split_and!; (done || lia)|lia].
  - by apply L3.
  - rewrite Ez. unfold nblk in *. zlia.
  - rewrite Ez in *. apply L4; lia.
Qed.
End file.
End booted.

(** ** The root directory *)

Lemma dir_find_first ents name : ∀ k a e, ents !! k = Some e → matches name e = true →
  (∀ j e', (j < k)%nat → ents !! j = Some e' → matches name e' = false) → dir_find ents name a = Some (a + k)%nat.
Proof.
  induction ents as [|x ents IH]; intros k a e Hk Hm Hb; [done|]. rewrite dir_find_cons. destruct k as [|k].
  - injection Hk as ->. by rewrite Hm, Nat.add_0_r.
  - rewrite (Hb O x) by (done || lia). rewrite (IH k (S a) e Hk Hm); [f_equal; lia|]. intros j e' Hj. apply (Hb (S j)). lia.
Qed.

Lemma slice_dirents fs : ∀ inum k f, fs !! k = Some f → slice (16 * k) 16 (dirents inum fs) = dirent (inum + Z.of_nat k) (file_name f).
Proof.
  induction fs as [|g fs IH]; intros inum k f Hk; [done|]. cbn [dirents]. destruct k as [|k].
  - injection Hk as ->. rewrite Z.add_0_r. change (16 * 0)%nat with O. unfold slice. rewrite drop_0, take_app_le by (rewrite length_dirent; lia).
    apply take_ge. rewrite length_dirent. lia.
  - unfold slice. replace (16 * S k)%nat with (length (dirent inum (file_name g)) + 16 * k)%nat by (rewrite length_dirent; lia).
    rewrite drop_app_add. unfold slice in IH. rewrite (IH (inum + 1) k f Hk). f_equal. lia.
Qed.

(** The name and the inode of entry [j]. *)
Definition root_entry (fs : list argument) (j : nat) : list Z * Z :=
  match j with
  | O => ([46], 1)
  | S O => ([46; 46], 1)
  | S (S k) => (default [] (file_name <$> fs !! k), Z.of_nat k + 2)
  end.
Lemma slice_root fs j : (j < length fs + 2)%nat →
  slice (16 * j) 16 (root_data fs) = new_dirent (root_entry fs j).1 (root_entry fs j).2.
Proof.
  intros Hj. assert (E : ∀ name inum, new_dirent name inum = dirent inum name) by (intros; unfold new_dirent, dirent; by rewrite xshort_le16).
  rewrite E. unfold root_data. destruct j as [|[|k]]; [by unfold slice..|]. destruct (lookup_lt_is_Some_2 fs k ltac:(lia)) as [f Hf].
  cbn [root_entry fst snd]. rewrite Hf. change (default [] (file_name <$> Some f)) with (file_name f).
  rewrite (Z.add_comm (Z.of_nat k)), <-(slice_dirents fs 2 k f Hf).
  unfold slice. set (dots := dirent 1 [46] ++ dirent 1 [46; 46]).
  replace (16 * S (S k))%nat with (length dots + 16 * k)%nat by (unfold dots; rewrite length_app, !length_dirent; lia).
  by rewrite drop_app_add.
Qed.
Lemma zlen_root fs : zlen (root_data fs) = 16 * (Z.of_nat (length fs) + 2).
Proof. unfold root_data. rewrite !zlen_app, zlen_dirents. unfold zlen. rewrite !length_dirent. lia. Qed.

Lemma boot_entry m fb fs i j : image m fb (tree fs) → i_inum i = 1 →
  disk_fields i = disk_inode (LDisk m [] [] nlog 0) mk_sb 1 → (j < length fs + 2)%nat →
  entry (LDisk m [] [] nlog 0) i j = new_dirent (root_entry fs j).1 (root_entry fs j).2.
Proof.
  intros Him Hn Hd Hj. rewrite <-slice_root by done. pose proof (zlen_root fs) as Hz. apply list_eq. intros l. unfold entry.
  destruct (decide (l < 16)%nat) as [Hl|Hl].
  - rewrite lookup_fbytes, lookup_slice by done. rewrite (boot_byte m fb (tree fs) Him O _ i eq_refl Hd) by (cbn [snd]; unfold nblk; zlia).
    cbn [snd]. replace (Z.to_nat (16 * Z.of_nat j + Z.of_nat l)) with (16 * j + l)%nat by lia. unfold byte_at.
    destruct (lookup_lt_is_Some_2 (root_data fs) (16 * j + l)) as [x ->]; [unfold zlen in Hz; lia|done].
  - rewrite !lookup_ge_None_2; [done| |by rewrite length_fbytes; lia]. unfold slice. rewrite length_take. lia.
Qed.

Lemma root_size_fits fs : (Z.of_nat (length fs) + 2) mod 32 ≠ 0 → root_size (zlen (root_data fs)) = 512 * nblk (zlen (root_data fs)).
Proof. intros H. rewrite zlen_root. unfold root_size, nblk. zlia. Qed.

Lemma boot_lookup m fb fs k f st dp dev_read : let d := LDisk m [] [] nlog 0 in
  image m fb (tree fs) → Forall file_good fs → (length fs ≤ 198)%nat → (Z.of_nat (length fs) + 2) mod 32 ≠ 0 →
  fs !! k = Some f → first_named fs k f → fstate dp st → loaded d st dp 1 →
  dirlookup dev_read dp (file_name f) st =
    (ip ← iget (i_dev (ino st dp)) (Z.of_nat k + 2); mret (Some (ip, 16 * (Z.of_nat k + 2)))) st.
Proof.
  intros d Him Hg Hl Hmod Hk (Hn1 & Hn2 & Hn3) Hst (Hip & Eld & Esb & Hin & Hdf).
  destruct (boot_fields m fb (tree fs) Him O _ _ eq_refl Hdf) as (Et & _ & Ez & _). cbn [fst snd size_of] in Et, Ez.
  unfold size_of in Ez. rewrite decide_True, (root_size_fits fs Hmod) in Ez by done. assert (Hkl : (k < length fs)%nat) by (by apply lookup_lt_Some in Hk).
  set (n := Z.to_nat (32 * nblk (zlen (root_data fs)))). pose proof (zlen_root fs) as Hz.
  assert (Hlen : (length fs + 2 ≤ n)%nat) by (unfold n, nblk; zlia).
  rewrite (dirlookup_spec dev_read dp (file_name f) st n Hst Et) by (rewrite Ez; unfold n, nblk; zlia). rewrite Eld.
  assert (Hname : ∀ q g, fs !! q = Some g → Forall is_byte (file_name g)) by (intros q g Hq; apply name_bytes; by apply (Forall_lookup_1 _ _ q g Hg)).
  assert (Hmatch : ∀ j, (j < length fs + 2)%nat → matches (file_name f) (entry d (ino st dp) j) = true ↔ same_name (file_name f) (root_entry fs j).1).
  { intros j Hj. unfold d. rewrite (boot_entry m fb fs) by done. apply matches_new; [|by apply (Hname k)|destruct j as [|[|j]]; simpl; lia].
    destruct j as [|[|j]]; [apply (bool_decide_unpack _); by vm_compute..|]. cbn [root_entry fst].
    destruct (fs !! j) eqn:Ej; [by apply (Hname j)|apply Forall_nil_2]. }
  rewrite (dir_find_first _ _ (S (S k)) 0 (entry d (ino st dp) (S (S k)))).
  - cbn [Nat.add]. unfold d. rewrite (boot_entry m fb fs) by (done || lia). rewrite de_inum_new by (simpl; lia). cbn [root_entry snd].
    by replace (16 * Z.of_nat (S (S k))) with (16 * (Z.of_nat k + 2)) by lia.
  - apply lookup_entries. lia.
  - apply Hmatch; [lia|]. cbn [root_entry fst]. by rewrite Hk.
  - intros j e' Hj. rewrite lookup_entries by lia. intros [= <-]. apply not_true_iff_false. rewrite Hmatch by lia.
    destruct j as [|[|j]]; [done|done|]. cbn [root_entry fst]. destruct (lookup_lt_is_Some_2 fs j ltac:(lia)) as [g Ej]. rewrite Ej. apply (Hn3 j g); [lia|done].
Qed.

(** C15. [mkfs], run on files whose names hold no slash and whose data fits the
    image, at most 198 of them, ends with an image that is a file system for the
    kernel: the superblock decodes to the layout; the bitmap marks the blocks in
    use and no other; inodes beyond those of the files are free; the root
    directory and each file satisfy the kernel's inode invariant, own their
    blocks alone, and [readi] returns their bytes; and [dirlookup] in the root
    directory finds each file under its name (the underscore dropped, fourteen
    bytes compared).  The root directory must not end at a block boundary, where
    the rounding of its size would add a block that it does not have. *)
Theorem mkfs_builds_filesystem fs :
  Forall file_good fs → (length fs ≤ 198)%nat → (Z.of_nat (length fs) + 2) mod 32 ≠ 0 →
  59 + cost (tree fs) ≤ FSSIZE →
  ∃ s, mkfs fs mkfs_start = Ok tt s ∧ fs_image (boot_disk s) fs.
Proof.
  intros Hg Hl Hmod Hfit. destruct (mkfs_image_ok fs Hg Hl Hfit) as (s & E & Him). exists s. split; [done|].
  set (m := m_img s) in *. set (fb := 59 + cost (tree fs)) in *. unfold boot_disk. fold m.
  assert (Htl : length (tree fs) = S (length fs)) by (simpl; unfold leaves; by rewrite length_fmap).
  assert (Hstate : ∀ j f st ip, tree fs !! j = Some f → loaded (LDisk m [] [] nlog 0) st ip (Z.of_nat j + 1) → fstate ip st).
  { intros j f st ip Hj (Hip & Eld & Esb & Hin & Hdf). unfold fstate. rewrite Eld, Esb. split_and!; [done|done|by eapply boot_base|].
    eapply (boot_file_ok m fb (tree fs) Him j f); [done..|lia|]. unfold size_of. case_decide as Hj0; [|unfold nblk; zlia].
    subst j. injection Hj as <-. cbn [snd]. rewrite root_size_fits by done. lia. }
  split.
  - change (blk (LDisk m [] [] nlog 0) 1) with (sec m 1). rewrite (ig_sb _ _ _ Him). by vm_compute.
  - by eapply boot_base.
  - intros b Hb. by eapply boot_used.
  - intros inum Hn. change (disk_inode (LDisk m [] [] nlog 0) mk_sb) with (minode m). unfold NINODES in Hn. by rewrite (ig_free _ _ _ Him) by lia.
  - intros j f st ip dev_read Hj Hld. pose proof (Hstate j f st ip Hj Hld) as Hst. destruct Hld as (Hip & Eld & Esb & Hin & Hdf).
    destruct (boot_fields m fb (tree fs) Him j f _ Hj Hdf) as (Et & En & Ez & _). destruct (ig_inode _ _ _ Him j f Hj) as (_ & _ & Hmax).
    split_and!; [done..|]. assert (0 ≤ zlen f.2) by (unfold zlen; lia).
    assert (Hsz : zlen f.2 ≤ size_of j f.2) by (unfold size_of, root_size; case_decide; zlia).
    rewrite readi_spec; [|done| |lia|lia].
    + rewrite Ez. destruct (Z.gtb_spec 0 (size_of j f.2)); [lia|]. destruct (Z.leb_spec 4294967296 (0 + zlen f.2)); [lia|].
      cbn [orb]. cbv zeta. rewrite Z.min_l, Eld by lia. do 2 f_equal. apply list_eq. intros l. destruct (decide (l < length f.2)%nat) as [Hx|Hx].
      * rewrite lookup_fbytes by (unfold zlen; lia). rewrite (boot_byte m fb (tree fs) Him j f _ Hj Hdf) by (unfold zlen, nblk in *; zlia).
        rewrite Z.add_0_l, Nat2Z.id. unfold byte_at. by destruct (lookup_lt_is_Some_2 _ _ Hx) as [x ->].
      * rewrite !lookup_ge_None_2; [done|lia|rewrite length_fbytes; unfold zlen; lia].
    + rewrite Et. destruct j as [|j]; [by injection Hj as <-|]. simpl in Hj. unfold leaves in Hj. apply list_lookup_fmap_Some in Hj as (g & -> & _). done.
  - intros j j' st ip st' ip' k k' Hj Hj' Hne (_ & _ & _ & _ & Hdf) (_ & _ & _ & _ & Hdf') Hk Hk'.
    destruct (lookup_lt_is_Some_2 _ _ Hj) as [f Hf], (lookup_lt_is_Some_2 _ _ Hj') as [f' Hf'].
    rewrite (boot_slot m fb (tree fs) Him j f _ Hf Hdf), (boot_slot m fb (tree fs) Him j' f' _ Hf' Hdf'). intros H0 Heq.
    apply (ig_apart _ _ _ Him j j' _ Hj Hj' Hne (conj H0 (ex_intro _ k (conj Hk eq_refl))) (conj H0 (ex_intro _ k' (conj Hk' (eq_sym Heq))))).
  - intros k f st dp dev_read Hk Hfn Hld. apply (boot_lookup m fb fs); [exact Him|exact Hg|exact Hl|exact Hmod|exact Hk|exact Hfn| |exact Hld].
    exact (Hstate O _ st dp eq_refl Hld).
Qed.

Lemma mkfs_builds_filesystem_witness :
  let fs := [([95; 99; 97; 116], Some [[127; 69; 76; 70]; [1; 2; 3]]); ([82], Some [[104; 105]])] in
  ∃ s, mkfs fs mkfs_start = Ok tt s ∧ fs_image (boot_disk s) fs.
Proof.
  intros fs. apply (mkfs_builds_filesystem fs).
  - repeat constructor; try (intros H; repeat (apply elem_of_cons in H as [H|H]; [done|]); by apply elem_of_nil in H);
      try (eexists; split; [reflexivity|]; repeat constructor); try done.
  - simpl. lia.
  - done.
  - by vm_compute.
Defined.
